(* ===== verification/_CoqProject ===== *)
-Q . S2P
Prelude.v
JsString.v
JsObject.v
Json.v
Markup.v
JsonText.v
FileTree.v
Generator.v
Response.v
Form.v
Display.v
DisplayView.v
App.v
Page.v
Frames.v
Archive.v
StateMachine.v
EndToEnd.v
