(* ===== verification/Prelude.v ===== *)
(** * Verification of the Ansible role generator (ansible-role-generator)

    The program is a browser application: the user describes a role, the
    application sends one prompt to a text-generation service, reads the
    answer as a JSON object of [path -> content], shows the files in a
    tree and offers them as a zip file.  Its sources are four files:

    - [src/services/geminiService.ts]: [buildPrompt] and
      [generateAnsibleRole] (prompt, request, parsing of the answer, errors);
    - [src/components/CodeDisplay.tsx]: [buildFileTree] (flat paths to a
      tree of nodes), the [FileTree] renderer, the choice of the selected
      file and the panel shown ([renderContent]);
    - [src/components/AnsibleForm.tsx]: the form and its submit guard;
    - [src/App.tsx]: the controller state ([generatedFiles], [isLoading],
      [error]), [handleGenerate] and [handleDownloadZip], and the page
      with the form and the panel.

    ** Files of the development, in dependency order

    - [Prelude] (this file): notation scope [role_scope], the completion
      type [Completion] for JavaScript code that returns or throws, with
      its bind, the tactics and the hint database [role] the other files
      use, and lemmas on lists and options shared by the components.
    - [JsString]: the string operations the sources call ([split],
      [trim], [includes], [endsWith]) on strings of 8-bit code units,
      with their algebra (split/join round trips, characterisations by
      concatenation).
    - [JsObject]: ordinary JavaScript objects used as dictionaries: own
      properties in the enumeration order of the language (array-index
      keys ascending, then the other keys in creation order), property
      read through [Object.prototype], property write, and the
      invariant of the representation.
    - [Json]: the values [JSON.parse] returns, [Object.entries] on each
      of their shapes, and the record [GeneratedFile] of [types.ts].
    - [Markup]: the elements a component returns as data ([Markup]:
      elements with attributes and children, texts, values given as
      children, icons, keyed items), and what React and the browser
      make of a page: its text nodes ([texts], [react_child]), the
      handlers a user can reach ([fires], [live]), the keys of its
      lists ([keys_unique]).
    - [JsonText]: what [JSON.parse] does with a text
      ([geminiService.ts] line 48): the grammar of JSON as a reader
      ([read_value], [read_elements], [read_members]) over white space,
      literal names, numbers, strings with their escapes, arrays and
      objects, each object built member by member; [JSON_parse_text]
      runs it on a whole text.  The compact text of a value
      ([json_text], the form [JSON.stringify] writes) is there for the
      round trip of the specification.
    - [FileTree]: [TreeNode], [buildFileTree] as the two nested
      [forEach] loops of the source ([add_file], [visit]), path lookup
      ([find_node], [file_at], [dir_at]), the invariant [wf_node] of
      built trees, last-write-wins, and the directory/file conflict the
      source does not reject.
    - [Generator]: [buildPrompt], the request, and
      [generateAnsibleRole] with every way it settles: transport
      rejection, missing text, parse error, [null], empty set, success.
      The class [Engine] is [JSON.parse] and the messages of the host;
      the class [TextEngine] says that an engine reads a text as the
      grammar of [JsonText] does, and [text_engine] is the reader as an
      engine, with a message of the caller's choice for a syntax error.
    - [Response]: the text of a set of files followed through
      [generateAnsibleRole], for any engine of the class [TextEngine].
    - [Form]: [handleSubmit] and [onChange] of [AnsibleForm.tsx], the
      [disabled] attribute of its button and the [required] attribute
      of its text area, and the elements the component returns
      ([AnsibleForm_view]).
    - [Display]: the [FileTree] component as the list of lines it shows
      ([render], [top_rows]), [Array.prototype.sort] ([array_sort]), the
      choice of the selected file ([select_on_files]), the panel
      [renderContent] returns and the text of its code block
      ([code_block]).  The class [Collator] is [localeCompare].
    - [DisplayView]: the elements [FileTree], [renderContent] and
      [CodeDisplay] return ([FileTree_view], [renderContent_view],
      [CodeDisplay_view]), and the comparison of these elements with
      the lines and panels of [Display] ([shows]).
    - [App]: the state of [App.tsx], [handleGenerate] and
      [handleDownloadZip], each split at its [await], and the whole
      application as a state machine ([step], [run], [reachable]) over
      the events of the user and of the environment: [mounted_step] on
      the page React renders, [unmounted_step] after a rendering
      threw.
    - [Page]: the page [App] returns in a state ([App_view]) and the
      handler each event of the user calls ([handler_of]).
    - [Frames]: the calls of the setters of [App] as data ([Setter],
      [start_calls], [settle_calls]) and the pages React commits for a
      sequence of batches of calls ([commit], [frames]), with the
      effect of the display between them.
    - [Archive]: the layout of an archive by name ([layout],
      [archived]), against the tree of the display and along the runs
      of the application.
    - [StateMachine]: the state machine of the specification
      ([spec_next], section 9) and the labels under which it sees the
      events of the application ([label], [trace]).
    - [EndToEnd]: the components together on the answer the prompt
      asks for ([clean_files]).

    ** How the model corresponds to the code

    Strings are [string] (sequences of 8-bit code units; the sources
    never look inside a code unit, so the restriction to Latin-1 only
    matters for [trim], which is modelled on the white space of that
    range).  A JavaScript object used as a dictionary is an association
    list in own-property order, never a [gmap], because the program
    observes that order ([Object.entries], [Object.values]).  A
    function that can throw returns a
    [Completion]; a promise is the completion it settles with.  The
    services the sources only call are parameters of the model: the
    generation request is the argument [service] of
    [generateAnsibleRole], [JSON.parse] and [localeCompare] are the
    operations of the classes [Engine] and [Collator], whose laws are
    classes of their own ([EngineLaws], [TextEngine], [CollatorLaws]).
    The theorems of [Generator] hold for every engine; those of
    [Response] for every engine that follows the grammar.  The engine
    of the examples, [demo_engine], is the reader of [JsonText] with a
    message that quotes the text, as V8 does; the collator of the
    examples, [code_unit_collator], compares code units.  Whether the
    zip encoder succeeds is part of the event that settles an archive;
    the zip object is the list of the calls [zip.file(path, content)],
    and a name given again replaces what the name had.

    The sources call functions of the host that are not among them:
    [String.prototype.split], [trim], [includes] and [endsWith],
    property reads and writes on objects, [Object.entries] and
    [Object.values], [Array.prototype.sort], [JSON.parse], and React
    with a value as a child.  Their definitions here ([JsString],
    [JsObject], [Json], [JsonText], [Display.array_sort],
    [Markup.react_child]) are written from the standard of the language
    and the documentation of React, not translated from lines of the
    sources; the map gives for each the line that calls it.  The sort
    of an engine is stable, so [array_sort] is the insertion sort,
    which is the result of every stable sort when the comparison is
    consistent ([Display.array_sort_unique]).  The theorems about these
    definitions alone ([JsonText.JSON_parse_text_roundtrip],
    [JsonText.JSON_parse_text_ok], [Display.array_sort_unique]) say
    what the model of the host is; the theorems about the program use
    them as the meaning of the calls.

    A number of a JSON text is kept as its literal (the program never
    computes with one); given to React as a child it stands as that
    literal, where React prints the number ([1e0] is shown as [1]).  A
    value given to React as a child is the list of the text nodes it
    becomes, or the error React throws for an object.

    An asynchronous handler is two functions, the part before its
    [await] and the part after: [generate_start] and [generate_settle],
    [download_start] and [download_settle].  The application is the
    step function [App.step] on [App.System], the states of the three
    components together with the generations and archives in flight;
    an event of the user is enabled when the control it uses is on the
    panel [renderContent] returns and is not disabled, and a submit
    also when the browser does not hold it back for the [required]
    text area ([Form.submit_blocked]).  React's state
    setters are called with values, never with functions, so a setter is
    an assignment to the field.

    No component of [App] catches an error of the rendering.  When the
    content of the selected file makes React throw ([App.renders] is
    false), React unmounts the page: the state is not [App.mounted],
    no event of the user has a next state ([App.unmounted_step]), and
    a promise that settles afterwards runs the rest of its handler on
    setters that do nothing; only the download of an archive that is
    encoded still starts.  The root that mounts [App] is not among the
    sources: the model takes it to be the root of the template,
    without an error boundary of its own.  A state whose files have a
    path that writes to [Object.prototype] has no next state at all:
    the runs of the model end where its tree ends, and the theorems
    about reachable states are about the runs up to there.

    Whether the zip encoder succeeds is chosen by the event
    [ZipSettle], whatever the contents are, while JSZip rejects some
    contents that are not strings.  The model has every run of the
    program and more, which is what the invariants need; the theorems
    that assert a run with an archive that succeeds
    ([EndToEnd.clean_answer_served]) are stated for contents that are
    strings.

    A rendering is the list of the lines of the tree from top to bottom
    with, for each, its level, its left margin, its label, its icon,
    whether it is highlighted and what a click on it selects.  The JSX
    of the three components is there as well, element by element with
    its attributes, class names and texts as the sources write them
    ([Form.AnsibleForm_view], [DisplayView.CodeDisplay_view],
    [Page.App_view]); an icon of [./icons] is a leaf with its class
    name.  A page is observed through its text nodes, the handlers a
    user can reach and the keys of its lists.  A click reaches the
    handler of an element that is not disabled; a submission reaches
    the handler of a form that has an enabled submit button and no
    required control with an empty value.  The lines and panels are
    what the elements show ([DisplayView.renderContent_view_shows]),
    and the guards of [App.step] are the controls of the page
    ([Page.page_controls]).

    [App.step] takes a handler with the rendering and the effect that
    follow as one step.  [Frames] cuts the step into what React
    commits: the calls of a batch are applied and the page is rendered;
    when the batch stored files, the effect of the display
    ([CodeDisplay.tsx] lines 77-84) runs after that page and, when it
    selects another file, a second page follows.  The calls a handler
    makes in an event are one batch; whether the calls after an [await]
    are one batch or one each depends on the root of the application,
    so the theorems hold for every way to cut them.  The model has
    values where React has references: the effect runs when a batch
    stored files (a new array), and the second page follows when the
    file it selects is another value than the one selected.  React
    compares by identity and would render once more for an equal but
    new record; on the runs of the application the two agree, since a
    submission empties the selection before new files arrive.

    Reading a property of an ordinary object also finds the properties
    of [Object.prototype].  [buildFileTree] reads [children[part]] this
    way, so a path segment named [constructor] or [toString] makes the
    walk leave the tree, and a segment named [__proto__] makes it write
    to [Object.prototype] itself.  The model follows the first case
    exactly for the tree (the tree keeps what was built before the
    segment; what the walk then writes on the built-in function it
    found, fields [children] and [file] of [Object] for instance, stays
    there in the source and never comes back into a tree, and has no
    model) and
    returns [None] in the second: after such a write every object of the
    page inherits the written fields, which is outside what a tree value
    can express.  [buildFileTree_total] shows that [None] happens only
    then.

    ** What the theorems show

    - [JsString]: [split] inverts [join] and conversely
      ([split_join_roundtrip]), never returns the empty list, and its
      segments are free of the separator; [trim] removes a run of white
      space at each end and nothing else ([trim_spec]).
    - [JsObject]: [obj_set] keeps the representation invariant
      ([obj_set_wf]); it never
      moves an existing key, puts a new name last and a new array index
      in its numeric place ([obj_set_order]); the object made from a
      list of members ([obj_of_list], what [JSON.parse] does with an
      object text) is the list itself exactly when the list is in the
      order of the language ([obj_of_list_fixed]).
    - [JsonText]: the reader terminates with the fuel
      [JSON_parse_text] gives it and more fuel changes nothing
      ([JSON_parse_text_total], from [read_answers] and [read_below]);
      what it accepts is read to the end and is a value as the
      language makes it ([JSON_parse_text_ok]); the compact text of a
      value, with white space around it, is read as the value an
      engine makes of its members, which is the value itself exactly
      for values in the order of the language
      ([JSON_parse_text_roundtrip], from [json_text_reads]); a text
      that does not start a value is a syntax error
      ([JSON_parse_text_rejects]).
    - [FileTree]: every built tree is well formed
      ([buildFileTree_well_formed]); the file found at a path is the
      last record with that path ([buildFileTree_last_write_wins],
      [buildFileTree_files_sound], [buildFileTree_files_complete]); the
      directories are the proper prefixes of the paths
      ([buildFileTree_directories]); a path that is both a file and a
      prefix of another is kept as a directory
      ([buildFileTree_keeps_conflict], the specification asks for an
      error); a record with a segment that is a key of
      [Object.prototype] is lost ([buildFileTree_drops_inherited]); the
      model covers every input without a [__proto__] segment
      ([buildFileTree_total]).
    - [Generator]: the prompt embeds the description between its two
      fixed parts and is injective in it ([buildPrompt_inj],
      [buildPrompt_embeds], [buildPrompt_not_once]); the outcome of
      [generateAnsibleRole] on every shape of answer
      ([generateAnsibleRole_success], [generateAnsibleRole_errors] and
      the theorems for each case), among them the cases where the source
      accepts what the specification rejects and the case where the
      message of the engine reaches the user; the order of the records
      in terms of the members of the answer
      ([generateAnsibleRole_member_order]) and, from the laws of the
      engine, the distinctness of their paths
      ([generateAnsibleRole_unique_paths]); for an engine that follows
      the grammar, the error of an answer that is not JSON
      ([generateAnsibleRole_syntax_error]).
    - [Response]: the round trip of a set of files through the text
      of the answer, with the order of the records and the condition
      under which it is the order of the files
      ([generateAnsibleRole_roundtrip]).
    - [Form]: the guard of the form ([handleSubmit_guard]), the
      untrimmed description in the prompt
      ([submitted_prompt_untrimmed]), that the [required] attribute
      holds back nothing the button allows ([submit_blocked_disabled]),
      and the controls, the label and the texts of the elements of the
      form ([AnsibleForm_fires], [AnsibleForm_label],
      [AnsibleForm_texts]).
    - [Display]: the sort is a stable sort ([array_sort_stable]) and
      the only one: a stable sorted permutation of a list is the result
      of [array_sort] ([array_sort_unique]); the lines of a directory
      are its header and its children in sorted order
      ([render_sorted_children]), those of the first level are in the
      order of the object ([top_rows_order]); the records a click can
      open, in terms of the input ([browser_offers],
      [conflict_hides_record]); the margins ([top_rows_indent]); the
      highlighted line ([top_rows_highlighted],
      [top_rows_highlighted_unique]); the selected file
      ([select_on_files_spec]); what the code block shows
      or throws ([Markup.react_child_cases], [code_block_string]).
    - [DisplayView]: the handlers within reach in the elements of a
      tree are the clicks on its lines and its texts are their labels
      ([FileTree_fires], [FileTree_texts]); what an observation of
      styled elements finds in the tree is what it finds on the lines
      ([FileTree_collect]), so the lines of files select, are
      highlighted and are indented as the lines say; the elements of
      [renderContent] and of [CodeDisplay] show the panel
      ([renderContent_view_shows], [CodeDisplay_view_shows]); the
      items of every list of the tree have distinct keys
      ([FileTree_keys], from the invariant of built trees).
    - [Page]: an event of the user has a next state exactly when React
      can render the page and the handler of the event is within reach
      on it ([page_controls], from [mounted_page] and
      [mounted_controls]); the keys
      of the lists of the page are distinct ([App_view_keys]); the
      texts, the lines of files and the margins of the page are those
      of the form and of the panel, and the page throws exactly when
      the code block does ([page_shows]).
    - [Frames]: cutting a batch in two changes nothing at rest
      ([settled_app]), so for every way to cut the calls of a handler
      the last frame is the state of [step], and no frame shows a file
      that is not among its files ([frames_sound]); the frame that
      brings the files of a generation has no file selected, and no
      line highlighted but that of a record with the empty path
      ([settle_flash]).
    - [App]: the invariants of the reachable states, by induction on
      runs ([reachable_single_flight], [reachable_selected],
      [reachable_downloads], and [reachable_error_origin]: an error
      beside files is the error of an archive); the result of a
      generation ([handleGenerate_phase]); from every reachable state
      with the page mounted a new generation can be brought to its
      result on the page ([reachable_recovers]), or to a page that
      throws while it renders when the content of the selected file is
      an object, after which no event of the user is left
      ([object_content_throws]) and nothing on the page changes again
      ([unmounted_final]); what a failed archive does to the
      view, at once ([archive_failure_obscures]) and when it fails
      after a new generation was started, from every reachable state
      ([stale_archive_error]); the scenario of the specification from
      the description to the lines shown ([nginx_scenario]).
    - [Archive]: the archive has under a name what the tree stores at
      the segments of the name ([archive_of_tree]); every download of a
      run matches every record it was given
      ([reachable_archive_exact], from the invariant
      [reachable_distinct]).
    - [StateMachine]: along the runs in which no archive fails, the
      phase of the controller is the state of the machine of the
      specification after the submits and settlements of the run
      ([run_refines], from the simulation of one event,
      [step_refines]); the failure of an archive is the event that
      leaves the machine.
    - [EndToEnd]: for a clean answer, the files held, the files the
      tree offers, the text of the code block, the files of a download
      and the files a click on the page selects are the files of the
      answer ([clean_answer_served]).

    ** Bounds

    The reader of [JsonText] is the only function with fuel; every
    other function is structurally recursive, the tree walk on the
    list of segments, the renderer on the tree (it renders the children
    where they are stored and sorts the results;
    [Display.render_unfold] gives the order of the source, sort
    first).  The reader uses one unit of fuel for each value and one
    for each element or member, and each of them consumes at least one
    code unit of the text, so [JsonText.fuel_of], two units per code
    unit and two, is enough for every text:
    [JSON_parse_text_total] shows that the reader never stops for lack
    of fuel.  An engine may refuse a text for the depth of its nesting;
    the model has no such limit.  An escape [\u] above [00FF] is
    outside the strings of the model, and the reader answers
    [Unmodelled] for it, which the theorems about accepted and rejected
    texts exclude.  Array indices are the canonical decimal strings
    below [2^32 - 1], as the language defines them.  Strings are
    sequences of 8-bit code units.

    ** Not modelled

    The numeric value of a JSON number and the message of a syntax
    error (the engine's), the collation of [localeCompare] (an
    operation of [Collator]), the network request and the client that
    sends it ([new GoogleGenAI] is part of the argument [service]), the
    bytes the zip encoder writes, the folders it adds for the paths,
    the names it normalises and the contents it refuses, the DOM calls
    that start the download and the writes to the console.  What the
    program does after a path wrote to [Object.prototype], and the
    fields a walk leaves on a built-in function.  Of the
    page: the elements inside an icon (the components of [./icons] are
    not among the sources), what the style sheet makes of the class
    names, [e.preventDefault()] in [handleSubmit] (the page is not
    reloaded, which the model never does), and the scheduler of React
    beyond the order of commits and effects (priorities, concurrent
    rendering, the double invocation of strict mode).  The type
    declarations ([AnsibleFormProps], [CodeDisplayProps]) and the
    imports have no content to model: the arguments of the views are
    the fields of the props.
*)

From stdpp Require Export base tactics option list strings.
From Stdlib Require Export Lia.

Declare Scope role_scope.
Delimit Scope role_scope with role.

(** ** Completions: code that returns or throws *)

(** What a JavaScript [throw] carries, as far as the sources inspect it:
    [e instanceof Error] and [e.message]. *)
Inductive Thrown : Type :=
| ErrorObject (message : string)
| NonError.

Inductive Completion (A : Type) : Type :=
| Normal (value : A)
| Throw (reason : Thrown).
Arguments Normal {A} value.
Arguments Throw {A} reason.

Definition bindC {A B : Type} (c : Completion A) (k : A -> Completion B) : Completion B :=
  match c with
  | Normal a => k a
  | Throw e => Throw e
  end.

Definition catchC {A : Type} (c : Completion A) (h : Thrown -> Completion A) : Completion A :=
  match c with
  | Normal a => Normal a
  | Throw e => h e
  end.

Notation "x <- c ;;; k" := (bindC c (fun x => k))
  (at level 100, c at next level, right associativity) : role_scope.

#[export] Instance Thrown_eq_dec : EqDecision Thrown.
Proof. solve_decision. Defined.

#[export] Instance Completion_eq_dec `{EqDecision A} : EqDecision (Completion A).
Proof. solve_decision. Defined.

(** ** Tactics and hints *)

Create HintDb role discriminated.
Create Rewrite HintDb role.

(** Case analysis on the first [match] or [if] scrutinee of the goal. *)
Ltac break_match :=
  match goal with
  | |- context [match ?x with _ => _ end] => destruct x eqn:?
  end.

Ltac invert H := inversion H; subst; clear H.

(** ** Lists and options *)

Section Lists.
Context {A : Type}.
Implicit Types (l : list A) (x : A).

(** The last element that satisfies a test: what remains visible after
    a sequence of writes. *)
Fixpoint find_last (p : A -> bool) (l : list A) : option A :=
  match l with
  | [] => None
  | x :: l' =>
    match find_last p l' with
    | Some y => Some y
    | None => if p x then Some x else None
    end
  end.

Lemma find_last_app p l1 l2 :
  find_last p (l1 ++ l2) =
  match find_last p l2 with Some y => Some y | None => find_last p l1 end.
Proof.
  induction l1 as [|x l1 IH]; simpl.
  - by destruct (find_last p l2).
  - rewrite IH. by destruct (find_last p l2).
Qed.

Lemma find_last_ext p q l :
  (forall x, p x = q x) -> find_last p l = find_last q l.
Proof.
  intros H. induction l as [|x l IH]; simpl; [done|]. by rewrite IH, H.
Qed.

Lemma find_last_snoc p l x :
  find_last p (l ++ [x]) = if p x then Some x else find_last p l.
Proof. rewrite find_last_app. simpl. by destruct (p x). Qed.

Lemma find_last_Some p l x :
  find_last p l = Some x -> x ∈ l ∧ p x = true.
Proof.
  induction l as [|y l IH]; simpl; [done|].
  destruct (find_last p l) as [z|] eqn:E.
  - intros [= ->]. destruct (IH eq_refl). split; [by right|done].
  - destruct (p y) eqn:Ep; [|done]. intros [= ->]. split; [by left|done].
Qed.

Lemma find_last_is_Some p l x :
  x ∈ l -> p x = true -> is_Some (find_last p l).
Proof.
  induction l as [|y l IH]; [by intros ?%elem_of_nil|].
  intros [->|Hx]%elem_of_cons Hp; simpl.
  - destruct (find_last p l); [done|]. by rewrite Hp.
  - by destruct (IH Hx Hp) as [z ->].
Qed.

Lemma find_last_None p l :
  find_last p l = None <-> Forall (fun x => p x = false) l.
Proof.
  induction l as [|y l IH]; simpl.
  - split; [by constructor|done].
  - rewrite Forall_cons. destruct (find_last p l) eqn:E.
    + split; [done|]. intros [_ H]. by apply IH in H.
    + destruct (p y); split; try done.
      * by intros [? _].
      * intros _. split; [done|]. by apply IH.
Qed.

Lemma mjoin_cons l (ls : list (list A)) : mjoin (l :: ls) = l ++ mjoin ls.
Proof. done. Qed.

Lemma Forall_mp (P Q : A -> Prop) l :
  Forall (fun x => P x -> Q x) l -> Forall P l -> Forall Q l.
Proof. induction 1; inversion 1; constructor; auto. Qed.

Lemma filter_nil_Forall(P : A -> Prop) `{!forall x, Decision (P x)} l :
  Forall (fun x => ¬ P x) l -> filter P l = [].
Proof.
  induction 1 as [|x l Hx _ IH]; [done|]. by rewrite filter_cons_False.
Qed.

(** Induction on a left fold: the invariant holds at the start and
    every step keeps it. *)
Lemma fold_left_invariant {S : Type} (P : S -> Prop) (f : S -> A -> S) l s :
  P s -> (forall s x, x ∈ l -> P s -> P (f s x)) -> P (fold_left f l s).
Proof.
  revert s. induction l as [|x l IH]; simpl; intros s Hs Hf; [done|].
  apply IH.
  - apply Hf; [by left|done].
  - intros s' y Hy. apply Hf. by right.
Qed.

Lemma fold_left_snoc {S : Type} (f : S -> A -> S) l x s :
  fold_left f (l ++ [x]) s = f (fold_left f l s) x.
Proof. by rewrite fold_left_app. Qed.

End Lists.

Lemma find_last_fmap {A B : Type} (f : A -> B) (p : B -> bool) (l : list A) :
  find_last p (f <$> l) = f <$> find_last (fun x => p (f x)) l.
Proof.
  induction l as [|x l IH]; [done|]. rewrite fmap_cons. cbn [find_last].
  rewrite IH. destruct (find_last _ l); simpl; [done|]. by destruct (p (f x)).
Qed.

Lemma omap_mjoin {A B : Type} (f : A -> option B) (ls : list (list A)) :
  omap f (mjoin ls) = mjoin (omap f <$> ls).
Proof.
  induction ls as [|l ls IH]; [done|].
  by rewrite fmap_cons, !mjoin_cons, omap_app, IH.
Qed.

#[export] Hint Rewrite @find_last_snoc @fold_left_snoc : role.
