(* ===== verification/JsString.v ===== *)
(** * JsString: the string operations the sources call

    The sources call four methods of [String.prototype]:
    [split('/')] ([CodeDisplay.tsx] line 21, [App.tsx] line 34),
    [trim()] ([geminiService.ts] line 46, [AnsibleForm.tsx] lines 14 and
    39), [includes(...)] ([geminiService.ts] line 63) and
    [endsWith(...)] ([CodeDisplay.tsx] line 79).  Each is a structurally
    recursive function here, with the characterisation by concatenation
    that the other files use. *)

From S2P Require Import Prelude.
From Stdlib Require Import Ascii String.

Local Open Scope string_scope.

(** ** Definitions *)

(** [s.split(sep)] for a separator of one code unit, no limit. *)
Fixpoint split (sep : ascii) (s : string) : list string :=
  match s with
  | EmptyString => [EmptyString]
  | String c s' =>
    if Ascii.eqb c sep then EmptyString :: split sep s'
    else match split sep s' with
         | seg :: rest => String c seg :: rest
         | [] => [String c EmptyString]
         end
  end.

(** [segs.join(sep)]: the inverse of [split]. *)
Fixpoint join (sep : ascii) (segs : list string) : string :=
  match segs with
  | [] => EmptyString
  | [seg] => seg
  | seg :: rest => seg ++ String sep (join sep rest)
  end.

Fixpoint has_char (c : ascii) (s : string) : bool :=
  match s with
  | EmptyString => false
  | String d s' => Ascii.eqb d c || has_char c s'
  end.

Fixpoint startsWith (s p : string) {struct p} : bool :=
  match p, s with
  | EmptyString, _ => true
  | String a p', String b s' => Ascii.eqb a b && startsWith s' p'
  | String _ _, EmptyString => false
  end.

(** [hay.includes(needle)] *)
Fixpoint includes (hay needle : string) : bool :=
  startsWith hay needle ||
  match hay with
  | EmptyString => false
  | String _ hay' => includes hay' needle
  end.

(** [s.endsWith(suffix)] *)
Fixpoint endsWith (s suffix : string) : bool :=
  String.eqb s suffix ||
  match s with
  | EmptyString => false
  | String _ s' => endsWith s' suffix
  end.

(** White space and line terminators of the language among the code
    units below 256: TAB, LF, VT, FF, CR, SP and NBSP. *)
Definition is_white (c : ascii) : bool :=
  match c with
  | "009" | "010" | "011" | "012" | "013" | " " | "160" => true
  | _ => false
  end%char.

Fixpoint trimStart (s : string) : string :=
  match s with
  | EmptyString => EmptyString
  | String c s' => if is_white c then trimStart s' else s
  end.

Fixpoint trimEnd (s : string) : string :=
  match s with
  | EmptyString => EmptyString
  | String c s' =>
    match trimEnd s' with
    | EmptyString => if is_white c then EmptyString else String c EmptyString
    | t => String c t
    end
  end.

(** [s.trim()] *)
Definition trim (s : string) : string := trimEnd (trimStart s).

Fixpoint all_white (s : string) : bool :=
  match s with
  | EmptyString => true
  | String c s' => is_white c && all_white s'
  end.

(** The first and the last code unit of a string. *)
Definition first_unit (s : string) : option ascii :=
  match s with
  | EmptyString => None
  | String c _ => Some c
  end.

Fixpoint last_unit (s : string) : option ascii :=
  match s with
  | EmptyString => None
  | String c s' =>
    match last_unit s' with
    | Some d => Some d
    | None => Some c
    end
  end.

(** A string as a condition: the empty string is the only falsy one. *)
Definition truthy (s : string) : bool :=
  match s with EmptyString => false | String _ _ => true end.

(** ** Concatenation *)

Lemma append_cons c s1 s2 : String c s1 ++ s2 = String c (s1 ++ s2).
Proof. done. Qed.

Lemma append_nil_r s : s ++ EmptyString = s.
Proof. induction s as [|c s IH]; [done|]. by rewrite append_cons, IH. Qed.

Lemma append_assoc s1 s2 s3 : (s1 ++ s2) ++ s3 = s1 ++ (s2 ++ s3).
Proof. induction s1 as [|c s1 IH]; [done|]. by rewrite !append_cons, IH. Qed.

Lemma length_append s1 s2 :
  String.length (s1 ++ s2) = String.length s1 + String.length s2.
Proof. induction s1 as [|c s1 IH]; [done|]. rewrite append_cons. simpl. by rewrite IH. Qed.

Lemma append_inv_l s t1 t2 : s ++ t1 = s ++ t2 -> t1 = t2.
Proof. induction s as [|c s IH]; [done|]. rewrite !append_cons. intros [= H]. auto. Qed.

Lemma append_inv_r t s1 s2 : s1 ++ t = s2 ++ t -> s1 = s2.
Proof.
  revert s2. induction s1 as [|c s1 IH]; intros [|d s2] H; [done|..].
  1,2: apply (f_equal String.length) in H; rewrite !length_append in H;
    simpl in H; lia.
  - rewrite !append_cons in H. injection H as -> H. f_equal. by apply IH.
Qed.

Lemma has_char_append c s1 s2 :
  has_char c (s1 ++ s2) = has_char c s1 || has_char c s2.
Proof.
  induction s1 as [|d s1 IH]; [done|].
  rewrite append_cons. cbn [has_char]. by rewrite IH, orb_assoc.
Qed.

(** ** [split] and [join] *)

Section Split.
Context (sep : ascii).
Implicit Types (s seg : string) (segs : list string).

Lemma split_nonempty s : split sep s <> [].
Proof.
  destruct s as [|c s]; simpl; [done|].
  destruct (Ascii.eqb c sep); [done|]. by destruct (split sep s).
Qed.

Lemma split_cons_sep s : split sep (String sep s) = EmptyString :: split sep s.
Proof. simpl. by rewrite Ascii.eqb_refl. Qed.

Lemma split_cons_other c s seg rest :
  c <> sep -> split sep s = seg :: rest ->
  split sep (String c s) = String c seg :: rest.
Proof.
  intros Hc Hs. simpl. rewrite Hs.
  by destruct (Ascii.eqb_spec c sep).
Qed.

Lemma join_cons seg seg' rest :
  join sep (seg :: seg' :: rest) = seg ++ String sep (join sep (seg' :: rest)).
Proof. done. Qed.

Lemma join_split s : join sep (split sep s) = s.
Proof.
  induction s as [|c s IH]; simpl; [done|].
  destruct (Ascii.eqb_spec c sep) as [->|Hc].
  - destruct (split sep s) as [|seg rest] eqn:E; [by destruct (split_nonempty s)|].
    rewrite join_cons, IH. done.
  - destruct (split sep s) as [|seg rest] eqn:E; [by destruct (split_nonempty s)|].
    destruct rest as [|seg' rest]; simpl in *; by rewrite <- IH.
Qed.

Lemma split_inj s1 s2 : split sep s1 = split sep s2 -> s1 = s2.
Proof. intros H. by rewrite <- (join_split s1), H, join_split. Qed.

Lemma split_no_sep s : split sep s = [s] <-> has_char sep s = false.
Proof.
  induction s as [|c s IH]; simpl; [done|].
  destruct (Ascii.eqb_spec c sep) as [->|Hc]; simpl.
  - split; [intros [=]|done].
  - destruct (split sep s) as [|seg rest] eqn:E; [by destruct (split_nonempty s)|].
    rewrite <- IH. split; intros [= -> ->]; done.
Qed.

Lemma split_app_sep s1 s2 :
  has_char sep s1 = false ->
  split sep (s1 ++ String sep s2) = s1 :: split sep s2.
Proof.
  induction s1 as [|c s1 IH]; simpl; intros H.
  - by rewrite Ascii.eqb_refl.
  - apply orb_false_iff in H as [Hc H]. rewrite Hc, (IH H). done.
Qed.

Lemma split_join segs :
  segs <> [] -> Forall (fun seg => has_char sep seg = false) segs ->
  split sep (join sep segs) = segs.
Proof.
  induction segs as [|seg segs IH]; [done|]. intros _ H.
  apply Forall_cons in H as [Hseg H].
  destruct segs as [|seg' segs].
  - simpl. by apply split_no_sep.
  - rewrite join_cons, split_app_sep by done. f_equal. by apply IH.
Qed.

Lemma split_segments_clean s :
  Forall (fun seg => has_char sep seg = false) (split sep s).
Proof.
  induction s as [|c s IH]; simpl; [by repeat constructor|].
  destruct (Ascii.eqb_spec c sep) as [->|Hc].
  - by constructor.
  - destruct (split sep s) as [|seg rest] eqn:E; [by destruct (split_nonempty s)|].
    apply Forall_cons in IH as [Hseg Hrest]. constructor; [|done].
    simpl. rewrite Hseg. by destruct (Ascii.eqb_spec c sep).
Qed.

End Split.

(** ** [includes], [startsWith], [endsWith] by concatenation *)

Lemma startsWith_spec s p : startsWith s p = true <-> exists t, s = p ++ t.
Proof.
  revert s. induction p as [|a p IH]; intros s; simpl.
  - split; [by exists s|done].
  - destruct s as [|b s].
    + split; [done|]. by intros [t ?].
    + rewrite andb_true_iff, IH. split.
      * intros [->%Ascii.eqb_eq [t ->]]. by exists t.
      * intros [t [= -> ->]]. split; [apply Ascii.eqb_refl|by exists t].
Qed.

Lemma includes_spec hay needle :
  includes hay needle = true <-> exists pre post, hay = pre ++ needle ++ post.
Proof.
  induction hay as [|c hay IH]; cbn [includes]; rewrite orb_true_iff.
  - rewrite startsWith_spec. split.
    + intros [[t Ht]|?]; [|done]. by exists EmptyString, t.
    + intros (pre & post & H). left. destruct pre; [by exists post|done].
  - rewrite startsWith_spec, IH. split.
    + intros [[t Ht]|(pre & post & ->)]; [by exists EmptyString, t|].
      by exists (String c pre), post.
    + intros (pre & post & H). destruct pre as [|d pre]; [left; by exists post|].
      right. injection H as -> ->. by exists pre, post.
Qed.

Lemma endsWith_spec s suffix :
  endsWith s suffix = true <-> exists pre, s = pre ++ suffix.
Proof.
  induction s as [|c s IH]; cbn [endsWith]; rewrite orb_true_iff.
  - split.
    + intros [H|?]; [|done]. destruct suffix; [by exists EmptyString|done].
    + intros [pre H]. left. destruct pre, suffix; done.
  - rewrite IH. split.
    + intros [->%String.eqb_eq|[pre ->]]; [by exists EmptyString|by exists (String c pre)].
    + intros [[|d pre] H]; [left; change (String c s = suffix) in H; subst suffix; apply String.eqb_refl|].
      right. injection H as -> ->. by exists pre.
Qed.

Lemma includes_refl s : includes s s = true.
Proof. apply includes_spec. exists EmptyString, EmptyString. by rewrite append_nil_r. Qed.

(** ** [trim] *)

Lemma trimStart_all_white s : trimStart s = EmptyString <-> all_white s = true.
Proof.
  induction s as [|c s IH]; simpl; [done|].
  destruct (is_white c); simpl; [done|]. split; done.
Qed.

Lemma trimEnd_all_white s : trimEnd s = EmptyString <-> all_white s = true.
Proof.
  induction s as [|c s IH]; simpl; [done|].
  destruct (trimEnd s) eqn:E.
  - destruct (is_white c); simpl; [by rewrite <- IH|]. split; done.
  - split; [done|]. intros [_ H]%andb_true_iff. by apply IH in H.
Qed.

Lemma all_white_trimStart s : all_white s = true -> all_white (trimStart s) = true.
Proof.
  induction s as [|c s IH]; simpl; [done|].
  intros [Hc H]%andb_true_iff. rewrite Hc. by apply IH.
Qed.

Lemma trimStart_white_or_same s :
  all_white s = true \/ all_white (trimStart s) = false.
Proof.
  induction s as [|c s IH]; simpl; [by left|].
  destruct (is_white c) eqn:Hc; simpl; [done|]. right. by rewrite Hc.
Qed.

Lemma trimStart_idemp s : trimStart (trimStart s) = trimStart s.
Proof.
  induction s as [|c s IH]; simpl; [done|].
  destruct (is_white c) eqn:Hc; [done|]. simpl. by rewrite Hc.
Qed.

Lemma trimEnd_idemp s : trimEnd (trimEnd s) = trimEnd s.
Proof.
  induction s as [|c s IH]; simpl; [done|].
  destruct (trimEnd s) as [|d t] eqn:E.
  - destruct (is_white c) eqn:Hc; simpl; [done|]. by rewrite Hc.
  - simpl in *. by rewrite IH.
Qed.

Lemma trimStart_trimEnd s : trimStart (trimEnd s) = trimEnd (trimStart s).
Proof.
  induction s as [|c s IH]; simpl; [done|].
  destruct (is_white c) eqn:Hc.
  - destruct (trimEnd s) as [|d t] eqn:E; simpl; rewrite ?Hc.
    + symmetry. apply trimEnd_all_white, all_white_trimStart.
      by apply trimEnd_all_white.
    + done.
  - simpl. destruct (trimEnd s) as [|d t] eqn:E; simpl; by rewrite Hc.
Qed.

Lemma trim_idemp s : trim (trim s) = trim s.
Proof.
  unfold trim. by rewrite trimStart_trimEnd, trimStart_idemp, trimEnd_idemp.
Qed.

Lemma trim_empty_iff s : trim s = EmptyString <-> all_white s = true.
Proof.
  unfold trim. rewrite trimEnd_all_white. split.
  - intros H. destruct (trimStart_white_or_same s); congruence.
  - apply all_white_trimStart.
Qed.

Lemma truthy_trim s : truthy (trim s) = negb (all_white s).
Proof.
  destruct (all_white s) eqn:E.
  - apply trim_empty_iff in E. by rewrite E.
  - destruct (trim s) eqn:Et; [|done].
    apply trim_empty_iff in Et. congruence.
Qed.

(** ** What [trim] removes *)

Lemma trimStart_split s : exists pre, s = pre ++ trimStart s ∧ all_white pre = true.
Proof.
  induction s as [|c s (pre & Hs & Hpre)]; simpl; [by exists EmptyString|].
  destruct (is_white c) eqn:Hc; [|by exists EmptyString].
  exists (String c pre). rewrite append_cons, <- Hs. simpl. by rewrite Hc.
Qed.

Lemma trimStart_first s c : first_unit (trimStart s) = Some c -> is_white c = false.
Proof.
  induction s as [|d s IH]; simpl; [done|].
  destruct (is_white d) eqn:Hd; [done|]. by intros [= <-].
Qed.

Lemma trimEnd_split s : exists post, s = trimEnd s ++ post ∧ all_white post = true.
Proof.
  induction s as [|c s (post & Hs & Hpost)]; simpl; [by exists EmptyString|].
  destruct (trimEnd s) as [|d t] eqn:E.
  - change (s = post) in Hs. subst post. destruct (is_white c) eqn:Hc.
    + exists (String c s). simpl. by rewrite Hc.
    + by exists s.
  - exists post. by rewrite append_cons, <- Hs.
Qed.

Lemma trimEnd_last s c : last_unit (trimEnd s) = Some c -> is_white c = false.
Proof.
  induction s as [|a s IH]; simpl; [done|].
  destruct (trimEnd s) as [|d t] eqn:E.
  - destruct (is_white a) eqn:Ha; simpl; [done|]. by intros [= <-].
  - cbn [last_unit] in *. destruct (last_unit t); by intros [= <-]; apply IH.
Qed.

Lemma trimEnd_first s c : first_unit (trimEnd s) = Some c -> first_unit s = Some c.
Proof.
  destruct s as [|a s]; simpl; [done|].
  destruct (trimEnd s); [destruct (is_white a)|]; done.
Qed.

Lemma trimStart_app pre s : all_white pre = true -> trimStart (pre ++ s) = trimStart s.
Proof.
  induction pre as [|c pre IH]; [done|]. rewrite append_cons. simpl.
  intros [-> H]%andb_true_iff. auto.
Qed.

Lemma trimStart_fixed s :
  (forall c, first_unit s = Some c -> is_white c = false) -> trimStart s = s.
Proof. destruct s as [|c s]; [done|]. simpl. intros H. by rewrite (H c). Qed.

Lemma trimEnd_app s post : all_white post = true -> trimEnd (s ++ post) = trimEnd s.
Proof.
  intros Hpost. induction s as [|c s IH]; [by apply trimEnd_all_white|].
  rewrite append_cons. simpl. by rewrite IH.
Qed.

Lemma trimEnd_fixed s :
  (forall c, last_unit s = Some c -> is_white c = false) -> trimEnd s = s.
Proof.
  induction s as [|c s IH]; [done|]. cbn [last_unit trimEnd]. intros H.
  rewrite IH by (intros d Hd; apply H; by rewrite Hd).
  destruct s as [|d s]; [|done]. by rewrite (H c).
Qed.

Lemma last_unit_app_cons s c t : last_unit (s ++ String c t) = last_unit (String c t).
Proof.
  induction s as [|a s IH]; [done|]. rewrite append_cons.
  cbn [last_unit] in *. rewrite IH. by destruct (last_unit t).
Qed.

(** The trimmed form of a text between two runs of white space that
    neither starts nor ends with white space is that text. *)
Lemma trim_exact pre core post :
  all_white pre = true -> all_white post = true ->
  (forall c, first_unit core = Some c -> is_white c = false) ->
  (forall c, last_unit core = Some c -> is_white c = false) ->
  trim (pre ++ core ++ post) = core.
Proof.
  intros Hpre Hpost Hfirst Hlast. unfold trim. rewrite trimStart_app by done.
  destruct core as [|c core]; [by apply trimEnd_all_white, all_white_trimStart|].
  rewrite trimStart_fixed, trimEnd_app, trimEnd_fixed; [done..|].
  intros d [= <-]. by apply Hfirst.
Qed.

Lemma trim_split s :
  exists pre post,
    s = pre ++ trim s ++ post ∧ all_white pre = true ∧ all_white post = true ∧
    (forall c, first_unit (trim s) = Some c -> is_white c = false) ∧
    (forall c, last_unit (trim s) = Some c -> is_white c = false).
Proof.
  destruct (trimStart_split s) as (pre & Hs & Hpre).
  destruct (trimEnd_split (trimStart s)) as (post & Ht & Hpost).
  exists pre, post. unfold trim. split_and!; [congruence|done..| |].
  - intros c Hc. by eapply trimStart_first, trimEnd_first.
  - apply trimEnd_last.
Qed.

(** What [trim] removes.  The trimmed form of a string is the one
    text that neither starts nor ends with white space and lies in the
    string between two runs of white space. *)
Theorem trim_spec s core :
  trim s = core <->
  exists pre post,
    s = pre ++ core ++ post ∧ all_white pre = true ∧ all_white post = true ∧
    (forall c, first_unit core = Some c -> is_white c = false) ∧
    (forall c, last_unit core = Some c -> is_white c = false).
Proof.
  split; [intros <-; apply trim_split|].
  intros (pre & post & -> & Hpre & Hpost & Hfirst & Hlast). by apply trim_exact.
Qed.

(** ** The round trip of [split] and [join] *)

(** [split] and [join] are inverse.  Joining the segments of a
    string gives the string back; splitting the join of segments that
    do not contain the separator gives the segments back; so a string
    has given segments exactly when it is their join. *)
Theorem split_join_roundtrip sep s segs :
  segs <> [] -> Forall (fun seg => has_char sep seg = false) segs ->
  join sep (split sep s) = s ∧ split sep (join sep segs) = segs ∧
  (split sep s = segs <-> s = join sep segs).
Proof.
  intros Hne Hclean. split_and!; [apply join_split|by apply split_join|].
  split; [intros <-; by rewrite join_split|intros ->; by apply split_join].
Qed.

Lemma split_join_roundtrip_witness :
  join "/" (split "/" "a/b") = "a/b" ∧ split "/" (join "/" ["a"; "b"]) = ["a"; "b"] ∧
  (split "/" "a/b" = ["a"; "b"] <-> "a/b" = join "/" ["a"; "b"]).
Proof.
  apply (split_join_roundtrip "/" "a/b" ["a"; "b"]); [done|].
  by repeat constructor.
Defined.

#[export] Hint Resolve split_nonempty split_segments_clean : role.
#[export] Hint Rewrite join_split trim_idemp : role.
