(* ===== verification/JsObject.v ===== *)
(** * JsObject: ordinary objects used as dictionaries

    [buildFileTree] stores the children of a node in an object literal
    ([CodeDisplay.tsx] lines 24-30) and the renderer enumerates it with
    [Object.values] (lines 52 and 129); [generateAnsibleRole] enumerates
    the parsed answer with [Object.entries] ([geminiService.ts] line 50).
    The program therefore observes the order of the own properties, which
    the language fixes: keys that are array indices first, in ascending
    numeric order, then the other string keys in the order of their
    creation.  A read [o[k]] also finds the properties of
    [Object.prototype].

    An object is an association list kept in that order.  [obj_wf] is
    the invariant of the representation, [obj_to_map] the abstraction to
    a finite map. *)

From S2P Require Import Prelude.
From stdpp Require Import gmap pretty sorting.

(** ** Definitions *)

(** The value of a string of decimal digits, most significant first. *)
Fixpoint digits_value (s : string) (acc : N) : option N :=
  match s with
  | EmptyString => Some acc
  | String c s' =>
    match Ascii.is_nat c with
    | Some d => digits_value s' (10 * acc + N.of_nat d)%N
    | None => None
    end
  end.

(** An array index is a canonical numeric string (printing its value
    gives the string back) whose value is below [2^32 - 1]. *)
Definition array_index (k : string) : option N :=
  match digits_value k 0 with
  | Some n => if decide (pretty n = k ∧ (n < 4294967295)%N) then Some n else None
  | None => None
  end.

(** The order of own property keys. *)
Definition key_before (k1 k2 : string) : Prop :=
  match array_index k1, array_index k2 with
  | Some n, Some m => (n < m)%N
  | Some _, None => True
  | None, Some _ => False
  | None, None => True
  end.

(** The own properties of [Object.prototype] that every object literal
    inherits. *)
Definition object_prototype_keys : list string :=
  ["constructor"; "hasOwnProperty"; "isPrototypeOf"; "propertyIsEnumerable";
   "toLocaleString"; "toString"; "valueOf"; "__defineGetter__";
   "__defineSetter__"; "__lookupGetter__"; "__lookupSetter__"; "__proto__"].

Definition inherited_key (k : string) : bool :=
  bool_decide (k ∈ object_prototype_keys).

(** The key whose value is [Object.prototype] itself. *)
Definition proto_key (k : string) : bool := bool_decide (k = "__proto__").

(** What a read [o[k]] finds. *)
Inductive PropertyRead (V : Type) : Type :=
| Own (v : V)
| Inherited
| Absent.
Arguments Own {V} v.
Arguments Inherited {V}.
Arguments Absent {V}.

Section Object.
Context {V : Type}.
Local Abbreviation obj := (list (string * V)).
Implicit Types (o : obj) (k : string) (v : V).

Definition obj_keys (o : obj) : list string := o.*1.
Definition obj_values (o : obj) : list V := o.*2.
Definition obj_entries (o : obj) : list (string * V) := o.

(** Own property lookup. *)
Fixpoint obj_get (o : obj) (k : string) : option V :=
  match o with
  | [] => None
  | (k', v) :: o' => if decide (k = k') then Some v else obj_get o' k
  end.

(** Assignment to an existing own property: the key keeps its place. *)
Fixpoint obj_update (o : obj) (k : string) (v : V) : obj :=
  match o with
  | [] => []
  | (k', v') :: o' =>
    if decide (k = k') then (k', v) :: o' else (k', v') :: obj_update o' k v
  end.

(** Creation of an array-index property: it goes before the first key
    that is a larger index or no index. *)
Fixpoint obj_add_index (n : N) (k : string) (v : V) (o : obj) : obj :=
  match o with
  | [] => [(k, v)]
  | (k', v') :: o' =>
    match array_index k' with
    | Some m =>
      if decide (m < n)%N then (k', v') :: obj_add_index n k v o'
      else (k, v) :: o
    | None => (k, v) :: o
    end
  end.

Definition obj_add (o : obj) (k : string) (v : V) : obj :=
  match array_index k with
  | Some n => obj_add_index n k v o
  | None => o ++ [(k, v)]
  end.

(** [o[k] = v] *)
Definition obj_set (o : obj) (k : string) (v : V) : obj :=
  match obj_get o k with
  | Some _ => obj_update o k v
  | None => obj_add o k v
  end.

(** [o[k]], through the prototype. *)
Definition js_get (o : obj) (k : string) : PropertyRead V :=
  match obj_get o k with
  | Some v => Own v
  | None => if inherited_key k then Inherited else Absent
  end.

(** The object [JSON.parse] creates for the members of an object text,
    in the order of the text: each member is defined as a property in
    turn ([geminiService.ts] line 48). *)
Definition obj_of_list (members : list (string * V)) : obj :=
  fold_left (fun o kv => obj_set o kv.1 kv.2) members [].

(** The invariant: no key twice, keys in the order of the language. *)
Definition obj_wf (o : obj) : Prop :=
  NoDup (obj_keys o) ∧ StronglySorted key_before (obj_keys o).

(** The abstraction: the finite map of the own properties. *)
Definition obj_to_map (o : obj) : gmap string V := list_to_map o.

End Object.

(** ** Array indices and the key order *)

Lemma array_index_Some k n :
  array_index k = Some n -> pretty n = k ∧ (n < 4294967295)%N.
Proof.
  unfold array_index. destruct (digits_value k 0) as [m|]; [|done].
  case_decide; [|done]. by intros [= <-].
Qed.

Lemma array_index_inj k1 k2 n :
  array_index k1 = Some n -> array_index k2 = Some n -> k1 = k2.
Proof.
  intros [H1 _]%array_index_Some [H2 _]%array_index_Some. congruence.
Qed.

#[export] Instance key_before_dec k1 k2 : Decision (key_before k1 k2).
Proof. unfold key_before. repeat case_match; apply _. Defined.

#[export] Instance key_before_trans : Transitive key_before.
Proof.
  intros k1 k2 k3. unfold key_before.
  destruct (array_index k1), (array_index k2), (array_index k3); try done. lia.
Qed.

Lemma key_before_named k1 k2 : array_index k2 = None -> key_before k1 k2.
Proof. unfold key_before. intros ->. by destruct (array_index k1). Qed.

Lemma key_before_index k1 k2 n :
  array_index k1 = Some n -> k1 <> k2 ->
  (forall m, array_index k2 = Some m -> ¬ (m < n)%N) -> key_before k1 k2.
Proof.
  unfold key_before. intros H1 Hne H2. rewrite H1.
  destruct (array_index k2) as [m|] eqn:E; [|done].
  specialize (H2 m eq_refl). assert (m <> n); [|lia].
  intros ->. by destruct Hne; eapply array_index_inj.
Qed.

Lemma inherited_proto_key k : proto_key k = true -> inherited_key k = true.
Proof. unfold proto_key. intros ->%bool_decide_eq_true. done. Qed.

(** ** Reading and writing *)

Section ObjectFacts.
Context {V : Type}.
Local Abbreviation obj := (list (string * V)).
Implicit Types (o : obj) (k : string) (v : V).

Lemma obj_get_None o k : obj_get o k = None <-> k ∉ obj_keys o.
Proof.
  induction o as [|[k' v'] o IH]; simpl.
  - split; [intros _; apply not_elem_of_nil|done].
  - rewrite not_elem_of_cons. case_decide; [|rewrite IH]; naive_solver.
Qed.

Lemma obj_get_Some_elem o k v : obj_get o k = Some v -> (k, v) ∈ o.
Proof.
  induction o as [|[k' v'] o IH]; simpl; [done|].
  case_decide; [intros [= ->]; subst; by left|]. right. by apply IH.
Qed.

Lemma obj_get_elem o k v : NoDup (obj_keys o) -> (k, v) ∈ o -> obj_get o k = Some v.
Proof.
  induction o as [|[k' v'] o IH]; simpl; [by intros _ ?%elem_of_nil|].
  intros [Hk Ho]%NoDup_cons [[= -> ->]|Hin]%elem_of_cons.
  - by rewrite decide_True.
  - rewrite decide_False; [by apply IH|].
    intros ->. apply Hk. change k' with (k', v).1. by apply list_elem_of_fmap_2.
Qed.

Lemma obj_keys_cons k v o : obj_keys ((k, v) :: o) = k :: obj_keys o.
Proof. done. Qed.

Lemma obj_update_keys o k v : obj_keys (obj_update o k v) = obj_keys o.
Proof.
  induction o as [|[k' v'] o IH]; simpl; [done|].
  case_decide; [done|]. by rewrite !obj_keys_cons, IH.
Qed.

Lemma obj_get_update o k v k' :
  obj_get (obj_update o k v) k' =
  if decide (k = k') then (fun _ => v) <$> obj_get o k else obj_get o k'.
Proof.
  induction o as [|[k0 v0] o IH]; simpl; [by case_decide|].
  repeat (case_decide; simplify_eq/=); try done; rewrite IH;
    by repeat (case_decide; simplify_eq/=).
Qed.

Lemma obj_add_index_keys n k v o :
  obj_keys (obj_add_index n k v o) ≡ₚ k :: obj_keys o.
Proof.
  induction o as [|[k' v'] o IH]; simpl; [done|].
  destruct (array_index k'); [case_decide|]; [|done..].
  rewrite !obj_keys_cons, IH. apply Permutation_swap.
Qed.

Lemma obj_add_keys o k v : obj_keys (obj_add o k v) ≡ₚ k :: obj_keys o.
Proof.
  unfold obj_add. destruct (array_index k); [apply obj_add_index_keys|].
  unfold obj_keys. rewrite fmap_app. simpl. by rewrite Permutation_app_comm.
Qed.

Lemma obj_get_add_fresh o k v k' :
  obj_get o k = None ->
  obj_get (obj_add o k v) k' = if decide (k = k') then Some v else obj_get o k'.
Proof.
  intros Hk. unfold obj_add. destruct (array_index k) as [n|].
  - induction o as [|[k0 v0] o IH]; simpl in *.
    + by repeat case_decide.
    + destruct (decide (k = k0)) as [->|Hk0]; [done|].
      destruct (array_index k0); [case_decide|]; simpl;
        repeat (case_decide; simplify_eq/=); try done;
        rewrite IH by done; by repeat (case_decide; simplify_eq/=).
  - induction o as [|[k0 v0] o IH]; simpl in *.
    + by repeat case_decide.
    + destruct (decide (k = k0)) as [->|Hk0]; [done|]. rewrite (IH Hk).
      by repeat (case_decide; simplify_eq/=).
Qed.

(** Reading after writing: the law of a dictionary. *)
Lemma obj_get_set o k v k' :
  obj_get (obj_set o k v) k' = if decide (k = k') then Some v else obj_get o k'.
Proof.
  unfold obj_set. destruct (obj_get o k) as [w|] eqn:E.
  - rewrite obj_get_update, E. done.
  - by apply obj_get_add_fresh.
Qed.

Lemma obj_get_set_eq o k v : obj_get (obj_set o k v) k = Some v.
Proof. by rewrite obj_get_set, decide_True. Qed.

Lemma obj_get_set_ne o k v k' : k <> k' -> obj_get (obj_set o k v) k' = obj_get o k'.
Proof. intros. by rewrite obj_get_set, decide_False. Qed.

(** An assignment never moves an existing key. *)
Lemma obj_set_keys_present o k v :
  k ∈ obj_keys o -> obj_keys (obj_set o k v) = obj_keys o.
Proof.
  intros Hk. unfold obj_set. destruct (obj_get o k) eqn:E.
  - apply obj_update_keys.
  - by apply obj_get_None in E.
Qed.

(** A key that is no array index is created last. *)
Lemma obj_set_keys_named o k v :
  k ∉ obj_keys o -> array_index k = None ->
  obj_keys (obj_set o k v) = obj_keys o ++ [k].
Proof.
  intros Hk Hn. apply obj_get_None in Hk. unfold obj_set, obj_add.
  rewrite Hk, Hn. unfold obj_keys. by rewrite fmap_app.
Qed.

Lemma obj_set_keys_perm o k v :
  k ∉ obj_keys o -> obj_keys (obj_set o k v) ≡ₚ k :: obj_keys o.
Proof.
  intros Hk. apply obj_get_None in Hk. unfold obj_set. rewrite Hk.
  apply obj_add_keys.
Qed.

Lemma elem_of_obj_set_keys o k v k' :
  k' ∈ obj_keys (obj_set o k v) <-> k' = k ∨ k' ∈ obj_keys o.
Proof.
  destruct (decide (k ∈ obj_keys o)) as [Hk|Hk].
  - rewrite obj_set_keys_present by done. naive_solver.
  - rewrite (obj_set_keys_perm _ _ _ Hk), elem_of_cons. done.
Qed.

(** What holds of every property holds after an assignment, when it
    holds of the assigned one. *)
Lemma Forall_obj_update (P : string * V -> Prop) o k v :
  Forall P o -> P (k, v) -> Forall P (obj_update o k v).
Proof.
  intros Ho Hkv. induction Ho as [|[k' v'] o Hx Ho IH]; simpl; [done|].
  case_decide; subst; by constructor.
Qed.

Lemma Forall_obj_add (P : string * V -> Prop) o k v :
  Forall P o -> P (k, v) -> Forall P (obj_add o k v).
Proof.
  intros Ho Hkv. unfold obj_add. destruct (array_index k) as [n|].
  - induction Ho as [|[k' v'] o Hx Ho IH]; simpl; [by repeat constructor|].
    destruct (array_index k'); [case_decide|]; by repeat constructor.
  - apply Forall_app. by repeat constructor.
Qed.

Lemma Forall_obj_set (P : string * V -> Prop) o k v :
  Forall P o -> P (k, v) -> Forall P (obj_set o k v).
Proof.
  intros. unfold obj_set.
  destruct (obj_get o k); [by apply Forall_obj_update|by apply Forall_obj_add].
Qed.

(** ** The invariant *)

Lemma obj_wf_nil : obj_wf (@nil (string * V)).
Proof. split; constructor. Qed.

Lemma obj_wf_singleton k v : obj_wf [(k, v)].
Proof. split; repeat constructor. by intros ?%elem_of_nil. Qed.

Lemma obj_add_index_sorted n k v o :
  array_index k = Some n -> k ∉ obj_keys o ->
  StronglySorted key_before (obj_keys o) ->
  StronglySorted key_before (obj_keys (obj_add_index n k v o)).
Proof.
  intros Hn. induction o as [|[k' v'] o IH]; simpl.
  - intros _ _. repeat constructor.
  - intros [Hne Hk]%not_elem_of_cons Hs. apply StronglySorted_inv in Hs as [Hs Hall].
    assert (key_before k k' -> StronglySorted key_before (k :: k' :: obj_keys o)) as Hfront.
    { intros Hb. repeat constructor; [done..|].
      eapply Forall_impl; [exact Hall|]. intros x Hx. by etrans. }
    destruct (array_index k') as [m|] eqn:Em; [case_decide as Hm|]; simpl.
    + constructor; [by apply IH|].
      rewrite obj_add_index_keys. constructor; [|done].
      unfold key_before. by rewrite Em, Hn.
    + apply Hfront. eapply key_before_index; [done..|]. congruence.
    + apply Hfront. by apply key_before_named.
Qed.

Lemma obj_add_named_sorted o k v :
  array_index k = None ->
  StronglySorted key_before (obj_keys o) ->
  StronglySorted key_before (obj_keys o ++ [k]).
Proof.
  intros Hn. induction (obj_keys o) as [|k' ks IH]; simpl.
  - intros _. repeat constructor.
  - intros [Hs Hall]%StronglySorted_inv. constructor; [by apply IH|].
    apply Forall_app. split; [done|]. repeat constructor. by apply key_before_named.
Qed.

(** Every assignment keeps the invariant. *)
Lemma obj_set_wf o k v : obj_wf o -> obj_wf (obj_set o k v).
Proof.
  intros [Hnd Hs]. destruct (decide (k ∈ obj_keys o)) as [Hk|Hk].
  - unfold obj_wf. by rewrite obj_set_keys_present.
  - split; [rewrite obj_set_keys_perm by done; by constructor|].
    pose proof Hk as Hk'. apply obj_get_None in Hk'.
    unfold obj_set, obj_add. rewrite Hk'.
    destruct (array_index k) as [n|] eqn:En.
    + by apply obj_add_index_sorted.
    + unfold obj_keys at 1. rewrite fmap_app. by apply obj_add_named_sorted.
Qed.

(** ** Refinement to a finite map *)

Lemma obj_to_map_lookup o k : obj_to_map o !! k = obj_get o k.
Proof.
  induction o as [|[k' v'] o IH]; simpl; [done|].
  unfold obj_to_map in *. simpl. case_decide; subst.
  - by rewrite lookup_insert_eq.
  - by rewrite lookup_insert_ne.
Qed.

Lemma obj_to_map_set o k v : obj_to_map (obj_set o k v) = <[k:=v]> (obj_to_map o).
Proof.
  apply map_eq. intros k'. rewrite lookup_insert, !obj_to_map_lookup, obj_get_set.
  by repeat case_decide.
Qed.

Lemma obj_to_map_nil : obj_to_map (@nil (string * V)) = ∅.
Proof. done. Qed.

(** ** Reads through the prototype *)

Lemma js_get_Own o k v : js_get o k = Own v <-> obj_get o k = Some v.
Proof.
  unfold js_get. destruct (obj_get o k); [|destruct (inherited_key k)]; naive_solver.
Qed.

Lemma js_get_set_eq o k v : js_get (obj_set o k v) k = Own v.
Proof. apply js_get_Own, obj_get_set_eq. Qed.

Lemma js_get_set_ne o k v k' : k <> k' -> js_get (obj_set o k v) k' = js_get o k'.
Proof. intros. unfold js_get. by rewrite obj_get_set_ne. Qed.

Lemma js_get_plain o k :
  inherited_key k = false ->
  js_get o k = match obj_get o k with Some v => Own v | None => Absent end.
Proof. unfold js_get. by intros ->. Qed.

(** ** Assignment as a whole *)

(** A new array-index property goes somewhere inside the list. *)
Lemma obj_add_index_split n k v o :
  exists o1 o2, o = o1 ++ o2 ∧ obj_add_index n k v o = o1 ++ (k, v) :: o2.
Proof.
  induction o as [|[k' v'] o (o1 & o2 & Ho & Hadd)]; simpl; [by exists [], []|].
  destruct (array_index k') as [m|]; [case_decide|];
    [|by exists [], ((k', v') :: o)..].
  exists ((k', v') :: o1), o2. by rewrite Hadd, Ho at 1.
Qed.

(** ** Objects made from a list of members *)

Implicit Types (l : list (string * V)).

Lemma obj_of_list_snoc l k v :
  obj_of_list (l ++ [(k, v)]) = obj_set (obj_of_list l) k v.
Proof. unfold obj_of_list. by rewrite fold_left_snoc. Qed.

Lemma obj_of_list_wf l : obj_wf (obj_of_list l).
Proof.
  induction l as [|[k v] l IH] using rev_ind; [apply obj_wf_nil|].
  rewrite obj_of_list_snoc. by apply obj_set_wf.
Qed.

(** A new array index that comes after every key goes last. *)
Lemma obj_add_index_last n k v o :
  array_index k = Some n -> Forall (fun k' => key_before k' k) (obj_keys o) ->
  obj_add_index n k v o = o ++ [(k, v)].
Proof.
  intros Hn. induction o as [|[k' v'] o IH]; [done|].
  rewrite obj_keys_cons. intros [Hk' Ho]%Forall_cons. simpl.
  unfold key_before in Hk'.
  rewrite Hn in Hk'. destruct (array_index k') as [m|]; [|done].
  rewrite decide_True by done. by rewrite IH.
Qed.

(** Assigning a key that extends a well-formed object at its end. *)
Lemma obj_set_last o k v : obj_wf (o ++ [(k, v)]) -> obj_set o k v = o ++ [(k, v)].
Proof.
  unfold obj_wf, obj_keys. rewrite fmap_app. simpl.
  intros [[_ [Hk _]]%NoDup_app [Hbefore _]%StronglySorted_app].
  assert (obj_get o k = None) as Hget.
  { apply obj_get_None. intros Hin. apply (Hk k Hin). by left. }
  unfold obj_set, obj_add. rewrite Hget.
  destruct (array_index k) as [n|] eqn:Hn; [|done].
  apply obj_add_index_last; [done|]. apply Forall_forall.
  intros k' Hk'. apply Hbefore; [done|by left].
Qed.

Lemma obj_wf_app_l o o' : obj_wf (o ++ o') -> obj_wf o.
Proof.
  unfold obj_wf, obj_keys. rewrite fmap_app.
  intros [[? _]%NoDup_app ?%StronglySorted_app_1_l]. done.
Qed.

(** A list of members in the order of the language is its own object. *)
Lemma obj_of_list_fixed l : obj_of_list l = l <-> obj_wf l.
Proof.
  split; [intros <-; apply obj_of_list_wf|].
  induction l as [|[k v] l IH] using rev_ind; [done|]. intros Hwf.
  rewrite obj_of_list_snoc, IH by (by eapply obj_wf_app_l). by apply obj_set_last.
Qed.

(** The value of a key is the value of its last member. *)
Lemma obj_of_list_get l k :
  obj_get (obj_of_list l) k = snd <$> find_last (fun kv => bool_decide (kv.1 = k)) l.
Proof.
  induction l as [|[k' v] l IH] using rev_ind; [done|].
  rewrite obj_of_list_snoc, obj_get_set, find_last_snoc. simpl.
  case_decide; subst; [by rewrite bool_decide_eq_true_2|].
  by rewrite bool_decide_eq_false_2.
Qed.

(** With no key twice, every member is the value of its key, and the
    object has no other. *)
Lemma find_last_key l k v :
  NoDup l.*1 -> (k, v) ∈ l ->
  find_last (fun kv => bool_decide (kv.1 = k)) l = Some (k, v).
Proof.
  induction l as [|[k' v'] l IH]; [by intros _ ?%elem_of_nil|].
  intros [Hk Hnd]%NoDup_cons [[= -> ->]|Hin]%elem_of_cons; cbn [find_last].
  - rewrite (proj2 (find_last_None _ l)); [by rewrite bool_decide_eq_true_2|].
    apply Forall_forall. intros [k1 v1] H1. apply bool_decide_eq_false_2.
    simpl. intros ->. apply Hk, list_elem_of_fmap. by exists (k', v1).
  - by rewrite IH.
Qed.

Lemma obj_of_list_get_elem l k v :
  NoDup l.*1 -> obj_get (obj_of_list l) k = Some v <-> (k, v) ∈ l.
Proof.
  intros Hnd. rewrite obj_of_list_get. split.
  - destruct (find_last _ l) as [[k' v']|] eqn:E; [|done]. intros [= <-].
    apply find_last_Some in E as [Hin Hk%bool_decide_eq_true].
    simpl in *. by subst.
  - intros Hin. by rewrite (find_last_key _ _ _ Hnd Hin).
Qed.

Lemma obj_of_list_keys l k : k ∈ obj_keys (obj_of_list l) <-> k ∈ l.*1.
Proof.
  induction l as [|[k' v] l IH] using rev_ind; [done|].
  rewrite obj_of_list_snoc, elem_of_obj_set_keys, IH, fmap_app, elem_of_app.
  simpl. rewrite list_elem_of_singleton. tauto.
Qed.

(** Distinct keys, none of them an array index, are in the order of the
    language. *)
Lemma obj_wf_named o :
  NoDup (obj_keys o) -> Forall (fun k => array_index k = None) (obj_keys o) -> obj_wf o.
Proof.
  intros Hnd Hnamed. split; [done|]. clear Hnd. revert Hnamed.
  generalize (obj_keys o). intros keys.
  induction 1 as [|k l Hk Hl IH]; constructor; [done|].
  eapply Forall_impl; [exact Hl|]. intros k' Hk'. by apply key_before_named.
Qed.

Lemma Forall_obj_of_list (P : string * V -> Prop) l :
  Forall P l -> Forall P (obj_of_list l).
Proof.
  induction l as [|[k v] l IH] using rev_ind; [intros _; constructor|].
  intros [Hl Hkv]%Forall_app. rewrite obj_of_list_snoc.
  apply Forall_obj_set; [by apply IH|]. by inversion Hkv.
Qed.

Lemma obj_of_list_nil_inv l : obj_of_list l = [] -> l = [].
Proof.
  destruct l as [|[k v] l]; [done|]. intros Hnil.
  assert (k ∈ obj_keys (obj_of_list ((k, v) :: l))) as Hk
    by (apply obj_of_list_keys; by left).
  rewrite Hnil in Hk. by apply elem_of_nil in Hk.
Qed.

(** The place of an assigned key.  A key the object has keeps its
    place; a new key that is not an array index goes last; a new array
    index goes after the keys that come before it in the order of the
    language and before the others, which keep their order. *)
Theorem obj_set_order o k v :
  obj_wf o ->
  (k ∈ obj_keys o -> obj_keys (obj_set o k v) = obj_keys o) ∧
  (k ∉ obj_keys o -> array_index k = None ->
   obj_keys (obj_set o k v) = obj_keys o ++ [k]) ∧
  (k ∉ obj_keys o -> is_Some (array_index k) ->
   exists before after,
     obj_keys o = before ++ after ∧
     obj_keys (obj_set o k v) = before ++ k :: after ∧
     Forall (fun k' => key_before k' k) before ∧ Forall (key_before k) after).
Proof.
  intros Hwf. split_and!;
    [apply obj_set_keys_present|apply obj_set_keys_named|].
  intros Hk [n Hn]. destruct (obj_set_wf o k v Hwf) as [_ Hsorted].
  revert Hsorted. apply obj_get_None in Hk. unfold obj_set, obj_add.
  rewrite Hk, Hn. destruct (obj_add_index_split n k v o) as (o1 & o2 & -> & ->).
  unfold obj_keys. rewrite !fmap_app, fmap_cons. simpl.
  intros [Hbefore [_ [Hafter _]%StronglySorted_cons]]%StronglySorted_app.
  exists o1.*1, o2.*1. split_and!; [done..| |done].
  apply Forall_forall. intros k' Hk'. apply Hbefore; [done|by left].
Qed.

End ObjectFacts.

(** ** The place of a key does not depend on the values

    Assignment commutes with a change of the values: where a key goes
    is decided by the keys. *)

Section Shape.
Context {V W : Type} (f : V -> W).
Implicit Types (o : list (string * V)) (k : string) (v : V).

Lemma obj_get_fmap o k : obj_get (prod_map id f <$> o) k = f <$> obj_get o k.
Proof.
  induction o as [|[k' v'] o IH]; [done|]. rewrite fmap_cons. simpl.
  by case_decide.
Qed.

Lemma obj_update_fmap o k v :
  prod_map id f <$> obj_update o k v = obj_update (prod_map id f <$> o) k (f v).
Proof.
  induction o as [|[k' v'] o IH]; [done|]. rewrite fmap_cons. simpl.
  case_decide; rewrite !fmap_cons; [done|]. by rewrite IH.
Qed.

Lemma obj_add_index_fmap n k v o :
  prod_map id f <$> obj_add_index n k v o =
  obj_add_index n k (f v) (prod_map id f <$> o).
Proof.
  induction o as [|[k' v'] o IH]; [done|]. rewrite fmap_cons. simpl.
  destruct (array_index k') as [m|]; [|done].
  case_decide; rewrite !fmap_cons; [|done]. by rewrite IH.
Qed.

Lemma obj_set_fmap o k v :
  prod_map id f <$> obj_set o k v = obj_set (prod_map id f <$> o) k (f v).
Proof.
  unfold obj_set, obj_add. rewrite obj_get_fmap.
  destruct (obj_get o k); simpl; [apply obj_update_fmap|].
  destruct (array_index k); [apply obj_add_index_fmap|by rewrite fmap_app].
Qed.

Lemma obj_keys_fmap o : obj_keys (prod_map id f <$> o) = obj_keys o.
Proof. unfold obj_keys. rewrite <- list_fmap_compose. by apply list_fmap_ext; intros ? []. Qed.

End Shape.

Lemma obj_set_order_witness :
  obj_keys (obj_set [("2", 0); ("b", 1)] "a" 2) = ["2"; "b"; "a"] ∧
  exists before after,
    ["2"; "b"] = before ++ after ∧
    obj_keys (obj_set [("2", 0); ("b", 1)] "10" 2) = before ++ "10" :: after.
Proof.
  assert (obj_wf [("2", 0); ("b", 1)]) as Hwf.
  { split; [repeat constructor; set_solver|]. repeat constructor. }
  split.
  - apply (obj_set_order [("2", 0); ("b", 1)] "a" 2 Hwf); [set_solver|done].
  - destruct (obj_set_order [("2", 0); ("b", 1)] "10" 2 Hwf) as (_ & _ & Hnew).
    destruct Hnew as (before & after & ? & ? & _); [set_solver|by eexists|].
    by exists before, after.
Defined.

#[export] Hint Resolve obj_wf_nil obj_set_wf : role.
#[export] Hint Rewrite @obj_get_set_eq @js_get_set_eq : role.
