(* ===== verification/Json.v ===== *)
(** * Json: the values [JSON.parse] returns and their enumeration

    [generateAnsibleRole] parses the answer of the service and enumerates
    the result with [Object.entries] ([geminiService.ts] lines 48-53).
    The answer is not under the program's control, so the result may be
    any JSON value, not only an object; [Object.entries] accepts all of
    them but [null].  This file holds the value type, what
    [Object.entries] returns on each shape, and [GeneratedFile], the
    record the entries become.  The [content] of a record is cast to
    [string] by the source without a test, so it is a JSON value here. *)

From S2P Require Import Prelude JsString JsObject.
From stdpp Require Import pretty.

(** ** Definitions *)

(** A parsed JSON value.  A number is kept as its literal: the program
    never computes with one. *)
Inductive json : Type :=
| JNull
| JBool (b : bool)
| JNumber (literal : string)
| JString (s : string)
| JArray (items : list json)
| JObject (props : list (string * json)).

(** The record of [types.ts]: [{ path, content }]. *)
Record GeneratedFile : Type := mkFile { path : string; content : json }.

(** The key of position [i] of an array or a string. *)
Definition index_key (i : nat) : string := pretty (N.of_nat i).

(** The own enumerable properties of an array: its positions. *)
Definition indexed {A : Type} (l : list A) : list (string * A) :=
  imap (fun i x => (index_key i, x)) l.

(** The code units of a string as one-unit strings. *)
Fixpoint units (s : string) : list json :=
  match s with
  | EmptyString => []
  | String c s' => JString (String c EmptyString) :: units s'
  end.

(** [Object.entries(value)]: [null] has no object to enumerate, booleans
    and numbers have no own property, a string and an array have their
    positions, an object its own properties in key order. *)
Definition entries_of (entries_null_message : string) (value : json)
  : Completion (list (string * json)) :=
  match value with
  | JNull => Throw (ErrorObject entries_null_message)
  | JBool _ | JNumber _ => Normal []
  | JString s => Normal (indexed (units s))
  | JArray items => Normal (indexed items)
  | JObject props => Normal (obj_entries props)
  end.

(** The entry-to-record function of line 50: [([path, content]) =>
    ({ path, content: content as string })]. *)
Definition to_file (entry : string * json) : GeneratedFile :=
  {| path := entry.1; content := entry.2 |}.

(** A record is as [types.ts] declares it when its content is a string. *)
Definition well_typed (f : GeneratedFile) : bool :=
  match content f with JString _ => true | _ => false end.

(** A JSON object whose values are all strings: the shape the prompt
    asks for. *)
Definition object_of_strings (value : json) : bool :=
  match value with
  | JObject props => forallb (fun kv => match kv.2 with JString _ => true | _ => false end) props
  | _ => false
  end.

(** The value [JSON.parse] returns for an object text with the given
    members, in the order of the text. *)
Definition json_object (members : list (string * json)) : json :=
  JObject (obj_of_list members).

(** A value as an engine returns it: the own properties of an object
    are in the order of the language, no key twice. *)
Definition object_wf (value : json) : Prop :=
  match value with
  | JObject props => obj_wf props
  | _ => True
  end.

(** The induction principle that reaches the values inside arrays and
    objects. *)
Fixpoint json_nested_ind (P : json -> Prop)
  (Hnull : P JNull) (Hbool : forall b, P (JBool b))
  (Hnum : forall n, P (JNumber n)) (Hstr : forall s, P (JString s))
  (Harr : forall items, Forall P items -> P (JArray items))
  (Hobj : forall props, Forall (fun kv => P kv.2) props -> P (JObject props))
  (v : json) {struct v} : P v :=
  match v with
  | JNull => Hnull
  | JBool b => Hbool b
  | JNumber n => Hnum n
  | JString s => Hstr s
  | JArray items =>
    Harr items
      ((fix go (l : list json) : Forall P l :=
          match l with
          | [] => @List.Forall_nil _ P
          | x :: l' =>
            @List.Forall_cons _ P x l'
              (json_nested_ind P Hnull Hbool Hnum Hstr Harr Hobj x) (go l')
          end) items)
  | JObject props =>
    Hobj props
      ((fix go (l : list (string * json)) : Forall (fun kv => P kv.2) l :=
          match l with
          | [] => @List.Forall_nil _ (fun kv => P kv.2)
          | kv :: l' =>
            @List.Forall_cons _ (fun kv => P kv.2) kv l'
              (json_nested_ind P Hnull Hbool Hnum Hstr Harr Hobj kv.2) (go l')
          end) props)
  end.

(** Structural equality of values, as a test. *)
Fixpoint json_eqb (x y : json) {struct x} : bool :=
  match x, y with
  | JNull, JNull => true
  | JBool a, JBool b => bool_decide (a = b)
  | JNumber a, JNumber b => bool_decide (a = b)
  | JString a, JString b => bool_decide (a = b)
  | JArray l, JArray l' =>
    (fix go (l l' : list json) : bool :=
       match l, l' with
       | [], [] => true
       | x :: l, y :: l' => json_eqb x y && go l l'
       | _, _ => false
       end) l l'
  | JObject l, JObject l' =>
    (fix go (l l' : list (string * json)) : bool :=
       match l, l' with
       | [], [] => true
       | (k, x) :: l, (k', y) :: l' => bool_decide (k = k') && json_eqb x y && go l l'
       | _, _ => false
       end) l l'
  | _, _ => false
  end.

(** ** Equality is decidable *)

Lemma json_eqb_eq x y : json_eqb x y = true <-> x = y.
Proof.
  revert y. induction x as [|b|n|s|items IH|props IH] using json_nested_ind;
    intros [|b'|n'|s'|items'|props']; simpl; try (split; discriminate || done).
  1-3: rewrite bool_decide_eq_true; split; congruence.
  - revert items'. induction IH as [|x l Hx _ IHl]; intros [|y l']; try done.
    rewrite andb_true_iff, Hx. split.
    + intros [-> H]. apply IHl in H. congruence.
    + intros [= -> ->]. split; [done|]. by apply IHl.
  - revert props'. induction IH as [|[k x] l Hx _ IHl]; intros [|[k' y] l']; try done.
    rewrite !andb_true_iff, bool_decide_eq_true. simpl in Hx. rewrite Hx. split.
    + intros [[-> ->] H]. apply IHl in H. congruence.
    + intros [= -> -> ->]. split; [done|]. by apply IHl.
Qed.

#[export] Instance json_eq_dec : EqDecision json.
Proof.
  intros x y. destruct (json_eqb x y) eqn:E; [left|right].
  - by apply json_eqb_eq.
  - intros H. apply json_eqb_eq in H. congruence.
Defined.

#[export] Instance GeneratedFile_eq_dec : EqDecision GeneratedFile.
Proof. solve_decision. Defined.

(** ** Facts on the enumeration *)

#[export] Instance index_key_inj : Inj (=) (=) index_key.
Proof. intros i j. unfold index_key. intros H%(inj pretty). lia. Qed.

#[export] Instance to_file_inj : Inj (=) (=) to_file.
Proof. intros [k v] [k' v'] [= -> ->]. done. Qed.

Lemma json_object_wf members : object_wf (json_object members).
Proof. apply obj_of_list_wf. Qed.

Lemma indexed_length {A} (l : list A) : length (indexed l) = length l.
Proof. unfold indexed. by rewrite length_imap. Qed.

Lemma indexed_values {A} (l : list A) : (indexed l).*2 = l.
Proof.
  unfold indexed. generalize index_key. induction l as [|x l IH]; intros g; [done|].
  simpl. f_equal. apply (IH (g ∘ S)).
Qed.

Lemma indexed_keys {A} (l : list A) :
  (indexed l).*1 = index_key <$> seq 0 (length l).
Proof.
  unfold indexed. generalize index_key. induction l as [|x l IH]; intros g; [done|].
  simpl. f_equal. etrans; [apply (IH (g ∘ S))|].
  by rewrite <- fmap_S_seq, <- list_fmap_compose.
Qed.

Lemma indexed_lookup {A} (l : list A) i :
  indexed l !! i = (fun x => (index_key i, x)) <$> l !! i.
Proof. unfold indexed. by rewrite list_lookup_imap. Qed.

Lemma units_length s : length (units s) = String.length s.
Proof. induction s as [|c s IH]; simpl; [done|]. by rewrite IH. Qed.

Lemma to_file_path entry : path (to_file entry) = entry.1.
Proof. done. Qed.

Lemma entries_of_object m props : entries_of m (JObject props) = Normal props.
Proof. done. Qed.

(** [Object.entries] throws on [null] only. *)
Lemma entries_of_throws m value r :
  entries_of m value = Throw r <-> value = JNull ∧ r = ErrorObject m.
Proof. destruct value; simpl; naive_solver. Qed.

(** The keys [Object.entries] returns are pairwise distinct. *)
Lemma entries_of_NoDup m value entries :
  object_wf value -> entries_of m value = Normal entries -> NoDup entries.*1.
Proof.
  destruct value as [|b|n|s|items|props]; simpl; intros Hwf [= <-];
    try (by constructor); [..|by destruct Hwf].
  all: rewrite indexed_keys; apply NoDup_fmap_2, NoDup_seq; apply _.
Qed.

(** An object with a value that is not a string has a record that is
    not well typed. *)
Lemma not_object_of_strings_ill_typed props :
  object_of_strings (JObject props) = false ->
  Exists (fun f => well_typed f = false) (to_file <$> props).
Proof.
  induction props as [|[k v] props IH]; simpl; [done|].
  intros [Hv|Hrest]%andb_false_iff.
  - left. unfold well_typed. simpl in *. by destruct v.
  - right. by apply IH.
Qed.

(** The records of an object of strings are all well typed. *)
Lemma object_of_strings_well_typed props :
  object_of_strings (JObject props) = true ->
  Forall (fun f => well_typed f = true) (to_file <$> props).
Proof.
  simpl. intros H. apply Forall_fmap, Forall_forall. intros [k v] Hin.
  rewrite forallb_forall in H. apply list_elem_of_In, H in Hin. done.
Qed.
