(* ===== verification/Markup.v ===== *)
(** * Markup: the elements a component returns, and what the page
    makes of them

    The three components return JSX: elements with properties and
    children.  This file holds the elements as data ([Markup]), so that
    the JSX of the sources can be written down as it stands, and the
    part of React and of the browser that decides what the user can do
    with a page: which text is shown ([texts]), which handler a user
    can reach ([fires]), whether the keys of the items of a list are
    distinct ([keys_unique]).

    A handler is one of the four the sources attach to an element.  A
    click reaches the handler of an element unless the element is
    disabled.  A form is submitted by an enabled submit button in it,
    and the browser holds the submit event back while a required control
    of the form has an empty value.  A value given as a child becomes
    text nodes, and an object given as a child is an error of the
    rendering ([react_child]). *)

From S2P Require Import Prelude JsString JsObject Json.
From stdpp Require Import pretty.

(** ** Definitions *)

(** The handlers of the sources: [handleSubmit] of the form
    ([AnsibleForm.tsx] line 20), the change of the description (line
    30), [onDownloadZip] ([CodeDisplay.tsx] line 119) and the click on
    a file with the record of the node, if it has one (line 63). *)
Inductive Handler : Type :=
| HandleSubmit
| OnChange
| OnDownloadZip
| OnFileSelect (file : option GeneratedFile).

(** The value of a property of an element. *)
Inductive PropValue : Type :=
| Str (s : string)
| Flag (b : bool)
| Handle (h : Handler)
| Style (property value : string).

(** An element, a text, a value given as a child, one of the icons of
    [./icons], or an item of a list with its key. *)
Inductive Markup : Type :=
| Text (s : string)
| Value (v : json)
| Icon (component : string) (className : option string)
| Keyed (key : string) (item : Markup)
| Element (tag : string) (props : list (string * PropValue)) (children : list Markup).

(** Induction on markup that reaches the children. *)
Fixpoint Markup_nested_ind (P : Markup -> Prop)
  (Htext : forall s, P (Text s))
  (Hvalue : forall v, P (Value v))
  (Hicon : forall c k, P (Icon c k))
  (Hkeyed : forall key m, P m -> P (Keyed key m))
  (Helement : forall tag props children, Forall P children -> P (Element tag props children))
  (m : Markup) {struct m} : P m :=
  match m with
  | Text s => Htext s
  | Value v => Hvalue v
  | Icon c k => Hicon c k
  | Keyed key m' =>
    Hkeyed key m' (Markup_nested_ind P Htext Hvalue Hicon Hkeyed Helement m')
  | Element tag props children =>
    Helement tag props children
      ((fix go (l : list Markup) : Forall P l :=
          match l with
          | [] => @List.Forall_nil _ P
          | x :: l' =>
            @List.Forall_cons _ P x l'
              (Markup_nested_ind P Htext Hvalue Hicon Hkeyed Helement x) (go l')
          end) children)
  end.

(** The left margin of a block: [`${level * 1}rem`]. *)
Definition rem (level : nat) : string := pretty level +:+ "rem".

(** A property of an element, and a property that is [true]. *)
Definition prop (name : string) (props : list (string * PropValue)) : option PropValue :=
  obj_get props name.

Definition flag (name : string) (props : list (string * PropValue)) : bool :=
  match prop name props with
  | Some (Flag true) => true
  | _ => false
  end.

(** The nodes of a page in document order: a node, then the nodes of
    its children. *)
Fixpoint nodes (m : Markup) : list Markup :=
  m :: match m with
       | Keyed _ m' => nodes m'
       | Element _ _ children => mjoin (nodes <$> children)
       | _ => []
       end.

(** The values a property has on the elements of a page. *)
Definition prop_of (name : string) (m : Markup) : option PropValue :=
  match m with
  | Element _ props _ => prop name props
  | _ => None
  end.

(** What an observation finds on the nodes of a page, in document
    order. *)
Definition collect {A : Type} (observe : Markup -> option A) (m : Markup) : list A :=
  omap observe (nodes m).

Definition prop_values (name : string) (m : Markup) : list PropValue :=
  collect (prop_of name) m.

(** A text node of a rendering: the text of a string, or the decimal
    form of a number, which stands here as the literal of the number. *)
Inductive TextNode : Type :=
| TextOf (s : string)
| NumberOf (literal : string).

(** The start of the message of the error React throws for an object
    given as a child; the keys of the object follow it. *)
Definition object_child_message : string := "Objects are not valid as a React child".

(** What React makes of a value given as a child of an element, as
    [{selectedFile.content}] is in line 136: a text node for a string or
    a number, nothing for a boolean or [null], the children of an array
    in order, and an error for an object. *)
Fixpoint react_child (v : json) {struct v} : Completion (list TextNode) :=
  match v with
  | JNull | JBool _ => Normal []
  | JNumber n => Normal [NumberOf n]
  | JString s => Normal [TextOf s]
  | JArray items =>
    (fix each (l : list json) : Completion (list TextNode) :=
       match l with
       | [] => Normal []
       | x :: l' =>
         bindC (react_child x) (fun a => bindC (each l') (fun b => Normal (a ++ b)))
       end) items
  | JObject _ => Throw (ErrorObject object_child_message)
  end.

(** The children of an array, in order. *)
Fixpoint react_children (items : list json) : Completion (list TextNode) :=
  match items with
  | [] => Normal []
  | x :: l' =>
    bindC (react_child x) (fun a => bindC (react_children l') (fun b => Normal (a ++ b)))
  end.

(** A value with an object in it, as an item of its arrays at any
    depth or as the value itself. *)
Fixpoint has_object (v : json) {struct v} : bool :=
  match v with
  | JNull | JBool _ | JNumber _ | JString _ => false
  | JArray items =>
    (fix any (l : list json) : bool :=
       match l with [] => false | x :: l' => has_object x || any l' end) items
  | JObject _ => true
  end.

(** The text nodes of a sequence of renderings, the first error of the
    sequence if there is one. *)
Fixpoint all_texts (parts : list (Completion (list TextNode)))
  : Completion (list TextNode) :=
  match parts with
  | [] => Normal []
  | part :: parts' =>
    bindC part (fun a => bindC (all_texts parts') (fun b => Normal (a ++ b)))
  end.

(** The text nodes of a page, in document order. *)
Fixpoint texts (m : Markup) : Completion (list TextNode) :=
  match m with
  | Text s => Normal [TextOf s]
  | Value v => react_child v
  | Icon _ _ => Normal []
  | Keyed _ m' => texts m'
  | Element _ _ children => all_texts (texts <$> children)
  end.

(** An enabled submit button, and a required control without a value. *)
Definition is_submit_button (m : Markup) : bool :=
  match m with
  | Element tag props _ =>
    String.eqb tag "button" &&
    match prop "type" props with Some (Str "submit") => true | _ => false end &&
    negb (flag "disabled" props)
  | _ => false
  end.

Definition is_missing (m : Markup) : bool :=
  match m with
  | Element _ props _ =>
    flag "required" props &&
    match prop "value" props with Some (Str EmptyString) => true | _ => false end
  | _ => false
  end.

(** Whether a user's action reaches the handler of a property: the
    submit handler of a form, when an enabled submit button is in the
    form and no required control of it is empty; any other handler,
    unless the element is disabled. *)
Definition live (name : string) (props : list (string * PropValue))
    (children : list Markup) : bool :=
  if String.eqb name "onSubmit"
  then existsb is_submit_button (mjoin (nodes <$> children)) &&
       negb (existsb is_missing (mjoin (nodes <$> children)))
  else negb (flag "disabled" props).

Definition own_handlers (props : list (string * PropValue))
    (children : list Markup) : list Handler :=
  mjoin ((fun kv =>
            match kv.2 with
            | Handle h => if live kv.1 props children then [h] else []
            | _ => []
            end) <$> props).

(** The handlers a user can reach on a page, in document order. *)
Fixpoint fires (m : Markup) : list Handler :=
  match m with
  | Keyed _ m' => fires m'
  | Element _ props children => own_handlers props children ++ mjoin (fires <$> children)
  | _ => []
  end.

(** The keys of the items among the children of an element, and the
    pages in which no two items of one list have the same key. *)
Definition key_of (m : Markup) : option string :=
  match m with
  | Keyed key _ => Some key
  | _ => None
  end.

Definition sibling_keys (m : Markup) : list string :=
  match m with
  | Element _ _ children => omap key_of children
  | _ => []
  end.

Definition keys_unique (m : Markup) : Prop :=
  Forall (fun n => NoDup (sibling_keys n)) (nodes m).

#[export] Instance Handler_eq_dec : EqDecision Handler.
Proof. solve_decision. Defined.

#[export] Instance PropValue_eq_dec : EqDecision PropValue.
Proof. solve_decision. Defined.

#[export] Instance TextNode_eq_dec : EqDecision TextNode.
Proof. solve_decision. Defined.

#[export] Instance keys_unique_dec m : Decision (keys_unique m).
Proof. unfold keys_unique. apply _. Defined.

(** ** Values as children *)

Lemma react_child_array items : react_child (JArray items) = react_children items.
Proof. done. Qed.

Lemma has_object_array items : has_object (JArray items) = existsb has_object items.
Proof. done. Qed.

(** Rendering a value throws exactly when the value has an object in
    it. *)
Lemma react_child_cases v :
  if has_object v then react_child v = Throw (ErrorObject object_child_message)
  else exists nodes, react_child v = Normal nodes.
Proof.
  induction v as [|b|n|s|items IH|props IH] using json_nested_ind; simpl; eauto.
  change (if existsb has_object items
          then react_children items = Throw (ErrorObject object_child_message)
          else exists nodes, react_children items = Normal nodes).
  induction IH as [|x l Hx _ IHl]; simpl; [by eexists|].
  destruct (has_object x); simpl; [by rewrite Hx|].
  destruct Hx as [a ->]. simpl.
  destruct (existsb has_object l); [by rewrite IHl|].
  destruct IHl as [b ->]. by eexists.
Qed.

(** ** Nodes, texts and handlers *)

Lemma nodes_Element tag props children :
  nodes (Element tag props children) =
  Element tag props children :: mjoin (nodes <$> children).
Proof. done. Qed.

Lemma fires_Element tag props children :
  fires (Element tag props children) =
  own_handlers props children ++ mjoin (fires <$> children).
Proof. done. Qed.

Lemma texts_Element tag props children :
  texts (Element tag props children) = all_texts (texts <$> children).
Proof. done. Qed.

Lemma all_texts_Normal (parts : list (list TextNode)) :
  all_texts (Normal <$> parts) = Normal (mjoin parts).
Proof.
  induction parts as [|a parts IH]; [done|]. rewrite fmap_cons. simpl.
  by rewrite IH.
Qed.

Lemma all_texts_fmap {A} (f : A -> list TextNode) (l : list A) :
  all_texts ((fun x => Normal (f x)) <$> l) = Normal (mjoin (f <$> l)).
Proof. by rewrite <- all_texts_Normal, <- list_fmap_compose. Qed.

Lemma all_texts_app parts1 parts2 :
  all_texts (parts1 ++ parts2) =
  bindC (all_texts parts1) (fun a => bindC (all_texts parts2) (fun b => Normal (a ++ b))).
Proof.
  induction parts1 as [|p parts1 IH]; simpl.
  - destruct (all_texts parts2); [done..].
  - rewrite IH. destruct p as [a|]; [|done]. simpl.
    destruct (all_texts parts1) as [b|]; [|done]. simpl.
    destruct (all_texts parts2) as [c|]; [|done]. simpl. by rewrite app_assoc.
Qed.

(** A property no element of a page has is on no node of it. *)
Lemma collect_Element {A} (observe : Markup -> option A) tag props children :
  collect observe (Element tag props children) =
  option_list (observe (Element tag props children)) ++
  mjoin (collect observe <$> children).
Proof.
  unfold collect. rewrite nodes_Element. cbn [omap list_omap].
  rewrite omap_mjoin, <- list_fmap_compose. by destruct (observe _).
Qed.

Lemma collect_Keyed {A} (observe : Markup -> option A) key m :
  collect observe (Keyed key m) = option_list (observe (Keyed key m)) ++ collect observe m.
Proof. unfold collect. simpl. by destruct (observe _). Qed.

Lemma collect_nil {A} (observe : Markup -> option A) m :
  Forall (fun n => observe n = None) (nodes m) -> collect observe m = [].
Proof.
  unfold collect. induction 1 as [|n l Hn _ IH]; [done|]. simpl. by rewrite Hn.
Qed.

Lemma prop_values_nil name m :
  Forall (fun n => prop_of name n = None) (nodes m) -> prop_values name m = [].
Proof. apply collect_nil. Qed.

Lemma prop_values_Element name tag props children :
  prop_values name (Element tag props children) =
  option_list (prop name props) ++ mjoin (prop_values name <$> children).
Proof. apply collect_Element. Qed.

Lemma keys_unique_Element tag props children :
  keys_unique (Element tag props children) <->
  NoDup (omap key_of children) ∧ Forall keys_unique children.
Proof.
  unfold keys_unique. rewrite nodes_Element, Forall_cons. simpl.
  assert (Forall (fun n => NoDup (sibling_keys n)) (mjoin (nodes <$> children)) <->
          Forall (fun c => Forall (fun n => NoDup (sibling_keys n)) (nodes c)) children)
    as ->; [|done].
  induction children as [|c children IH]; [done|].
  rewrite fmap_cons. simpl. by rewrite Forall_app, Forall_cons, IH.
Qed.

Lemma keys_unique_Keyed key m : keys_unique (Keyed key m) <-> keys_unique m.
Proof.
  unfold keys_unique. simpl. rewrite Forall_cons. simpl.
  split; [by intros [_ ?]|]. split; [constructor|done].
Qed.

(** A page without a list of items has nothing to check: the elements
    written in the source carry no key. *)
Lemma keys_unique_leaf m :
  match m with Text _ | Value _ | Icon _ _ => True | _ => False end -> keys_unique m.
Proof. unfold keys_unique. destruct m; try done; intros _; repeat constructor. Qed.

(** An only child has no sibling. *)
Lemma keys_unique_single tag props child :
  keys_unique child -> keys_unique (Element tag props [child]).
Proof.
  intros Hchild. apply keys_unique_Element. split; [|by constructor].
  destruct child; simpl; [apply NoDup_nil_2..|apply NoDup_singleton|apply NoDup_nil_2].
Qed.

(** [keys_unique] of the elements a component writes out: every list
    of children is walked, a list without a key is accepted, and what
    is left are the lists of items and the pages of other components. *)
Ltac keys_unique_walk :=
  repeat lazymatch goal with
         | |- Forall _ [] => apply Forall_nil_2
         | |- Forall _ (_ :: _) => apply Forall_cons_2
         | |- Forall _ _ => progress simpl
         | |- keys_unique _ =>
           first [ by apply keys_unique_leaf
                 | apply keys_unique_single
                 | apply keys_unique_Element; split; [apply NoDup_nil_2|] ]
         end.
