(* ===== verification/JsonText.v ===== *)
(** * JsonText: the grammar of [JSON.parse]

    [generateAnsibleRole] hands the trimmed answer to [JSON.parse]
    ([geminiService.ts] line 48).  This file holds the grammar that
    function accepts, as a reader of the text: white space, the three
    literals, numbers, strings with their escapes, arrays and objects,
    an object built member by member as [JsObject.obj_of_list] does.
    The reader of values takes fuel, since it continues from where the
    reader of a member stopped; [JSON_parse_text] gives it enough for
    any text.  [json_text] is the text a service writes for a value, in
    the compact form of [JSON.stringify]; the theorems relate the two. *)

From S2P Require Import Prelude JsString JsObject Json.
From Stdlib Require Import Ascii NArith.

(** ** Definitions *)

(** What reading a prefix of a text gives: a value and the text after
    it, a syntax error, a text outside the model (an escape that
    denotes a code unit above 255), or no answer for lack of fuel. *)
Inductive Parsed (A : Type) : Type :=
| Accepted (value : A) (rest : string)
| Rejected
| Unmodelled
| OutOfFuel.
Arguments Accepted {A} value rest.
Arguments Rejected {A}.
Arguments Unmodelled {A}.
Arguments OutOfFuel {A}.

Definition parsed_map {A B : Type} (f : A -> B) (p : Parsed A) : Parsed B :=
  match p with
  | Accepted a rest => Accepted (f a) rest
  | Rejected => Rejected
  | Unmodelled => Unmodelled
  | OutOfFuel => OutOfFuel
  end.

Definition parsed_bind {A B : Type} (p : Parsed A) (k : A -> string -> Parsed B) : Parsed B :=
  match p with
  | Accepted a rest => k a rest
  | Rejected => Rejected
  | Unmodelled => Unmodelled
  | OutOfFuel => OutOfFuel
  end.

(** The code units the grammar names. *)
Definition quote : ascii := "034".
Definition backslash : ascii := "092".

(** JSON white space: TAB, LF, CR and SP. *)
Definition is_ws (c : ascii) : bool :=
  match c with
  | "009" | "010" | "013" | " " => true
  | _ => false
  end%char.

Fixpoint skip_ws (s : string) : string :=
  match s with
  | EmptyString => EmptyString
  | String c s' => if is_ws c then skip_ws s' else s
  end.

Definition is_digit (c : ascii) : bool :=
  (48 <=? N_of_ascii c)%N && (N_of_ascii c <=? 57)%N.

(** The value of a hexadecimal digit, either case. *)
Definition hex_value (c : ascii) : option N :=
  let n := N_of_ascii c in
  if is_digit c then Some (n - 48)%N
  else if (97 <=? n)%N && (n <=? 102)%N then Some (n - 87)%N
  else if (65 <=? n)%N && (n <=? 70)%N then Some (n - 55)%N
  else None.

Definition hex4 (h1 h2 h3 h4 : ascii) : option N :=
  a ← hex_value h1; b ← hex_value h2; c ← hex_value h3; d ← hex_value h4;
  Some (((a * 16 + b) * 16 + c) * 16 + d)%N.

(** The code unit a one-letter escape denotes. *)
Definition escape (c : ascii) : option ascii :=
  match c with
  | "034" => Some "034"
  | "092" => Some "092"
  | "/" => Some "/"
  | "b" => Some "008"
  | "f" => Some "012"
  | "n" => Some "010"
  | "r" => Some "013"
  | "t" => Some "009"
  | _ => None
  end%char.

(** The characters of a string after its opening quote, up to the
    closing one. *)
Fixpoint read_characters (s : string) : Parsed string :=
  match s with
  | EmptyString => Rejected
  | String c s' =>
    if Ascii.eqb c quote then Accepted EmptyString s'
    else if Ascii.eqb c backslash then
      match s' with
      | EmptyString => Rejected
      | String e s'' =>
        if Ascii.eqb e "u" then
          match s'' with
          | String h1 (String h2 (String h3 (String h4 s3))) =>
            match hex4 h1 h2 h3 h4 with
            | Some n =>
              if (n <? 256)%N then parsed_map (String (ascii_of_N n)) (read_characters s3)
              else Unmodelled
            | None => Rejected
            end
          | _ => Rejected
          end
        else
          match escape e with
          | Some u => parsed_map (String u) (read_characters s'')
          | None => Rejected
          end
      end
    else if (N_of_ascii c <? 32)%N then Rejected
    else parsed_map (String c) (read_characters s')
  end.

(** The longest prefix of digits and what follows it. *)
Fixpoint take_digits (s : string) : string :=
  match s with
  | EmptyString => EmptyString
  | String c s' => if is_digit c then String c (take_digits s') else EmptyString
  end.

Fixpoint drop_digits (s : string) : string :=
  match s with
  | EmptyString => EmptyString
  | String c s' => if is_digit c then drop_digits s' else s
  end.

(** One or more digits. *)
Definition read_digits (s : string) : Parsed string :=
  match take_digits s with
  | EmptyString => Rejected
  | ds => Accepted ds (drop_digits s)
  end.

(** The parts of a number: an optional minus, the integer part ([0], or
    a digit from 1 to 9 and digits), an optional fraction, an optional
    exponent. *)
Definition read_sign (allowed : list ascii) (s : string) : Parsed string :=
  match s with
  | String c s' =>
    if bool_decide (c ∈ allowed) then Accepted (String c EmptyString) s'
    else Accepted EmptyString s
  | EmptyString => Accepted EmptyString s
  end.

Definition read_int (s : string) : Parsed string :=
  match s with
  | String c s' =>
    if Ascii.eqb c "0" then Accepted (String c EmptyString) s'
    else if is_digit c then Accepted (String c (take_digits s')) (drop_digits s')
    else Rejected
  | EmptyString => Rejected
  end.

Definition read_frac (s : string) : Parsed string :=
  match s with
  | String c s' =>
    if Ascii.eqb c "." then parsed_map (String c) (read_digits s')
    else Accepted EmptyString s
  | EmptyString => Accepted EmptyString s
  end.

(** One part and then another, as one text. *)
Definition followed_by (read1 read2 : string -> Parsed string) (s : string)
  : Parsed string :=
  parsed_bind (read1 s) (fun a s' => parsed_map (String.append a) (read2 s')).

Definition read_exp (s : string) : Parsed string :=
  match s with
  | String c s' =>
    if Ascii.eqb c "e" || Ascii.eqb c "E" then
      parsed_map (String c) (followed_by (read_sign ["+"; "-"]%char) read_digits s')
    else Accepted EmptyString s
  | EmptyString => Accepted EmptyString s
  end.

Definition number_grammar : string -> Parsed string :=
  followed_by (read_sign ["-"]%char)
    (followed_by read_int (followed_by read_frac read_exp)).

(** A literal is a number when the grammar reads all of it. *)
Definition number_literal (literal : string) : bool :=
  match number_grammar literal with
  | Accepted _ EmptyString => true
  | _ => false
  end.

(** The code units numbers are written with. *)
Definition number_char (c : ascii) : bool :=
  is_digit c || bool_decide (c ∈ ["-"; "+"; "."; "e"; "E"]%char).

Fixpoint take_number (s : string) : string :=
  match s with
  | EmptyString => EmptyString
  | String c s' => if number_char c then String c (take_number s') else EmptyString
  end.

Fixpoint drop_number (s : string) : string :=
  match s with
  | EmptyString => EmptyString
  | String c s' => if number_char c then drop_number s' else s
  end.

(** A number, kept as its literal: the longest run of the code units of
    numbers, which has to be a number.  (What may follow a value is
    white space, a comma, a closing bracket or the end; a number
    followed by another code unit of numbers is an error wherever the
    reading stops.) *)
Definition read_number (s : string) : Parsed string :=
  let literal := take_number s in
  if number_literal literal then Accepted literal (drop_number s) else Rejected.

(** [s] after the prefix [p], when it starts with it. *)
Fixpoint after (p s : string) : option string :=
  match p, s with
  | EmptyString, _ => Some s
  | String a p', String b s' => if Ascii.eqb a b then after p' s' else None
  | String _ _, EmptyString => None
  end.

(** A literal name or, failing the three of them, a number. *)
Definition read_literal (s : string) : Parsed json :=
  match after "true" s, after "false" s, after "null" s with
  | Some rest, _, _ => Accepted (JBool true) rest
  | _, Some rest, _ => Accepted (JBool false) rest
  | _, _, Some rest => Accepted JNull rest
  | None, None, None => parsed_map JNumber (read_number s)
  end.

(** What follows an element of an array or a member of an object: a
    comma and more of them, or the closing bracket. *)
Definition read_more {A : Type} (close : ascii) (x : A)
    (more : string -> Parsed (list A)) (s : string) : Parsed (list A) :=
  match skip_ws s with
  | String c rest =>
    if Ascii.eqb c "," then parsed_map (cons x) (more rest)
    else if Ascii.eqb c close then Accepted [x] rest
    else Rejected
  | EmptyString => Rejected
  end.

(** A value at the start of [s]; the elements of an array after its
    opening bracket, when there is one at least; the members of an
    object likewise.  Every call uses one unit of fuel. *)
Fixpoint read_value (fuel : nat) (s : string) {struct fuel} : Parsed json :=
  match fuel with
  | 0 => OutOfFuel
  | S fuel =>
    match s with
    | EmptyString => Rejected
    | String c s' =>
      if Ascii.eqb c "{" then
        match skip_ws s' with
        | String c' rest =>
          if Ascii.eqb c' "}" then Accepted (JObject []) rest
          else parsed_map json_object (read_members fuel s')
        | EmptyString => Rejected
        end
      else if Ascii.eqb c "[" then
        match skip_ws s' with
        | String c' rest =>
          if Ascii.eqb c' "]" then Accepted (JArray []) rest
          else parsed_map JArray (read_elements fuel s')
        | EmptyString => Rejected
        end
      else if Ascii.eqb c quote then parsed_map JString (read_characters s')
      else read_literal s
    end
  end
with read_elements (fuel : nat) (s : string) {struct fuel} : Parsed (list json) :=
  match fuel with
  | 0 => OutOfFuel
  | S fuel =>
    parsed_bind (read_value fuel (skip_ws s)) (fun element =>
    read_more "]" element (read_elements fuel))
  end
with read_members (fuel : nat) (s : string) {struct fuel} : Parsed (list (string * json)) :=
  match fuel with
  | 0 => OutOfFuel
  | S fuel =>
    match skip_ws s with
    | String c s1 =>
      if Ascii.eqb c quote then
        parsed_bind (read_characters s1) (fun key s2 =>
        match skip_ws s2 with
        | String c' s3 =>
          if Ascii.eqb c' ":" then
            parsed_bind (read_value fuel (skip_ws s3)) (fun value =>
            read_more "}" (key, value) (read_members fuel))
          else Rejected
        | EmptyString => Rejected
        end)
      else Rejected
    | EmptyString => Rejected
    end
  end.

(** Fuel that is enough for a text: two units for each code unit, and
    two. *)
Definition fuel_of (text : string) : nat := 2 * String.length text + 2.

(** [JSON.parse(text)]: white space, a value, white space, the end. *)
Definition JSON_parse_text (text : string) : Parsed json :=
  parsed_bind (read_value (fuel_of text) (skip_ws text)) (fun value rest =>
  match skip_ws rest with
  | EmptyString => Accepted value EmptyString
  | String _ _ => Rejected
  end).

(** ** The text of a value *)

(** The letter of the short escape of a code unit, when it has one. *)
Definition escape_letter (c : ascii) : option ascii :=
  match c with
  | "034" => Some "034"
  | "092" => Some "092"
  | "008" => Some "b"
  | "012" => Some "f"
  | "010" => Some "n"
  | "013" => Some "r"
  | "009" => Some "t"
  | _ => None
  end%char.

Definition hex_digit (n : N) : ascii :=
  ascii_of_N (if (n <? 10)%N then 48 + n else 87 + n).

(** A code unit inside a string: its short escape, four hexadecimal
    digits for the other control characters, itself otherwise. *)
Definition quote_unit (c : ascii) : string :=
  match escape_letter c with
  | Some letter => String backslash (String letter EmptyString)
  | None =>
    let n := N_of_ascii c in
    if (n <? 32)%N then
      String backslash
        (String "u" (String "0" (String "0"
          (String (hex_digit (n / 16)) (String (hex_digit (n mod 16)) EmptyString)))))
    else String c EmptyString
  end.

Fixpoint quote_units (s : string) : string :=
  match s with
  | EmptyString => EmptyString
  | String c s' => quote_unit c +:+ quote_units s'
  end.

Definition quoted (s : string) : string :=
  String quote (quote_units s +:+ String quote EmptyString).

(** The compact text of a value: no white space, members in the order
    of the object. *)
Fixpoint json_text (value : json) {struct value} : string :=
  match value with
  | JNull => "null"
  | JBool true => "true"
  | JBool false => "false"
  | JNumber literal => literal
  | JString s => quoted s
  | JArray items =>
    "[" +:+
    (fix each (l : list json) : string :=
       match l with
       | [] => "]"
       | x :: l' =>
         json_text x +:+ match l' with [] => "]" | _ :: _ => "," +:+ each l' end
       end) items
  | JObject props =>
    "{" +:+
    (fix each (l : list (string * json)) : string :=
       match l with
       | [] => "}"
       | kv :: l' =>
         quoted kv.1 +:+ ":" +:+ json_text kv.2 +:+
         match l' with [] => "}" | _ :: _ => "," +:+ each l' end
       end) props
  end.

(** The elements of an array and the members of an object after the
    opening bracket, as [json_text] writes them. *)
Fixpoint elements_text (items : list json) : string :=
  match items with
  | [] => "]"
  | x :: l' =>
    json_text x +:+ match l' with [] => "]" | _ :: _ => "," +:+ elements_text l' end
  end.

Fixpoint members_text (props : list (string * json)) : string :=
  match props with
  | [] => "}"
  | kv :: l' =>
    quoted kv.1 +:+ ":" +:+ json_text kv.2 +:+
    match l' with [] => "}" | _ :: _ => "," +:+ members_text l' end
  end.

(** A value [JSON.parse] can return: its numbers are numbers of the
    grammar and its objects have their properties in the order of the
    language, at every depth. *)
Fixpoint json_ok (value : json) {struct value} : Prop :=
  match value with
  | JNull | JBool _ | JString _ => True
  | JNumber literal => number_literal literal = true
  | JArray items =>
    (fix all (l : list json) : Prop :=
       match l with [] => True | x :: l' => json_ok x ∧ all l' end) items
  | JObject props =>
    obj_wf props ∧
    (fix all (l : list (string * json)) : Prop :=
       match l with [] => True | kv :: l' => json_ok kv.2 ∧ all l' end) props
  end.

(** A value whose numbers are numbers of the grammar, at every depth:
    the values a text can be written for. *)
Fixpoint literals_ok (value : json) {struct value} : Prop :=
  match value with
  | JNull | JBool _ | JString _ => True
  | JNumber literal => number_literal literal = true
  | JArray items =>
    (fix all (l : list json) : Prop :=
       match l with [] => True | x :: l' => literals_ok x ∧ all l' end) items
  | JObject props =>
    (fix all (l : list (string * json)) : Prop :=
       match l with [] => True | kv :: l' => literals_ok kv.2 ∧ all l' end) props
  end.

(** The value an engine makes of the members a text lists: each object
    is built from its members in turn, at every depth. *)
Fixpoint json_norm (value : json) {struct value} : json :=
  match value with
  | JNull | JBool _ | JNumber _ | JString _ => value
  | JArray items =>
    JArray ((fix each (l : list json) : list json :=
               match l with [] => [] | x :: l' => json_norm x :: each l' end) items)
  | JObject props =>
    json_object
      ((fix each (l : list (string * json)) : list (string * json) :=
          match l with [] => [] | kv :: l' => (kv.1, json_norm kv.2) :: each l' end)
         props)
  end.

Definition norm_member (kv : string * json) : string * json := (kv.1, json_norm kv.2).

(** White space only. *)
Fixpoint all_ws (s : string) : bool :=
  match s with
  | EmptyString => true
  | String c s' => is_ws c && all_ws s'
  end.

(** A text that does not continue a number. *)
Definition delimited (rest : string) : bool :=
  match rest with
  | EmptyString => true
  | String c _ => negb (number_char c)
  end.

(** The code units a value can start with: a bracket, a quote, the
    first letter of a literal name, a minus, a digit. *)
Definition value_start (c : ascii) : bool :=
  is_digit c || bool_decide (c ∈ ["{"; "["; quote; "t"; "f"; "n"; "-"]%char).

(** A reading that has an answer, and a reading that keeps the answer
    of another when that one has an answer. *)
Definition answers {A : Type} (p : Parsed A) : Prop := p <> OutOfFuel.

Definition below {A : Type} (p p' : Parsed A) : Prop := answers p -> p' = p.

(** A reading that stops strictly inside the text it was given. *)
Definition consumes {A : Type} (read : string -> Parsed A) : Prop :=
  forall s a rest, read s = Accepted a rest -> String.length rest < String.length s.

(** A reading of a part of a number: what it accepts is the start of
    the text, made of the code units of numbers. *)
Definition written (read : string -> Parsed string) : Prop :=
  forall s a rest, read s = Accepted a rest -> s = a +:+ rest ∧ take_number a = a.

(** With enough fuel, reading [s] gives [a] and stops at [rest]. *)
Definition reads {A : Type} (read : nat -> string -> Parsed A)
    (s : string) (a : A) (rest : string) : Prop :=
  exists fuel, forall fuel', fuel <= fuel' -> read fuel' s = Accepted a rest.

(** The text of [v], before a text that does not continue a number, is
    read as the value an engine makes of [v]. *)
Definition text_reads (v : json) : Prop :=
  forall rest, delimited rest = true ->
    reads read_value (json_text v +:+ rest) (json_norm v) rest.

#[export] Instance Parsed_eq_dec `{EqDecision A} : EqDecision (Parsed A).
Proof. solve_decision. Defined.

(** ** The combinators *)

Section Combinators.
Context {A B : Type}.
Implicit Types (p : Parsed A) (f : A -> B) (k : A -> string -> Parsed B).

Lemma parsed_map_Accepted f p b rest :
  parsed_map f p = Accepted b rest <-> exists a, p = Accepted a rest ∧ b = f a.
Proof. destruct p; simpl; naive_solver. Qed.

Lemma parsed_bind_Accepted p k b rest :
  parsed_bind p k = Accepted b rest <->
  exists a rest', p = Accepted a rest' ∧ k a rest' = Accepted b rest.
Proof. destruct p; simpl; naive_solver. Qed.

Lemma answers_map f p : answers p -> answers (parsed_map f p).
Proof. by destruct p. Qed.

Lemma answers_bind p k :
  answers p -> (forall a rest, p = Accepted a rest -> answers (k a rest)) ->
  answers (parsed_bind p k).
Proof. intros Hp Hk. destruct p; simpl; try done. by apply Hk. Qed.

Lemma below_refl p : below p p.
Proof. by intros _. Qed.

Lemma below_map f p p' : below p p' -> below (parsed_map f p) (parsed_map f p').
Proof. intros H Ha. rewrite H; [done|]. by destruct p. Qed.

Lemma below_bind p p' k k' :
  below p p' -> (forall a rest, below (k a rest) (k' a rest)) ->
  below (parsed_bind p k) (parsed_bind p' k').
Proof.
  intros Hp Hk Ha. rewrite Hp by (by destruct p).
  destruct p; simpl in *; [by apply Hk|done..].
Qed.

End Combinators.

(** ** White space *)

Lemma skip_ws_length s : String.length (skip_ws s) <= String.length s.
Proof. induction s as [|c s IH]; simpl; [done|]. destruct (is_ws c); simpl; lia. Qed.

Lemma skip_ws_first c s : skip_ws s = String c s -> is_ws c = false.
Proof.
  intros H. destruct (is_ws c) eqn:E; [|done].
  pose proof (skip_ws_length s). apply (f_equal String.length) in H.
  simpl in H. lia.
Qed.

Lemma skip_ws_other c s : is_ws c = false -> skip_ws (String c s) = String c s.
Proof. intros H. simpl. by rewrite H. Qed.

Lemma skip_ws_app pre s : all_ws pre = true -> skip_ws (pre +:+ s) = skip_ws s.
Proof.
  induction pre as [|c pre IH]; [done|]. simpl.
  intros [-> H]%andb_true_iff. auto.
Qed.

Lemma skip_ws_all_ws s : all_ws s = true -> skip_ws s = EmptyString.
Proof.
  intros H. rewrite <- (append_nil_r s). by rewrite skip_ws_app.
Qed.

(** ** What follows an element *)

Section More.
Context {A : Type} (close : ascii) (x : A).
Implicit Types (more : string -> Parsed (list A)).

Lemma read_more_length more s l rest :
  consumes more -> read_more close x more s = Accepted l rest ->
  String.length rest < String.length s.
Proof.
  intros Hmore. unfold read_more. pose proof (skip_ws_length s) as Hs.
  destruct (skip_ws s) as [|c s']; [done|]. simpl in Hs.
  repeat case_match; try done.
  - intros (l' & Hl%Hmore & _)%parsed_map_Accepted. lia.
  - intros [= _ <-]. lia.
Qed.

Lemma answers_more more s :
  (forall s', String.length s' < String.length s -> answers (more s')) ->
  answers (read_more close x more s).
Proof.
  intros Hmore. unfold read_more. pose proof (skip_ws_length s) as Hs.
  destruct (skip_ws s) as [|c s']; [done|]. simpl in Hs.
  repeat case_match; try done. apply answers_map, Hmore. lia.
Qed.

Lemma below_more more more' s :
  (forall s', below (more s') (more' s')) ->
  below (read_more close x more s) (read_more close x more' s).
Proof.
  intros Hmore. unfold read_more.
  destruct (skip_ws s) as [|c s']; [apply below_refl|].
  repeat case_match; try apply below_refl. apply below_map, Hmore.
Qed.

(** After the text of an element: a comma and the rest, or the closing
    bracket. *)
Lemma read_more_comma more s :
  read_more close x more (String "," s) = parsed_map (cons x) (more s).
Proof. done. Qed.

Lemma read_more_close more s :
  is_ws close = false -> close <> ","%char ->
  read_more close x more (String close s) = Accepted [x] s.
Proof.
  intros Hws Hne. unfold read_more. rewrite skip_ws_other by done.
  destruct (Ascii.eqb_spec close ","); [done|]. by rewrite Ascii.eqb_refl.
Qed.

End More.

(** ** Strings, numbers and literal names *)

Lemma string_length_ind (P : string -> Prop) :
  (forall s, (forall s', String.length s' < String.length s -> P s') -> P s) ->
  forall s, P s.
Proof.
  intros H s. remember (String.length s) as n eqn:E. revert s E.
  induction n as [n IH] using lt_wf_ind. intros s ->.
  apply H. intros s' Hs'. by apply (IH _ Hs').
Qed.

Lemma read_characters_consumes : consumes read_characters.
Proof.
  intros s. induction s as [s IH] using string_length_ind. intros v rest.
  destruct s as [|c s']; [done|]. simpl.
  repeat case_match; try done; subst.
  all: try (intros [= _ <-]; simpl; lia).
  all: intros (? & Hread%IH & _)%parsed_map_Accepted; simpl in *; lia.
Qed.

Lemma read_characters_answers s : answers (read_characters s).
Proof.
  induction s as [s IH] using string_length_ind.
  destruct s as [|c s']; [done|]. simpl.
  repeat case_match; try done; subst.
  all: apply answers_map, IH; simpl; lia.
Qed.

Lemma take_drop_number s : take_number s +:+ drop_number s = s.
Proof.
  induction s as [|c s IH]; simpl; [done|].
  destruct (number_char c); [|done]. by rewrite append_cons, IH.
Qed.

Lemma read_number_Accepted s literal rest :
  read_number s = Accepted literal rest <->
  number_literal literal = true ∧ literal = take_number s ∧ rest = drop_number s.
Proof.
  unfold read_number. destruct (number_literal (take_number s)) eqn:E.
  - split; [by intros [= <- <-]|]. by intros (_ & -> & ->).
  - split; [done|]. intros (H & -> & _). congruence.
Qed.

Lemma number_literal_nonempty literal :
  number_literal literal = true -> literal <> EmptyString.
Proof. by intros H ->. Qed.

Lemma read_number_consumes : consumes read_number.
Proof.
  intros s literal rest (Hlit%number_literal_nonempty & -> & ->)%read_number_Accepted.
  rewrite <- (take_drop_number s) at 2. rewrite length_append.
  destruct (take_number s); [done|]. simpl. lia.
Qed.

Lemma after_Some p s rest : after p s = Some rest <-> s = p +:+ rest.
Proof.
  revert s. induction p as [|a p IH]; intros s; simpl; [naive_solver|].
  destruct s as [|b s]; [done|]. rewrite append_cons.
  destruct (Ascii.eqb_spec a b) as [->|Hne]; [|naive_solver].
  rewrite IH. naive_solver.
Qed.

Lemma read_literal_consumes : consumes read_literal.
Proof.
  intros s v rest. unfold read_literal.
  repeat case_match; simplify_eq;
    try (intros [= <- <-]; match goal with H : after _ _ = Some _ |- _ =>
           apply after_Some in H; subst; rewrite length_append; simpl; lia end).
  intros (? & Hread%read_number_consumes & _)%parsed_map_Accepted. done.
Qed.

Lemma read_literal_answers s : answers (read_literal s).
Proof.
  unfold read_literal, read_number.
  repeat case_match; done.
Qed.

(** ** Termination *)

(** A value, the elements and the members end strictly inside the text
    they start in. *)
Lemma read_consumes fuel :
  consumes (read_value fuel) ∧ consumes (read_elements fuel) ∧
  consumes (read_members fuel).
Proof.
  induction fuel as [|fuel (IHv & IHe & IHm)]; [done|].
  split_and!; intros s a rest; simpl.
  - destruct s as [|c s']; [done|]. pose proof (skip_ws_length s').
    repeat case_match; try done; subst; simpl in *.
    all: try (intros [= _ <-]; lia).
    1: intros (l & Hl%IHm & _)%parsed_map_Accepted; lia.
    1: intros (l & Hl%IHe & _)%parsed_map_Accepted; lia.
    1: intros (l & Hl%read_characters_consumes & _)%parsed_map_Accepted; lia.
    intros Hl%read_literal_consumes. done.
  - pose proof (skip_ws_length s).
    intros (v & r & Hv%IHv & Hm%read_more_length)%parsed_bind_Accepted; [lia|done].
  - pose proof (skip_ws_length s) as Hs.
    destruct (skip_ws s) as [|c s1]; [done|]. simpl in Hs.
    case_match; [|done].
    intros (k & s2 & Hk%read_characters_consumes & Hrest)%parsed_bind_Accepted.
    pose proof (skip_ws_length s2) as Hs2.
    destruct (skip_ws s2) as [|c' s3]; [done|]. simpl in Hs2.
    case_match; [|done]. pose proof (skip_ws_length s3).
    apply parsed_bind_Accepted in Hrest as (v & r & Hv%IHv & Hm%read_more_length);
      [lia|done].
Qed.

(** Two units of fuel for each code unit are enough. *)
Lemma read_answers fuel :
  (forall s, 2 * String.length s < fuel -> answers (read_value fuel s)) ∧
  (forall s, 2 * String.length s + 1 < fuel -> answers (read_elements fuel s)) ∧
  (forall s, 2 * String.length s + 1 < fuel -> answers (read_members fuel s)).
Proof.
  induction fuel as [|fuel (IHv & IHe & IHm)]; [repeat split; intros; lia|].
  pose proof (read_consumes fuel) as (Cv & Ce & Cm).
  split_and!; intros s Hs; simpl.
  - destruct s as [|c s']; [done|]. simpl in Hs.
    repeat case_match; try done.
    + apply answers_map, IHm. lia.
    + apply answers_map, IHe. lia.
    + apply answers_map, read_characters_answers.
    + apply read_literal_answers.
  - pose proof (skip_ws_length s). apply answers_bind; [apply IHv; lia|].
    intros v r Hv%Cv. apply answers_more. intros s' Hs'. apply IHe. lia.
  - pose proof (skip_ws_length s) as Hlen.
    destruct (skip_ws s) as [|c s1]; [done|]. simpl in Hlen.
    case_match; [|done]. apply answers_bind; [apply read_characters_answers|].
    intros k s2 Hk%read_characters_consumes. pose proof (skip_ws_length s2) as Hlen2.
    destruct (skip_ws s2) as [|c' s3]; [done|]. simpl in Hlen2. case_match; [|done].
    pose proof (skip_ws_length s3).
    apply answers_bind; [apply IHv; lia|].
    intros v r Hv%Cv. apply answers_more. intros s' Hs'. apply IHm. lia.
Qed.

(** More fuel does not change an answer. *)
Lemma read_below fuel fuel' :
  fuel <= fuel' ->
  (forall s, below (read_value fuel s) (read_value fuel' s)) ∧
  (forall s, below (read_elements fuel s) (read_elements fuel' s)) ∧
  (forall s, below (read_members fuel s) (read_members fuel' s)).
Proof.
  revert fuel'. induction fuel as [|fuel IH]; intros fuel' Hle.
  { split_and!; intros s []; done. }
  destruct fuel' as [|fuel']; [lia|].
  destruct (IH fuel') as (IHv & IHe & IHm); [lia|].
  split_and!; intros s; simpl.
  - destruct s; [apply below_refl|]. repeat case_match; try apply below_refl.
    + apply below_map, IHm.
    + apply below_map, IHe.
  - apply below_bind; [apply IHv|]. intros v r. apply below_more, IHe.
  - destruct (skip_ws s); [apply below_refl|]. case_match; [|apply below_refl].
    apply below_bind; [apply below_refl|]. intros k s2.
    destruct (skip_ws s2); [apply below_refl|]. case_match; [|apply below_refl].
    apply below_bind; [apply IHv|]. intros v r. apply below_more, IHm.
Qed.

Lemma read_value_fuel fuel s :
  2 * String.length s < fuel -> read_value fuel s = read_value (2 * String.length s + 1) s.
Proof.
  intros Hfuel. apply (read_below (2 * String.length s + 1) fuel); [lia|].
  apply read_answers. lia.
Qed.

(** An answer with some fuel is the answer of [JSON_parse_text]. *)
Lemma read_value_enough fuel text value rest :
  read_value fuel (skip_ws text) = Accepted value rest ->
  read_value (fuel_of text) (skip_ws text) = Accepted value rest.
Proof.
  intros H. pose proof (skip_ws_length text).
  destruct (decide (fuel <= fuel_of text)) as [Hle|Hgt].
  - destruct (read_below _ _ Hle) as (Hv & _). rewrite Hv; [done|].
    unfold answers. by rewrite H.
  - destruct (read_below (fuel_of text) fuel) as (Hv & _); [lia|].
    rewrite <- H. symmetry. apply Hv, read_answers. unfold fuel_of. lia.
Qed.

(** ** Numbers are written with their code units *)

Lemma take_number_app a s : take_number a = a -> take_number (a +:+ s) = a +:+ take_number s.
Proof.
  induction a as [|c a IH]; [done|]. rewrite append_cons. simpl.
  destruct (number_char c); [|done]. intros [= H]. by rewrite IH.
Qed.

Lemma drop_number_app a s : take_number a = a -> drop_number (a +:+ s) = drop_number s.
Proof.
  induction a as [|c a IH]; [done|]. rewrite append_cons. simpl.
  destruct (number_char c); [|done]. intros [= H]. by rewrite IH.
Qed.

Lemma is_digit_number_char c : is_digit c = true -> number_char c = true.
Proof. unfold number_char. by intros ->. Qed.

Lemma take_drop_digits s :
  s = take_digits s +:+ drop_digits s ∧ take_number (take_digits s) = take_digits s.
Proof.
  induction s as [|c s [IH1 IH2]]; simpl; [done|].
  destruct (is_digit c) eqn:E; [|done]. rewrite append_cons. simpl.
  rewrite (is_digit_number_char c E), IH2. by rewrite <- IH1.
Qed.

Lemma read_digits_written : written read_digits.
Proof.
  intros s a rest. unfold read_digits. destruct (take_drop_digits s) as [H1 H2].
  destruct (take_digits s) eqn:E; [done|]. by intros [= <- <-].
Qed.

Lemma read_sign_written allowed :
  Forall (fun c => number_char c = true) allowed -> written (read_sign allowed).
Proof.
  intros Hall s a rest. unfold read_sign. destruct s as [|c s]; [by intros [= <- <-]|].
  case_bool_decide as Hc; intros [= <- <-]; [|done].
  rewrite Forall_forall in Hall. simpl. by rewrite (Hall c Hc).
Qed.

Lemma followed_by_written read1 read2 :
  written read1 -> written read2 -> written (followed_by read1 read2).
Proof.
  intros H1 H2 s a rest (a1 & s1 & [-> Ha1]%H1 & Hmap)%parsed_bind_Accepted.
  apply parsed_map_Accepted in Hmap as (a2 & [-> Ha2]%H2 & ->).
  split; [by rewrite append_assoc|]. by rewrite take_number_app, Ha2.
Qed.

Lemma prefixed_written c read :
  number_char c = true -> written read ->
  forall s a rest, parsed_map (String c) (read s) = Accepted a rest ->
    String c s = a +:+ rest ∧ take_number a = a.
Proof.
  intros Hc Hread s a rest (a' & [-> Ha]%Hread & ->)%parsed_map_Accepted.
  split; [done|]. simpl. by rewrite Hc, Ha.
Qed.

Lemma read_int_written : written read_int.
Proof.
  intros s a rest. unfold read_int. destruct s as [|c s]; [done|].
  destruct (Ascii.eqb_spec c "0") as [->|_]; [by intros [= <- <-]|].
  destruct (is_digit c) eqn:E; [|done]. intros [= <- <-].
  destruct (take_drop_digits s) as [H1 H2]. simpl.
  rewrite (is_digit_number_char c E), H2. by rewrite append_cons, <- H1.
Qed.

Lemma read_frac_written : written read_frac.
Proof.
  intros s a rest. unfold read_frac. destruct s as [|c s]; [by intros [= <- <-]|].
  destruct (Ascii.eqb_spec c ".") as [->|_]; [|by intros [= <- <-]].
  by apply prefixed_written, read_digits_written.
Qed.

Lemma read_exp_written : written read_exp.
Proof.
  intros s a rest. unfold read_exp. destruct s as [|c s]; [by intros [= <- <-]|].
  destruct (Ascii.eqb c "e" || Ascii.eqb c "E") eqn:E; [|by intros [= <- <-]].
  apply prefixed_written.
  - apply orb_true_iff in E as [->%Ascii.eqb_eq| ->%Ascii.eqb_eq]; done.
  - apply followed_by_written, read_digits_written.
    apply read_sign_written. by repeat constructor.
Qed.

Lemma number_grammar_written : written number_grammar.
Proof.
  repeat apply followed_by_written;
    auto using read_int_written, read_frac_written, read_exp_written.
  apply read_sign_written. by repeat constructor.
Qed.

(** A number is made of the code units of numbers. *)
Lemma number_literal_chars literal :
  number_literal literal = true -> take_number literal = literal.
Proof.
  unfold number_literal. destruct (number_grammar literal) as [a rest| | |] eqn:E; try done.
  destruct rest; [|done]. apply number_grammar_written in E as [-> H].
  by rewrite append_nil_r.
Qed.

Lemma delimited_take rest : delimited rest = true -> take_number rest = EmptyString.
Proof. destruct rest as [|c rest]; [done|]. simpl. by intros ->%negb_true_iff. Qed.

Lemma delimited_drop rest : delimited rest = true -> drop_number rest = rest.
Proof. destruct rest as [|c rest]; [done|]. simpl. by intros ->%negb_true_iff. Qed.

(** A number followed by a text that does not continue it is read as
    that number. *)
Lemma read_number_text literal rest :
  number_literal literal = true -> delimited rest = true ->
  read_number (literal +:+ rest) = Accepted literal rest.
Proof.
  intros Hlit Hrest. pose proof (number_literal_chars _ Hlit) as Hchars.
  apply read_number_Accepted.
  by rewrite take_number_app, drop_number_app, delimited_take, delimited_drop,
    append_nil_r.
Qed.

Lemma number_literal_first literal :
  number_literal literal = true ->
  exists c t, literal = String c t ∧ number_char c = true.
Proof.
  intros H. pose proof (number_literal_chars _ H) as Hchars.
  destruct literal as [|c t]; [done|]. exists c, t. split; [done|].
  simpl in Hchars. by destruct (number_char c).
Qed.

(** A code unit of numbers starts a value that is not a literal name. *)
Lemma read_value_number c s fuel :
  number_char c = true ->
  read_value (S fuel) (String c s) = parsed_map JNumber (read_number (String c s)).
Proof. destruct c as [[] [] [] [] [] [] [] []]; try done; reflexivity. Qed.

Lemma number_char_opens c :
  number_char c = true -> is_ws c = false ∧ c <> "]"%char ∧ c <> "}"%char.
Proof. destruct c as [[] [] [] [] [] [] [] []]; done. Qed.

(** ** Reading the text of a value *)

Lemma read_quote_unit c t :
  read_characters (quote_unit c +:+ t) = parsed_map (String c) (read_characters t).
Proof. destruct c as [[] [] [] [] [] [] [] []]; reflexivity. Qed.

Lemma read_characters_text s rest :
  read_characters (quote_units s +:+ String quote rest) = Accepted s rest.
Proof.
  induction s as [|c s IH]; simpl; [done|].
  by rewrite append_assoc, read_quote_unit, IH.
Qed.

Lemma quoted_append s rest :
  quoted s +:+ rest = String quote (quote_units s +:+ String quote rest).
Proof. unfold quoted. by rewrite append_cons, append_assoc. Qed.

Lemma json_text_array items : json_text (JArray items) = String "[" (elements_text items).
Proof.
  done.
Qed.

Lemma json_text_object props : json_text (JObject props) = String "{" (members_text props).
Proof.
  done.
Qed.

Lemma json_ok_array items : json_ok (JArray items) <-> Forall json_ok items.
Proof.
  simpl. induction items as [|x l IH]; [done|].
  rewrite Forall_cons, <- IH. done.
Qed.

Lemma json_ok_object props :
  json_ok (JObject props) <-> obj_wf props ∧ Forall (fun kv => json_ok kv.2) props.
Proof.
  simpl. apply and_iff_compat_l. induction props as [|kv l IH]; [done|].
  rewrite Forall_cons, <- IH. done.
Qed.

Lemma literals_ok_array items : literals_ok (JArray items) <-> Forall literals_ok items.
Proof.
  simpl. induction items as [|x l IH]; [done|].
  rewrite Forall_cons, <- IH. done.
Qed.

Lemma literals_ok_object props :
  literals_ok (JObject props) <-> Forall (fun kv => literals_ok kv.2) props.
Proof.
  simpl. induction props as [|kv l IH]; [done|].
  rewrite Forall_cons, <- IH. done.
Qed.

Lemma json_norm_array items : json_norm (JArray items) = JArray (json_norm <$> items).
Proof. done. Qed.

Lemma json_norm_object props :
  json_norm (JObject props) = json_object (norm_member <$> props).
Proof. done. Qed.

(** A value of the language has numbers of the grammar and is the
    value an engine makes of it. *)
Lemma json_ok_literals v : json_ok v -> literals_ok v.
Proof.
  induction v as [|b|n|s|items IH|props IH] using json_nested_ind; try done.
  - rewrite json_ok_array, literals_ok_array. by apply Forall_mp.
  - rewrite json_ok_object, literals_ok_object. intros [_ Hok].
    by apply (Forall_mp (fun kv => json_ok kv.2)).
Qed.

Lemma json_norm_ok v : json_ok v -> json_norm v = v.
Proof.
  induction v as [|b|n|s|items IH|props IH] using json_nested_ind; try done.
  - rewrite json_ok_array, json_norm_array. intros Hok. f_equal.
    rewrite <- (list_fmap_id items) at 2. apply Forall_fmap_ext_1.
    by apply (Forall_mp json_ok).
  - rewrite json_ok_object, json_norm_object. intros [Hwf Hok].
    assert (norm_member <$> props = props) as ->.
    { rewrite <- (list_fmap_id props) at 2. apply Forall_fmap_ext_1.
      eapply Forall_impl; [apply (Forall_mp _ _ _ IH Hok)|].
      intros [k v] Hv. unfold norm_member. simpl in *. by rewrite Hv. }
    unfold json_object. by rewrite (proj2 (obj_of_list_fixed props)).
Qed.

(** The text of a value starts with a code unit that is neither white
    space nor a closing bracket. *)
Lemma json_text_opens v rest :
  literals_ok v ->
  exists c t, json_text v +:+ rest = String c t ∧
    is_ws c = false ∧ c <> "]"%char ∧ c <> "}"%char.
Proof.
  destruct v as [|[]|n|s|items|props]; intros Hok;
    rewrite ?json_text_array, ?json_text_object, ?quoted_append;
    try (do 2 eexists; by split; [reflexivity|]).
  destruct (number_literal_first n Hok) as (c & t & -> & Hc).
  exists c, (t +:+ rest). split; [done|]. by apply number_char_opens.
Qed.

Lemma skip_ws_text v rest :
  literals_ok v -> skip_ws (json_text v +:+ rest) = json_text v +:+ rest.
Proof.
  intros (c & t & -> & Hc & _)%(json_text_opens v rest). by apply skip_ws_other.
Qed.

Section Reads.
Implicit Types (s rest : string) (v : json).

Lemma reads_literal s v rest :
  (forall fuel, read_value (S fuel) s = Accepted v rest) -> reads read_value s v rest.
Proof. intros H. exists 1. intros [|fuel] Hle; [lia|]. apply H. Qed.

Lemma reads_elements_last s v r rest :
  reads read_value (skip_ws s) v r -> skip_ws r = String "]" rest ->
  reads read_elements s [v] rest.
Proof.
  intros [f Hv] Hr. exists (S f). intros [|f'] Hle; [lia|].
  simpl. rewrite Hv by lia. simpl. unfold read_more. by rewrite Hr.
Qed.

Lemma reads_elements_cons s v r s' items rest :
  reads read_value (skip_ws s) v r -> skip_ws r = String "," s' ->
  reads read_elements s' items rest ->
  reads read_elements s (v :: items) rest.
Proof.
  intros [f Hv] Hr [f2 Hitems]. exists (S (f `max` f2)). intros [|f'] Hle; [lia|].
  simpl. rewrite Hv by lia. simpl. unfold read_more. rewrite Hr. simpl.
  by rewrite Hitems by lia.
Qed.

Lemma reads_array s c t items rest :
  skip_ws s = String c t -> c <> "]"%char ->
  reads read_elements s items rest ->
  reads read_value (String "[" s) (JArray items) rest.
Proof.
  intros Hs Hc [f Hitems]. exists (S f). intros [|f'] Hle; [lia|].
  simpl. rewrite Hs. destruct (Ascii.eqb_spec c "]"); [done|].
  by rewrite Hitems by lia.
Qed.

Lemma reads_members_last s s1 key s2 s3 v r rest :
  skip_ws s = String quote s1 -> read_characters s1 = Accepted key s2 ->
  skip_ws s2 = String ":" s3 ->
  reads read_value (skip_ws s3) v r -> skip_ws r = String "}" rest ->
  reads read_members s [(key, v)] rest.
Proof.
  intros Hs Hkey Hs2 [f Hv] Hr. exists (S f). intros [|f'] Hle; [lia|].
  simpl. rewrite Hs. simpl. rewrite Hkey. simpl. rewrite Hs2. simpl.
  rewrite Hv by lia. simpl. unfold read_more. by rewrite Hr.
Qed.

Lemma reads_members_cons s s1 key s2 s3 v r s' props rest :
  skip_ws s = String quote s1 -> read_characters s1 = Accepted key s2 ->
  skip_ws s2 = String ":" s3 ->
  reads read_value (skip_ws s3) v r -> skip_ws r = String "," s' ->
  reads read_members s' props rest ->
  reads read_members s ((key, v) :: props) rest.
Proof.
  intros Hs Hkey Hs2 [f Hv] Hr [f2 Hprops]. exists (S (f `max` f2)).
  intros [|f'] Hle; [lia|].
  simpl. rewrite Hs. simpl. rewrite Hkey. simpl. rewrite Hs2. simpl.
  rewrite Hv by lia. simpl. unfold read_more. rewrite Hr. simpl.
  by rewrite Hprops by lia.
Qed.

Lemma reads_object s c t members rest :
  skip_ws s = String c t -> c <> "}"%char ->
  reads read_members s members rest ->
  reads read_value (String "{" s) (json_object members) rest.
Proof.
  intros Hs Hc [f Hmembers]. exists (S f). intros [|f'] Hle; [lia|].
  simpl. rewrite Hs. destruct (Ascii.eqb_spec c "}"); [done|].
  by rewrite Hmembers by lia.
Qed.

End Reads.

Lemma member_text_append key v tail :
  quoted key +:+ ":" +:+ json_text v +:+ tail =
  String quote (quote_units key +:+ String quote (String ":" (json_text v +:+ tail))).
Proof. by rewrite quoted_append. Qed.

Lemma elements_text_cons v l :
  elements_text (v :: l) =
  json_text v +:+ match l with [] => "]" | _ :: _ => "," +:+ elements_text l end.
Proof. done. Qed.

Lemma members_text_cons kv l :
  members_text (kv :: l) =
  quoted kv.1 +:+ ":" +:+ json_text kv.2 +:+
  match l with [] => "}" | _ :: _ => "," +:+ members_text l end.
Proof. done. Qed.

Lemma reads_elements_text items rest :
  items <> [] -> Forall literals_ok items -> Forall text_reads items ->
  reads read_elements (elements_text items +:+ rest) (json_norm <$> items) rest.
Proof.
  induction items as [|v l IH]; [done|].
  intros _ [Hok Hoks]%Forall_cons [Hv Hvs]%Forall_cons.
  rewrite elements_text_cons, fmap_cons.
  destruct l as [|v' l]; rewrite !append_assoc.
  - eapply reads_elements_last; [rewrite skip_ws_text by done; by apply Hv|done].
  - eapply (reads_elements_cons _ _ _ (elements_text (v' :: l) +:+ rest));
      [rewrite skip_ws_text by done; by apply Hv|done|by apply IH].
Qed.

Lemma reads_members_text props rest :
  props <> [] -> Forall (fun kv => literals_ok kv.2) props ->
  Forall (fun kv => text_reads kv.2) props ->
  reads read_members (members_text props +:+ rest) (norm_member <$> props) rest.
Proof.
  induction props as [|[key v] l IH]; [done|].
  intros _ [Hok Hoks]%Forall_cons [Hv Hvs]%Forall_cons. simpl in Hok, Hv.
  rewrite members_text_cons, fmap_cons. unfold norm_member at 1.
  destruct l as [|kv' l]; cbn [fst snd];
    rewrite !append_assoc, member_text_append.
  - eapply reads_members_last; [done|apply read_characters_text|done|..].
    + rewrite skip_ws_text by done. by apply Hv.
    + done.
  - eapply (reads_members_cons _ _ _ _ _ _ _ (members_text (kv' :: l) +:+ rest));
      [done|apply read_characters_text|done|..].
    + rewrite skip_ws_text by done. by apply Hv.
    + done.
    + by apply IH.
Qed.

Lemma elements_text_opens items rest :
  items <> [] -> Forall literals_ok items ->
  exists c t, skip_ws (elements_text items +:+ rest) = String c t ∧ c <> "]"%char.
Proof.
  destruct items as [|v l]; [done|]. intros _ [Hok _]%Forall_cons.
  rewrite elements_text_cons, append_assoc.
  destruct (json_text_opens v (match l with [] => "]" | _ :: _ => "," +:+ elements_text l end +:+ rest) Hok)
    as (c & t & -> & Hws & Hc & _).
  exists c, t. by rewrite skip_ws_other.
Qed.

(** Reading the text of a value gives the value an engine makes of
    it. *)
Lemma json_text_reads v : literals_ok v -> text_reads v.
Proof.
  induction v as [|b|n|s|items IH|props IH] using json_nested_ind; intros Hok rest Hrest.
  - by apply reads_literal.
  - destruct b; by apply reads_literal.
  - destruct (number_literal_first n Hok) as (c & t & -> & Hc). apply reads_literal.
    intros fuel. simpl json_text. rewrite append_cons, read_value_number by done.
    rewrite <- append_cons. by rewrite read_number_text.
  - apply reads_literal. intros fuel. simpl json_text. rewrite quoted_append.
    simpl. by rewrite read_characters_text.
  - apply literals_ok_array in Hok.
    rewrite json_text_array, json_norm_array, append_cons.
    destruct (decide (items = [])) as [->|Hne]; [by apply reads_literal|].
    destruct (elements_text_opens items rest Hne Hok) as (c & t & Hs & Hc).
    eapply reads_array; [done..|].
    apply reads_elements_text; [done..|]. by apply (Forall_mp literals_ok).
  - apply literals_ok_object in Hok.
    rewrite json_text_object, json_norm_object, append_cons.
    destruct props as [|[key v] l]; [by apply reads_literal|].
    eapply reads_object; [| |apply reads_members_text; [done..|]].
    + rewrite members_text_cons, !append_assoc, member_text_append.
      by apply skip_ws_other.
    + done.
    + by apply (Forall_mp (fun kv => literals_ok kv.2)).
Qed.

Lemma is_ws_delimited s : all_ws s = true -> delimited s = true.
Proof.
  destruct s as [|c s]; [done|]. simpl. intros [Hc _]%andb_true_iff.
  by destruct c as [[] [] [] [] [] [] [] []].
Qed.

(** ** What the reader accepts *)

Lemma read_more_Forall {A} (P : A -> Prop) close (x : A) more s l rest :
  P x -> (forall s' l' rest', more s' = Accepted l' rest' -> Forall P l') ->
  read_more close x more s = Accepted l rest -> Forall P l.
Proof.
  intros Hx Hmore. unfold read_more. repeat case_match; try done.
  - intros (l' & Hl%Hmore & ->)%parsed_map_Accepted. by constructor.
  - intros [= <- _]. by repeat constructor.
Qed.

Lemma json_object_ok members :
  Forall (fun kv => json_ok kv.2) members -> json_ok (json_object members).
Proof.
  intros H. apply json_ok_object. split; [apply obj_of_list_wf|].
  by apply Forall_obj_of_list.
Qed.

Lemma read_literal_ok s v rest : read_literal s = Accepted v rest -> json_ok v.
Proof.
  unfold read_literal. repeat case_match; try (by intros [= <- _]).
  by intros (n & [Hn _]%read_number_Accepted & ->)%parsed_map_Accepted.
Qed.

(** The values the reader returns are values of the language: numbers
    of the grammar, objects in the order of the language. *)
Lemma read_ok fuel :
  (forall s v rest, read_value fuel s = Accepted v rest -> json_ok v) ∧
  (forall s l rest, read_elements fuel s = Accepted l rest -> Forall json_ok l) ∧
  (forall s l rest, read_members fuel s = Accepted l rest ->
     Forall (fun kv => json_ok kv.2) l).
Proof.
  induction fuel as [|fuel (IHv & IHe & IHm)]; [done|].
  split_and!; intros s a rest; simpl.
  - destruct s as [|c s']; [done|].
    repeat case_match; try done; try (by intros [= <- _]).
    + intros [= <- _]. by apply (json_object_ok []).
    + intros (l & Hl%IHm & ->)%parsed_map_Accepted. by apply json_object_ok.
    + intros (l & Hl%IHe & ->)%parsed_map_Accepted. by apply json_ok_array.
    + by intros (l & _ & ->)%parsed_map_Accepted.
    + apply read_literal_ok.
  - intros (v & r & Hv%IHv & Hm)%parsed_bind_Accepted.
    by eapply read_more_Forall, Hm.
  - repeat case_match; try done.
    intros (key & s2 & _ & Hrest)%parsed_bind_Accepted.
    repeat case_match; try done.
    apply parsed_bind_Accepted in Hrest as (v & r & Hv%IHv & Hm).
    by eapply (read_more_Forall (fun kv => json_ok kv.2)), Hm.
Qed.

(** No value starts with another code unit than these. *)
Lemma read_value_first fuel c s :
  value_start c = false -> read_value (S fuel) (String c s) = Rejected.
Proof. destruct c as [[] [] [] [] [] [] [] []]; try done; reflexivity. Qed.

(** ** The text of a value has no white space at its ends *)

Lemma is_ws_white c : is_ws c = true -> is_white c = true.
Proof. by destruct c as [[] [] [] [] [] [] [] []]. Qed.

Lemma all_ws_white s : all_ws s = true -> all_white s = true.
Proof.
  induction s as [|c s IH]; [done|]. simpl.
  intros [Hc Hs]%andb_true_iff. by rewrite (is_ws_white c Hc), IH.
Qed.

Lemma number_char_not_white c : number_char c = true -> is_white c = false.
Proof. by destruct c as [[] [] [] [] [] [] [] []]. Qed.

Lemma take_number_last s c :
  take_number s = s -> last_unit s = Some c -> number_char c = true.
Proof.
  induction s as [|a s IH]; [done|]. cbn [take_number last_unit].
  destruct (number_char a) eqn:Ha; [|done]. intros [= Hs].
  destruct (last_unit s) as [d|]; intros [= <-]; auto.
Qed.

Lemma elements_text_closes items : exists t, elements_text items = t +:+ "]".
Proof.
  induction items as [|v l (t & IH)]; [by exists EmptyString|].
  rewrite elements_text_cons. destruct l as [|v' l]; [by eexists|].
  exists (json_text v +:+ "," +:+ t). by rewrite IH, !append_assoc.
Qed.

Lemma members_text_closes props : exists t, members_text props = t +:+ "}".
Proof.
  induction props as [|kv l (t & IH)]; [by exists EmptyString|].
  rewrite members_text_cons. destruct l as [|kv' l].
  { exists (quoted kv.1 +:+ ":" +:+ json_text kv.2). by rewrite !append_assoc. }
  exists (quoted kv.1 +:+ ":" +:+ json_text kv.2 +:+ "," +:+ t).
  by rewrite IH, !append_assoc.
Qed.

Lemma json_text_first v c :
  literals_ok v -> first_unit (json_text v) = Some c -> is_white c = false.
Proof.
  destruct v as [|[]|n|s|items|props]; intros Hok;
    rewrite ?json_text_array, ?json_text_object; try by intros [= <-].
  destruct (number_literal_first n Hok) as (d & t & -> & Hd).
  intros [= <-]. by apply number_char_not_white.
Qed.

Lemma json_text_last v c :
  literals_ok v -> last_unit (json_text v) = Some c -> is_white c = false.
Proof.
  destruct v as [|[]|n|s|items|props]; intros Hok;
    rewrite ?json_text_array, ?json_text_object; try by intros [= <-].
  - intros Hc. eapply number_char_not_white, take_number_last; [|done].
    by apply number_literal_chars.
  - unfold json_text, quoted. cbn [last_unit]. rewrite last_unit_app_cons.
    by intros [= <-].
  - destruct (elements_text_closes items) as (t & ->).
    cbn [last_unit]. rewrite last_unit_app_cons. by intros [= <-].
  - destruct (members_text_closes props) as (t & ->).
    cbn [last_unit]. rewrite last_unit_app_cons. by intros [= <-].
Qed.

(** Trimming a padded text of a value gives the text. *)
Lemma trim_json_text pre v post :
  literals_ok v -> all_white pre = true -> all_white post = true ->
  trim (pre +:+ json_text v +:+ post) = json_text v.
Proof.
  intros Hok Hpre Hpost.
  apply trim_exact; [done..| |]; intros c; [by apply json_text_first|by apply json_text_last].
Qed.

(** ** [JSON.parse] *)

Lemma JSON_parse_text_reads text value rest :
  reads read_value (skip_ws text) value rest -> all_ws rest = true ->
  JSON_parse_text text = Accepted value EmptyString.
Proof.
  intros [fuel Hread] Hrest. unfold JSON_parse_text.
  rewrite (read_value_enough fuel text value rest) by (by apply Hread).
  simpl. by rewrite skip_ws_all_ws.
Qed.

(** The fuel is enough.  The fuel [JSON_parse_text] gives the reader
    is enough for every text: the reader never stops for lack of it,
    and more fuel gives the same answer.  This is a fact about the
    reader of this file, which has fuel where [JSON.parse] has none. *)
Theorem JSON_parse_text_total text extra :
  JSON_parse_text text <> OutOfFuel ∧
  read_value (fuel_of text + extra) (skip_ws text) =
  read_value (fuel_of text) (skip_ws text).
Proof.
  pose proof (skip_ws_length text) as Hlen.
  assert (answers (read_value (fuel_of text) (skip_ws text))) as Hanswer
    by (apply read_answers; unfold fuel_of; lia).
  split.
  - unfold JSON_parse_text. apply answers_bind; [done|].
    intros v r _. by destruct (skip_ws r).
  - by apply (read_below (fuel_of text) (fuel_of text + extra)); [lia|].
Qed.

(** C17: what [JSON.parse] returns.  An accepted text is read to its
    end, and the value has numbers of the grammar and objects whose
    properties are in the order of the language with no key twice, at
    every depth. *)
Theorem JSON_parse_text_ok text value rest :
  JSON_parse_text text = Accepted value rest -> json_ok value ∧ rest = EmptyString.
Proof.
  unfold JSON_parse_text.
  intros (v & r & Hv & Hend)%parsed_bind_Accepted.
  destruct (skip_ws r); [|done]. injection Hend as <- <-.
  split; [|done]. by eapply read_ok.
Qed.

(** The text of a value, with any white space of the grammar before and
    after it, is read as the value an engine makes of it. *)
Lemma JSON_parse_text_norm value pre post :
  literals_ok value -> all_ws pre = true -> all_ws post = true ->
  JSON_parse_text (pre +:+ json_text value +:+ post) =
  Accepted (json_norm value) EmptyString.
Proof.
  intros Hok Hpre Hpost. apply (JSON_parse_text_reads _ _ post); [|done].
  rewrite skip_ws_app, skip_ws_text by done.
  by apply json_text_reads, is_ws_delimited.
Qed.

Lemma JSON_parse_text_json_text value :
  literals_ok value ->
  JSON_parse_text (json_text value) = Accepted (json_norm value) EmptyString.
Proof.
  intros Hok. rewrite <- (append_nil_r (json_text value)).
  by apply (JSON_parse_text_norm value EmptyString EmptyString).
Qed.

Lemma json_ok_object_wf value : json_ok value -> object_wf value.
Proof. destruct value; try done. by intros [Hwf _]%json_ok_object. Qed.

(** C16: the round trip of a value through its text.  The text of a
    value whose numbers are numbers is read back as that value exactly
    when its objects have their properties in the order of the
    language with no key twice, at every depth; otherwise it is read as
    another value, the one an engine makes of its members. *)
Theorem JSON_parse_text_roundtrip value pre post :
  literals_ok value -> all_ws pre = true -> all_ws post = true ->
  JSON_parse_text (pre +:+ json_text value +:+ post) =
    Accepted (json_norm value) EmptyString ∧
  (json_norm value = value <-> json_ok value).
Proof.
  intros Hlit Hpre Hpost.
  pose proof (JSON_parse_text_norm value pre post Hlit Hpre Hpost) as Hread.
  split; [done|]. split; [|apply json_norm_ok].
  intros Hfix. rewrite Hfix in Hread.
  by apply JSON_parse_text_ok in Hread as [Hok _].
Qed.

(** A text whose first code unit after white space cannot start a
    value is a syntax error; so is the empty text. *)
Theorem JSON_parse_text_rejects text :
  match skip_ws text with
  | EmptyString => True
  | String c _ => value_start c = false
  end ->
  JSON_parse_text text = Rejected.
Proof.
  unfold JSON_parse_text.
  replace (fuel_of text) with (S (2 * String.length text + 1))
    by (unfold fuel_of; lia).
  destruct (skip_ws text) as [|c s]; [done|].
  intros Hc. by rewrite read_value_first.
Qed.

Lemma JSON_parse_text_ok_witness :
  json_ok (JObject [("2", JNumber "2"); ("10", JNumber "1e0")]).
Proof.
  pose (text := "{ " +:+ quoted "10" +:+ ": 1e0, " +:+ quoted "2" +:+ " :2}").
  by destruct (JSON_parse_text_ok text
    (JObject [("2", JNumber "2"); ("10", JNumber "1e0")]) EmptyString eq_refl).
Defined.

Lemma JSON_parse_text_roundtrip_witness :
  JSON_parse_text (" " +:+ json_text (JObject [("b", JNull); ("1", JArray []); ("b", JBool true)]) +:+ "
") = Accepted (JObject [("1", JArray []); ("b", JBool true)]) EmptyString.
Proof.
  apply (JSON_parse_text_roundtrip
    (JObject [("b", JNull); ("1", JArray []); ("b", JBool true)])); [|done..].
  apply literals_ok_object. by repeat constructor.
Defined.

Lemma JSON_parse_text_rejects_witness :
  JSON_parse_text "```json {} ```" = Rejected.
Proof. by apply JSON_parse_text_rejects. Defined.
