(* ===== verification/FileTree.v ===== *)
(** * FileTree: from flat paths to a tree of nodes

    [buildFileTree] ([CodeDisplay.tsx] lines 18-37) starts from a root
    node with no children and, for every record in order, walks the
    segments of its path from the root: at each segment it makes sure the
    current node has a [children] object, makes sure that object has a
    node under the segment, moves to that node, and at the last segment
    stores the record in its [file] field.

    The nodes are mutable objects in the source and values here: [visit]
    rebuilds the spine of the walk, which gives the same tree because no
    node is shared between two places of a tree and nothing keeps a
    reference to a node across calls.

    A read [children[part]] that finds one of the properties of
    [Object.prototype] (see [JsObject]) takes the walk out of the tree:
    the rest of the path is then applied to a built-in object, and the
    tree keeps the state it had.  When a segment is [__proto__] the walk
    writes to [Object.prototype] and [visit] returns [None]. *)

From S2P Require Import Prelude JsString JsObject Json.
From Stdlib Require Import Ascii.

(** ** Definitions *)

(** [interface TreeNode] (lines 12-16): [children] and [file] are
    optional fields. *)
Inductive TreeNode : Type :=
  mkNode {
    name : string;
    children : option (list (string * TreeNode));
    file : option GeneratedFile
  }.

(** [{ name: part }] (line 28) *)
Definition new_node (part : string) : TreeNode := mkNode part None None.

(** [{ name: 'root', children: {} }] (line 19) *)
Definition root_node : TreeNode := mkNode "root" (Some []) None.

(** [node.children = ch] *)
Definition with_children (node : TreeNode) (ch : list (string * TreeNode)) : TreeNode :=
  mkNode (name node) (Some ch) (file node).

(** [node.file = f] (line 32) *)
Definition with_file (node : TreeNode) (f : GeneratedFile) : TreeNode :=
  mkNode (name node) (children node) (Some f).

(** The children object after lines 24-26: the one the node has, or a
    new empty one. *)
Definition children_or_empty (node : TreeNode) : list (string * TreeNode) :=
  default [] (children node).

(** The node reached by a segment, after line 32: it carries the record
    when the segment is the last one. *)
Definition arrive (f : GeneratedFile) (rest : list string) (child : TreeNode) : TreeNode :=
  match rest with
  | [] => with_file child f
  | _ :: _ => child
  end.

(** The inner loop (lines 23-34) from [node] on, for the segments that
    remain. *)
Fixpoint visit (f : GeneratedFile) (parts : list string) (node : TreeNode)
  : option TreeNode :=
  match parts with
  | [] => Some node
  | part :: rest =>
    let ch := children_or_empty node in
    match js_get ch part with
    | Own child =>
      child' ← visit f rest (arrive f rest child);
      Some (with_children node (obj_set ch part child'))
    | Absent =>
      child' ← visit f rest (arrive f rest (new_node part));
      Some (with_children node (obj_set ch part child'))
    | Inherited =>
      if existsb proto_key parts then None
      else Some (with_children node ch)
    end
  end.

(** The segments of a record's path (line 21). *)
Definition parts_of (f : GeneratedFile) : list string := split "/"%char (path f).

(** One turn of the outer loop (lines 20-35). *)
Definition add_file (root : option TreeNode) (f : GeneratedFile) : option TreeNode :=
  root ≫= visit f (parts_of f).

(** [buildFileTree(files)] *)
Definition buildFileTree (files : list GeneratedFile) : option TreeNode :=
  fold_left add_file files (Some root_node).

(** The node at a path, through own properties. *)
Fixpoint find_node (parts : list string) (node : TreeNode) : option TreeNode :=
  match parts with
  | [] => Some node
  | part :: rest =>
    ch ← children node; child ← obj_get ch part; find_node rest child
  end.

(** The record stored at a path. *)
Definition file_at (parts : list string) (node : TreeNode) : option GeneratedFile :=
  find_node parts node ≫= file.

(** [!!node.children] (line 40): how the renderer tells a directory. *)
Definition isDirectory (node : TreeNode) : bool :=
  match children node with Some _ => true | None => false end.

(** A path the walk follows inside the tree to its end. *)
Definition plain_path (parts : list string) : bool :=
  forallb (fun part => negb (inherited_key part)) parts.

(** A path that reaches [Object.prototype]. *)
Definition reaches_prototype (parts : list string) : bool :=
  existsb proto_key parts.

(** A node the renderer can show: a directory, or a leaf with its
    record. *)
Definition inhabited (node : TreeNode) : bool :=
  match children node, file node with
  | None, None => false
  | _, _ => true
  end.

(** What holds of a child stored under key [k] of a node at path [p],
    given what holds of the subtree. *)
Definition wf_child (p : list string) (rec : list string -> TreeNode -> Prop)
    (kc : string * TreeNode) : Prop :=
  inherited_key kc.1 = false ∧ name kc.2 = kc.1 ∧ inhabited kc.2 = true ∧
  rec (p ++ [kc.1]) kc.2.

(** The invariant of the nodes of a built tree, for a node at path [p]:
    its record, if any, has the path [p]; its children object is well
    formed; every child is named by its key, can be shown, and is well
    formed at its own path. *)
Fixpoint wf_node (p : list string) (t : TreeNode) {struct t} : Prop :=
  (forall g, file t = Some g -> parts_of g = p) ∧
  match children t with
  | None => True
  | Some ch =>
    obj_wf ch ∧
    (fix all (l : list (string * TreeNode)) : Prop :=
       match l with
       | [] => True
       | kc :: l' => wf_child p wf_node kc ∧ all l'
       end) ch
  end.

(** Induction on nodes that reaches the children. *)
Fixpoint TreeNode_nested_ind (P : TreeNode -> Prop)
  (Hleaf : forall n g, P (mkNode n None g))
  (Hdir : forall n ch g, Forall (fun kc => P kc.2) ch -> P (mkNode n (Some ch) g))
  (t : TreeNode) {struct t} : P t :=
  match t with
  | mkNode n None g => Hleaf n g
  | mkNode n (Some ch) g =>
    Hdir n ch g
      ((fix go (l : list (string * TreeNode)) : Forall (fun kc => P kc.2) l :=
          match l with
          | [] => @List.Forall_nil _ (fun kc => P kc.2)
          | kc :: l' =>
            @List.Forall_cons _ (fun kc => P kc.2) kc l'
              (TreeNode_nested_ind P Hleaf Hdir kc.2) (go l')
          end) ch)
  end.

(** The node a segment leads to: the child the node has under it, or the
    one line 28 creates. *)
Definition child_at (node : TreeNode) (part : string) : TreeNode :=
  default (new_node part) (obj_get (children_or_empty node) part).

(** The read of line 27 finds a built-in object. *)
Definition leaves_tree (node : TreeNode) (part : string) : bool :=
  match js_get (children_or_empty node) part with
  | Inherited => true
  | _ => false
  end.

(** The walk of [parts] from [node] stays inside the tree to its end. *)
Fixpoint stays (parts : list string) (node : TreeNode) : bool :=
  match parts with
  | [] => true
  | part :: rest => negb (leaves_tree node part) && stays rest (child_at node part)
  end.

(** The node at a path is shown as a directory. *)
Definition dir_at (q : list string) (node : TreeNode) : bool :=
  match find_node q node with
  | Some n => isDirectory n
  | None => false
  end.

(** The segments the walk of [parts] from [node] takes inside the tree:
    all of them, or those before the read that leaves it. *)
Fixpoint walked (parts : list string) (node : TreeNode) : list string :=
  match parts with
  | [] => []
  | part :: rest =>
    if leaves_tree node part then [] else part :: walked rest (child_at node part)
  end.

(** The segments of a path before its first key of [Object.prototype]. *)
Fixpoint tree_part (parts : list string) : list string :=
  match parts with
  | [] => []
  | part :: rest => if inherited_key part then [] else part :: tree_part rest
  end.

(** The walk of [parts], of which [w] is inside the tree, turns the node
    at [q] into a directory: every node it passes gets a [children]
    object, the node of the last segment apart. *)
Definition opens (q parts w : list string) : bool :=
  bool_decide (q `prefix_of` w ∧ q <> parts).

(** The test that selects the records a path shows: those whose
    segments are the path, when the walk of that path stays in the
    tree. *)
Definition stored_at (q : list string) (g : GeneratedFile) : bool :=
  bool_decide (parts_of g = q) && plain_path q.

(** The first segment of the path of a record, and the names of the
    first level of the tree of a list of records: the first segments
    that are no keys of [Object.prototype], as the keys of the object
    they are assigned to in turn. *)
Definition top_name (g : GeneratedFile) : string :=
  default EmptyString (head (parts_of g)).

Definition top_names (files : list GeneratedFile) : list string :=
  obj_keys (obj_of_list ((fun g => (top_name g, ())) <$>
                           filter (fun g => inherited_key (top_name g) = false) files)).

(** The records [a/b/c.txt] and [a/b/d.txt] of the specification, and
    the pair [a], [a/b] it wants rejected. *)
Definition two_files : list GeneratedFile :=
  [mkFile "a/b/c.txt" (JString "x"); mkFile "a/b/d.txt" (JString "y")].

Definition conflicting_files : list GeneratedFile :=
  [mkFile "a" (JString "x"); mkFile "a/b" (JString "y")].

(** ** Nodes and lookups *)

Section Visit.
Context (f : GeneratedFile).
Implicit Types (parts q p : list string) (node t : TreeNode).

Lemma find_node_with_file q node g :
  q <> [] -> find_node q (with_file node g) = find_node q node.
Proof. by destruct q. Qed.

Lemma file_at_with_file q node g :
  file_at q (with_file node g) = if decide (q = []) then Some g else file_at q node.
Proof. destruct q; [done|]. unfold file_at. by rewrite find_node_with_file. Qed.

Lemma find_node_new_node q part :
  q <> [] -> find_node q (new_node part) = None.
Proof. by destruct q. Qed.

Lemma file_at_new_node q part : file_at q (new_node part) = None.
Proof. by destruct q. Qed.

Lemma find_node_children_or_empty part q node :
  find_node (part :: q) (with_children node (children_or_empty node)) =
  find_node (part :: q) node.
Proof. destruct node as [n [ch|] g]; done. Qed.

Lemma find_node_set part q node ch child :
  find_node (part :: q) (with_children node (obj_set ch part child)) =
  find_node q child.
Proof. simpl. by rewrite obj_get_set_eq. Qed.

Lemma find_node_set_ne part part' q node child :
  part <> part' ->
  find_node (part' :: q)
    (with_children node (obj_set (children_or_empty node) part child)) =
  find_node (part' :: q) node.
Proof.
  intros Hne. simpl. rewrite obj_get_set_ne by done.
  destruct node as [n [ch|] g]; done.
Qed.

Lemma find_node_child part q node :
  find_node (part :: q) node =
  match obj_get (children_or_empty node) part with
  | Some c => find_node q c
  | None => None
  end.
Proof.
  destruct node as [n [ch|] g]; unfold children_or_empty; simpl; [|done].
  by destruct (obj_get ch part).
Qed.

Lemma file_at_child part q node :
  file_at (part :: q) node = file_at q (child_at node part).
Proof.
  unfold file_at, child_at. rewrite find_node_child.
  destruct (obj_get _ part); [done|]. symmetry. apply file_at_new_node.
Qed.

Lemma stays_with_file parts node g :
  stays parts (with_file node g) = stays parts node.
Proof. by destruct parts. Qed.

Lemma stays_arrive parts rest node : stays parts (arrive f rest node) = stays parts node.
Proof. destruct rest; [apply stays_with_file|done]. Qed.

(** ** One step of the walk *)

(** The step of [visit], by whether the read leaves the tree. *)
Lemma visit_cons part rest node :
  visit f (part :: rest) node =
  if leaves_tree node part then
    if reaches_prototype (part :: rest) then None
    else Some (with_children node (children_or_empty node))
  else
    child' ← visit f rest (arrive f rest (child_at node part));
    Some (with_children node (obj_set (children_or_empty node) part child')).
Proof.
  unfold leaves_tree, child_at, js_get. cbn [visit]. unfold js_get.
  destruct (obj_get _ part); [done|]. by destruct (inherited_key part).
Qed.

Lemma visit_nonempty_arrive parts node :
  parts <> [] -> visit f parts node = visit f parts (arrive f parts node).
Proof. by destruct parts. Qed.

(** ** The record found at a path after a walk *)

(** After the walk of [rest] from a node just reached, the record is at
    [rest] when the walk stayed inside the tree, and every other path
    holds what it held. *)
Lemma visit_arrive_file_at rest : forall node t q,
  visit f rest (arrive f rest node) = Some t ->
  file_at q t =
  if decide (q = rest ∧ stays rest node = true) then Some f else file_at q node.
Proof.
  induction rest as [|part rest IH]; intros node t q.
  - intros [= <-]. rewrite file_at_with_file. by repeat case_decide; naive_solver.
  - cbn [arrive]. rewrite visit_cons. cbn [stays].
    destruct (leaves_tree node part) eqn:El.
    + case_match; [done|]. intros [= <-]. rewrite decide_False by naive_solver.
      destruct q; [done|]. unfold file_at. by rewrite find_node_children_or_empty.
    + destruct (visit f rest _) as [child'|] eqn:Ev; [|done]. intros [= <-].
      destruct q as [|p0 q]; [by rewrite decide_False by naive_solver|].
      destruct (decide (part = p0)) as [<-|Hne].
      * unfold file_at at 1. rewrite find_node_set. fold (file_at q child').
        rewrite (IH _ _ q Ev), file_at_child.
        by repeat case_decide; naive_solver.
      * unfold file_at at 1. rewrite find_node_set_ne by done.
        rewrite decide_False by naive_solver. done.
Qed.

(** ** The directories a walk makes *)

Lemma dir_at_with_file q node g : dir_at q (with_file node g) = dir_at q node.
Proof. destruct q; [done|]. unfold dir_at. by rewrite find_node_with_file. Qed.

Lemma dir_at_new_node q part : dir_at q (new_node part) = false.
Proof. by destruct q. Qed.

Lemma dir_at_child part q node :
  dir_at (part :: q) node = dir_at q (child_at node part).
Proof.
  unfold dir_at, child_at. rewrite find_node_child.
  destruct (obj_get _ part); [done|]. symmetry. apply dir_at_new_node.
Qed.

Lemma dir_at_arrive q rest node : dir_at q (arrive f rest node) = dir_at q node.
Proof. destruct rest; [apply dir_at_with_file|done]. Qed.

Lemma opens_nil_cons part rest w : opens [] (part :: rest) w = true.
Proof. apply bool_decide_eq_true. split; [apply prefix_nil|done]. Qed.

Lemma opens_cons_nil part q rest : opens (part :: q) rest [] = false.
Proof. apply bool_decide_eq_false. intros [H%prefix_nil_inv _]. done. Qed.

Lemma opens_cons part part' q rest w :
  opens (part' :: q) (part :: rest) (part :: w) =
  bool_decide (part = part') && opens q rest w.
Proof.
  unfold opens. destruct (decide (part = part')) as [<-|Hp].
  - rewrite (bool_decide_eq_true_2 (part = part)) by done. apply bool_decide_ext. split.
    + intros [H1 H2]. split; [by eapply prefix_cons_inv_2|congruence].
    + intros [H1 H2]. split; [by apply prefix_cons|congruence].
  - rewrite (bool_decide_eq_false_2 (part = part')) by done.
    apply bool_decide_eq_false. intros [H1%prefix_cons_inv_1 _]. done.
Qed.

(** After a walk, the directories are those there were and the nodes
    the walk passed. *)
Lemma visit_arrive_dir_at rest : forall node t q,
  visit f rest (arrive f rest node) = Some t ->
  dir_at q t = dir_at q node || opens q rest (walked rest node).
Proof.
  induction rest as [|part rest IH]; intros node t q.
  - intros [= <-]. rewrite dir_at_with_file. unfold opens.
    rewrite bool_decide_eq_false_2, orb_false_r; [done|].
    intros [->%prefix_nil_inv ?]. done.
  - cbn [arrive walked]. rewrite visit_cons.
    destruct (leaves_tree node part) eqn:El.
    + case_match; [done|]. intros [= <-]. destruct q as [|p0 q].
      * by rewrite opens_nil_cons, orb_true_r.
      * rewrite opens_cons_nil, orb_false_r. unfold dir_at.
        by rewrite find_node_children_or_empty.
    + destruct (visit f rest _) as [child'|] eqn:Ev; [|done]. intros [= <-].
      destruct q as [|p0 q]; [by rewrite opens_nil_cons, orb_true_r|].
      rewrite opens_cons. case_bool_decide as Hp; simpl.
      * subst p0. unfold dir_at at 1. rewrite find_node_set. fold (dir_at q child').
        by rewrite (IH _ _ q Ev), dir_at_child.
      * unfold dir_at at 1. rewrite find_node_set_ne, orb_false_r by done. done.
Qed.

(** ** The invariant along the walk *)

Lemma wf_node_unfold p t :
  wf_node p t <->
  (forall g, file t = Some g -> parts_of g = p) ∧
  (forall ch, children t = Some ch ->
     obj_wf ch ∧ Forall (wf_child p wf_node) ch).
Proof.
  destruct t as [n [ch|] g]; simpl; [|naive_solver].
  split.
  - intros (Hf & Hwf & Hall). split; [done|]. intros ? [= <-]. split; [done|].
    clear Hwf. induction ch as [|kc ch IH]; [constructor|].
    destruct Hall. constructor; [done|by apply IH].
  - intros [Hf Hc]. split; [done|]. destruct (Hc ch eq_refl) as [Hwf Hall].
    split; [done|]. clear Hwf Hc. induction Hall; done.
Qed.

Lemma wf_node_new_node p part : wf_node p (new_node part).
Proof. apply wf_node_unfold. done. Qed.

Lemma wf_node_root : wf_node [] root_node.
Proof. apply wf_node_unfold. split; [done|]. intros ? [= <-]. split; [apply obj_wf_nil|constructor]. Qed.

Lemma wf_node_with_file p node g :
  wf_node p node -> parts_of g = p -> wf_node p (with_file node g).
Proof.
  rewrite !wf_node_unfold. intros [_ Hc] Hg. split; [|done].
  by intros ? [= <-].
Qed.

Lemma wf_node_arrive p rest node :
  wf_node p node -> parts_of f = p ++ rest -> wf_node p (arrive f rest node).
Proof.
  destruct rest; [|done]. rewrite app_nil_r. apply wf_node_with_file.
Qed.

Lemma wf_children_or_empty p node :
  wf_node p node ->
  obj_wf (children_or_empty node) ∧
  Forall (wf_child p wf_node) (children_or_empty node).
Proof.
  intros [_ Hc]%wf_node_unfold. unfold children_or_empty.
  destruct (children node) as [ch|]; [by apply Hc|].
  split; [apply obj_wf_nil|constructor].
Qed.

Lemma wf_node_with_children p node ch :
  wf_node p node -> obj_wf ch -> Forall (wf_child p wf_node) ch ->
  wf_node p (with_children node ch).
Proof.
  rewrite !wf_node_unfold. intros [Hf _] Hwf Hall. split; [done|].
  by intros ? [= <-].
Qed.

Lemma wf_own_child p node part c :
  wf_node p node -> obj_get (children_or_empty node) part = Some c ->
  wf_child p wf_node (part, c).
Proof.
  intros [_ Hall]%wf_children_or_empty Hc%obj_get_Some_elem.
  by eapply Forall_forall in Hall.
Qed.

Lemma wf_child_at p node part :
  wf_node p node ->
  wf_node (p ++ [part]) (child_at node part) ∧ name (child_at node part) = part.
Proof.
  intros Hwf. unfold child_at.
  destruct (obj_get _ part) as [c|] eqn:E.
  - by destruct (wf_own_child _ _ _ _ Hwf E) as (_ & ? & _ & ?).
  - split; [apply wf_node_new_node|done].
Qed.

(** In a built tree no own key is a key of [Object.prototype], so a
    read leaves the tree exactly on those keys. *)
Lemma leaves_tree_wf p node part :
  wf_node p node -> leaves_tree node part = inherited_key part.
Proof.
  intros Hwf. unfold leaves_tree, js_get.
  destruct (obj_get _ part) as [c|] eqn:E.
  - destruct (wf_own_child _ _ _ _ Hwf E) as (Hi & _). simpl in Hi. by rewrite Hi.
  - by destruct (inherited_key part).
Qed.

Lemma stays_plain parts : forall p node,
  wf_node p node -> stays parts node = plain_path parts.
Proof.
  induction parts as [|part rest IH]; intros p node Hwf; [done|].
  cbn [stays plain_path forallb]. rewrite (leaves_tree_wf _ _ _ Hwf).
  f_equal. eapply IH, wf_child_at, Hwf.
Qed.

Lemma walked_wf parts : forall p node,
  wf_node p node -> walked parts node = tree_part parts.
Proof.
  induction parts as [|part rest IH]; intros p node Hwf; [done|].
  cbn [walked tree_part]. rewrite (leaves_tree_wf _ _ _ Hwf).
  destruct (inherited_key part); [done|]. f_equal. eapply IH, wf_child_at, Hwf.
Qed.

Lemma tree_part_plain parts : plain_path parts = true -> tree_part parts = parts.
Proof.
  induction parts as [|part rest IH]; [done|]. cbn [plain_path forallb tree_part].
  intros [Hp Hr]%andb_true_iff. destruct (inherited_key part); [done|].
  f_equal. by apply IH.
Qed.

Lemma plain_path_prefix q parts :
  q `prefix_of` parts -> plain_path parts = true -> plain_path q = true.
Proof.
  intros [r ->]. unfold plain_path. rewrite forallb_app.
  by intros [? _]%andb_true_iff.
Qed.

Lemma proto_key_plain part : inherited_key part = false -> proto_key part = false.
Proof.
  intros H. destruct (proto_key part) eqn:E; [|done].
  apply inherited_proto_key in E. congruence.
Qed.

Lemma inhabited_with_file node g : inhabited (with_file node g) = true.
Proof. unfold inhabited. simpl. by destruct (children node). Qed.

Lemma inhabited_with_children node ch : inhabited (with_children node ch) = true.
Proof. done. Qed.

(** A walk keeps the invariant, gives a node that can be shown under
    the same name, and, having a result, did not reach
    [Object.prototype]. *)
Lemma visit_arrive_wf rest : forall p node t,
  wf_node p node -> parts_of f = p ++ rest ->
  visit f rest (arrive f rest node) = Some t ->
  wf_node p t ∧ name t = name node ∧ inhabited t = true ∧
  reaches_prototype rest = false.
Proof.
  induction rest as [|part rest IH]; intros p node t Hwf Hp.
  - intros [= <-].
    split_and!; [by apply (wf_node_arrive p [])|done|apply inhabited_with_file|done].
  - cbn [arrive]. rewrite visit_cons, (leaves_tree_wf _ _ _ Hwf).
    destruct (wf_children_or_empty _ _ Hwf) as [Hch Hall].
    destruct (inherited_key part) eqn:Ei.
    + case_match eqn:Er; [done|]. intros [= <-].
      split_and!; [by apply wf_node_with_children|done..].
    + destruct (visit f rest _) as [child'|] eqn:Ev; [|done]. intros [= <-].
      destruct (wf_child_at _ _ part Hwf) as [Hc Hn].
      apply IH with (p := p ++ [part]) in Ev as (Hc' & Hn' & Hi' & Hr');
        [|done|by rewrite <- app_assoc].
      split_and!; [|done|done|].
      * apply wf_node_with_children; [done|by apply obj_set_wf|].
        apply Forall_obj_set; [done|]. split_and!; simpl; [done|congruence|done..].
      * unfold reaches_prototype in *. simpl. by rewrite Hr', proto_key_plain.
Qed.

(** A walk that does not reach [Object.prototype] has a result. *)
Lemma visit_is_Some parts : forall node,
  reaches_prototype parts = false -> is_Some (visit f parts node).
Proof.
  induction parts as [|part rest IH]; intros node Hr; [done|].
  rewrite visit_cons, Hr. case_match; [done|].
  apply orb_false_iff in Hr as [_ Hr].
  destruct (IH (arrive f rest (child_at node part)) Hr) as [c ->]. done.
Qed.

End Visit.

(** ** The built tree *)

Section Build.
Implicit Types (files : list GeneratedFile) (g : GeneratedFile) (t : TreeNode).

Lemma parts_of_nonempty g : parts_of g <> [].
Proof. apply split_nonempty. Qed.

Lemma buildFileTree_snoc files g :
  buildFileTree (files ++ [g]) = buildFileTree files ≫= visit g (parts_of g).
Proof. unfold buildFileTree. by rewrite fold_left_snoc. Qed.

(** Induction on the records in the order the loop takes them. *)
Lemma buildFileTree_ind (P : list GeneratedFile -> TreeNode -> Prop) :
  P [] root_node ->
  (forall files g t t',
     buildFileTree files = Some t -> P files t ->
     visit g (parts_of g) (arrive g (parts_of g) t) = Some t' ->
     P (files ++ [g]) t') ->
  forall files t, buildFileTree files = Some t -> P files t.
Proof.
  intros Hroot Hstep files.
  induction files as [|g files IH] using rev_ind; intros t.
  - by intros [= <-].
  - rewrite buildFileTree_snoc.
    destruct (buildFileTree files) as [t0|] eqn:E; [|done]. simpl.
    rewrite visit_nonempty_arrive by apply parts_of_nonempty. eauto.
Qed.

Lemma built_wf files t : buildFileTree files = Some t -> wf_node [] t.
Proof.
  revert files t. apply buildFileTree_ind; [apply wf_node_root|].
  intros files g t t' _ Hwf Hv. by eapply (visit_arrive_wf g _ []).
Qed.

Lemma built_name files t : buildFileTree files = Some t -> name t = "root".
Proof.
  revert files t. apply buildFileTree_ind; [done|].
  intros files g t t' Ht Hn Hv.
  eapply (visit_arrive_wf g _ []) in Hv as (_ & -> & _); [|by eapply built_wf|done].
  by destruct (parts_of g).
Qed.

Lemma built_isDirectory files t : buildFileTree files = Some t -> isDirectory t = true.
Proof.
  revert files t. apply buildFileTree_ind; [done|].
  intros files g t t' _ Hd. pose proof (parts_of_nonempty g).
  destruct (parts_of g) as [|part rest]; [done|]. cbn [arrive].
  rewrite visit_cons. destruct (leaves_tree t part).
  - case_match; [done|]. by intros [= <-].
  - destruct (visit g rest _); [|done]. by intros [= <-].
Qed.

(** A read leaves a tree without inherited names among its keys exactly
    at the keys of [Object.prototype]. *)
Lemma leaves_tree_inherited node part :
  Forall (fun k => inherited_key k = false) (obj_keys (children_or_empty node)) ->
  leaves_tree node part = inherited_key part.
Proof.
  intros Hall. unfold leaves_tree, js_get.
  destruct (obj_get _ part) as [child|] eqn:E; [|by destruct (inherited_key part)].
  symmetry. rewrite Forall_forall in Hall. apply Hall.
  apply obj_get_Some_elem in E. apply list_elem_of_fmap. by exists (part, child).
Qed.

(** The children object of the root, without its values, is the object
    the first segments of the paths are assigned to in turn. *)
Lemma built_shape files t :
  buildFileTree files = Some t ->
  prod_map id (fun _ => ()) <$> children_or_empty t =
  obj_of_list ((fun g => (top_name g, ())) <$>
                 filter (fun g => inherited_key (top_name g) = false) files).
Proof.
  revert files t. apply buildFileTree_ind; [done|].
  intros files g t t' Ht IH Hv.
  assert (leaves_tree t (top_name g) = inherited_key (top_name g)) as Hleave.
  { apply leaves_tree_inherited, Forall_forall. intros k Hk.
    rewrite <- (obj_keys_fmap (fun _ => ())), IH in Hk.
    apply (proj1 (obj_of_list_keys _ _)) in Hk. rewrite <- list_fmap_compose in Hk.
    apply list_elem_of_fmap in Hk as (g' & -> & Hg').
    by apply list_elem_of_filter in Hg' as [? _]. }
  pose proof (parts_of_nonempty g) as Hne.
  destruct (parts_of g) as [|part rest] eqn:Hparts; [done|].
  assert (top_name g = part) as Hname by (unfold top_name; by rewrite Hparts).
  rewrite Hname in Hleave. cbn [arrive] in Hv. rewrite visit_cons, Hleave in Hv.
  rewrite filter_app, filter_cons, filter_nil, Hname.
  destruct (inherited_key part).
  - rewrite decide_False, app_nil_r by done.
    destruct (reaches_prototype _); [done|]. by injection Hv as <-.
  - rewrite decide_True, fmap_app, fmap_cons, fmap_nil, obj_of_list_snoc by done.
    simpl.
    destruct (visit g rest _) as [child'|]; [|done]. injection Hv as <-.
    cbn [children_or_empty children with_children default id].
    by rewrite obj_set_fmap, IH, Hname.
Qed.

Lemma built_top_names files t :
  buildFileTree files = Some t -> obj_keys (children_or_empty t) = top_names files.
Proof.
  intros Ht. unfold top_names.
  by rewrite <- (built_shape _ _ Ht), obj_keys_fmap.
Qed.

Lemma file_at_root q : file_at q root_node = None.
Proof. by destruct q. Qed.

Lemma built_file_at files t :
  buildFileTree files = Some t ->
  forall q, file_at q t = find_last (stored_at q) files.
Proof.
  revert files t.
  apply (buildFileTree_ind
           (fun files t => forall q, file_at q t = find_last (stored_at q) files));
    [apply file_at_root|].
  intros files g t t' Ht IH Hv q.
  rewrite (visit_arrive_file_at g _ _ _ q Hv), (stays_plain _ [] t), IH, find_last_snoc
    by (by eapply built_wf).
  unfold stored_at. case_decide as Hq.
  - destruct Hq as [-> Hq]. by rewrite Hq, bool_decide_eq_true_2.
  - case_bool_decide; [|done]. subst q.
    destruct (plain_path (parts_of g)); [|done]. by destruct Hq.
Qed.

(** C2: the tree [buildFileTree] returns satisfies the invariant of
    nodes at the root path: every record sits at the path its name
    spells, every children object is in the key order of the language
    with no key twice, every child is stored under its own name and is a
    directory or carries a record; the root is the directory named
    [root]. *)
Theorem buildFileTree_well_formed files t :
  buildFileTree files = Some t ->
  wf_node [] t ∧ name t = "root" ∧ isDirectory t = true ∧ file t = None.
Proof.
  intros Ht. split_and!;
    [by eapply built_wf|by eapply built_name|by eapply built_isDirectory|].
  change (file t) with (file_at [] t). rewrite (built_file_at _ _ Ht).
  apply find_last_None, Forall_forall. intros g _. unfold stored_at.
  apply andb_false_intro1, bool_decide_eq_false_2, parts_of_nonempty.
Qed.

(** C1: last write wins.  The record found in the built tree at the
    segments of a path is the last record of the input with that path,
    and none when no record has it; this for every path with no segment
    among the keys of [Object.prototype]. *)
Theorem buildFileTree_last_write_wins files t (p : string) :
  buildFileTree files = Some t ->
  plain_path (split "/"%char p) = true ->
  file_at (split "/"%char p) t = find_last (fun g => bool_decide (path g = p)) files.
Proof.
  intros Ht Hp. rewrite (built_file_at _ _ Ht).
  apply find_last_ext. intros g. unfold stored_at, parts_of.
  rewrite Hp, andb_true_r. apply bool_decide_ext.
  split; [apply split_inj|congruence].
Qed.

Lemma buildFileTree_last_write_wins_witness :
  exists t, buildFileTree two_files = Some t ∧
    file_at (split "/"%char "a/b/d.txt") t = Some (mkFile "a/b/d.txt" (JString "y")).
Proof.
  destruct (buildFileTree two_files) as [t|] eqn:E; [|by vm_compute in E].
  exists t. split; [done|].
  by rewrite (buildFileTree_last_write_wins two_files t "a/b/d.txt" E eq_refl).
Defined.

Lemma buildFileTree_well_formed_witness :
  exists t, buildFileTree two_files = Some t ∧ wf_node [] t.
Proof.
  destruct (buildFileTree two_files) as [t|] eqn:E; [|by vm_compute in E].
  exists t. split; [done|]. by destruct (buildFileTree_well_formed two_files t E).
Defined.

Lemma dir_at_root q : dir_at q root_node = bool_decide (q = []).
Proof. by destruct q. Qed.

Lemma built_dir_at files t :
  buildFileTree files = Some t ->
  forall q, dir_at q t =
    bool_decide (q = []) ||
    existsb (fun g => opens q (parts_of g) (tree_part (parts_of g))) files.
Proof.
  revert files t.
  apply (buildFileTree_ind (fun files t => forall q, dir_at q t =
           bool_decide (q = []) ||
           existsb (fun g => opens q (parts_of g) (tree_part (parts_of g))) files)).
  { intros q. by rewrite dir_at_root, orb_false_r. }
  intros files g t t' Ht IH Hv q.
  rewrite (visit_arrive_dir_at g _ _ _ q Hv), (walked_wf _ [] t), IH, existsb_app
    by (by eapply built_wf).
  simpl. by rewrite orb_false_r, orb_assoc.
Qed.

Lemma built_dir_at_false files t q :
  buildFileTree files = Some t ->
  dir_at q t = false <->
  q <> [] ∧ ¬ exists g, g ∈ files ∧
    q `prefix_of` tree_part (parts_of g) ∧ q <> parts_of g.
Proof.
  intros Ht. rewrite <- not_true_iff_false, (built_dir_at _ _ Ht), orb_true_iff.
  rewrite bool_decide_eq_true, existsb_exists. unfold opens.
  setoid_rewrite bool_decide_eq_true. setoid_rewrite <- list_elem_of_In. tauto.
Qed.

(** The record a path shows is the last record of that path, when the
    path stays in the tree. *)
Lemma find_last_stored_at files g :
  find_last (stored_at (parts_of g)) files = Some g <->
  find_last (fun g' => bool_decide (path g' = path g)) files = Some g ∧
  plain_path (parts_of g) = true.
Proof.
  destruct (plain_path (parts_of g)) eqn:Hp.
  - rewrite (find_last_ext _ (fun g' => bool_decide (path g' = path g)));
      [naive_solver|].
    intros g'. unfold stored_at. rewrite Hp, andb_true_r. apply bool_decide_ext.
    unfold parts_of. split; [apply split_inj|congruence].
  - split; [|naive_solver].
    intros [_ [_ ?]%andb_true_iff]%find_last_Some. congruence.
Qed.

(** C4: the directories of the built tree.  The node at a path is shown
    as a directory exactly when the path is the root or a record's path
    passes through it: the path is a prefix of the segments the record's
    walk takes inside the tree, and is not the record's whole path. *)
Theorem buildFileTree_directories files t q :
  buildFileTree files = Some t ->
  dir_at q t = true <->
  q = [] ∨ exists g, g ∈ files ∧
    q `prefix_of` tree_part (parts_of g) ∧ q <> parts_of g.
Proof.
  intros Ht. rewrite (built_dir_at _ _ Ht), orb_true_iff, bool_decide_eq_true.
  rewrite existsb_exists. unfold opens. setoid_rewrite bool_decide_eq_true.
  setoid_rewrite <- list_elem_of_In. done.
Qed.

Lemma buildFileTree_directories_witness :
  exists t, buildFileTree two_files = Some t ∧ dir_at ["a"; "b"] t = true.
Proof.
  destruct (buildFileTree two_files) as [t|] eqn:E; [|by vm_compute in E].
  exists t. split; [done|]. apply (buildFileTree_directories two_files t _ E).
  right. exists (mkFile "a/b/c.txt" (JString "x")).
  split; [by left|]. split; [by exists ["c.txt"]|done].
Defined.

(** C5: a path that is both a record and a directory.  When the path
    of one record is a proper prefix of the path of another, the source
    does not fail (the specification asks for [PathConflict]): the tree
    is built, and the node at the shorter path carries the record and is
    shown as a directory. *)
Theorem buildFileTree_keeps_conflict files t g g' :
  buildFileTree files = Some t ->
  g ∈ files -> g' ∈ files -> plain_path (parts_of g') = true ->
  parts_of g `prefix_of` parts_of g' -> parts_of g <> parts_of g' ->
  dir_at (parts_of g) t = true ∧ is_Some (file_at (parts_of g) t).
Proof.
  intros Ht Hg Hg' Hplain Hpre Hne. split.
  - rewrite (built_dir_at _ _ Ht). apply orb_true_iff. right.
    apply existsb_exists. exists g'. split; [by apply list_elem_of_In|].
    unfold opens. rewrite tree_part_plain by done. by apply bool_decide_eq_true.
  - rewrite (built_file_at _ _ Ht). apply (find_last_is_Some _ _ g); [done|].
    unfold stored_at. rewrite bool_decide_eq_true_2 by done.
    by eapply plain_path_prefix.
Qed.

Lemma buildFileTree_keeps_conflict_witness :
  exists t, buildFileTree conflicting_files = Some t ∧
    dir_at ["a"] t = true ∧ is_Some (file_at ["a"] t).
Proof.
  destruct (buildFileTree conflicting_files) as [t|] eqn:E; [|by vm_compute in E].
  exists t. split; [done|].
  apply (buildFileTree_keeps_conflict conflicting_files t
           (mkFile "a" (JString "x")) (mkFile "a/b" (JString "y")) E).
  - by left.
  - right. by left.
  - done.
  - by exists ["b"].
  - done.
Defined.

(** C6: the records of the tree are records of the input.  A record
    found at a path is one of the input records, its path spells the
    path where it is found, and no segment of that path is a key of
    [Object.prototype]. *)
Theorem buildFileTree_files_sound files t q g :
  buildFileTree files = Some t -> file_at q t = Some g ->
  g ∈ files ∧ parts_of g = q ∧ plain_path q = true.
Proof.
  intros Ht. rewrite (built_file_at _ _ Ht).
  intros [Hin [Hq Hp]%andb_true_iff]%find_last_Some.
  by apply bool_decide_eq_true in Hq.
Qed.

Lemma buildFileTree_files_sound_witness :
  exists t, buildFileTree two_files = Some t ∧
    mkFile "a/b/c.txt" (JString "x") ∈ two_files.
Proof.
  destruct (buildFileTree two_files) as [t|] eqn:E; [|by vm_compute in E].
  exists t. split; [done|].
  eapply (buildFileTree_files_sound two_files t ["a"; "b"; "c.txt"] _ E).
  by vm_compute in E; injection E as <-.
Defined.

(** C7: a record is lost when a segment of its path is a key of
    [Object.prototype] such as [constructor] or [toString]: the walk
    leaves the tree at that segment and the record is stored at no path
    of the tree, although the download still contains it. *)
Theorem buildFileTree_drops_inherited files t g :
  buildFileTree files = Some t -> g ∈ files ->
  plain_path (parts_of g) = false ->
  file_at (parts_of g) t = None ∧ forall q, file_at q t <> Some g.
Proof.
  intros Ht Hg Hp. split; [|intros q]; rewrite (built_file_at _ _ Ht).
  - apply find_last_None, Forall_forall. intros g' _. unfold stored_at.
    by rewrite Hp, andb_false_r.
  - intros [_ [Hq Hq']%andb_true_iff]%find_last_Some.
    apply bool_decide_eq_true in Hq. congruence.
Qed.

Lemma buildFileTree_drops_inherited_witness :
  exists t, buildFileTree [mkFile "nginx/constructor/main.yml" (JString "x")] = Some t ∧
    file_at ["nginx"; "constructor"; "main.yml"] t = None.
Proof.
  destruct (buildFileTree [mkFile "nginx/constructor/main.yml" (JString "x")])
    as [t|] eqn:E; [|by vm_compute in E].
  exists t. split; [done|].
  apply (buildFileTree_drops_inherited _ t
           (mkFile "nginx/constructor/main.yml" (JString "x")) E); [by left|done].
Defined.

(** C8: every record is shown.  A record of the input whose path has
    no segment among the keys of [Object.prototype] is found in the
    tree at its path, as given or replaced by a later record of the same
    path. *)
Theorem buildFileTree_files_complete files t g :
  buildFileTree files = Some t -> g ∈ files ->
  plain_path (parts_of g) = true ->
  exists g', file_at (parts_of g) t = Some g' ∧ path g' = path g ∧ g' ∈ files.
Proof.
  intros Ht Hg Hp. rewrite (built_file_at _ _ Ht).
  destruct (find_last_is_Some (stored_at (parts_of g)) files g Hg) as [g' Hg'].
  { unfold stored_at. by rewrite Hp, bool_decide_eq_true_2. }
  exists g'. split; [done|].
  apply find_last_Some in Hg' as [Hin [Hq _]%andb_true_iff].
  apply bool_decide_eq_true, split_inj in Hq. done.
Qed.

Lemma buildFileTree_files_complete_witness :
  exists t g', buildFileTree two_files = Some t ∧
    file_at ["a"; "b"; "c.txt"] t = Some g' ∧ path g' = "a/b/c.txt".
Proof.
  destruct (buildFileTree two_files) as [t|] eqn:E; [|by vm_compute in E].
  destruct (buildFileTree_files_complete two_files t
              (mkFile "a/b/c.txt" (JString "x")) E) as (g' & ? & ? & _);
    [by left|done|].
  by exists t, g'.
Defined.

(** Without a segment [__proto__] there is a tree. *)
Lemma buildFileTree_is_Some files :
  Forall (fun g => reaches_prototype (parts_of g) = false) files ->
  is_Some (buildFileTree files).
Proof.
  induction files as [|g files IH] using rev_ind; [by eexists|].
  intros [Hfiles Hg%Forall_inv]%Forall_app. rewrite buildFileTree_snoc.
  destruct (IH Hfiles) as [t ->]. by apply visit_is_Some.
Qed.

Lemma reaches_prototype_plain parts :
  plain_path parts = true -> reaches_prototype parts = false.
Proof.
  unfold plain_path, reaches_prototype. induction parts as [|part rest IH]; [done|].
  simpl. intros [Hp Hr]%andb_true_iff.
  rewrite proto_key_plain by (by destruct (inherited_key part)). by apply IH.
Qed.

(** C3: [buildFileTree] has a result exactly when no segment of any
    path is [__proto__], the one case where the walk writes to
    [Object.prototype]: the model covers every other input. *)
Theorem buildFileTree_total files :
  is_Some (buildFileTree files) <->
  Forall (fun g => reaches_prototype (parts_of g) = false) files.
Proof.
  split; [|apply buildFileTree_is_Some].
  intros [t Ht]. revert files t Ht.
  apply (buildFileTree_ind (fun files _ =>
           Forall (fun g => reaches_prototype (parts_of g) = false) files));
    [constructor|].
  intros files g t t' Ht IH Hv. apply Forall_app. split; [done|].
  eapply (visit_arrive_wf g _ []) in Hv as (_ & _ & _ & Hr);
    [by repeat constructor|by eapply built_wf|done].
Qed.

End Build.
