(* ===== verification/Generator.v ===== *)
(** * Generator: the prompt, the request and the reading of the answer

    [buildPrompt] and [generateAnsibleRole] of
    [src/services/geminiService.ts].  The function builds the prompt,
    awaits the answer of the generation service, trims its text, parses
    it as JSON, turns the entries of the parsed value into records, and
    throws when there is none.  A [catch] around the parsing rethrows the
    error of the empty set, recognised by a fragment of its message, and
    replaces every other error by one fixed message.

    The service and the two built-in functions whose error messages
    depend on the engine are parameters: [Engine] gives [JSON.parse] and
    the messages, the service is an argument of [generateAnsibleRole].
    A promise is modelled by the completion it settles with.  Writing to
    the console (line 62) is not modelled.

    The class [TextEngine] is the promise of an engine to read a text
    as the grammar of [JsonText] does; [text_engine] is the reader as
    an engine, and the engine of the examples. *)

From S2P Require Import Prelude JsString JsObject Json JsonText.
From Stdlib Require Import Ascii.
From Stdlib Require QArith_base.

(** ** Definitions *)

(** The template of lines 5-29 before and after [${description}]. *)
Definition prompt_prefix : string :=
"
    Act as a senior DevOps engineer specializing in Ansible automation.
    Your task is to generate a complete and professional Ansible role based on the user's request.

    **User's Request:**
    ---
    ".

Definition prompt_suffix : string :=
"
    ---

    **Instructions:**
    1.  Infer the role name from the user's request (e.g., 'nginx', 'docker', 'mysql'). If it's complex, use a descriptive name. The role name should be the top-level directory.
    2.  Create a standard Ansible role directory structure.
    3.  Generate the content for all necessary files, including:
        - `defaults/main.yml`: For default variables.
        - `vars/main.yml`: For non-overridable variables if needed.
        - `tasks/main.yml`: The main entry point for tasks. Break down complex logic into separate, included task files (e.g., `tasks/install.yml`, `tasks/configure.yml`).
        - `handlers/main.yml`: For service restarts and other handlers.
        - `templates/...`: Any necessary template files (e.g., configuration files, virtual hosts). Use the .j2 extension.
        - `meta/main.yml`: Role metadata, including dependencies if any can be inferred.
    4.  Ensure all YAML is valid and all Ansible modules are used correctly.
    5.  The code should be well-commented and follow Ansible best practices.

    **Output Format:**
    Return a single, valid JSON object. The keys must be the full file paths (e.g., 'rolename/tasks/main.yml'), and the values must be the complete content of each file as a string. Do not include any explanations, markdown formatting, or code fences outside of the JSON object. The entire response must be only the JSON object itself.
    ".

(** [buildPrompt(description)] (lines 4-30) *)
Definition buildPrompt (description : string) : string :=
  (prompt_prefix +:+ description +:+ prompt_suffix)%stdpp.

(** The argument of [ai.models.generateContent] (lines 37-44). *)
Record Request : Type := mkRequest {
  model : string;
  contents : string;
  responseMimeType : string;
  temperature : QArith_base.Q
}.

(** What the source reads of the answer: [response.text], which the
    service leaves undefined when the answer has no text part. *)
Record Response : Type := mkResponse { text : option string }.

(** The generation service at the time of one call. *)
Definition Service : Type := Request -> Completion Response.

Definition generation_request (prompt : string) : Request :=
  {| model := "gemini-2.5-pro";
     contents := prompt;
     responseMimeType := "application/json";
     temperature := QArith_base.Qmake 2 10 |}.

(** The built-in functions whose results depend on the engine:
    [JSON.parse], which returns a value or throws a [SyntaxError] with
    a message of the engine's choice, and the messages of the two
    [TypeError]s the function can meet. *)
Class Engine : Type := {
  JSON_parse : string -> Completion json;
  entries_null_message : string;
  undefined_trim_message : string
}.

(** What holds of every engine: an object [JSON.parse] returns has its
    properties in the order of the language, no key twice. *)
Class EngineLaws (E : Engine) : Prop := {
  JSON_parse_object :
    forall s value, JSON_parse s = Normal value -> object_wf value
}.

(** An engine that agrees with the grammar of [JsonText]: it returns
    the value the reader accepts and throws a [SyntaxError], an [Error]
    with some message, on a text the reader rejects. *)
Class TextEngine (E : Engine) : Prop := {
  JSON_parse_accepts : forall text value rest,
    JSON_parse_text text = Accepted value rest -> JSON_parse text = Normal value;
  JSON_parse_rejects : forall text,
    JSON_parse_text text = Rejected ->
    exists message, JSON_parse text = Throw (ErrorObject message)
}.

(** The two messages of the source (lines 56 and 66) and the fragment
    the [catch] looks for (line 63). *)
Definition empty_message : string :=
  "The model returned an empty set of files. Please try a different description.".

Definition parse_message : string :=
  "Could not parse the generated content. The model may have returned an invalid format. Check the console for the raw response.".

Definition empty_marker : string := "empty set of files".

Section Generate.
Context `{E : Engine}.

(** The [try] block (lines 48-59). *)
Definition read_files (text : string) : Completion (list GeneratedFile) :=
  bindC (JSON_parse text) (fun jsonObject =>
  bindC (entries_of entries_null_message jsonObject) (fun entries =>
  let files := to_file <$> entries in
  if decide (length files = 0) then Throw (ErrorObject empty_message)
  else Normal files)).

(** The [catch] block (lines 61-67). *)
Definition rethrow (e : Thrown) : Completion (list GeneratedFile) :=
  match e with
  | ErrorObject message =>
    if includes message empty_marker then Throw e
    else Throw (ErrorObject parse_message)
  | NonError => Throw (ErrorObject parse_message)
  end.

(** [response.text.trim()] (line 46): reading [trim] of an undefined
    text throws. *)
Definition trimmed_text (response : Response) : Completion string :=
  match text response with
  | Some t => Normal (trim t)
  | None => Throw (ErrorObject undefined_trim_message)
  end.

(** [generateAnsibleRole(description)] (lines 32-68) *)
Definition generateAnsibleRole (service : Service) (description : string)
  : Completion (list GeneratedFile) :=
  let prompt := buildPrompt description in
  bindC (service (generation_request prompt)) (fun response =>
  bindC (trimmed_text response) (fun text =>
  catchC (read_files text) rethrow)).

End Generate.

(** The engine made of the reader of [JsonText]; [syntax_message] is
    the message of its [SyntaxError] for a text.  (On a text outside
    the model it throws too: no theorem is about such a text.) *)
Definition text_engine (syntax_message : string -> string) : Engine :=
  {| JSON_parse text :=
       match JSON_parse_text text with
       | Accepted value _ => Normal value
       | Rejected | Unmodelled | OutOfFuel => Throw (ErrorObject (syntax_message text))
       end;
     entries_null_message := "Cannot convert undefined or null to object";
     undefined_trim_message := "Cannot read properties of undefined (reading 'trim')" |}.

(** The message of an engine that quotes the text, and of one that
    does not. *)
Definition quoting_message (text : string) : string :=
  "Unexpected token in JSON: " +:+ text.

Definition plain_message (text : string) : string := "Unexpected token in JSON".

(** An answer in a code fence, and a sentence in place of the object. *)
Definition fenced_answer : string :=
  "```json
{}
```".

Definition prose_answer : string := "I would return an empty set of files.".

(** A service that answers every request with the same text. *)
Definition answering (answer : string) : Service :=
  fun _ => Normal (mkResponse (Some answer)).

(** The answer of the scenario of the specification, as the text the
    service sends: the line feed of the content is the escape of JSON. *)
Definition dq : string := String (ascii_of_nat 34) EmptyString.

Definition nginx_answer : string :=
  ("{" +:+ dq +:+ "nginx/tasks/main.yml" +:+ dq +:+ ": " +:+ dq +:+
   "- name: install\n" +:+ dq +:+ "}")%stdpp.

Definition number_answer : string :=
  ("{" +:+ dq +:+ "a" +:+ dq +:+ ": 1}")%stdpp.

(** An answer whose paths are numbers, the larger one first. *)
Definition numbered_answer : string :=
  ("{" +:+ dq +:+ "10" +:+ dq +:+ ": 1, " +:+ dq +:+ "2" +:+ dq +:+ ": 2}")%stdpp.

Definition numbered_members : list (string * json) :=
  [("10", JNumber "1"); ("2", JNumber "2")].

(** The engine of the examples quotes the text in its message. *)
Definition demo_engine : Engine := text_engine quoting_message.

(** The number of positions of [hay] at which [needle] starts. *)
Fixpoint occurrences (hay needle : string) : nat :=
  (if startsWith hay needle then 1 else 0) +
  match hay with
  | EmptyString => 0
  | String _ hay' => occurrences hay' needle
  end.

(** ** The prompt *)

Lemma buildPrompt_unfold d : buildPrompt d = (prompt_prefix +:+ d +:+ prompt_suffix)%stdpp.
Proof. done. Qed.

(** The prompt determines the description: two descriptions with the
    same prompt are equal, so no two requests of the user are sent as
    the same text. *)
Theorem buildPrompt_inj d1 d2 : buildPrompt d1 = buildPrompt d2 -> d1 = d2.
Proof.
  rewrite !buildPrompt_unfold. intros H%append_inv_l. by eapply append_inv_r.
Qed.

Lemma buildPrompt_inj_witness :
  buildPrompt "install nginx" = buildPrompt "install nginx" ∧
  "install nginx" = "install nginx".
Proof. split; [reflexivity|]. apply buildPrompt_inj. reflexivity. Defined.

(** A description that is a word of the template occurs more than once
    in its prompt. *)
Lemma buildPrompt_not_once :
  occurrences (buildPrompt "Ansible") "Ansible" = 6.
Proof. by vm_compute. Qed.

(** C18: the prompt contains the description verbatim, between the
    fixed text that ends with the first [---] line and the fixed text
    that starts with the second; nothing else depends on the
    description, and no other description has the same prompt.  The
    description need not occur exactly once, as the specification
    states: the word [Ansible] occurs six times in its prompt. *)
Theorem buildPrompt_embeds d :
  includes (buildPrompt d) d = true ∧
  startsWith (buildPrompt d) prompt_prefix = true ∧
  endsWith (buildPrompt d) prompt_suffix = true ∧
  String.length (buildPrompt d) = 1640 + String.length d ∧
  (forall d', buildPrompt d = buildPrompt d' -> d = d') ∧
  occurrences (buildPrompt "Ansible") "Ansible" = 6.
Proof.
  split_and!; [rewrite buildPrompt_unfold..|apply buildPrompt_inj|apply buildPrompt_not_once].
  - apply includes_spec. by exists prompt_prefix, prompt_suffix.
  - apply startsWith_spec. by eexists.
  - apply endsWith_spec. exists (prompt_prefix +:+ d)%stdpp. by rewrite append_assoc.
  - rewrite !length_append. change (String.length prompt_prefix) with 209.
    change (String.length prompt_suffix) with 1431. lia.
Qed.

(** ** Reading the answer *)

Section GenerateFacts.
Context `{E : Engine}.
Implicit Types (service : Service) (files : list GeneratedFile) (r : Thrown).

Lemma rethrow_throws r : exists r', rethrow r = Throw r'.
Proof. destruct r as [m|]; simpl; [destruct (includes m empty_marker)|]; eauto. Qed.

Lemma catch_rethrow_Normal (c : Completion (list GeneratedFile)) files :
  catchC c rethrow = Normal files <-> c = Normal files.
Proof.
  destruct c as [x|r]; simpl; [done|].
  destruct (rethrow_throws r) as [r' ->]. done.
Qed.

Lemma includes_empty_message : includes empty_message empty_marker = true.
Proof. by vm_compute. Qed.

Lemma includes_parse_message : includes parse_message empty_marker = false.
Proof. by vm_compute. Qed.

Lemma rethrow_empty : rethrow (ErrorObject empty_message) = Throw (ErrorObject empty_message).
Proof. by vm_compute. Qed.

(** The [try] block returns the records of a value that has entries. *)
Lemma read_files_Normal t files :
  read_files t = Normal files <->
  exists value entries,
    JSON_parse t = Normal value ∧
    entries_of entries_null_message value = Normal entries ∧
    files = to_file <$> entries ∧ entries <> [].
Proof.
  unfold read_files. destruct (JSON_parse t) as [value|r]; simpl;
    [|split; [done|by intros (? & ? & ? & _)]].
  destruct (entries_of _ value) as [entries|r] eqn:He; simpl;
    [|split; [done|intros (? & ? & [= <-] & ? & _); congruence]].
  rewrite length_fmap. case_decide as Hl.
  - apply nil_length_inv in Hl. split; [done|].
    intros (? & ? & [= <-] & ? & _ & ?). congruence.
  - split; [intros [= <-]; exists value, entries; split_and!; try done; by intros ->|].
    intros (? & ? & [= <-] & ? & -> & _). congruence.
Qed.

(** The three ways the [try] block throws. *)
Lemma read_files_Throw t r :
  read_files t = Throw r <->
  JSON_parse t = Throw r ∨
  (JSON_parse t = Normal JNull ∧ r = ErrorObject entries_null_message) ∨
  (exists value, JSON_parse t = Normal value ∧
     entries_of entries_null_message value = Normal [] ∧
     r = ErrorObject empty_message).
Proof.
  unfold read_files. destruct (JSON_parse t) as [value|r0]; simpl.
  2: { split; [intros [= ->]; by left|].
       intros [[= ->]|[[? _]|(? & ? & _)]]; done. }
  destruct (entries_of _ value) as [entries|r0] eqn:He; simpl.
  - rewrite length_fmap. case_decide as Hl.
    + apply nil_length_inv in Hl. subst entries. split.
      * intros [= <-]. right. right. by exists value.
      * intros [?|[[[= ->] _]|(? & _ & _ & ->)]]; done.
    + split; [done|].
      intros [?|[[[= ->] _]|(? & [= <-] & Hnil & _)]]; [done|done|].
      rewrite He in Hnil. by simplify_eq.
  - apply entries_of_throws in He as [-> ->]. split.
    + intros [= <-]. right. by left.
    + intros [?|[[_ ->]|(? & [= <-] & ? & _)]]; done.
Qed.

(** What the [catch] makes of what the [try] throws. *)
Lemma rethrow_cases r r' :
  rethrow r = Throw r' ->
  (exists m, r = ErrorObject m ∧ includes m empty_marker = true ∧ r' = r) ∨
  r' = ErrorObject parse_message.
Proof.
  destruct r as [m|]; simpl; [|intros [= <-]; by right].
  destruct (includes m empty_marker) eqn:Em; intros [= <-]; [left; eauto|by right].
Qed.

(** The function after an answer with a text. *)
Lemma generateAnsibleRole_answer service d t :
  service (generation_request (buildPrompt d)) = Normal (mkResponse (Some t)) ->
  generateAnsibleRole service d = catchC (read_files (trim t)) rethrow.
Proof. unfold generateAnsibleRole. by intros ->. Qed.

Lemma generateAnsibleRole_value service d t value entries :
  service (generation_request (buildPrompt d)) = Normal (mkResponse (Some t)) ->
  JSON_parse (trim t) = Normal value ->
  entries_of entries_null_message value = Normal entries ->
  generateAnsibleRole service d =
  if decide (entries = []) then Throw (ErrorObject empty_message)
  else Normal (to_file <$> entries).
Proof.
  intros Hs Hp He. rewrite (generateAnsibleRole_answer _ _ _ Hs).
  unfold read_files. rewrite Hp. simpl. rewrite He. simpl. rewrite length_fmap.
  destruct entries; [by vm_compute|done].
Qed.

(** The function never returns an empty list. *)
Lemma generateAnsibleRole_nonempty service d files :
  generateAnsibleRole service d = Normal files -> files <> [].
Proof.
  unfold generateAnsibleRole.
  destruct (service _) as [[[t|]]|r]; simpl; [|done..].
  rewrite catch_rethrow_Normal, read_files_Normal.
  intros (value & entries & _ & _ & -> & Hne). by destruct entries.
Qed.

(** C9: success.  [generateAnsibleRole] returns records exactly when
    the service answered with a text that, trimmed, parses to a value
    with at least one entry; the records are the entries in enumeration
    order, each key a path and each value a content. *)
Theorem generateAnsibleRole_success service d files :
  generateAnsibleRole service d = Normal files <->
  exists t value entries,
    service (generation_request (buildPrompt d)) = Normal (mkResponse (Some t)) ∧
    JSON_parse (trim t) = Normal value ∧
    entries_of entries_null_message value = Normal entries ∧
    files = to_file <$> entries ∧ entries <> [].
Proof.
  split.
  - unfold generateAnsibleRole.
    destruct (service _) as [[[t|]]|r] eqn:Hs; simpl; [|done..].
    rewrite catch_rethrow_Normal, read_files_Normal.
    intros (value & entries & ?). by exists t, value, entries.
  - intros (t & value & entries & Hs & Hp & He & -> & Hne).
    rewrite (generateAnsibleRole_value _ _ _ _ _ Hs Hp He). by rewrite decide_False.
Qed.

(** C10: the errors.  When [generateAnsibleRole] throws, what it throws
    is the error of the service unchanged, or the [TypeError] of an
    answer without text, or the error of the empty set, or the fixed
    parse message, or an error of the engine whose message happens to
    contain the fragment the [catch] looks for. *)
Theorem generateAnsibleRole_errors service d r :
  generateAnsibleRole service d = Throw r ->
  service (generation_request (buildPrompt d)) = Throw r ∨
  (service (generation_request (buildPrompt d)) = Normal (mkResponse None) ∧
   r = ErrorObject undefined_trim_message) ∨
  r = ErrorObject empty_message ∨
  r = ErrorObject parse_message ∨
  (exists m, r = ErrorObject m ∧ includes m empty_marker = true ∧
     ((exists t, JSON_parse t = Throw r) ∨ m = entries_null_message)).
Proof.
  unfold generateAnsibleRole.
  destruct (service _) as [[[t|]]|r0] eqn:Hs; simpl.
  - destruct (read_files (trim t)) as [files|r0] eqn:Hr; simpl; [done|].
    intros [(m & Hr0 & Hm & Hr')|Hr']%rethrow_cases; subst; [|by do 3 right; left].
    apply read_files_Throw in Hr as [Hp|[[_ [= ->]]|(_ & _ & _ & [= ->])]].
    + do 4 right. exists m. eauto.
    + do 4 right. exists entries_null_message. eauto.
    + by do 2 right; left.
  - intros [= <-]. right. by left.
  - intros [= <-]. by left.
Qed.

(** The empty set.  An answer that parses to a value without
    entries (an empty object or array, an empty string, a number, a
    boolean) makes the function throw the error that asks for a
    different description. *)
Theorem generateAnsibleRole_empty service d t value :
  service (generation_request (buildPrompt d)) = Normal (mkResponse (Some t)) ->
  JSON_parse (trim t) = Normal value ->
  entries_of entries_null_message value = Normal [] ->
  generateAnsibleRole service d = Throw (ErrorObject empty_message).
Proof. intros Hs Hp He. by rewrite (generateAnsibleRole_value _ _ _ _ _ Hs Hp He). Qed.

(** A text that does not parse.  When [JSON.parse] throws an error
    whose message does not contain the fragment, the function throws the
    fixed parse message: the text of the answer and the engine's message
    are not shown. *)
Theorem generateAnsibleRole_parse_failure service d t r :
  service (generation_request (buildPrompt d)) = Normal (mkResponse (Some t)) ->
  JSON_parse (trim t) = Throw r ->
  (forall m, r = ErrorObject m -> includes m empty_marker = false) ->
  generateAnsibleRole service d = Throw (ErrorObject parse_message).
Proof.
  intros Hs Hp Hm. rewrite (generateAnsibleRole_answer _ _ _ Hs).
  unfold read_files. rewrite Hp. simpl.
  destruct r as [m|]; simpl; [|done]. by rewrite (Hm m).
Qed.

(** C13: the fragment in an engine's message.  When [JSON.parse] throws
    an error whose message contains [empty set of files] (engines quote
    the offending text), the [catch] takes it for the error of the empty
    set and rethrows it: the caller gets the engine's message, not the
    fixed one. *)
Theorem generateAnsibleRole_marker_leak service d t m :
  service (generation_request (buildPrompt d)) = Normal (mkResponse (Some t)) ->
  JSON_parse (trim t) = Throw (ErrorObject m) ->
  includes m empty_marker = true ->
  generateAnsibleRole service d = Throw (ErrorObject m).
Proof.
  intros Hs Hp Hm. rewrite (generateAnsibleRole_answer _ _ _ Hs).
  unfold read_files. rewrite Hp. simpl. by rewrite Hm.
Qed.

(** C14: an array is accepted.  An answer that parses to a non-empty
    array is not a parse failure, as the specification asks: the
    function returns one record per item, with the positions as paths. *)
Theorem generateAnsibleRole_accepts_array service d t items :
  service (generation_request (buildPrompt d)) = Normal (mkResponse (Some t)) ->
  JSON_parse (trim t) = Normal (JArray items) -> items <> [] ->
  generateAnsibleRole service d = Normal (to_file <$> indexed items) ∧
  path <$> (to_file <$> indexed items) = index_key <$> seq 0 (length items) ∧
  content <$> (to_file <$> indexed items) = items.
Proof.
  intros Hs Hp Hne. split_and!.
  - rewrite (generateAnsibleRole_value _ _ _ _ _ Hs Hp eq_refl).
    apply decide_False. by destruct items.
  - rewrite <- list_fmap_compose. apply indexed_keys.
  - rewrite <- list_fmap_compose. apply indexed_values.
Qed.

(** C15: values that are not strings are accepted.  An answer that
    parses to a non-empty object gives one record per property whatever
    the values are: a value that is not a string becomes the [content]
    of a record, against the declared type and the specification. *)
Theorem generateAnsibleRole_accepts_any_value service d t props :
  service (generation_request (buildPrompt d)) = Normal (mkResponse (Some t)) ->
  JSON_parse (trim t) = Normal (JObject props) -> props <> [] ->
  generateAnsibleRole service d = Normal (to_file <$> props) ∧
  (object_of_strings (JObject props) = false ->
   Exists (fun f => well_typed f = false) (to_file <$> props)).
Proof.
  intros Hs Hp Hne. split.
  - rewrite (generateAnsibleRole_value _ _ _ _ _ Hs Hp eq_refl). by apply decide_False.
  - apply not_object_of_strings_ill_typed.
Qed.

(** The shape the prompt asks for.  An answer that parses to a
    non-empty object of strings gives records that are all well typed,
    whose paths are the keys and whose contents the values, in the
    enumeration order of the object. *)
Theorem generateAnsibleRole_object_of_strings service d t props :
  service (generation_request (buildPrompt d)) = Normal (mkResponse (Some t)) ->
  JSON_parse (trim t) = Normal (JObject props) -> props <> [] ->
  object_of_strings (JObject props) = true ->
  exists files, generateAnsibleRole service d = Normal files ∧
    Forall (fun f => well_typed f = true) files ∧
    path <$> files = obj_keys props ∧ content <$> files = obj_values props.
Proof.
  intros Hs Hp Hne Ho. exists (to_file <$> props). split_and!.
  - rewrite (generateAnsibleRole_value _ _ _ _ _ Hs Hp eq_refl). by apply decide_False.
  - by apply object_of_strings_well_typed.
  - by rewrite <- list_fmap_compose.
  - by rewrite <- list_fmap_compose.
Qed.

(** One request.  The function uses the service for one request
    only, the prompt of the description with the model identifier, the
    JSON answer format and the temperature 0.2: two services that agree
    on it give the same result. *)
Theorem generateAnsibleRole_single_request service service' d :
  service (mkRequest "gemini-2.5-pro" (buildPrompt d) "application/json"
             (QArith_base.Qmake 2 10)) =
  service' (mkRequest "gemini-2.5-pro" (buildPrompt d) "application/json"
              (QArith_base.Qmake 2 10)) ->
  generateAnsibleRole service d = generateAnsibleRole service' d.
Proof. unfold generateAnsibleRole, generation_request. by intros ->. Qed.

(** The order of the records.  When the answer is an object text,
    the records are the properties of the object the engine creates
    from the members of the text: they are the members in the order of
    the text exactly when no key occurs twice and the keys that are
    array indices come first, in ascending order; the content of a path
    is that of its last member. *)
Theorem generateAnsibleRole_member_order service d t members :
  service (generation_request (buildPrompt d)) = Normal (mkResponse (Some t)) ->
  JSON_parse (trim t) = Normal (json_object members) -> members <> [] ->
  generateAnsibleRole service d = Normal (to_file <$> obj_of_list members) ∧
  (to_file <$> obj_of_list members = to_file <$> members <-> obj_wf members) ∧
  forall p, obj_get (obj_of_list members) p =
            snd <$> find_last (fun kv => bool_decide (kv.1 = p)) members.
Proof.
  intros Hs Hp Hne. split_and!.
  - rewrite (generateAnsibleRole_value _ _ _ _ _ Hs Hp eq_refl).
    apply decide_False. by intros ?%obj_of_list_nil_inv.
  - rewrite <- obj_of_list_fixed. split; [apply (inj (fmap to_file))|by intros ->].
  - apply obj_of_list_get.
Qed.

Section Laws.
Context `{!EngineLaws E}.

(** The paths are distinct.  With an engine that returns objects
    as the language defines them, no two records that
    [generateAnsibleRole] returns have the same path, whatever the
    answer was: an object, an array or a string. *)
Theorem generateAnsibleRole_unique_paths service d files :
  generateAnsibleRole service d = Normal files -> NoDup (path <$> files).
Proof.
  unfold generateAnsibleRole.
  destruct (service _) as [[[t|]]|r]; simpl; [|done..].
  rewrite catch_rethrow_Normal, read_files_Normal.
  intros (value & entries & Hp & He & -> & _). rewrite <- list_fmap_compose.
  eapply (entries_of_NoDup _ value); [by eapply JSON_parse_object|done].
Qed.

End Laws.

Section Grammar.
Context `{!TextEngine E}.

(** C12: a text that is not JSON.  When the trimmed answer is a syntax
    error of the grammar, the engine throws an error with a message of
    its own, and the function throws the fixed parse message, unless
    the engine's message contains the fragment the [catch] looks for:
    then the caller gets the engine's message. *)
Theorem generateAnsibleRole_syntax_error service d t :
  service (generation_request (buildPrompt d)) = Normal (mkResponse (Some t)) ->
  JSON_parse_text (trim t) = Rejected ->
  exists m, JSON_parse (trim t) = Throw (ErrorObject m) ∧
    generateAnsibleRole service d =
    Throw (ErrorObject (if includes m empty_marker then m else parse_message)).
Proof.
  intros Hs (m & Hm)%JSON_parse_rejects. exists m. split; [done|].
  rewrite (generateAnsibleRole_answer _ _ _ Hs). unfold read_files.
  rewrite Hm. simpl. by destruct (includes m empty_marker).
Qed.

End Grammar.

End GenerateFacts.

(** ** The engine of the examples *)

#[export] Instance text_engine_text syntax_message :
  TextEngine (text_engine syntax_message).
Proof.
  split; simpl; intros text.
  - by intros value rest ->.
  - intros ->. by eexists.
Qed.

#[export] Instance text_engine_laws syntax_message :
  EngineLaws (text_engine syntax_message).
Proof.
  split. simpl. intros s value.
  destruct (JSON_parse_text s) as [v rest| | |] eqn:E; [|done..].
  intros [= <-]. by apply json_ok_object_wf, (JSON_parse_text_ok s v rest).
Qed.

Lemma demo_engine_laws : EngineLaws demo_engine.
Proof. apply _. Qed.

(** ** The theorems at concrete answers *)

Lemma generateAnsibleRole_member_order_witness :
  generateAnsibleRole (E := demo_engine) (answering numbered_answer) "x" =
    Normal [mkFile "2" (JNumber "2"); mkFile "10" (JNumber "1")] ∧
  ¬ obj_wf numbered_members.
Proof.
  destruct (generateAnsibleRole_member_order (E := demo_engine)
              (answering numbered_answer) "x" numbered_answer numbered_members
              eq_refl eq_refl) as (Hrun & Horder & _); [done|].
  split; [by rewrite Hrun|]. rewrite <- Horder. by vm_compute.
Defined.

Lemma generateAnsibleRole_syntax_error_witness :
  generateAnsibleRole (E := text_engine quoting_message) (answering prose_answer) "x" =
    Throw (ErrorObject (quoting_message prose_answer)) ∧
  generateAnsibleRole (E := text_engine plain_message) (answering fenced_answer) "x" =
    Throw (ErrorObject parse_message).
Proof.
  split.
  - by destruct (generateAnsibleRole_syntax_error (E := text_engine quoting_message)
      (answering prose_answer) "x" prose_answer eq_refl eq_refl) as (m & [= <-] & ->).
  - by destruct (generateAnsibleRole_syntax_error (E := text_engine plain_message)
      (answering fenced_answer) "x" fenced_answer eq_refl eq_refl) as (m & [= <-] & ->).
Defined.

Lemma generateAnsibleRole_unique_paths_witness :
  NoDup (path <$> [mkFile "nginx/tasks/main.yml" (JString "- name: install
")]).
Proof.
  apply (@generateAnsibleRole_unique_paths demo_engine demo_engine_laws
           (answering nginx_answer) "install nginx").
  reflexivity.
Defined.

Lemma generateAnsibleRole_errors_witness :
  generateAnsibleRole (E := demo_engine) (answering "oops") "install nginx" =
    Throw (ErrorObject parse_message) ∧
  (answering "oops" (generation_request (buildPrompt "install nginx")) =
     Throw (ErrorObject parse_message) ∨
   (answering "oops" (generation_request (buildPrompt "install nginx")) =
      Normal (mkResponse None) ∧
    ErrorObject parse_message =
      ErrorObject (undefined_trim_message (Engine := demo_engine))) ∨
   ErrorObject parse_message = ErrorObject empty_message ∨
   ErrorObject parse_message = ErrorObject parse_message ∨
   (exists m, ErrorObject parse_message = ErrorObject m ∧
      includes m empty_marker = true ∧
      ((exists t, JSON_parse (Engine := demo_engine) t =
                    Throw (ErrorObject parse_message)) ∨
       m = entries_null_message (Engine := demo_engine)))).
Proof.
  split; [reflexivity|].
  apply (generateAnsibleRole_errors (E := demo_engine) (answering "oops")
           "install nginx" (ErrorObject parse_message)). reflexivity.
Defined.

Lemma generateAnsibleRole_empty_witness :
  generateAnsibleRole (E := demo_engine) (answering "  {}
") "install nginx" = Throw (ErrorObject empty_message).
Proof.
  exact (generateAnsibleRole_empty (E := demo_engine) (answering "  {}
") "install nginx" _ (JObject []) eq_refl eq_refl eq_refl).
Defined.

Lemma generateAnsibleRole_parse_failure_witness :
  generateAnsibleRole (E := demo_engine) (answering "oops") "install nginx" =
    Throw (ErrorObject parse_message).
Proof.
  apply (generateAnsibleRole_parse_failure (E := demo_engine) (answering "oops")
           "install nginx" "oops" (ErrorObject "Unexpected token in JSON: oops"));
    [reflexivity..|].
  intros m [= <-]. reflexivity.
Defined.

Lemma generateAnsibleRole_marker_leak_witness :
  generateAnsibleRole (E := demo_engine)
    (answering "Sorry: empty set of files") "install nginx" =
    Throw (ErrorObject "Unexpected token in JSON: Sorry: empty set of files").
Proof.
  exact (generateAnsibleRole_marker_leak (E := demo_engine)
           (answering "Sorry: empty set of files") "install nginx" _ _
           eq_refl eq_refl eq_refl).
Defined.

Lemma generateAnsibleRole_accepts_array_witness :
  generateAnsibleRole (E := demo_engine) (answering "[true]") "install nginx" =
    Normal [mkFile "0" (JBool true)].
Proof.
  by destruct (generateAnsibleRole_accepts_array (E := demo_engine)
                 (answering "[true]") "install nginx" _ [JBool true]
                 eq_refl eq_refl) as (-> & _).
Defined.

Lemma generateAnsibleRole_accepts_any_value_witness :
  generateAnsibleRole (E := demo_engine) (answering number_answer) "install nginx" =
    Normal [mkFile "a" (JNumber "1")] ∧
  well_typed (mkFile "a" (JNumber "1")) = false.
Proof.
  split; [|reflexivity].
  by destruct (generateAnsibleRole_accepts_any_value (E := demo_engine)
                 (answering number_answer) "install nginx" _ [("a", JNumber "1")]
                 eq_refl eq_refl) as (-> & _).
Defined.

Lemma generateAnsibleRole_object_of_strings_witness :
  generateAnsibleRole (E := demo_engine) (answering nginx_answer) "install nginx" =
    Normal [mkFile "nginx/tasks/main.yml" (JString "- name: install
")] ∧
  exists files,
    generateAnsibleRole (E := demo_engine) (answering nginx_answer) "install nginx" =
      Normal files ∧
    Forall (fun f => well_typed f = true) files ∧
    path <$> files = ["nginx/tasks/main.yml"] ∧
    content <$> files = [JString "- name: install
"].
Proof.
  split; [reflexivity|].
  apply (generateAnsibleRole_object_of_strings (E := demo_engine)
           (answering nginx_answer) "install nginx" nginx_answer
           [("nginx/tasks/main.yml", JString "- name: install
")]); done.
Defined.

Lemma generateAnsibleRole_single_request_witness :
  generateAnsibleRole (E := demo_engine) (answering "{}") "x" =
  generateAnsibleRole (E := demo_engine)
    (fun request => if decide (model request = "gemini-2.5-pro")
                    then Normal (mkResponse (Some "{}")) else Throw NonError) "x".
Proof.
  apply (generateAnsibleRole_single_request (E := demo_engine)). reflexivity.
Defined.
