(* ===== verification/Response.v ===== *)
(** * Response: from the text of the answer to the records

    [generateAnsibleRole] trims the text of the answer, parses it and
    turns the entries of the value into records ([geminiService.ts]
    lines 46-59).  [Generator] states what the function does for any
    engine; this file adds what an engine does with a text, by the
    grammar of [JsonText], and follows a text through the function:
    the text a service writes for a set of files, with the empty set
    among them.  The theorems are proved for any engine of the class
    [Generator.TextEngine], which reads the texts of the model as the
    grammar says. *)

From S2P Require Import Prelude JsString JsObject Json JsonText Generator.
From Stdlib Require Import Ascii.

(** ** Definitions *)

(** A set of files as the prompt asks for it: the members of the
    object, a path and a content each, and the text of that object. *)
Definition file_members (files : list (string * string)) : list (string * json) :=
  (fun pc => (pc.1, JString pc.2)) <$> files.

Definition files_text (files : list (string * string)) : string :=
  json_text (JObject (file_members files)).

(** The records of a set of files, in its order. *)
Definition file_set (files : list (string * string)) : list GeneratedFile :=
  (fun pc => mkFile pc.1 (JString pc.2)) <$> files.

(** A set of files with a path that is an array index, and a line
    tabulation: white space that [trim] removes and the grammar does
    not know. *)
Definition indexed_files : list (string * string) :=
  [("web/tasks/main.yml", "- debug:"); ("7", "x"); ("README.md", "")].

Definition line_tabulation : string := String "011"%char EmptyString.

(** ** Sets of files *)

Section Files.
Implicit Types (files : list (string * string)).

Lemma file_members_keys files : (file_members files).*1 = files.*1.
Proof. unfold file_members. by rewrite <- list_fmap_compose. Qed.

Lemma file_members_literals files :
  Forall (fun kv => literals_ok kv.2) (file_members files).
Proof. unfold file_members. by apply Forall_fmap, Forall_true. Qed.

Lemma file_members_norm files : norm_member <$> file_members files = file_members files.
Proof.
  unfold file_members. rewrite <- list_fmap_compose. by apply list_fmap_ext.
Qed.

Lemma to_file_members files : to_file <$> file_members files = file_set files.
Proof. unfold file_members, file_set. by rewrite <- list_fmap_compose. Qed.

Lemma file_members_nil files : file_members files = [] <-> files = [].
Proof. by destruct files. Qed.

End Files.

(** ** Following a text through [generateAnsibleRole] *)

Section Text.
Context `{E : Engine} `{!TextEngine E}.
Implicit Types (service : Service) (members : list (string * json)).
Implicit Types (files : list (string * string)).

(** The text of an object, between white space: the records are the
    properties of the object the engine makes of the members. *)
Lemma generateAnsibleRole_object_text service d pre members post :
  service (generation_request (buildPrompt d)) =
    Normal (mkResponse (Some (pre +:+ json_text (JObject members) +:+ post))) ->
  all_white pre = true -> all_white post = true ->
  Forall (fun kv => literals_ok kv.2) members ->
  generateAnsibleRole service d =
  if decide (members = []) then Throw (ErrorObject empty_message)
  else Normal (to_file <$> obj_of_list (norm_member <$> members)).
Proof.
  intros Hs Hpre Hpost Hlit.
  assert (literals_ok (JObject members)) as Hok by (by apply literals_ok_object).
  rewrite (generateAnsibleRole_value _ _ _ (json_norm (JObject members))
             (obj_of_list (norm_member <$> members)) Hs).
  - destruct members; [done|]. rewrite !decide_False; [done..|].
    by intros H%obj_of_list_nil_inv.
  - rewrite trim_json_text by done.
    by eapply JSON_parse_accepts, JSON_parse_text_json_text.
  - done.
Qed.

(** Distinct paths none of which is an array index: the records are
    the files, in their order. *)
Lemma generateAnsibleRole_file_set service d pre files post :
  service (generation_request (buildPrompt d)) =
    Normal (mkResponse (Some (pre +:+ files_text files +:+ post))) ->
  all_white pre = true -> all_white post = true ->
  files <> [] -> NoDup files.*1 -> Forall (fun p => array_index p = None) files.*1 ->
  generateAnsibleRole service d = Normal (file_set files).
Proof.
  intros Hs Hpre Hpost Hne Hnd Hnamed.
  rewrite (generateAnsibleRole_object_text _ _ _ _ _ Hs Hpre Hpost)
    by apply file_members_literals.
  rewrite file_members_norm, decide_False by (by rewrite file_members_nil).
  rewrite (proj2 (obj_of_list_fixed _)), to_file_members; [done|].
  apply obj_wf_named; unfold obj_keys; by rewrite file_members_keys.
Qed.

(** C11: the round trip of a set of files.  When the service answers
    with the text of a set of files, white space around it or not, the
    function returns the properties of the object an engine makes of
    the members, and the error of the empty set for no file.  These are
    the files, in their order, exactly when the members are in the
    order of the language with no path twice; distinct paths none of
    which is an array index are. *)
Theorem generateAnsibleRole_roundtrip service d pre files post :
  service (generation_request (buildPrompt d)) =
    Normal (mkResponse (Some (pre +:+ files_text files +:+ post))) ->
  all_white pre = true -> all_white post = true ->
  generateAnsibleRole service d =
    (if decide (files = []) then Throw (ErrorObject empty_message)
     else Normal (to_file <$> obj_of_list (file_members files))) ∧
  (to_file <$> obj_of_list (file_members files) = file_set files <->
   obj_wf (file_members files)) ∧
  (NoDup files.*1 -> Forall (fun p => array_index p = None) files.*1 ->
   obj_wf (file_members files)).
Proof.
  intros Hs Hpre Hpost. split_and!.
  - rewrite (generateAnsibleRole_object_text _ _ _ _ _ Hs Hpre Hpost)
      by apply file_members_literals.
    rewrite file_members_norm. by destruct files.
  - rewrite <- to_file_members, <- obj_of_list_fixed.
    split; [apply (inj (fmap to_file))|by intros ->].
  - intros Hnd Hnamed. apply obj_wf_named; unfold obj_keys;
      by rewrite file_members_keys.
Qed.

End Text.

(** ** Examples with the engine of the reader *)

Lemma generateAnsibleRole_roundtrip_witness :
  generateAnsibleRole (E := text_engine plain_message)
    (answering (line_tabulation +:+ files_text indexed_files +:+ line_tabulation))
    "a web server" =
  Normal (file_set [("7", "x"); ("web/tasks/main.yml", "- debug:"); ("README.md", "")]) ∧
  JSON_parse_text (line_tabulation +:+ files_text indexed_files +:+ line_tabulation) =
  Rejected.
Proof.
  by destruct (generateAnsibleRole_roundtrip (E := text_engine plain_message)
    (answering (line_tabulation +:+ files_text indexed_files +:+ line_tabulation))
    "a web server" line_tabulation indexed_files line_tabulation eq_refl eq_refl eq_refl)
    as (-> & _).
Defined.

