(* ===== verification/Form.v ===== *)
(** * Form: the description form ([src/components/AnsibleForm.tsx])

    The form holds one piece of state, the text of the description.  Its
    submit handler calls [onSubmit] with the text when the trimmed text
    is not empty; its button is disabled while a generation runs or the
    trimmed text is empty.  The handler is the function [handleSubmit],
    which returns the argument of the call to [onSubmit], if any.  The
    text area is [required]: the browser sends no submit event for an
    empty text.  [AnsibleForm_view] is the JSX the component returns
    (lines 19-45), and [AnsibleForm_fires] reads the two conditions
    off its elements. *)

From S2P Require Import Prelude JsString Json Markup Generator.

(** ** Definitions *)

(** The initial text of the description (line 10). *)
Definition default_description : string :=
  "An Ansible role to install and configure nginx on Ubuntu 22.04. It should include a task to set up a default virtual host from a template file.".

(** [handleSubmit] (lines 12-17): [Some d] is the call [onSubmit(d)],
    [None] is no call. *)
Definition handleSubmit (description : string) : option string :=
  if truthy (trim description) then Some description else None.

(** The [disabled] attribute of the button (line 39). *)
Definition submit_disabled (isLoading : bool) (description : string) : bool :=
  isLoading || negb (truthy (trim description)).

(** The children of the button (line 42): the spinner and a text while
    a generation runs, the label otherwise. *)
Definition submit_label (isLoading : bool) : list Markup :=
  if isLoading then [Icon "LoadingSpinner" None; Text " Generating..."]
  else [Text "Generate Ansible Role"].

(** [onChange] of the text area (line 30): the text of the event
    replaces the description. *)
Definition onChange (value : string) (description : string) : string := value.

(** The [required] attribute of the text area (line 31): the browser
    holds the submit event back while the text is empty. *)
Definition required_missing (description : string) : bool :=
  negb (truthy description).

(** No submit event reaches the handler (lines 20, 31 and 39): the
    button is disabled, or the browser holds the event back. *)
Definition submit_blocked (isLoading : bool) (description : string) : bool :=
  submit_disabled isLoading description || required_missing description.

(** The text area (lines 26-34) and the button (lines 37-43). *)
Definition description_area (description : string) : Markup :=
  Element "textarea"
    [("id", Str "role-description");
     ("name", Str "role-description");
     ("value", Str description);
     ("onChange", Handle OnChange);
     ("required", Flag true);
     ("className", Str "w-full flex-grow bg-gray-700 border border-gray-600 rounded-md shadow-sm py-2 px-3 text-white focus:outline-none focus:ring-cyan-500 focus:border-cyan-500 transition resize-none");
     ("placeholder", Str "e.g., An Ansible role to install Docker on Debian 11 and add the current user to the docker group.")]
    [].

Definition submit_button (isLoading : bool) (description : string) : Markup :=
  Element "button"
    [("type", Str "submit");
     ("disabled", Flag (submit_disabled isLoading description));
     ("className", Str "w-full flex justify-center items-center bg-cyan-600 hover:bg-cyan-700 disabled:bg-gray-600 text-white font-bold py-3 px-4 rounded-lg transition duration-300 ease-in-out shadow-lg shadow-cyan-500/20 disabled:shadow-none")]
    (submit_label isLoading).

(** What the component returns (lines 19-45). *)
Definition AnsibleForm_view (isLoading : bool) (description : string) : Markup :=
  Element "form"
    [("onSubmit", Handle HandleSubmit);
     ("className", Str "space-y-6 bg-gray-800 p-6 rounded-xl border border-gray-700 h-full flex flex-col")]
    [Element "div" [("className", Str "flex flex-col flex-grow")]
       [Element "label"
          [("htmlFor", Str "role-description");
           ("className", Str "block text-lg font-semibold text-cyan-400 mb-2")]
          [Text "Describe the Ansible Role"];
        Element "p" [("className", Str "text-sm text-gray-400 mb-4")]
          [Text "Provide a detailed description of the role you want to generate. Include the software, operating system, and any specific configuration details."];
        description_area description];
     submit_button isLoading description].

(** ** Facts *)

(** The controls of the form: the change of the text is always within
    reach, the submit handler when the button is enabled and the text
    area has a text. *)
Lemma AnsibleForm_fires isLoading d :
  fires (AnsibleForm_view isLoading d) =
  (if submit_blocked isLoading d then [] else [HandleSubmit]) ++ [OnChange].
Proof.
  unfold submit_blocked, AnsibleForm_view, submit_button.
  generalize (submit_disabled isLoading d). intros disabled.
  by destruct isLoading, disabled, d.
Qed.

(** The page of the form has one control with an identifier, and its
    label names it. *)
Lemma AnsibleForm_label isLoading d :
  prop_values "id" (AnsibleForm_view isLoading d) = [Str "role-description"] ∧
  prop_values "htmlFor" (AnsibleForm_view isLoading d) = [Str "role-description"].
Proof. by destruct isLoading. Qed.

(** No element of the form has a style. *)
Lemma AnsibleForm_unstyled isLoading d :
  prop_values "style" (AnsibleForm_view isLoading d) = [].
Proof. by destruct isLoading. Qed.

(** The form has no list of items. *)
Lemma AnsibleForm_keys isLoading d : keys_unique (AnsibleForm_view isLoading d).
Proof. destruct isLoading; unfold AnsibleForm_view; keys_unique_walk. Qed.

(** The texts of the form. *)
Lemma AnsibleForm_texts isLoading d :
  texts (AnsibleForm_view isLoading d) =
  Normal ([TextOf "Describe the Ansible Role";
           TextOf "Provide a detailed description of the role you want to generate. Include the software, operating system, and any specific configuration details."] ++
          (if isLoading then [TextOf " Generating..."] else [TextOf "Generate Ansible Role"])).
Proof. by destruct isLoading. Qed.

(** The [required] attribute blocks nothing the button allows: an empty
    text is white, and the button is disabled for it. *)
Lemma submit_blocked_disabled isLoading d :
  submit_blocked isLoading d = submit_disabled isLoading d.
Proof.
  unfold submit_blocked, required_missing.
  destruct d; [by destruct isLoading|apply orb_false_r].
Qed.

Lemma handleSubmit_Some d d' :
  handleSubmit d = Some d' <-> d' = d ∧ all_white d = false.
Proof.
  unfold handleSubmit. rewrite truthy_trim.
  destruct (all_white d); simpl; naive_solver.
Qed.

Lemma handleSubmit_None d : handleSubmit d = None <-> all_white d = true.
Proof.
  unfold handleSubmit. rewrite truthy_trim. by destruct (all_white d).
Qed.

Lemma submit_disabled_false isLoading d :
  submit_disabled isLoading d = false <-> isLoading = false ∧ handleSubmit d = Some d.
Proof.
  unfold submit_disabled, handleSubmit.
  destruct isLoading, (truthy (trim d)); simpl; naive_solver.
Qed.

(** The guard of the form.  [handleSubmit] calls [onSubmit] exactly
    when the description has a character that is not white space, and
    then with the description as typed: the text that reaches
    [buildPrompt] is not trimmed. *)
Theorem handleSubmit_guard d :
  (all_white d = true -> handleSubmit d = None) ∧
  (all_white d = false -> handleSubmit d = Some d).
Proof.
  split; intros H; [by apply handleSubmit_None|by apply handleSubmit_Some].
Qed.

Lemma handleSubmit_guard_witness :
  handleSubmit "
 " = None ∧ handleSubmit " install nginx " = Some " install nginx ".
Proof.
  split; [apply (handleSubmit_guard "
 ")|apply (handleSubmit_guard " install nginx ")]; reflexivity.
Defined.

(** C22: the description reaches the prompt untrimmed.  The prompt of
    a submitted description embeds the text as typed, and it is the
    prompt of the trimmed text only when the text was trimmed already:
    the form does not establish the trimmed input the specification of
    the prompt asks for. *)
Theorem submitted_prompt_untrimmed d d' :
  handleSubmit d = Some d' ->
  buildPrompt d' = (prompt_prefix +:+ d +:+ prompt_suffix)%stdpp ∧
  (buildPrompt d' = buildPrompt (trim d) <-> trim d = d).
Proof.
  intros [-> _]%handleSubmit_Some. split; [done|].
  split; [|by intros ->]. rewrite !buildPrompt_unfold.
  intros Heq%append_inv_l. symmetry. by eapply append_inv_r.
Qed.

Lemma submitted_prompt_untrimmed_witness :
  buildPrompt " install nginx " =
    (prompt_prefix +:+ " install nginx " +:+ prompt_suffix)%stdpp ∧
  (buildPrompt " install nginx " = buildPrompt (trim " install nginx ") <->
   trim " install nginx " = " install nginx ").
Proof.
  apply (submitted_prompt_untrimmed " install nginx " " install nginx ").
  reflexivity.
Defined.
