(* ===== verification/Display.v ===== *)
(** * Display: the result panel ([src/components/CodeDisplay.tsx])

    [CodeDisplay] shows one of four panels: a spinner while a generation
    runs, the error, a placeholder when there are no files, or the file
    browser: the path of the selected file, the download button, the
    tree of files and the content of the selected file.  Its own state
    is the selected file, set by an effect whenever the list of files
    changes and by a click on a file of the tree.

    The [FileTree] component renders a node: a directory as a header
    followed by its children sorted by [localeCompare] on their names, a
    leaf as one clickable line.  Here a rendering is the list of lines
    from top to bottom ([Row]); the elements with their class names and
    icons are in [DisplayView].  The left margins the component sets are
    relative to the enclosing block, so they add up along the nesting:
    [indent] is the sum.

    [localeCompare] is a function of the host.  It is the operation of
    the class [Collator]; the laws a comparison has to satisfy for
    [Array.prototype.sort] to have a specified result are the class
    [CollatorLaws].  The sort is stable in the language; [array_sort] is
    the insertion sort, and [array_sort_unique] shows that every stable
    sort returns what it returns.

    The content of the selected file is given to React as the child of
    the code element.  [Markup.react_child] is what React makes of a
    value there: text nodes, or an error for an object.  The JSX of the
    component is in [DisplayView]. *)

From S2P Require Import Prelude JsString JsObject Json Markup FileTree.
From Stdlib Require Import Ascii.
From stdpp Require Import sorting.

(** ** Definitions *)

(** [String.prototype.localeCompare]: negative, zero or positive. *)
Class Collator : Type := { localeCompare : string -> string -> Z }.

(** A consistent comparison: a total preorder. *)
Class CollatorLaws `{Collator} : Prop := {
  localeCompare_sgn a b : Z.sgn (localeCompare a b) = (- Z.sgn (localeCompare b a))%Z;
  localeCompare_trans a b c :
    (localeCompare a b <= 0)%Z -> (localeCompare b c <= 0)%Z ->
    (localeCompare a c <= 0)%Z
}.

Section Sort.
Context {A : Type} (compare : A -> A -> Z).

(** [x] goes before the first element it does not come after. *)
Fixpoint sort_insert (x : A) (l : list A) : list A :=
  match l with
  | [] => [x]
  | y :: l' => if (compare x y <=? 0)%Z then x :: l else y :: sort_insert x l'
  end.

(** [Array.prototype.sort(compare)] (line 52). *)
Definition array_sort (l : list A) : list A := foldr sort_insert [] l.

(** The order the sort establishes. *)
Definition sort_le (x y : A) : Prop := (compare x y <= 0)%Z.

(** Elements the comparison does not tell apart from [a]: neither comes
    after the other. *)
Definition tied (a x : A) : Prop := sort_le x a ∧ sort_le a x.

End Sort.

(** One line of the tree. *)
Record Row : Type := mkRow {
  level : nat;                      (* the [level] property of the component *)
  indent : nat;                     (* the left margin from the panel, in rem *)
  label : string;                   (* [node.name] *)
  folder : bool;                    (* the folder or the file icon *)
  highlighted : bool;               (* [isSelected], for a file line *)
  target : option GeneratedFile     (* what a click selects *)
}.

(** [node.file?.path === selectedPath] (line 41). *)
Definition isSelected (node : TreeNode) (selectedPath : string) : bool :=
  match file node with
  | Some f => bool_decide (path f = selectedPath)
  | None => false
  end.

Section Render.
Context `{Collator}.

(** The comparison of line 52. *)
Definition by_name (a b : TreeNode) : Z := localeCompare (name a) (name b).

(** The lines of a child with the name it is sorted by. *)
Definition by_label (a b : string * list Row) : Z := localeCompare a.1 b.1.

(** The [FileTree] component (lines 39-70) for a node at [level], in a
    block whose margin from the panel is [offset].  The children are
    rendered where they are stored and then put in the order of their
    names; [render_unfold] gives the form of the source, which sorts the
    nodes first. *)
Fixpoint render (selectedPath : string) (level offset : nat) (node : TreeNode)
    {struct node} : list Row :=
  match children node with
  | Some ch =>
    mkRow level offset (name node) true false None ::
    mjoin (array_sort by_label
      ((fix each (l : list (string * TreeNode)) : list (string * list Row) :=
          match l with
          | [] => []
          | kc :: l' =>
            (name kc.2, render selectedPath (S level) (offset + level) kc.2) :: each l'
          end) ch)).*2
  | None =>
    [mkRow level (offset + level) (name node) false
       (isSelected node selectedPath) (file node)]
  end.

(** The tree of the browser (lines 129-131): the children of the root
    in the order of the object, each at level 0. *)
Definition top_rows (fileTree : option TreeNode) (selectedPath : string) : list Row :=
  match fileTree with
  | Some t =>
    match children t with
    | Some ch => mjoin (render selectedPath 0 0 <$> obj_values ch)
    | None => []
    end
  | None => []
  end.

End Render.

(** [files.find(f => f.path.endsWith('tasks/main.yml')) || files[0]]
    (line 79) *)
Definition mainTaskFile (files : list GeneratedFile) : option GeneratedFile :=
  match list_find (fun f => endsWith (path f) "tasks/main.yml" = true) files with
  | Some (_, f) => Some f
  | None => head files
  end.

(** The effect on [files] (lines 77-84): the new selected file. *)
Definition select_on_files (files : list GeneratedFile) : option GeneratedFile :=
  match files with
  | [] => None
  | _ :: _ => mainTaskFile files
  end.

(** [fileTree] (line 86): [Some None] is [null]; [None] is a tree
    outside the model (see [FileTree.buildFileTree]). *)
Definition fileTree (files : list GeneratedFile) : option (option TreeNode) :=
  match files with
  | [] => Some None
  | _ :: _ => t ← buildFileTree files; Some (Some t)
  end.

(** What [renderContent] returns. *)
Inductive Panel : Type :=
| Spinner
| ErrorPanel (message : string)
| Placeholder
| Browser (title : option string) (download_disabled : bool)
          (tree : list Row) (shown : option json).

(** [hasFiles] (line 75). *)
Definition hasFiles (files : list GeneratedFile) : bool :=
  bool_decide (0 < length files).

(** The text of the right side of the browser (lines 134-142): the
    code block of the selected file, or the invitation to select one. *)
Definition code_block (shown : option json) : Completion (list TextNode) :=
  match shown with
  | Some content => react_child content
  | None => Normal [TextOf "Select a file to view its content."]
  end.

(** [if (error)]: the error is a string that is not empty. *)
Definition error_shown (error : option string) : option string :=
  match error with
  | Some m => if truthy m then Some m else None
  | None => None
  end.

Section Panel.
Context `{Collator}.

(** [renderContent] (lines 88-145) after [fileTree] is computed. *)
Definition renderContent (files : list GeneratedFile) (isLoading : bool)
    (error : option string) (selectedFile : option GeneratedFile)
    : option Panel :=
  tree ← fileTree files;
  Some
    (if isLoading then Spinner
     else match error_shown error with
          | Some m => ErrorPanel m
          | None =>
            match files with
            | [] => Placeholder
            | _ :: _ =>
              Browser (path <$> selectedFile)
                (negb (hasFiles files) || isLoading)
                (top_rows tree (default "" (path <$> selectedFile)))
                (content <$> selectedFile)
            end
          end).

End Panel.

(** The line of a node at [level] in a block at [offset]. *)
Definition node_row (selectedPath : string) (level offset : nat) (n : TreeNode) : Row :=
  if isDirectory n then mkRow level offset (name n) true false None
  else mkRow level (offset + level) (name n) false (isSelected n selectedPath) (file n).

(** The margin of the block of a node [depth] levels below a node at
    [level] in a block at [offset]: every directory on the way adds its
    level. *)
Fixpoint nested_offset (level offset depth : nat) : nat :=
  match depth with
  | 0 => offset
  | S d => nested_offset (S level) (offset + level) d
  end.

(** The comparison of code units, as a collator. *)
Definition code_unit_compare (a b : string) : Z :=
  match String.compare a b with
  | Lt => (-1)%Z
  | Eq => 0%Z
  | Gt => 1%Z
  end.

Definition code_unit_collator : Collator := {| localeCompare := code_unit_compare |}.

(** Two roles in one answer, the later one first in the alphabet. *)
Definition unsorted_files : list GeneratedFile :=
  [mkFile "web/tasks/main.yml" (JString "w"); mkFile "db/tasks/main.yml" (JString "d")].

(** ** The sort *)

Section SortFacts.
Context {A : Type} (compare : A -> A -> Z).
Implicit Types (x y : A) (l : list A).

Lemma array_sort_cons x l :
  array_sort compare (x :: l) = sort_insert compare x (array_sort compare l).
Proof. done. Qed.

Lemma sort_insert_perm x l : sort_insert compare x l ≡ₚ x :: l.
Proof.
  induction l as [|y l IH]; simpl; [done|].
  case_match; [done|]. rewrite IH. apply Permutation_swap.
Qed.

Lemma array_sort_perm l : array_sort compare l ≡ₚ l.
Proof.
  induction l as [|x l IH]; [done|].
  by rewrite array_sort_cons, sort_insert_perm, IH.
Qed.

Lemma elem_of_array_sort x l : x ∈ array_sort compare l <-> x ∈ l.
Proof. by rewrite array_sort_perm. Qed.

Lemma array_sort_length l : length (array_sort compare l) = length l.
Proof. by rewrite array_sort_perm. Qed.

(** Elements that do not come after one another keep their order. *)
Lemma sort_insert_filter (P : A -> Prop) `{!forall x, Decision (P x)} x l :
  (forall x y, P x -> P y -> sort_le compare x y) ->
  filter P (sort_insert compare x l) = filter P (x :: l).
Proof.
  intros HP. induction l as [|y l IH]; simpl; [done|].
  destruct (Z.leb_spec (compare x y) 0) as [Hle|Hgt]; [done|].
  rewrite (filter_cons _ y), IH, !filter_cons.
  destruct (decide (P y)) as [Hy|], (decide (P x)) as [Hx|]; try done.
  specialize (HP x y Hx Hy). unfold sort_le in HP. lia.
Qed.

Lemma array_sort_filter (P : A -> Prop) `{!forall x, Decision (P x)} l :
  (forall x y, P x -> P y -> sort_le compare x y) ->
  filter P (array_sort compare l) = filter P l.
Proof.
  intros HP. induction l as [|x l IH]; [done|].
  by rewrite array_sort_cons, sort_insert_filter, !filter_cons, IH.
Qed.

Lemma sort_insert_fmap {B : Type} (compare' : B -> B -> Z) (h : A -> B) x l :
  (forall x y, compare' (h x) (h y) = compare x y) ->
  sort_insert compare' (h x) (h <$> l) = h <$> sort_insert compare x l.
Proof.
  intros Hh. induction l as [|y l IH]; [done|].
  rewrite fmap_cons. cbn [sort_insert]. rewrite Hh.
  case_match; [done|]. by rewrite fmap_cons, IH.
Qed.

Lemma array_sort_fmap {B : Type} (compare' : B -> B -> Z) (h : A -> B) l :
  (forall x y, compare' (h x) (h y) = compare x y) ->
  array_sort compare' (h <$> l) = h <$> array_sort compare l.
Proof.
  intros Hh. induction l as [|x l IH]; [done|].
  unfold array_sort in *. rewrite fmap_cons. cbn [foldr].
  by rewrite IH, sort_insert_fmap.
Qed.

Section Consistent.
Context (Htotal : forall x y, (0 < compare x y)%Z -> sort_le compare y x).

Lemma sort_insert_HdRel x y l :
  sort_le compare y x -> HdRel (sort_le compare) y l ->
  HdRel (sort_le compare) y (sort_insert compare x l).
Proof. intros Hyx [|z l' Hz]; simpl; [by constructor|]. case_match; by constructor. Qed.

Lemma sort_insert_sorted x l :
  Sorted (sort_le compare) l -> Sorted (sort_le compare) (sort_insert compare x l).
Proof.
  induction 1 as [|y l Hl IH Hy]; simpl; [by repeat constructor|].
  destruct (Z.leb_spec (compare x y) 0) as [Hle|Hgt].
  - by repeat constructor.
  - constructor; [done|]. apply sort_insert_HdRel; [by apply Htotal|done].
Qed.

Lemma array_sort_sorted l : Sorted (sort_le compare) (array_sort compare l).
Proof.
  induction l as [|x l IH]; [constructor|].
  rewrite array_sort_cons. by apply sort_insert_sorted.
Qed.

End Consistent.

(** Two sorted lists with the same elements in which tied elements are
    in the same order are the same list. *)
Section Unique.
Context `{!Reflexive (sort_le compare)} `{!Transitive (sort_le compare)}.

#[local] Instance tied_dec a x : Decision (tied compare a x).
Proof. unfold tied, sort_le. apply _. Defined.

Lemma tied_class a x y : tied compare a x -> tied compare a y -> sort_le compare x y.
Proof. intros [Hxa _] [_ Hay]. by trans a. Qed.

Lemma sorted_head_tied a b l1 l2 :
  StronglySorted (sort_le compare) (a :: l1) ->
  StronglySorted (sort_le compare) (b :: l2) ->
  a :: l1 ≡ₚ b :: l2 -> tied compare a b.
Proof.
  intros Ha Hb Hperm.
  apply StronglySorted_inv in Ha as [_ Ha], Hb as [_ Hb].
  rewrite Forall_forall in Ha, Hb. split.
  - assert (a ∈ b :: l2) as [->|Hin]%elem_of_cons by (rewrite <- Hperm; by left);
      [done|by apply Hb].
  - assert (b ∈ a :: l1) as [->|Hin]%elem_of_cons by (rewrite Hperm; by left);
      [done|by apply Ha].
Qed.

Lemma stable_sorted_unique l1 l2 :
  StronglySorted (sort_le compare) l1 -> StronglySorted (sort_le compare) l2 ->
  l1 ≡ₚ l2 ->
  (forall a, filter (tied compare a) l1 = filter (tied compare a) l2) ->
  l1 = l2.
Proof.
  revert l2. induction l1 as [|a l1 IH]; intros [|b l2] H1 H2 Hperm Hties;
    [done|by apply Permutation_nil_cons in Hperm
         |by symmetry in Hperm; apply Permutation_nil_cons in Hperm|].
  pose proof (sorted_head_tied a b l1 l2 H1 H2 Hperm) as Hab.
  assert (a = b) as <-.
  { pose proof (Hties a) as Ha.
    rewrite !filter_cons_True in Ha by done. by injection Ha. }
  f_equal. apply IH.
  - by apply StronglySorted_inv in H1 as [? _].
  - by apply StronglySorted_inv in H2 as [? _].
  - by apply (inj (cons a)).
  - intros c. pose proof (Hties c) as Hc. rewrite !filter_cons in Hc.
    destruct (decide (tied compare c a)); [by injection Hc|done].
Qed.

End Unique.
End SortFacts.

(** ** The lines of a tree *)

Lemma nested_offset_closed lvl off d :
  2 * nested_offset lvl off d = 2 * off + 2 * d * lvl + d * (d - 1).
Proof.
  revert lvl off. induction d as [|d IH]; intros lvl off; cbn [nested_offset]; [lia|].
  rewrite IH. destruct d; nia.
Qed.

Lemma find_node_leaf q n g node :
  find_node q (mkNode n None g) = Some node <-> q = [] ∧ node = mkNode n None g.
Proof. destruct q; simpl; naive_solver. Qed.

Lemma find_node_dir q n ch g node :
  NoDup (obj_keys ch) ->
  find_node q (mkNode n (Some ch) g) = Some node <->
  (q = [] ∧ node = mkNode n (Some ch) g) ∨
  exists kc q', kc ∈ ch ∧ q = kc.1 :: q' ∧ find_node q' kc.2 = Some node.
Proof.
  intros Hnd. destruct q as [|part q]; simpl; [naive_solver|].
  split.
  - destruct (obj_get ch part) as [c|] eqn:E; simpl; [|done].
    intros Hq. right. exists (part, c), q. by apply obj_get_Some_elem in E.
  - intros [[? _]|([k c] & q' & Hin & [= -> ->] & Hq)]; [done|].
    by rewrite (obj_get_elem _ _ _ Hnd Hin).
Qed.

Section RenderFacts.
Context `{Collator}.
Implicit Types (sp : string) (lvl off : nat).

(** The component in the form of the source: the line of the node, then
    the children sorted by name, each rendered one level down. *)
Lemma render_unfold sp lvl off node :
  render sp lvl off node =
  node_row sp lvl off node ::
  match children node with
  | Some ch => mjoin (render sp (S lvl) (off + lvl) <$> array_sort by_name (obj_values ch))
  | None => []
  end.
Proof.
  destruct node as [n [ch|] g]; [|done].
  cbn [render children name]. unfold node_row. cbn [isDirectory children name].
  do 2 f_equal.
  set (h := fun c : TreeNode => (name c, render sp (S lvl) (off + lvl) c)).
  transitivity ((array_sort by_label (h <$> obj_values ch)).*2).
  - do 2 f_equal. unfold obj_values. induction ch as [|kc ch IH]; [done|].
    rewrite !fmap_cons. by f_equal.
  - rewrite (array_sort_fmap by_name by_label h) by done.
    by rewrite <- list_fmap_compose.
Qed.

Lemma elem_of_render_values sp lvl off ch r :
  r ∈ mjoin (render sp lvl off <$> obj_values ch) <->
  exists kc, kc ∈ ch ∧ r ∈ render sp lvl off kc.2.
Proof.
  rewrite list_elem_of_join. setoid_rewrite list_elem_of_fmap.
  unfold obj_values. setoid_rewrite list_elem_of_fmap. naive_solver.
Qed.

Lemma elem_of_render_children sp lvl off ch r :
  r ∈ mjoin (render sp lvl off <$> array_sort by_name (obj_values ch)) <->
  exists kc, kc ∈ ch ∧ r ∈ render sp lvl off kc.2.
Proof.
  rewrite <- elem_of_render_values, !list_elem_of_join.
  setoid_rewrite list_elem_of_fmap. by setoid_rewrite elem_of_array_sort.
Qed.

(** The lines are the nodes: a line for every node that a path reaches,
    at the level of the path's length. *)
Lemma render_rows sp p t :
  wf_node p t -> forall lvl off r,
  r ∈ render sp lvl off t <->
  exists q n, find_node q t = Some n ∧
    r = node_row sp (lvl + length q) (nested_offset lvl off (length q)) n.
Proof.
  revert p. induction t as [n g|n ch g IH] using TreeNode_nested_ind;
    intros p Hwf lvl off r; rewrite render_unfold; cbn [children].
  - rewrite list_elem_of_singleton. setoid_rewrite find_node_leaf. split.
    + intros ->. exists [], (mkNode n None g). by rewrite Nat.add_0_r.
    + intros (q & n' & [-> ->] & ->). by rewrite Nat.add_0_r.
  - apply wf_node_unfold in Hwf as [_ Hch].
    destruct (Hch ch eq_refl) as [[Hnd _] Hall].
    rewrite elem_of_cons, elem_of_render_children.
    setoid_rewrite (find_node_dir _ _ _ _ _ Hnd). split.
    + intros [->|(kc & Hin & Hr)].
      { exists [], (mkNode n (Some ch) g). rewrite Nat.add_0_r. naive_solver. }
      rewrite Forall_forall in IH, Hall.
      destruct (Hall kc Hin) as (_ & _ & _ & Hkc).
      apply (IH kc Hin _ Hkc) in Hr as (q & n' & Hq & ->).
      exists (kc.1 :: q), n'. split; [right; by exists kc, q|].
      simpl. by rewrite Nat.add_succ_r.
    + intros (q & n' & [[-> ->]|(kc & q' & Hin & -> & Hq)] & ->).
      { left. by rewrite Nat.add_0_r. }
      right. exists kc. split; [done|].
      rewrite Forall_forall in IH, Hall.
      destruct (Hall kc Hin) as (_ & _ & _ & Hkc).
      apply (IH kc Hin _ Hkc). exists q', n'. split; [done|].
      simpl. by rewrite Nat.add_succ_r.
Qed.

Lemma node_row_level sp lvl off n : level (node_row sp lvl off n) = lvl.
Proof. unfold node_row. by destruct (isDirectory n). Qed.

Lemma node_row_label sp lvl off n : label (node_row sp lvl off n) = name n.
Proof. unfold node_row. by destruct (isDirectory n). Qed.

(** The lines of a node are at its level or below. *)
Lemma render_levels sp t : forall lvl off r, r ∈ render sp lvl off t -> lvl <= level r.
Proof.
  induction t as [n g|n ch g IH] using TreeNode_nested_ind; intros lvl off r;
    rewrite render_unfold; cbn [children].
  - intros ->%list_elem_of_singleton. by rewrite node_row_level.
  - rewrite elem_of_cons, elem_of_render_children.
    intros [->|(kc & Hin & Hr)]; [by rewrite node_row_level|].
    rewrite Forall_forall in IH. apply (IH kc Hin) in Hr. lia.
Qed.

Lemma render_filter_level sp lvl off t :
  filter (fun r => level r = lvl) (render sp lvl off t) = [node_row sp lvl off t].
Proof.
  rewrite render_unfold, filter_cons_True by apply node_row_level. f_equal.
  apply filter_nil_Forall, Forall_forall. intros r Hr.
  destruct (children t) as [ch|]; [|by apply elem_of_nil in Hr].
  apply elem_of_render_children in Hr as (kc & _ & Hr%render_levels). lia.
Qed.

(** The lines of the browser are the nodes below the root. *)
Lemma top_rows_rows sp t :
  wf_node [] t -> forall r,
  r ∈ top_rows (Some t) sp <->
  exists q n, q <> [] ∧ find_node q t = Some n ∧
    r = node_row sp (length q - 1) (nested_offset 0 0 (length q - 1)) n.
Proof.
  destruct t as [n [ch|] g]; intros Hwf r; cbn [top_rows children].
  2: { rewrite elem_of_nil. split; [done|].
       by intros (q & n' & Hq & [-> _]%find_node_leaf & _). }
  apply wf_node_unfold in Hwf as [_ Hch].
  destruct (Hch ch eq_refl) as [[Hnd _] Hall]. rewrite Forall_forall in Hall.
  rewrite elem_of_render_values. setoid_rewrite (find_node_dir _ _ _ _ _ Hnd).
  split.
  - intros (kc & Hin & Hr). destruct (Hall kc Hin) as (_ & _ & _ & Hkc).
    apply (render_rows _ _ _ Hkc) in Hr as (q & n' & Hq & ->).
    exists (kc.1 :: q), n'. split; [done|]. split; [right; by exists kc, q|].
    simpl. by rewrite Nat.sub_0_r.
  - intros (q & n' & Hne & [[-> _]|(kc & q' & Hin & -> & Hq)] & ->); [done|].
    exists kc. split; [done|]. destruct (Hall kc Hin) as (_ & _ & _ & Hkc).
    apply (render_rows _ _ _ Hkc). exists q', n'. split; [done|].
    simpl. by rewrite Nat.sub_0_r.
Qed.

(** The records the lines of a built tree offer: those found at a path
    whose node is not a directory. *)
Lemma top_rows_targets sp files t g :
  buildFileTree files = Some t ->
  (exists r, r ∈ top_rows (Some t) sp ∧ target r = Some g) <->
  find_last (stored_at (parts_of g)) files = Some g ∧ dir_at (parts_of g) t = false.
Proof.
  intros Ht. setoid_rewrite (top_rows_rows sp t (built_wf _ _ Ht)).
  rewrite <- (built_file_at _ _ Ht). unfold file_at, dir_at. split.
  - intros (r & (q & n & _ & Hn & ->) & Hg). unfold node_row in Hg.
    destruct (isDirectory n) eqn:Hd; [done|]. simpl in Hg.
    assert (file_at q t = Some g) as Hq by (unfold file_at; by rewrite Hn).
    rewrite (built_file_at _ _ Ht) in Hq.
    apply find_last_Some in Hq as [_ [<-%bool_decide_eq_true _]%andb_true_iff].
    by rewrite Hn.
  - destruct (find_node (parts_of g) t) as [n|] eqn:Hn; [|by intros [? _]].
    simpl. intros [Hg Hd]. eexists. split.
    + exists (parts_of g), n. split; [apply parts_of_nonempty|done].
    + unfold node_row. by rewrite Hd.
Qed.

(** The record of a line is stored at the path of its node. *)
Lemma top_rows_target_path sp files t r g :
  buildFileTree files = Some t -> r ∈ top_rows (Some t) sp -> target r = Some g ->
  exists n, find_node (parts_of g) t = Some n ∧
    r = node_row sp (length (parts_of g) - 1)
          (nested_offset 0 0 (length (parts_of g) - 1)) n.
Proof.
  intros Ht (q & n & _ & Hn & ->)%(top_rows_rows sp t (built_wf _ _ Ht)) Hg.
  unfold node_row in Hg. destruct (isDirectory n) eqn:Hd; [done|]. simpl in Hg.
  assert (file_at q t = Some g) as Hq by (unfold file_at; by rewrite Hn).
  rewrite (built_file_at _ _ Ht) in Hq.
  apply find_last_Some in Hq as [_ [<-%bool_decide_eq_true _]%andb_true_iff].
  by exists n.
Qed.

(** The highlighted lines are the lines of a record with the selected
    path. *)
Lemma top_rows_highlighted sp files t r :
  buildFileTree files = Some t -> r ∈ top_rows (Some t) sp ->
  highlighted r = true <-> exists g, target r = Some g ∧ path g = sp.
Proof.
  intros Ht (q & n & _ & _ & ->)%(top_rows_rows sp t (built_wf _ _ Ht)).
  unfold node_row, isSelected. destruct (isDirectory n); simpl; [naive_solver|].
  destruct (file n) as [f|]; [|naive_solver].
  rewrite bool_decide_eq_true. naive_solver.
Qed.

(** At most one line is highlighted: two highlighted lines are the line
    of one node. *)
Lemma top_rows_highlighted_unique sp files t r1 r2 :
  buildFileTree files = Some t ->
  r1 ∈ top_rows (Some t) sp -> r2 ∈ top_rows (Some t) sp ->
  highlighted r1 = true -> highlighted r2 = true -> r1 = r2.
Proof.
  intros Ht Hr1 Hr2 (g1 & Hg1 & Hp1)%(top_rows_highlighted sp files t r1 Ht Hr1)
    (g2 & Hg2 & Hp2)%(top_rows_highlighted sp files t r2 Ht Hr2).
  destruct (top_rows_target_path _ _ _ _ _ Ht Hr1 Hg1) as (n1 & Hn1 & ->).
  destruct (top_rows_target_path _ _ _ _ _ Ht Hr2 Hg2) as (n2 & Hn2 & ->).
  unfold parts_of in *. rewrite Hp1, <- Hp2 in *. congruence.
Qed.

End RenderFacts.

(** ** The comparison of code units is consistent *)

Lemma string_compare_trans a : forall b c,
  String.compare a b <> Gt -> String.compare b c <> Gt -> String.compare a c <> Gt.
Proof.
  induction a as [|x a IH]; intros [|y b] [|z c]; simpl; try done.
  unfold Ascii.compare.
  destruct (N.compare_spec (N_of_ascii x) (N_of_ascii y)),
    (N.compare_spec (N_of_ascii y) (N_of_ascii z)),
    (N.compare_spec (N_of_ascii x) (N_of_ascii z)); try done; try lia; eauto.
Qed.

Lemma code_unit_compare_le a b : (code_unit_compare a b <= 0)%Z <-> String.compare a b <> Gt.
Proof. unfold code_unit_compare. destruct (String.compare a b); split; (done || lia). Qed.

Lemma code_unit_laws : CollatorLaws (H := code_unit_collator).
Proof.
  split; simpl.
  - intros a b. unfold code_unit_compare. rewrite (String.compare_antisym a b).
    by destruct (String.compare b a).
  - intros a b c. rewrite !code_unit_compare_le. apply string_compare_trans.
Qed.

Section Laws.
Context `{CollatorLaws}.

Lemma by_name_total x y : (0 < by_name x y)%Z -> sort_le by_name y x.
Proof.
  unfold sort_le, by_name. intros Hxy.
  pose proof (localeCompare_sgn (name x) (name y)). lia.
Qed.

#[export] Instance by_name_trans : Transitive (sort_le by_name).
Proof. intros x y z. apply localeCompare_trans. Qed.

(** C24: the order of the children.  With a consistent [localeCompare]
    the lines of a directory are its header followed by the lines of
    its children, one level down, in an order that is a permutation of
    the children, sorted by name. *)
Theorem render_sorted_children sp lvl off node ch :
  children node = Some ch ->
  exists sorted,
    sorted ≡ₚ obj_values ch ∧
    StronglySorted (fun a b => (localeCompare (name a) (name b) <= 0)%Z) sorted ∧
    render sp lvl off node =
      mkRow lvl off (name node) true false None ::
      mjoin (render sp (S lvl) (off + lvl) <$> sorted).
Proof.
  intros Hch. exists (array_sort by_name (obj_values ch)). split_and!.
  - apply array_sort_perm.
  - apply (Sorted_StronglySorted (sort_le by_name)).
    apply array_sort_sorted, by_name_total.
  - rewrite render_unfold, Hch. unfold node_row, isDirectory. by rewrite Hch.
Qed.

End Laws.

Lemma render_sorted_children_witness :
  exists sorted,
    sorted ≡ₚ [new_node "b"; new_node "a"] ∧
    StronglySorted (fun a b => (code_unit_compare (name a) (name b) <= 0)%Z) sorted ∧
    render (H := code_unit_collator) "" 0 0
      (mkNode "r" (Some [("b", new_node "b"); ("a", new_node "a")]) None) =
      mkRow 0 0 "r" true false None ::
      mjoin (render (H := code_unit_collator) "" 1 0 <$> sorted).
Proof.
  exact (render_sorted_children (H := code_unit_collator) (H0 := code_unit_laws)
           "" 0 0 (mkNode "r" (Some [("b", new_node "b"); ("a", new_node "a")]) None)
           _ eq_refl).
Defined.

(** The sort.  For a comparison that never puts two elements each
    after the other, [array_sort] returns a permutation of its argument
    in which no element comes after its successor, and elements that do
    not come after one another keep the order they had: the sort is
    stable. *)
Theorem array_sort_stable {A : Type} (compare : A -> A -> Z) (l : list A) :
  (forall x y, (0 < compare x y)%Z -> (compare y x <= 0)%Z) ->
  array_sort compare l ≡ₚ l ∧
  Sorted (fun x y => (compare x y <= 0)%Z) (array_sort compare l) ∧
  forall (P : A -> Prop) (dec : forall x, Decision (P x)),
    (forall x y, P x -> P y -> (compare x y <= 0)%Z) ->
    filter P (array_sort compare l) = filter P l.
Proof.
  intros Htotal. split_and!.
  - apply array_sort_perm.
  - by apply array_sort_sorted.
  - intros P dec HP. by apply array_sort_filter.
Qed.

Section Browser.
Context `{Collator}.

(** C26: what the browser offers.  A record can be opened from the tree
    of the browser exactly when it is the last record of its path, no
    segment of the path is a key of [Object.prototype], and no other
    record's path passes through it. *)
Theorem browser_offers sp files t g :
  buildFileTree files = Some t ->
  (exists r, r ∈ top_rows (Some t) sp ∧ target r = Some g) <->
  find_last (fun g' => bool_decide (path g' = path g)) files = Some g ∧
  plain_path (parts_of g) = true ∧
  ¬ exists g', g' ∈ files ∧
      parts_of g `prefix_of` tree_part (parts_of g') ∧ parts_of g <> parts_of g'.
Proof.
  intros Ht. rewrite (top_rows_targets _ _ _ _ Ht), find_last_stored_at.
  rewrite (built_dir_at_false _ _ _ Ht).
  pose proof (parts_of_nonempty g). tauto.
Qed.

(** A record under a directory of its own name cannot be opened.
    When the path of a record is a proper prefix of the path another
    record takes in the tree, no line of the browser selects the first
    record: the source builds the tree the specification rejects, and
    the record is in the download but not in the view. *)
Theorem conflict_hides_record sp files t g g' :
  buildFileTree files = Some t -> g' ∈ files ->
  parts_of g `prefix_of` tree_part (parts_of g') -> parts_of g <> parts_of g' ->
  forall r, r ∈ top_rows (Some t) sp -> target r <> Some g.
Proof.
  intros Ht Hin Hpre Hne r Hr Hg.
  assert (exists r, r ∈ top_rows (Some t) sp ∧ target r = Some g) as Hex by eauto.
  apply (top_rows_targets _ _ _ _ Ht) in Hex as [_ Hd].
  apply (built_dir_at_false _ _ _ Ht) in Hd as [_ Hd]. apply Hd. eauto.
Qed.

(** The lines of the first level are in the order of the keys of the
    root's children object. *)
Lemma top_rows_keys sp t ch :
  wf_node [] t -> children t = Some ch ->
  label <$> filter (fun r => level r = 0) (top_rows (Some t) sp) = obj_keys ch.
Proof.
  intros [_ Hwf]%wf_node_unfold Hch. destruct (Hwf ch Hch) as [_ Hall].
  cbn [top_rows]. rewrite Hch. clear Hch Hwf. unfold obj_values, obj_keys.
  induction Hall as [|kc l (_ & Hname & _) _ IH]; [done|].
  rewrite !fmap_cons, mjoin_cons.
  rewrite filter_app, fmap_app, render_filter_level, IH. simpl.
  by rewrite node_row_label, Hname.
Qed.

(** C28: the order of the first level.  The lines of the first level
    of the browser are the first segments of the paths, keys of
    [Object.prototype] apart, in the order in which an object lists
    them when they are assigned to it in turn: the order of first
    occurrence in the answer, with the array indices first.  The first
    level is not sorted, unlike the levels below it. *)
Theorem top_rows_order sp files t :
  buildFileTree files = Some t ->
  label <$> filter (fun r => level r = 0) (top_rows (Some t) sp) = top_names files ∧
  forall name, name ∈ top_names files <->
    exists g, g ∈ files ∧ top_name g = name ∧ inherited_key name = false.
Proof.
  intros Ht. pose proof (built_isDirectory _ _ Ht) as Hd. unfold isDirectory in Hd.
  destruct (children t) as [ch|] eqn:Hch; [|done]. split.
  - rewrite (top_rows_keys sp t ch (built_wf _ _ Ht) Hch), <- (built_top_names _ _ Ht).
    unfold children_or_empty. by rewrite Hch.
  - intros name. unfold top_names. rewrite obj_of_list_keys, <- list_fmap_compose.
    rewrite list_elem_of_fmap. setoid_rewrite list_elem_of_filter. naive_solver.
Qed.

(** C29: the margins add up.  A line at level [n] of the browser is
    indented by [n (n - 1) / 2] when it is a directory and by
    [n (n + 1) / 2] when it is a file: every directory on the way adds
    its own level to the margin of what it contains. *)
Theorem top_rows_indent sp t r :
  wf_node [] t -> r ∈ top_rows (Some t) sp ->
  2 * indent r = level r * (level r - 1) + (if folder r then 0 else 2 * level r).
Proof.
  intros Hwf (q & n & _ & _ & ->)%(top_rows_rows sp t Hwf).
  pose proof (nested_offset_closed 0 0 (length q - 1)).
  unfold node_row. destruct (isDirectory n); simpl; lia.
Qed.

End Browser.

Lemma browser_offers_witness :
  exists t r, buildFileTree two_files = Some t ∧
    r ∈ top_rows (H := code_unit_collator) (Some t) "" ∧
    target r = Some (mkFile "a/b/c.txt" (JString "x")).
Proof.
  destruct (buildFileTree two_files) as [t|] eqn:E; [|by vm_compute in E].
  destruct (proj2 (browser_offers (H := code_unit_collator) "" two_files t
                     (mkFile "a/b/c.txt" (JString "x")) E)) as (r & Hr & Hg).
  - split_and!; [done..|]. intros (g' & Hin & Hpre & Hne).
    apply elem_of_cons in Hin as [->|[->|[]%elem_of_nil]%elem_of_cons];
      [done|by destruct Hpre as [k [=]]].
  - by exists t, r.
Defined.

Lemma conflict_hides_record_witness :
  exists t, buildFileTree conflicting_files = Some t ∧
    forall r, r ∈ top_rows (H := code_unit_collator) (Some t) "" ->
      target r <> Some (mkFile "a" (JString "x")).
Proof.
  destruct (buildFileTree conflicting_files) as [t|] eqn:E; [|by vm_compute in E].
  exists t. split; [done|].
  apply (conflict_hides_record (H := code_unit_collator) "" conflicting_files t
           (mkFile "a" (JString "x")) (mkFile "a/b" (JString "y")) E).
  - right. by left.
  - by exists ["b"].
  - done.
Defined.

Lemma top_rows_order_witness :
  exists t, buildFileTree unsorted_files = Some t ∧
    label <$> filter (fun r => level r = 0)
                (top_rows (H := code_unit_collator) (Some t) "") = ["web"; "db"] ∧
    code_unit_compare "web" "db" = 1%Z.
Proof.
  destruct (buildFileTree unsorted_files) as [t|] eqn:E; [|by vm_compute in E].
  exists t. split; [done|]. split; [|done].
  by destruct (top_rows_order (H := code_unit_collator) "" unsorted_files t E)
    as [-> _].
Defined.

Lemma top_rows_indent_witness :
  exists t, buildFileTree two_files = Some t ∧
    forall r, r ∈ top_rows (H := code_unit_collator) (Some t) "" ->
      2 * indent r = level r * (level r - 1) + (if folder r then 0 else 2 * level r).
Proof.
  destruct (buildFileTree two_files) as [t|] eqn:E; [|by vm_compute in E].
  exists t. split; [done|]. intros r.
  apply (top_rows_indent (H := code_unit_collator) "" t r (built_wf _ _ E)).
Defined.

(** ** The selected file *)

Lemma select_on_files_None files : select_on_files files = None <-> files = [].
Proof.
  destruct files as [|f files]; [done|]. unfold select_on_files, mainTaskFile.
  destruct (list_find _ _) as [[i g]|]; done.
Qed.

Lemma select_on_files_elem files f : select_on_files files = Some f -> f ∈ files.
Proof.
  destruct files as [|f0 files]; [done|]. unfold select_on_files, mainTaskFile.
  destruct (list_find _ _) as [[i g]|] eqn:E.
  - apply list_find_Some in E as (Hi & _). intros [= <-].
    by eapply list_elem_of_lookup_2.
  - intros [= <-]. by left.
Qed.

(** The browser is shown when no generation runs, there is no error and
    there are files; its tree is the tree of the files. *)
Lemma renderContent_Browser `{Collator} files isLoading error sel title d rows shown :
  renderContent files isLoading error sel = Some (Browser title d rows shown) <->
  isLoading = false ∧ error_shown error = None ∧ files <> [] ∧
  title = path <$> sel ∧ d = false ∧ shown = content <$> sel ∧
  exists t, buildFileTree files = Some t ∧
    rows = top_rows (Some t) (default "" (path <$> sel)).
Proof.
  unfold renderContent, fileTree. destruct files as [|f files].
  { simpl. destruct isLoading, (error_shown error); naive_solver. }
  destruct (buildFileTree (f :: files)) as [t|]; simpl; [|naive_solver].
  destruct isLoading, (error_shown error); naive_solver.
Qed.

(** The file selected when the files change.  It is the first
    record whose path ends in [tasks/main.yml], and the first record
    when no path does; none is selected only when there is no record. *)
Theorem select_on_files_spec files f :
  select_on_files files = Some f <->
  exists i, files !! i = Some f ∧
    (forall j g, files !! j = Some g -> j < i ->
       endsWith (path g) "tasks/main.yml" = false) ∧
    (endsWith (path f) "tasks/main.yml" = true ∨
     i = 0 ∧ Forall (fun g => endsWith (path g) "tasks/main.yml" = false) files).
Proof.
  destruct files as [|f0 files]; [naive_solver|].
  unfold select_on_files, mainTaskFile.
  destruct (list_find _ (f0 :: files)) as [[i g]|] eqn:E.
  - apply list_find_Some in E as (Hi & Hg & Hlt). split.
    + intros [= <-]. exists i. split_and!; [done| |by left].
      intros j g' Hj Hji. apply not_true_iff_false. eauto.
    + intros (i' & Hi' & Hlt' & [Hf|[-> Hall]]).
      * destruct (Nat.lt_trichotomy i i') as [Hlt0|[->|Hlt0]]; [|congruence|].
        -- specialize (Hlt' _ _ Hi Hlt0). congruence.
        -- by destruct (Hlt _ _ Hi' Hlt0).
      * rewrite Forall_forall in Hall.
        rewrite (Hall g) in Hg by (by eapply list_elem_of_lookup_2). done.
  - apply list_find_None in E. simpl. split.
    + intros [= <-]. exists 0. split_and!; [done|lia|right].
      split; [done|]. eapply Forall_impl; [done|]. intros g. apply not_true_iff_false.
    + intros (i & Hi & _ & [Hf|[-> _]]); [|by simplify_eq/=].
      rewrite Forall_forall in E. destruct (E f); [by eapply list_elem_of_lookup_2|done].
Qed.

(** ** The code block *)

(** A content that is a string is shown as its text. *)
Lemma code_block_string f :
  well_typed f = true -> exists s, content f = JString s ∧
    code_block (Some (content f)) = Normal [TextOf s].
Proof. unfold well_typed. destruct (content f); try done. by eexists. Qed.

(** The suffix test does not look at segment boundaries: a directory
    whose name only ends in [tasks] is taken for the tasks directory. *)
Lemma select_on_files_suffix :
  select_on_files [mkFile "r/README.md" JNull; mkFile "r/subtasks/main.yml" JNull] =
  Some (mkFile "r/subtasks/main.yml" JNull).
Proof. reflexivity. Qed.

(** C30: the sort is determined.  For a consistent comparison, a list
    that is a permutation of the argument, sorted, with the elements
    the comparison does not tell apart in the order of the argument, is
    the list [array_sort] returns: whatever stable algorithm an engine
    runs, its result is that of the insertion sort of the model. *)
Theorem array_sort_unique {A : Type} (compare : A -> A -> Z) (l sorted : list A) :
  (forall x y, (0 < compare x y)%Z -> (compare y x <= 0)%Z) ->
  (forall x y z, (compare x y <= 0)%Z -> (compare y z <= 0)%Z -> (compare x z <= 0)%Z) ->
  sorted ≡ₚ l ->
  Sorted (fun x y => (compare x y <= 0)%Z) sorted ->
  (forall (P : A -> Prop) (dec : forall x, Decision (P x)),
     (forall x y, P x -> P y -> (compare x y <= 0)%Z) ->
     filter P sorted = filter P l) ->
  sorted = array_sort compare l.
Proof.
  intros Htotal Htrans Hperm Hsorted Hstable.
  assert (Reflexive (sort_le compare)) as Hrefl.
  { intros x. unfold sort_le.
    destruct (decide (0 < compare x x)%Z) as [Hx|Hx]; [by apply Htotal|lia]. }
  assert (Transitive (sort_le compare)) as Htr by (intros x y z; apply Htrans).
  apply (stable_sorted_unique compare).
  - by apply Sorted_StronglySorted.
  - apply Sorted_StronglySorted; [done|]. by apply array_sort_sorted.
  - by rewrite array_sort_perm.
  - intros a. pose proof (@tied_class _ compare Htr a) as Hclass.
    rewrite array_sort_filter by done. by apply Hstable.
Qed.

Lemma array_sort_unique_witness :
  ["a"; "b"] = array_sort code_unit_compare ["b"; "a"].
Proof.
  apply array_sort_unique.
  - intros x y Hxy. pose proof (localeCompare_sgn (CollatorLaws := code_unit_laws) x y).
    simpl in *. lia.
  - intros x y z. apply (localeCompare_trans (CollatorLaws := code_unit_laws)).
  - apply Permutation_swap.
  - by repeat constructor.
  - intros P dec HP. rewrite !filter_cons, !filter_nil.
    destruct (decide (P "a")) as [Ha|], (decide (P "b")) as [Hb|]; try done.
    pose proof (HP "b" "a" Hb Ha) as Hle. by vm_compute in Hle.
Defined.

Lemma array_sort_stable_witness :
  array_sort code_unit_compare ["b"; "a"; "c"; "a"] ≡ₚ ["b"; "a"; "c"; "a"] ∧
  Sorted (fun x y => (code_unit_compare x y <= 0)%Z)
    (array_sort code_unit_compare ["b"; "a"; "c"; "a"]).
Proof.
  destruct (array_sort_stable code_unit_compare ["b"; "a"; "c"; "a"]) as (? & ? & _);
    [|done].
  intros x y Hxy. pose proof (localeCompare_sgn (CollatorLaws := code_unit_laws) x y).
  simpl in *. lia.
Defined.
