(* ===== verification/DisplayView.v ===== *)
(** * DisplayView: the JSX of the result panel
    ([src/components/CodeDisplay.tsx])

    [Display] holds what the panel shows as data of its own: the lines
    of the tree ([Row]) and the four panels ([Panel]).  This file holds
    the elements the components return, as the source writes them: the
    [FileTree] component for a directory and for a file (lines 43-69),
    the four branches of [renderContent] (lines 88-145) and the frame
    around them (lines 147-151).  The two are then compared through
    what a user can observe of a page ([shows]): the handlers within
    reach, the texts, the lines of files with what a click on them
    selects, their colours and their margin, and the margins of the
    blocks of directories.  The lines and the panels of [Display] are
    exactly what the elements show, so the theorems about lines are
    theorems about the page. *)

From S2P Require Import Prelude JsString JsObject Json Markup FileTree Display.
From Stdlib Require Import Ascii.

(** ** Definitions *)

(** The header of a directory (lines 46-49). *)
Definition folder_header (name : string) : Markup :=
  Element "div" [("className", Str "flex items-center pl-4 cursor-pointer text-gray-300")]
    [Icon "FolderIcon" (Some "w-5 h-5 mr-2 text-cyan-400");
     Element "span" [] [Text name]].

(** The line of a file (lines 60-69). *)
Definition file_line (selectedPath : string) (level : nat) (node : TreeNode) : Markup :=
  Element "div"
    [("className",
      Str ("flex items-center pl-4 pr-2 py-1.5 cursor-pointer text-sm rounded-md transition-colors " +:+
           (if isSelected node selectedPath then "bg-cyan-500/20 text-cyan-300"
            else "text-gray-400 hover:bg-gray-700/50 hover:text-gray-200")));
     ("onClick", Handle (OnFileSelect (file node)));
     ("style", Style "marginLeft" (rem level))]
    [Icon "FileIcon" (Some "w-4 h-4 mr-2 flex-shrink-0");
     Element "span" [("className", Str "truncate")] [Text (name node)]].

Section View.
Context `{Collator}.

(** The comparison of line 52, on the elements of the children with the
    names they are sorted by. *)
Definition by_key (a b : string * Markup) : Z := localeCompare a.1 b.1.

(** The [FileTree] component (lines 39-70).  As in [Display.render],
    the children are rendered where they are stored and then put in the
    order of their names; [FileTree_view_unfold] gives the form of the
    source. *)
Fixpoint FileTree_view (selectedPath : string) (level : nat) (node : TreeNode)
    {struct node} : Markup :=
  match children node with
  | Some ch =>
    Element "div" []
      [folder_header (name node);
       Element "div" [("style", Style "marginLeft" (rem level))]
         ((fun kv => Keyed kv.1 kv.2) <$> array_sort by_key
            ((fix each (l : list (string * TreeNode)) : list (string * Markup) :=
                match l with
                | [] => []
                | kc :: l' =>
                  (name kc.2, FileTree_view selectedPath (S level) kc.2) :: each l'
                end) ch))]
  | None => file_line selectedPath level node
  end.

(** The items of the tree of the browser (lines 129-131). *)
Definition tree_items (fileTree : option TreeNode) (selectedPath : string) : list Markup :=
  match fileTree with
  | Some t =>
    match children t with
    | Some ch =>
      (fun node => Keyed (name node) (FileTree_view selectedPath 0 node)) <$> obj_values ch
    | None => []
    end
  | None => []
  end.

End View.

(** The three panels without files (lines 89-112). *)
Definition spinner_view : Markup :=
  Element "div"
    [("className", Str "flex flex-col items-center justify-center h-full text-gray-400")]
    [Icon "LoadingSpinner" (Some "w-8 h-8 mb-4");
     Element "p" [("className", Str "text-lg")] [Text "Generating your Ansible role..."];
     Element "p" [("className", Str "text-sm")] [Text "This might take a moment."]].

Definition error_view (error : string) : Markup :=
  Element "div"
    [("className", Str "flex flex-col items-center justify-center h-full p-8 text-center")]
    [Element "p" [("className", Str "text-lg font-semibold text-red-400")]
       [Text "An Error Occurred"];
     Element "p" [("className", Str "mt-2 text-red-300 bg-red-900/50 p-4 rounded-md")]
       [Text error]].

Definition placeholder_view : Markup :=
  Element "div"
    [("className", Str "flex flex-col items-center justify-center h-full text-gray-500")]
    [Element "p" [("className", Str "text-lg")] [Text "Your generated code will appear here."];
     Element "p" []
       [Text ("Describe the role you need and click " +:+
              String "034"%char ("Generate" +:+ String "034"%char "."))]].

(** The download button (lines 118-125) and the right side of the
    browser (lines 133-143). *)
Definition download_button (files : list GeneratedFile) (isLoading : bool) : Markup :=
  Element "button"
    [("onClick", Handle OnDownloadZip);
     ("disabled", Flag (negb (hasFiles files) || isLoading));
     ("className", Str "flex items-center bg-gray-700 hover:bg-gray-600 disabled:bg-gray-800 disabled:text-gray-500 disabled:cursor-not-allowed text-white text-xs font-bold py-1.5 px-3 rounded-md transition duration-200 ease-in-out")]
    [Icon "DownloadIcon" (Some "w-4 h-4 mr-2"); Text "Download as ZIP"].

Definition code_view (selectedFile : option GeneratedFile) : Markup :=
  Element "div" [("className", Str "col-span-9 relative")]
    [match selectedFile with
     | Some f =>
       Element "pre" [("className", Str "p-4 text-sm whitespace-pre-wrap overflow-auto h-full")]
         [Element "code" [("className", Str "font-mono")] [Value (content f)]]
     | None =>
       Element "div" [("className", Str "flex items-center justify-center h-full text-gray-500")]
         [Text "Select a file to view its content."]
     end].

Section Panels.
Context `{Collator}.

(** The browser (lines 114-144). *)
Definition browser_view (files : list GeneratedFile) (isLoading : bool)
    (selectedFile : option GeneratedFile) (tree : option TreeNode) : Markup :=
  Element "div" [("className", Str "flex flex-col h-full")]
    [Element "div"
       [("className", Str "col-span-9 p-3 bg-gray-800 border-b border-gray-700 flex justify-between items-center")]
       [Element "span" [("className", Str "text-sm text-cyan-300")]
          (option_list (Text <$> (path <$> selectedFile)));
        download_button files isLoading];
     Element "div" [("className", Str "grid grid-cols-12 gap-0 h-full overflow-hidden")]
       [Element "div"
          [("className", Str "col-span-3 bg-gray-900/70 border-r border-gray-700 overflow-y-auto py-2")]
          (tree_items tree (default "" (path <$> selectedFile)));
        code_view selectedFile]].

(** [renderContent] (lines 88-145) as the elements it returns. *)
Definition renderContent_view (files : list GeneratedFile) (isLoading : bool)
    (error : option string) (selectedFile : option GeneratedFile)
    : option Markup :=
  tree ← fileTree files;
  Some
    (if isLoading then spinner_view
     else match error_shown error with
          | Some m => error_view m
          | None =>
            match files with
            | [] => placeholder_view
            | _ :: _ => browser_view files isLoading selectedFile tree
            end
          end).

(** What the component returns (lines 147-151). *)
Definition CodeDisplay_view (files : list GeneratedFile) (isLoading : bool)
    (error : option string) (selectedFile : option GeneratedFile)
    : option Markup :=
  content ← renderContent_view files isLoading error selectedFile;
  Some (Element "div"
          [("className", Str "bg-gray-800 rounded-xl border border-gray-700 overflow-hidden h-[calc(100vh-10rem)] min-h-[600px]")]
          [content]).

End Panels.

(** What a user can do with a line, and with the lines of a tree: a
    click on the line of a file calls [onFileSelect] with what the line
    selects. *)
Definition row_clicks (r : Row) : list Handler :=
  if folder r then [] else [OnFileSelect (target r)].

Definition clicks (rows : list Row) : list Handler := mjoin (row_clicks <$> rows).

(** What a user can do with a panel, and the texts of a panel. *)
Definition panel_controls (p : Panel) : list Handler :=
  match p with
  | Browser _ disabled rows _ => (if disabled then [] else [OnDownloadZip]) ++ clicks rows
  | _ => []
  end.

Definition panel_texts (p : Panel) : Completion (list TextNode) :=
  match p with
  | Spinner =>
    Normal [TextOf "Generating your Ansible role..."; TextOf "This might take a moment."]
  | ErrorPanel message => Normal [TextOf "An Error Occurred"; TextOf message]
  | Placeholder =>
    Normal [TextOf "Your generated code will appear here.";
            TextOf ("Describe the role you need and click " +:+
                    String "034"%char ("Generate" +:+ String "034"%char "."))]
  | Browser title _ rows shown =>
    bindC (code_block shown) (fun code =>
      Normal ((TextOf <$> option_list title) ++ [TextOf "Download as ZIP"] ++
              (TextOf <$> (label <$> rows)) ++ code))
  end.

(** The class names of the selected line (line 61). *)
Definition selected_class : string := "bg-cyan-500/20 text-cyan-300".

(** The line of a file as the page has it: what a click on it selects,
    whether it has the colours of the selected line, and its margin. *)
Definition line_of (m : Markup) : option (option GeneratedFile * bool * string) :=
  match prop_of "onClick" m, prop_of "className" m, prop_of "style" m with
  | Some (Handle (OnFileSelect g)), Some (Str c), Some (Style _ margin) =>
    Some (g, includes c selected_class, margin)
  | _, _, _ => None
  end.

Definition row_line (r : Row) : option (option GeneratedFile * bool * string) :=
  if folder r then None else Some (target r, highlighted r, rem (level r)).

(** The margin a line sets: on the line of a file, and on the block of
    the children of a directory. *)
Definition row_margin (r : Row) : option PropValue :=
  Some (Style "marginLeft" (rem (level r))).

(** An observation that sees only elements with a style. *)
Definition styled {A : Type} (observe : Markup -> option A) : Prop :=
  forall m, prop_of "style" m = None -> observe m = None.

(** The lines of files and the margins of a panel. *)
Definition panel_lines (p : Panel) : list (option GeneratedFile * bool * string) :=
  match p with
  | Browser _ _ rows _ => omap row_line rows
  | _ => []
  end.

Definition panel_margins (p : Panel) : list PropValue :=
  match p with
  | Browser _ _ rows _ => omap row_margin rows
  | _ => []
  end.

(** A page shows a panel: the same handlers are within reach; the
    texts are the same, or making them throws the same value; the lines
    of files select, are highlighted and are indented as the lines of
    the panel, and the blocks have the margins of its directories. *)
Definition shows (page : Markup) (p : Panel) : Prop :=
  fires page = panel_controls p ∧ texts page = panel_texts p ∧
  collect line_of page = panel_lines p ∧
  prop_values "style" page = panel_margins p.

(** The lines of a directory select nothing. *)
Definition folders_inert (rows : list Row) : Prop :=
  Forall (fun r => folder r = true -> target r = None) rows.

(** ** The lines of a tree and its elements *)

Lemma clicks_cons r rows : clicks (r :: rows) = row_clicks r ++ clicks rows.
Proof. done. Qed.

Lemma clicks_app rows1 rows2 : clicks (rows1 ++ rows2) = clicks rows1 ++ clicks rows2.
Proof. unfold clicks. by rewrite fmap_app, join_app. Qed.

Lemma clicks_join (blocks : list (list Row)) :
  clicks (mjoin blocks) = mjoin (clicks <$> blocks).
Proof.
  induction blocks as [|b blocks IH]; [done|].
  by rewrite fmap_cons, !mjoin_cons, clicks_app, IH.
Qed.

(** A click on a line is within reach exactly when the line is the
    line of a file and selects what the click carries. *)
Lemma elem_of_clicks rows h :
  h ∈ clicks rows <-> exists r, r ∈ rows ∧ folder r = false ∧ h = OnFileSelect (target r).
Proof.
  unfold clicks. rewrite list_elem_of_join. setoid_rewrite list_elem_of_fmap. split.
  - intros (l & Hh & r & -> & Hr). unfold row_clicks in Hh.
    destruct (folder r) eqn:Hf; [by apply elem_of_nil in Hh|].
    apply list_elem_of_singleton in Hh. eauto.
  - intros (r & Hr & Hf & ->). exists (row_clicks r). split; [|eauto].
    unfold row_clicks. rewrite Hf. by left.
Qed.

Section ViewFacts.
Context `{Collator}.
Implicit Types (sp : string) (lvl off : nat).

(** The component in the form of the source: the children sorted by
    name, each an item with its name as the key, one level down. *)
Lemma FileTree_view_unfold sp lvl node :
  FileTree_view sp lvl node =
  match children node with
  | Some ch =>
    Element "div" []
      [folder_header (name node);
       Element "div" [("style", Style "marginLeft" (rem lvl))]
         ((fun c => Keyed (name c) (FileTree_view sp (S lvl) c)) <$>
            array_sort by_name (obj_values ch))]
  | None => file_line sp lvl node
  end.
Proof.
  destruct node as [n [ch|] g]; [|done]. cbn [FileTree_view children name].
  do 4 f_equal.
  set (h := fun c : TreeNode => (name c, FileTree_view sp (S lvl) c)).
  transitivity ((fun kv : string * Markup => Keyed kv.1 kv.2) <$>
                  array_sort by_key (h <$> obj_values ch)).
  - do 2 f_equal. unfold obj_values. induction ch as [|kc ch IH]; [done|].
    rewrite !fmap_cons. by f_equal.
  - rewrite (array_sort_fmap by_name by_key h) by done.
    by rewrite <- list_fmap_compose.
Qed.

(** Induction on the children of a directory: what holds of every
    child holds of the children in the order of their names. *)
Lemma Forall_sorted_children (P : TreeNode -> Prop) (ch : list (string * TreeNode)) :
  Forall (fun kc => P kc.2) ch -> Forall P (array_sort by_name (obj_values ch)).
Proof.
  intros Hall. rewrite array_sort_perm. unfold obj_values. by apply Forall_fmap.
Qed.

(** The handlers within reach in the elements of a node are the clicks
    on its lines. *)
Lemma FileTree_fires sp node : forall lvl off,
  fires (FileTree_view sp lvl node) = clicks (render sp lvl off node).
Proof.
  induction node as [n g|n ch g IH] using TreeNode_nested_ind; intros lvl off;
    rewrite FileTree_view_unfold, render_unfold; cbn [children]; [done|].
  rewrite clicks_cons, clicks_join, <- list_fmap_compose.
  rewrite fires_Element, !fmap_cons, !mjoin_cons, fires_Element, <- list_fmap_compose.
  change (fires (folder_header _)) with (@nil Handler). simpl. rewrite app_nil_r. f_equal.
  apply Forall_fmap_ext_1, Forall_sorted_children.
  eapply Forall_impl; [exact IH|]. intros kc Hc. apply Hc.
Qed.

(** The texts of the elements of a node are the labels of its lines. *)
Lemma FileTree_texts sp node : forall lvl off,
  texts (FileTree_view sp lvl node) =
  Normal (TextOf <$> (label <$> render sp lvl off node)).
Proof.
  induction node as [n g|n ch g IH] using TreeNode_nested_ind; intros lvl off;
    rewrite FileTree_view_unfold, render_unfold; cbn [children]; [done|].
  rewrite !fmap_cons, node_row_label, texts_Element. cbn [fmap list_fmap].
  rewrite texts_Element, <- list_fmap_compose.
  change (texts (folder_header n)) with (Normal [TextOf n]).
  rewrite (proj1 (Forall_fmap_ext _ (fun c => Normal (TextOf <$> (label <$> render sp (S lvl) (off + lvl) c))) _)).
  2: { apply Forall_sorted_children. eapply Forall_impl; [exact IH|].
       intros kc Hc. apply Hc. }
  rewrite all_texts_fmap. simpl. rewrite app_nil_r.
  do 2 f_equal. induction (array_sort by_name (obj_values ch)) as [|c l IHl]; [done|].
  by rewrite !fmap_cons, !mjoin_cons, !fmap_app, IHl.
Qed.

(** What an observation of styled elements finds in the elements of a
    node, from what it makes of the line of a file and of the block of
    a directory. *)
Section Observed.
Context {A : Type} (observe : Markup -> option A) (of_row : Row -> option A).
Context (sp : string).
Hypothesis observe_styled : styled observe.
Hypothesis observe_file : forall lvl off node,
  children node = None ->
  observe (file_line sp lvl node) = of_row (node_row sp lvl off node).
Hypothesis observe_block : forall lvl off node items,
  children node <> None ->
  observe (Element "div" [("style", Style "marginLeft" (rem lvl))] items) =
  of_row (node_row sp lvl off node).

Lemma unstyled_collect m : prop_values "style" m = [] -> collect observe m = [].
Proof.
  unfold prop_values, collect. induction (nodes m) as [|n l IH]; [done|].
  simpl. destruct (prop_of "style" n) eqn:Hn; [done|].
  rewrite observe_styled by done. apply IH.
Qed.

Lemma FileTree_collect node : forall lvl off,
  collect observe (FileTree_view sp lvl node) = omap of_row (render sp lvl off node).
Proof.
  induction node as [n g|n ch g IH] using TreeNode_nested_ind; intros lvl off;
    rewrite FileTree_view_unfold, render_unfold; cbn [children].
  - unfold file_line at 1. rewrite collect_Element. fold (file_line sp lvl (mkNode n None g)).
    rewrite (observe_file lvl off) by done. simpl.
    rewrite !unstyled_collect by done. simpl. rewrite app_nil_r.
    by destruct (of_row _).
  - rewrite collect_Element, observe_styled by done.
    rewrite !fmap_cons, !mjoin_cons, (unstyled_collect (folder_header _)) by done.
    rewrite collect_Element, (observe_block lvl off (mkNode n (Some ch) g)) by done.
    cbn [omap list_omap option_list app fmap list_fmap mjoin list_join].
    rewrite omap_mjoin, <- !list_fmap_compose, !app_nil_r.
    assert (mjoin (collect observe ∘
                   (fun c => Keyed (name c) (FileTree_view sp (S lvl) c)) <$>
                   array_sort by_name (obj_values ch)) =
            mjoin (omap of_row ∘ render sp (S lvl) (off + lvl) <$>
                   array_sort by_name (obj_values ch))) as ->; [|by destruct (of_row _)].
    f_equal. apply Forall_fmap_ext_1, Forall_sorted_children.
    eapply Forall_impl; [exact IH|]. intros kc Hc. simpl.
    rewrite collect_Keyed, observe_styled by done. apply Hc.
Qed.

Lemma tree_items_collect tree :
  mjoin (collect observe <$> tree_items tree sp) = omap of_row (top_rows tree sp).
Proof.
  destruct tree as [[n [ch|] g]|]; [|done..]. cbn [tree_items top_rows children].
  rewrite omap_mjoin, <- !list_fmap_compose. f_equal.
  apply list_fmap_ext. intros _ c _. simpl.
  rewrite collect_Keyed, observe_styled by done. apply FileTree_collect.
Qed.

Lemma browser_view_collect files isLoading sel tree :
  sp = default "" (path <$> sel) ->
  collect observe (browser_view files isLoading sel tree) = omap of_row (top_rows tree sp).
Proof.
  intros Hsp. unfold browser_view. rewrite collect_Element, observe_styled by done.
  rewrite !fmap_cons, !mjoin_cons, fmap_nil.
  rewrite (unstyled_collect (Element "div" _ [Element "span" _ _; _]))
    by (by destruct sel).
  rewrite collect_Element, observe_styled by done.
  rewrite !fmap_cons, !mjoin_cons, fmap_nil.
  rewrite (unstyled_collect (code_view sel)) by (by destruct sel).
  rewrite collect_Element, observe_styled, <- Hsp, tree_items_collect by done.
  simpl. by rewrite !app_nil_r.
Qed.

End Observed.

(** The two observations of the lines. *)
Lemma line_of_styled : styled line_of.
Proof.
  intros m Hm. unfold line_of. rewrite Hm.
  by destruct (prop_of "onClick" m) as [[| |[]|]|], (prop_of "className" m) as [[]|].
Qed.

Lemma style_styled : styled (prop_of "style").
Proof. by intros m Hm. Qed.

Lemma file_line_line sp lvl off node :
  children node = None ->
  line_of (file_line sp lvl node) = row_line (node_row sp lvl off node).
Proof.
  destruct node as [n [ch|] g]; [done|]. intros _. unfold line_of, row_line. simpl.
  by destruct (isSelected _ sp).
Qed.

Lemma block_line sp lvl off node items :
  children node <> None ->
  line_of (Element "div" [("style", Style "marginLeft" (rem lvl))] items) =
  row_line (node_row sp lvl off node).
Proof. by destruct node as [n [ch|] g]. Qed.

Lemma file_line_margin sp lvl off node :
  children node = None ->
  prop_of "style" (file_line sp lvl node) = row_margin (node_row sp lvl off node).
Proof. unfold row_margin. by rewrite node_row_level. Qed.

Lemma block_margin sp lvl off node items :
  children node <> None ->
  prop_of "style" (Element "div" [("style", Style "marginLeft" (rem lvl))] items) =
  row_margin (node_row sp lvl off node).
Proof. unfold row_margin. by rewrite node_row_level. Qed.

Lemma folder_header_keys n : keys_unique (folder_header n).
Proof. unfold keys_unique. simpl. repeat constructor. Qed.

Lemma file_line_keys sp lvl node : keys_unique (file_line sp lvl node).
Proof. unfold keys_unique. simpl. repeat constructor. Qed.

(** The keys of a list of items are the names of the nodes. *)
Lemma item_keys (view : TreeNode -> Markup) (items : list TreeNode) :
  omap key_of ((fun c => Keyed (name c) (view c)) <$> items) = name <$> items.
Proof. induction items as [|c l IH]; [done|]. simpl. f_equal. exact IH. Qed.

(** The names of the children of a node of a tree are the keys they
    are stored under. *)
Lemma children_names p (ch : list (string * TreeNode)) :
  Forall (wf_child p wf_node) ch -> name <$> obj_values ch = obj_keys ch.
Proof.
  intros Hall. unfold obj_values, obj_keys. rewrite <- list_fmap_compose.
  apply Forall_fmap_ext_1. eapply Forall_impl; [exact Hall|]. by intros kc (_ & ? & _).
Qed.

(** The items of a list of children have distinct keys when each child
    has: the names of the children are the keys of an object. *)
Lemma items_keys p (view : TreeNode -> Markup) (ch : list (string * TreeNode)) tag props :
  obj_wf ch -> Forall (wf_child p wf_node) ch ->
  Forall (fun kc => keys_unique (view kc.2)) ch ->
  keys_unique (Element tag props
    ((fun c => Keyed (name c) (view c)) <$> array_sort by_name (obj_values ch))).
Proof.
  intros [Hnd _] Hall Hview. apply keys_unique_Element. split.
  - by rewrite item_keys, array_sort_perm, (children_names p).
  - apply Forall_fmap, Forall_sorted_children. eapply Forall_impl; [exact Hview|].
    intros kc Hkc. by apply keys_unique_Keyed.
Qed.

(** The items of one list have distinct keys, at every level of the
    tree. *)
Lemma FileTree_keys sp node : forall p lvl,
  wf_node p node -> keys_unique (FileTree_view sp lvl node).
Proof.
  induction node as [n g|n ch g IH] using TreeNode_nested_ind; intros p lvl Hwf;
    rewrite FileTree_view_unfold; cbn [children]; [apply file_line_keys|].
  apply wf_node_unfold in Hwf as [_ Hch]. destruct (Hch ch eq_refl) as [Hobj Hall].
  apply keys_unique_Element. split; [apply NoDup_nil_2|].
  apply Forall_cons_2; [apply folder_header_keys|]. apply Forall_cons_2; [|done].
  apply (items_keys p); [done..|]. apply Forall_forall. intros kc Hkc.
  rewrite Forall_forall in IH, Hall. destruct (Hall kc Hkc) as (_ & _ & _ & Hwf).
  by eapply IH.
Qed.

(** ** The browser and its panel *)

Lemma tree_items_fires tree sp :
  mjoin (fires <$> tree_items tree sp) = clicks (top_rows tree sp).
Proof.
  destruct tree as [[n [ch|] g]|]; [|done..]. cbn [tree_items top_rows children].
  rewrite clicks_join, <- !list_fmap_compose. f_equal.
  apply list_fmap_ext. intros _ c _. apply FileTree_fires.
Qed.

Lemma tree_items_texts tree sp :
  all_texts (texts <$> tree_items tree sp) =
  Normal (TextOf <$> (label <$> top_rows tree sp)).
Proof.
  destruct tree as [[n [ch|] g]|]; [|done..]. cbn [tree_items top_rows children].
  rewrite <- list_fmap_compose.
  rewrite (list_fmap_ext _ (fun c => Normal (TextOf <$> (label <$> render sp 0 0 c))) _).
  2: { intros _ c _. apply FileTree_texts. }
  rewrite all_texts_fmap. f_equal.
  induction (obj_values ch) as [|c l IH]; [done|].
  by rewrite !fmap_cons, !mjoin_cons, !fmap_app, IH.
Qed.

Lemma tree_items_keys tree sp tag props :
  (forall t, tree = Some t -> wf_node [] t) ->
  keys_unique (Element tag props (tree_items tree sp)).
Proof.
  intros Hwf. apply keys_unique_Element.
  destruct tree as [[n [ch|] g]|]; [|split; [apply NoDup_nil_2|done]..].
  specialize (Hwf _ eq_refl). apply wf_node_unfold in Hwf as [_ Hch].
  destruct (Hch ch eq_refl) as [[Hnd _] Hall]. cbn [tree_items children]. split.
  - by rewrite item_keys, (children_names []).
  - apply Forall_fmap, Forall_fmap. eapply Forall_impl; [exact Hall|].
    intros kc (_ & _ & _ & Hkc). by eapply keys_unique_Keyed, FileTree_keys.
Qed.

Lemma download_button_fires files isLoading :
  fires (download_button files isLoading) =
  if negb (hasFiles files) || isLoading then [] else [OnDownloadZip].
Proof.
  unfold download_button. generalize (negb (hasFiles files) || isLoading). by intros [].
Qed.

Lemma code_view_texts sel : texts (code_view sel) = code_block (content <$> sel).
Proof.
  destruct sel as [f|]; [|done]. simpl.
  destruct (react_child (content f)); [|done]. simpl. by rewrite !app_nil_r.
Qed.

Lemma browser_view_shows files isLoading sel tree :
  shows (browser_view files isLoading sel tree)
    (Browser (path <$> sel) (negb (hasFiles files) || isLoading)
       (top_rows tree (default "" (path <$> sel))) (content <$> sel)).
Proof.
  unfold shows, prop_values.
  rewrite (browser_view_collect line_of row_line _ line_of_styled)
    by auto using file_line_line, block_line.
  rewrite (browser_view_collect (prop_of "style") row_margin _ style_styled)
    by auto using file_line_margin, block_margin.
  unfold browser_view, panel_controls, panel_texts.
  rewrite !fires_Element, !texts_Element, !fmap_cons, !fmap_nil.
  rewrite !fires_Element, !texts_Element, !fmap_cons, !fmap_nil.
  rewrite !fires_Element, !texts_Element, tree_items_fires, tree_items_texts.
  rewrite download_button_fires, code_view_texts. split; [|split; [|done]].
  - destruct sel, (negb (hasFiles files) || isLoading); simpl; by rewrite ?app_nil_r.
  - destruct (code_block (content <$> sel)), sel; simpl; by rewrite ?app_nil_r.
Qed.

(** The elements of [renderContent] show its panel. *)
Lemma renderContent_view_shows files isLoading error sel :
  option_Forall2 shows (renderContent_view files isLoading error sel)
    (renderContent files isLoading error sel).
Proof.
  unfold renderContent_view, renderContent.
  destruct (fileTree files) as [tree|]; [|constructor]. simpl. constructor.
  destruct isLoading; [done|]. destruct (error_shown error); [done|].
  destruct files; [done|]. apply browser_view_shows.
Qed.

(** The keys of the panel: the only lists of items are those of the
    tree. *)
Lemma renderContent_view_keys files isLoading error sel v :
  renderContent_view files isLoading error sel = Some v -> keys_unique v.
Proof.
  unfold renderContent_view. intros Hv.
  destruct (fileTree files) as [tree|] eqn:Htree; simplify_eq/=.
  destruct isLoading; [keys_unique_walk|].
  destruct (error_shown error); [keys_unique_walk|].
  destruct files as [|f files]; [keys_unique_walk|].
  unfold browser_view, download_button, code_view.
  apply keys_unique_Element. split; [apply NoDup_nil_2|].
  apply Forall_cons_2; [destruct sel; keys_unique_walk|].
  apply Forall_cons_2; [|done].
  apply keys_unique_Element. split; [apply NoDup_nil_2|].
  apply Forall_cons_2; [|destruct sel; keys_unique_walk].
  apply tree_items_keys. intros t ->. unfold fileTree in Htree.
  destruct (buildFileTree (f :: files)) as [t'|] eqn:Ht; simplify_eq/=.
  by eapply built_wf.
Qed.

Lemma CodeDisplay_view_keys files isLoading error sel v :
  CodeDisplay_view files isLoading error sel = Some v -> keys_unique v.
Proof.
  unfold CodeDisplay_view. intros Hv.
  destruct (renderContent_view _ _ _ _) as [content|] eqn:Hcontent; simplify_eq/=.
  keys_unique_walk. by eapply renderContent_view_keys.
Qed.

(** An element without a handler and without a style around a page
    shows what the page shows. *)
Lemma shows_framed tag props v p :
  own_handlers props [v] = [] -> prop "style" props = None ->
  shows v p -> shows (Element tag props [v]) p.
Proof.
  intros Hown Hstyle (Hf & Ht & Hl & Hm). unfold shows, prop_values in *.
  rewrite fires_Element, texts_Element, !collect_Element, Hown, line_of_styled by done.
  simpl. rewrite Hstyle, Hf, Ht, Hl, Hm. simpl. rewrite !app_nil_r.
  repeat split. destruct (panel_texts p); simpl; by rewrite ?app_nil_r.
Qed.

(** So does the component: its frame adds no control and no text. *)
Lemma CodeDisplay_view_shows files isLoading error sel :
  option_Forall2 shows (CodeDisplay_view files isLoading error sel)
    (renderContent files isLoading error sel).
Proof.
  unfold CodeDisplay_view.
  destruct (renderContent_view_shows files isLoading error sel) as [v p Hshows|];
    constructor.
  by apply shows_framed.
Qed.

(** The clicks on lines whose directories select nothing are the
    targets of the lines. *)
Lemma clicks_targets rows f :
  folders_inert rows -> OnFileSelect (Some f) ∈ clicks rows <-> Some f ∈ target <$> rows.
Proof.
  intros Hinert. rewrite elem_of_clicks, list_elem_of_fmap. split.
  - intros (r & Hr & _ & [= ->]). eauto.
  - intros (r & Hf & Hr). exists r. split; [done|]. split; [|by rewrite Hf].
    destruct (folder r) eqn:Hfolder; [|done].
    apply (proj1 (Forall_forall _ _) Hinert r Hr) in Hfolder. congruence.
Qed.

Lemma render_inert sp node : forall lvl off, folders_inert (render sp lvl off node).
Proof.
  induction node as [n g|n ch g IH] using TreeNode_nested_ind; intros lvl off;
    rewrite render_unfold; cbn [children]; [by repeat constructor|].
  apply Forall_cons_2; [done|]. apply Forall_forall. intros r Hr.
  apply elem_of_render_children in Hr as (kc & Hkc & Hr).
  rewrite Forall_forall in IH. specialize (IH kc Hkc (S lvl) (off + lvl)).
  by apply (proj1 (Forall_forall _ _) IH).
Qed.

Lemma top_rows_inert tree sp : folders_inert (top_rows tree sp).
Proof.
  destruct tree as [[n [ch|] g]|]; [|by constructor..]. cbn [top_rows children].
  apply Forall_forall. intros r (kc & _ & Hr)%elem_of_render_values.
  by apply (proj1 (Forall_forall _ _) (render_inert sp kc.2 0 0)).
Qed.

End ViewFacts.
