(* ===== verification/App.v ===== *)
(** * App: the controller and the application as a state machine
    ([src/App.tsx])

    [App] holds the list of generated files, the loading flag and the
    error.  [handleGenerate] resets the three, awaits
    [generateAnsibleRole] and stores its files or its error;
    [handleDownloadZip] puts every file in a zip archive, awaits the
    encoder and starts the download.  Both handlers are asynchronous:
    each is split here at its [await] into the part that runs at the
    call and the part that runs at the settlement.

    The application is the state machine [step]: its state is the state
    of [App], of the form (the description) and of the display (the
    selected file), with the generations and the archives in flight;
    its events are what the user and the environment can do.  An event
    of the user is enabled when the page is mounted and the control it
    uses is shown and not disabled.  [reachable] is the set of states
    of the runs from [initial].

    The page is mounted ([mounted]) as long as React can render it.
    No component of [App] catches an error of the rendering, so when
    the content given to the code block makes React throw, the page is
    unmounted and stays so: [unmounted_step] has no event of the user,
    and a promise that settles afterwards finds setters that do
    nothing.  A state whose files have a path that writes to
    [Object.prototype] has no step at all: the runs of the model end
    where the model of the tree ends.

    The zip encoder (JSZip) is outside the sources: an archive is the
    list of the calls [zip.file(path, content)] with the name of the
    download, and whether [generateAsync] succeeds is part of the event
    that settles it.  The event is free to succeed on every content, so
    the model has every run of the program and more: that is sound for
    the invariants, and the theorems that assert a run with an archive
    that succeeds are stated for contents that are strings. *)

From S2P Require Import Prelude JsString JsObject Json Markup FileTree Generator Form Display.
From Stdlib Require Import Ascii.

(** ** Definitions *)

(** The state of [App] (lines 10-12). *)
Record AppState : Type := mkApp {
  generatedFiles : list GeneratedFile;
  isLoading : bool;
  error : option string
}.

Definition initial_app : AppState := mkApp [] false None.

(** The message of line 23. *)
Definition failure_message (err : Thrown) : string :=
  match err with
  | ErrorObject message => ("Generation failed: " +:+ message)%stdpp
  | NonError => "An unknown error occurred."
  end.

(** [handleGenerate] up to its [await] (lines 15-17). *)
Definition generate_start (s : AppState) : AppState := mkApp [] true None.

(** [handleGenerate] from the settlement of the promise on (lines
    20-27): the [try] or the [catch], then the [finally]. *)
Definition generate_settle (outcome : Completion (list GeneratedFile)) (s : AppState)
  : AppState :=
  match outcome with
  | Normal files => mkApp files false (error s)
  | Throw err => mkApp (generatedFiles s) false (Some (failure_message err))
  end.

(** [handleGenerate] (lines 14-28) when nothing happens between the
    call and the settlement. *)
Definition handleGenerate `{Engine} (service : Service) (description : string)
    (s : AppState) : AppState :=
  generate_settle (generateAnsibleRole service description) (generate_start s).

(** The name of the archive (line 34):
    [generatedFiles[0]?.path.split('/')[0] || 'ansible_role']. *)
Definition rootDir (files : list GeneratedFile) : string :=
  match head files with
  | Some f =>
    let first := default EmptyString (head (split "/"%char (path f))) in
    if truthy first then first else "ansible_role"
  | None => "ansible_role"
  end.

(** An archive whose encoding is awaited, and a download. *)
Record Pending : Type := mkPending {
  pending_root : string;
  pending_entries : list (string * json)
}.

Record Archive : Type := mkArchive {
  filename : string;
  entries : list (string * json)
}.

(** [handleDownloadZip] up to its [await] (lines 31-43): nothing when
    there is no file, else the calls [zip.file(file.path, file.content)]
    in order. *)
Definition download_start (s : AppState) : option Pending :=
  match generatedFiles s with
  | [] => None
  | files => Some (mkPending (rootDir files) ((fun f => (path f, content f)) <$> files))
  end.

Definition zip_failure : string := "Failed to generate zip file.".

(** [handleDownloadZip] from the settlement of [generateAsync] on
    (lines 43-54): the download, or the error. *)
Definition download_settle (ok : bool) (p : Pending) (s : AppState)
  : AppState * option Archive :=
  if ok then (s, Some (mkArchive (pending_root p +:+ ".zip")%stdpp (pending_entries p)))
  else (mkApp (generatedFiles s) (isLoading s) (Some zip_failure), None).

(** [handleDownloadZip] (lines 30-55) when nothing happens between the
    call and the settlement of the encoder. *)
Definition handleDownloadZip (ok : bool) (s : AppState) : AppState * option Archive :=
  match download_start s with
  | Some p => download_settle ok p s
  | None => (s, None)
  end.

(** The state of the application. *)
Record System : Type := mkSystem {
  app : AppState;
  description : string;                  (* the state of the form *)
  selectedFile : option GeneratedFile;   (* the state of the display *)
  requests : list string;                (* generations in flight *)
  archives : list Pending;               (* archives in flight *)
  downloads : list Archive               (* downloads started, latest first *)
}.

Definition initial : System :=
  mkSystem initial_app default_description None [] [] [].

(** What happens. *)
Inductive Event : Type :=
| Edit (text : string)                  (* the user changes the description *)
| Submit                                (* the user presses the button of the form *)
| Settle (i : nat) (service : Service)  (* generation [i] settles, the service having answered *)
| Click (f : GeneratedFile)             (* the user clicks a file of the tree *)
| Download                              (* the user presses the download button *)
| ZipSettle (i : nat) (ok : bool).      (* archive [i] is encoded, or not *)

(** The four states of the specification, and the one it has no name
    for. *)
Inductive Phase : Type :=
| Idle
| Generating
| Succeeded (files : list GeneratedFile)
| Failed (message : string)
| Obscured (files : list GeneratedFile) (message : string).

Definition phase (s : AppState) : Phase :=
  if isLoading s then Generating
  else match error_shown (error s), generatedFiles s with
       | None, [] => Idle
       | None, files => Succeeded files
       | Some m, [] => Failed m
       | Some m, files => Obscured files m
       end.

(** Whether React can render a panel.  The content of the selected
    file is a child of the code element ([CodeDisplay.tsx] line 136):
    an object among the children makes the rendering throw, and no
    component of [App] catches it. *)
Definition renders (p : Panel) : bool :=
  match p with
  | Browser _ _ _ (Some content) => negb (has_object content)
  | _ => true
  end.

(** The events of the user: they need a control of the page. *)
Definition user_event (e : Event) : bool :=
  match e with
  | Settle _ _ | ZipSettle _ _ => false
  | _ => true
  end.

Section Machine.
Context `{Engine} `{Collator}.

(** The panel the display shows. *)
Definition panel (s : System) : option Panel :=
  renderContent (generatedFiles (app s)) (isLoading (app s)) (error (app s))
    (selectedFile s).

(** The page is mounted when React can render what [App] returns: the
    tree of the files is in the model and the page exists, which it
    does not when a child throws. *)
Definition mounted (s : System) : bool :=
  match panel s with
  | Some p => renders p
  | None => false
  end.

(** The lines of the tree, when the browser is on the page with its
    button enabled. *)
Definition browser (s : System) : option (list Row) :=
  match panel s with
  | Some (Browser title false rows shown) =>
    if renders (Browser title false rows shown) then Some rows else None
  | _ => None
  end.

(** The text of the code block the display shows ([CodeDisplay.tsx]
    line 136); making it can throw. *)
Definition display_text (s : System) : Completion (list TextNode) :=
  match panel s with
  | Some (Browser _ _ _ shown) => code_block shown
  | _ => Normal []
  end.

(** The effect of the display (lines 77-84) after [setGeneratedFiles]
    was called with [files]. *)
Definition reselect (files : list GeneratedFile) (s : System) : System :=
  mkSystem (app s) (description s) (select_on_files files) (requests s)
    (archives s) (downloads s).

(** One event on the mounted page: the next state, when the control
    the event uses is shown and enabled. *)
Definition mounted_step (s : System) (e : Event) : option System :=
  match e with
  | Edit text =>
    Some (mkSystem (app s) (onChange text (description s)) (selectedFile s)
            (requests s) (archives s) (downloads s))
  | Submit =>
    if submit_blocked (isLoading (app s)) (description s) then None
    else
      d ← handleSubmit (description s);
      Some (reselect []
              (mkSystem (generate_start (app s)) (description s) (selectedFile s)
                 (requests s ++ [d]) (archives s) (downloads s)))
  | Settle i service =>
    d ← requests s !! i;
    let outcome := generateAnsibleRole service d in
    let s' := mkSystem (generate_settle outcome (app s)) (description s)
                (selectedFile s) (delete i (requests s)) (archives s) (downloads s) in
    Some (match outcome with
          | Normal files => reselect files s'
          | Throw _ => s'
          end)
  | Click f =>
    match browser s with
    | Some rows =>
      if bool_decide (Some f ∈ target <$> rows)
      then Some (mkSystem (app s) (description s) (Some f) (requests s)
                   (archives s) (downloads s))
      else None
    | None => None
    end
  | Download =>
    rows ← browser s;
    p ← download_start (app s);
    Some (mkSystem (app s) (description s) (selectedFile s) (requests s)
            (archives s ++ [p]) (downloads s))
  | ZipSettle i ok =>
    p ← archives s !! i;
    let settled := download_settle ok p (app s) in
    Some (mkSystem (fst settled) (description s) (selectedFile s) (requests s)
            (delete i (archives s)) (option_list (snd settled) ++ downloads s))
  end.

(** One event after a rendering threw.  The page is gone and no control
    is left.  A promise that settles still runs the rest of its
    handler: the setters of the unmounted components do nothing, and
    the download of an archive (lines 44-50, which do not go through
    React) starts all the same. *)
Definition unmounted_step (s : System) (e : Event) : option System :=
  match e with
  | Settle i service =>
    d ← requests s !! i;
    Some (mkSystem (app s) (description s) (selectedFile s) (delete i (requests s))
            (archives s) (downloads s))
  | ZipSettle i ok =>
    p ← archives s !! i;
    Some (mkSystem (app s) (description s) (selectedFile s) (requests s)
            (delete i (archives s))
            (option_list (snd (download_settle ok p (app s))) ++ downloads s))
  | _ => None
  end.

(** One event: the next state, when the event is enabled.  A state
    whose tree is outside the model (a path wrote to
    [Object.prototype]) has no next state: what the program does from
    there on is not modelled. *)
Definition step (s : System) (e : Event) : option System :=
  match panel s with
  | Some p => if renders p then mounted_step s e else unmounted_step s e
  | None => None
  end.

(** A run. *)
Fixpoint run (events : list Event) (s : System) : option System :=
  match events with
  | [] => Some s
  | e :: events' => s' ← step s e; run events' s'
  end.

(** The states of the runs from [initial]. *)
Inductive reachable : System -> Prop :=
| reachable_initial : reachable initial
| reachable_step s e s' : reachable s -> step s e = Some s' -> reachable s'.

End Machine.

(** A name of an archive: not empty, without a slash. *)
Definition archive_root (root : string) : Prop :=
  truthy root = true ∧ has_char "/"%char root = false.

(** The invariant of the application: one generation in flight while
    the flag is set and none otherwise; no files while loading; the
    selected file is one of the files, and there is one when there are
    files; the error is a message that is shown; every archive has a
    name and an entry. *)
Definition inv (s : System) : Prop :=
  length (requests s) = (if isLoading (app s) then 1 else 0) ∧
  (isLoading (app s) = true -> generatedFiles (app s) = []) ∧
  match selectedFile s with
  | Some f => f ∈ generatedFiles (app s)
  | None => generatedFiles (app s) = []
  end ∧
  error_shown (error (app s)) = error (app s) ∧
  Forall (fun p => archive_root (pending_root p) ∧ pending_entries p <> []) (archives s) ∧
  Forall (fun a => (exists root, archive_root root ∧ filename a = (root +:+ ".zip")%stdpp) ∧
                   entries a <> []) (downloads s).

(** Where the error of a state comes from: it is the error of an
    archive, or the message of a generation that failed, which is
    stored without files and after the loading. *)
Definition origin (s : AppState) : Prop :=
  match error s with
  | Some m =>
    m = zip_failure ∨
    generatedFiles s = [] ∧ isLoading s = false ∧ exists err, m = failure_message err
  | None => True
  end.

(** The application after the scenario of the specification: the
    description is typed and submitted, the service answers. *)
Definition nginx_events : list Event :=
  [Edit "install nginx"; Submit; Settle 0 (answering nginx_answer)].

(** The download is started after the scenario, and its archive is in
    flight. *)
Definition archiving_events : list Event := nginx_events ++ [Download].

(** The archive fails after a new generation was started. *)
Definition stale_error_events : list Event :=
  archiving_events ++ [Submit; ZipSettle 0 false; Settle 0 (answering nginx_answer)].

(** A service that cannot be reached: the request is rejected. *)
Definition offline : Service := fun _ => Throw (ErrorObject "Failed to fetch").

(** An answer in which the content of the file is an object, not a
    text: the task as data in place of the YAML of the task. *)
Definition nested_answer : string :=
  ("{" +:+ dq +:+ "web/tasks/main.yml" +:+ dq +:+ ": {" +:+ dq +:+ "name" +:+ dq +:+
   ": " +:+ dq +:+ "install" +:+ dq +:+ "}}")%stdpp.

Definition nested_file : GeneratedFile :=
  mkFile "web/tasks/main.yml" (JObject [("name", JString "install")]).

(** ** The handlers *)

Lemma failure_message_truthy err : truthy (failure_message err) = true.
Proof. by destruct err. Qed.

Lemma rootDir_archive_root files : archive_root (rootDir files).
Proof.
  unfold rootDir. destruct (head files) as [f|]; [|done].
  pose proof (split_segments_clean "/"%char (path f)) as Hclean.
  destruct (split "/"%char (path f)) as [|seg segs]; simpl; [done|].
  apply Forall_inv in Hclean. destruct seg; [done|]. done.
Qed.

Lemma download_start_Some s p :
  download_start s = Some p <->
  generatedFiles s <> [] ∧
  p = mkPending (rootDir (generatedFiles s))
        ((fun f => (path f, content f)) <$> generatedFiles s).
Proof. unfold download_start. destruct (generatedFiles s); naive_solver. Qed.

(** The handler leaves the files and the flag as they are, starts a
    download of every file in order when the encoder succeeds, and
    stores the error when it does not; without files it does nothing. *)
Lemma handleDownloadZip_cases ok s :
  handleDownloadZip ok s =
  match generatedFiles s, ok with
  | [], _ => (s, None)
  | files, true =>
    (s, Some (mkArchive (rootDir files +:+ ".zip")%stdpp
                ((fun f => (path f, content f)) <$> files)))
  | _, false => (mkApp (generatedFiles s) (isLoading s) (Some zip_failure), None)
  end.
Proof.
  unfold handleDownloadZip, download_start.
  destruct (generatedFiles s) eqn:E, ok; simpl; by rewrite ?E.
Qed.

(** ** The machine keeps the invariant *)

Section MachineFacts.
Context `{Engine} `{Collator}.

(** A panel is rendered unless the content shown has an object in it. *)
Lemma renders_code_block title d rows shown :
  renders (Browser title d rows shown) = true <->
  exists nodes, code_block shown = Normal nodes.
Proof.
  destruct shown as [v|]; simpl; [|by split; eauto].
  pose proof (react_child_cases v) as Hv. destruct (has_object v); simpl; [|done].
  rewrite Hv. split; [done|by intros [? ?]].
Qed.

(** The page is mounted exactly when there is a panel and making its
    text does not throw. *)
Lemma mounted_display s :
  mounted s = true <-> is_Some (panel s) ∧ exists nodes, display_text s = Normal nodes.
Proof.
  unfold mounted, display_text.
  destruct (panel s) as [[| | |title d rows shown]|];
    [naive_solver..| |split; [done|by intros [[] _]]].
  rewrite renders_code_block. naive_solver.
Qed.

Lemma step_mounted s e : mounted s = true -> step s e = mounted_step s e.
Proof. unfold mounted, step. destruct (panel s); [by intros ->|done]. Qed.

(** Without the page there is no event of the user. *)
Lemma step_unmounted s e : mounted s = false -> user_event e = true -> step s e = None.
Proof.
  unfold mounted, step. destruct (panel s); [intros ->|done]. by destruct e.
Qed.

(** Whether the page is mounted depends on the state of [App] and on
    the selected file only. *)
Lemma mounted_app s s' :
  app s' = app s -> selectedFile s' = selectedFile s -> mounted s' = mounted s.
Proof. unfold mounted, panel. by intros -> ->. Qed.

(** The spinner is always rendered. *)
Lemma loading_mounted s :
  isLoading (app s) = true -> generatedFiles (app s) = [] -> mounted s = true.
Proof. unfold mounted, panel, renderContent. by intros -> ->. Qed.

Lemma browser_Some s rows :
  browser s = Some rows <->
  mounted s = true ∧
  isLoading (app s) = false ∧ error_shown (error (app s)) = None ∧
  generatedFiles (app s) <> [] ∧
  exists t, buildFileTree (generatedFiles (app s)) = Some t ∧
    rows = top_rows (Some t) (default "" (path <$> selectedFile s)).
Proof.
  unfold browser, mounted, panel. split.
  - destruct (renderContent _ _ _ _) as [[| | |title [] rows' shown]|] eqn:E;
      try done.
    destruct (renders _) eqn:Hr; [|done].
    intros [= ->]. apply renderContent_Browser in E. naive_solver.
  - intros (Hm & Hl & He & Hf & t & Ht & ->).
    erewrite (proj2 (renderContent_Browser _ _ _ _ _ false _ _)) in Hm |- *
      by naive_solver.
    by rewrite Hm.
Qed.

(** What a click selects is one of the files. *)
Lemma click_target s rows f :
  browser s = Some rows -> Some f ∈ target <$> rows -> f ∈ generatedFiles (app s).
Proof.
  intros (_ & _ & _ & _ & t & Ht & ->)%browser_Some (r & Hf & Hr)%list_elem_of_fmap.
  assert (exists r, r ∈ top_rows (Some t) (default "" (path <$> selectedFile s)) ∧
                    target r = Some f) as Hex by eauto.
  apply (top_rows_targets _ _ _ _ Ht) in Hex as [Hlast _].
  by apply find_last_Some in Hlast as [? _].
Qed.

Lemma inv_initial : inv initial.
Proof. by repeat split. Qed.

Lemma inv_submit s s' : inv s -> mounted_step s Submit = Some s' -> inv s'.
Proof.
  intros (Hr & _ & _ & _ & Ha & Hd). simpl. rewrite submit_blocked_disabled.
  destruct (submit_disabled _ _) eqn:Hs; [done|].
  apply submit_disabled_false in Hs as [Hl ->]. intros [= <-].
  rewrite Hl in Hr. unfold inv; simpl. rewrite length_app, Hr. done.
Qed.

Lemma inv_settle s s' i service :
  inv s -> mounted_step s (Settle i service) = Some s' -> inv s'.
Proof.
  intros (Hr & Hf & Hsel & He & Ha & Hd). simpl.
  destruct (requests s !! i) as [d|] eqn:Hi; [|done]. simpl.
  pose proof (lookup_lt_Some _ _ _ Hi) as Hlt.
  assert (length (delete i (requests s)) = 0) as Hlen.
  { rewrite length_delete by eauto. destruct (isLoading (app s)); lia. }
  destruct (generateAnsibleRole service d) as [files|r] eqn:Ho; intros [= <-];
    unfold inv; simpl; split_and!; try done.
  - destruct (select_on_files files) as [f|] eqn:Es;
      [by apply select_on_files_elem|by apply select_on_files_None].
  - by rewrite failure_message_truthy.
Qed.

Lemma inv_click s s' f : inv s -> mounted_step s (Click f) = Some s' -> inv s'.
Proof.
  intros (Hr & Hf & Hsel & He & Ha & Hd). simpl.
  destruct (browser s) as [rows|] eqn:Hb; [|done].
  case_bool_decide as Hin; [|done]. intros [= <-].
  unfold inv; simpl; split_and!; try done. by eapply click_target.
Qed.

Lemma inv_download s s' : inv s -> mounted_step s Download = Some s' -> inv s'.
Proof.
  intros (Hr & Hf & Hsel & He & Ha & Hd). simpl.
  destruct (browser s) as [rows|]; [|done]. simpl.
  destruct (download_start (app s)) as [p|] eqn:Hp; [|done]. intros [= <-].
  apply download_start_Some in Hp as [Hne ->].
  unfold inv; simpl; split_and!; try done.
  apply Forall_app. split; [done|]. constructor; [|done]. split; simpl.
  - apply rootDir_archive_root.
  - by destruct (generatedFiles (app s)).
Qed.

(** An archive that settles leaves the invariant, whether its error is
    stored ([keep] is false) or the page is gone. *)
Lemma inv_archive_settled s i ok p (keep : bool) :
  inv s -> archives s !! i = Some p ->
  inv (mkSystem (if keep then app s else fst (download_settle ok p (app s)))
         (description s) (selectedFile s) (requests s) (delete i (archives s))
         (option_list (snd (download_settle ok p (app s))) ++ downloads s)).
Proof.
  intros (Hr & Hf & Hsel & He & Ha & Hd) Hi.
  pose proof (Forall_lookup_1 _ _ _ _ Ha Hi) as [Hroot Hentries].
  pose proof (Forall_delete _ _ i Ha).
  destruct ok, keep; unfold inv; simpl; split_and!; try done;
    (constructor; [|done]); (split; [by exists (pending_root p)|done]).
Qed.

Lemma inv_zip_settle s s' i ok :
  inv s -> mounted_step s (ZipSettle i ok) = Some s' -> inv s'.
Proof.
  intros Hinv. simpl. destruct (archives s !! i) as [p|] eqn:Hi; [|done].
  intros [= <-]. exact (inv_archive_settled s i ok p false Hinv Hi).
Qed.

Lemma mounted_step_inv s e s' : inv s -> mounted_step s e = Some s' -> inv s'.
Proof.
  destruct e; eauto using inv_submit, inv_settle, inv_click, inv_download,
    inv_zip_settle.
  intros (Hr & Hf & Hsel & He & Ha & Hd) [= <-]. by repeat split.
Qed.

(** Where the invariant holds, a page that is not mounted has no
    generation in flight. *)
Lemma unmounted_idle s : inv s -> mounted s = false -> requests s = [].
Proof.
  intros (Hr & Hf & _) Hm. destruct (isLoading (app s)) eqn:Hl.
  - by rewrite loading_mounted in Hm by auto.
  - by destruct (requests s).
Qed.

Lemma unmounted_step_inv s e s' :
  inv s -> mounted s = false -> unmounted_step s e = Some s' -> inv s'.
Proof.
  intros Hinv Hm. destruct e as [| |i service| | |i ok]; simpl; try done.
  - by rewrite (unmounted_idle s Hinv Hm).
  - destruct (archives s !! i) as [p|] eqn:Hi; [|done].
    intros [= <-]. exact (inv_archive_settled s i ok p true Hinv Hi).
Qed.

Lemma step_inv s e s' : inv s -> step s e = Some s' -> inv s'.
Proof.
  intros Hinv. destruct (mounted s) eqn:Hm.
  - rewrite step_mounted by done. by apply mounted_step_inv.
  - pose proof Hm as Hm'. revert Hm'. unfold mounted, step.
    destruct (panel s); [intros ->|done]. by apply unmounted_step_inv.
Qed.

Lemma reachable_inv s : reachable s -> inv s.
Proof. induction 1; eauto using inv_initial, step_inv. Qed.

Lemma run_app events events' s :
  run (events ++ events') s = run events s ≫= run events'.
Proof.
  revert s. induction events as [|e events IH]; intros s; simpl; [done|].
  destruct (step s e); simpl; [apply IH|done].
Qed.

Lemma run_reachable events s s' : reachable s -> run events s = Some s' -> reachable s'.
Proof.
  revert s. induction events as [|e events IH]; intros s Hs; simpl.
  - by intros [= <-].
  - destruct (step s e) as [s1|] eqn:E; [|done]. simpl.
    apply IH. by eapply reachable_step.
Qed.

(** Every step is a step of the mounted page or of the page that is
    gone. *)
Lemma step_cases s e s' :
  step s e = Some s' ->
  mounted s = true ∧ mounted_step s e = Some s' ∨
  mounted s = false ∧ unmounted_step s e = Some s'.
Proof.
  unfold step, mounted. destruct (panel s) as [p|]; [|done].
  destruct (renders p); eauto.
Qed.

(** ** Progress *)

(** The panel of a state with files, no error and no generation in
    flight is the browser of the files. *)
Lemma succeeded_panel s files t f :
  app s = mkApp files false None -> selectedFile s = Some f ->
  files <> [] -> buildFileTree files = Some t ->
  panel s = Some (Browser (Some (path f)) false (top_rows (Some t) (path f))
                    (Some (content f))).
Proof.
  intros Happ Hsel Hne Ht. unfold panel. rewrite Happ, Hsel.
  apply renderContent_Browser. naive_solver.
Qed.

(** A generation in flight can settle, whatever the service answers,
    and its settlement ends the loading. *)
Lemma settle_enabled s service :
  inv s -> isLoading (app s) = true ->
  exists s', step s (Settle 0 service) = Some s' ∧
    isLoading (app s') = false ∧ requests s' = [].
Proof.
  intros (Hr & Hf & _) Hl. rewrite step_mounted by (apply loading_mounted; auto).
  rewrite Hl in Hr.
  destruct (requests s) as [|d [|? ?]] eqn:E; simpl in Hr; try lia.
  simpl. rewrite E. simpl. eexists. split; [done|].
  by destruct (generateAnsibleRole service d).
Qed.

(** When the service cannot be reached, the settlement leaves the
    error panel on the page. *)
Lemma settle_offline s :
  inv s -> isLoading (app s) = true ->
  exists s', step s (Settle 0 offline) = Some s' ∧
    isLoading (app s') = false ∧ requests s' = [] ∧ mounted s' = true.
Proof.
  intros (Hr & Hf & _) Hl. rewrite step_mounted by (apply loading_mounted; auto).
  rewrite Hl in Hr.
  destruct (requests s) as [|d [|? ?]] eqn:E; simpl in Hr; try lia.
  simpl. rewrite E. simpl. eexists. split; [done|]. split_and!; [done..|].
  unfold mounted, panel. simpl. by rewrite (Hf Hl).
Qed.

(** With the page mounted and no generation in flight, typing a
    description, submitting it and the answer of the service is a
    run. *)
Lemma generate_run s service d files :
  mounted s = true -> isLoading (app s) = false -> requests s = [] ->
  truthy (trim d) = true -> generateAnsibleRole service d = Normal files ->
  run [Edit d; Submit; Settle 0 service] s =
  Some (mkSystem (mkApp files false None) d (select_on_files files) []
          (archives s) (downloads s)).
Proof.
  intros Hm Hl Hr Hd Hg. cbn [run]. rewrite step_mounted by done.
  cbn [mounted_step mbind option_bind].
  rewrite step_mounted by (by rewrite <- Hm).
  cbn [mounted_step app description]. rewrite submit_blocked_disabled.
  unfold submit_disabled, handleSubmit, onChange. rewrite Hl, Hd.
  cbn [orb negb mbind option_bind]. rewrite step_mounted by done.
  cbn [mounted_step reselect requests]. rewrite Hr.
  cbn -[generateAnsibleRole]. by rewrite Hg.
Qed.

(** From every reachable state with the page mounted there is a run to
    the state after a new generation: the generation in flight, if
    there is one, fails to reach the service. *)
Lemma recover_run s service d files :
  reachable s -> mounted s = true -> truthy (trim d) = true ->
  generateAnsibleRole service d = Normal files ->
  exists events s', run events s = Some s' ∧
    app s' = mkApp files false None ∧
    selectedFile s' = select_on_files files ∧ requests s' = [].
Proof.
  intros Hs Hm Hd Hg. pose proof (reachable_inv s Hs) as Hinv.
  destruct (isLoading (app s)) eqn:Hl.
  - destruct (settle_offline s Hinv Hl) as (s1 & Hstep & Hl1 & Hr1 & Hm1).
    exists (Settle 0 offline :: [Edit d; Submit; Settle 0 service]). eexists.
    split; [cbn [run]; rewrite Hstep; simpl; by apply generate_run|done].
  - assert (requests s = []) as Hr.
    { destruct Hinv as (Hr & _). rewrite Hl in Hr. by destruct (requests s). }
    exists [Edit d; Submit; Settle 0 service]. eexists.
    split; [by apply generate_run|done].
Qed.

(** C34: the application recovers.  From every state the application
    reaches with its page mounted, whatever the page shows (the
    spinner, an error, files hidden by the error of an archive), there
    is a run that ends with the files of a new generation on the page:
    the generation in flight settles, if there is one, then a
    description is typed and submitted and the service answers.  The
    files are then stored, the main file is selected, and the page is
    mounted and shows the browser with the lines of the tree of the
    files, drawn for the path of that file, and its content, when the
    tree of the files is in the model and that content has no object
    in it. *)
Theorem reachable_recovers s service d files t f :
  reachable s -> mounted s = true -> truthy (trim d) = true ->
  generateAnsibleRole service d = Normal files ->
  buildFileTree files = Some t -> select_on_files files = Some f ->
  has_object (content f) = false ->
  exists events s', run events s = Some s' ∧
    app s' = mkApp files false None ∧ selectedFile s' = Some f ∧
    phase (app s') = Succeeded files ∧ requests s' = [] ∧
    mounted s' = true ∧
    panel s' = Some (Browser (Some (path f)) false (top_rows (Some t) (path f))
                       (Some (content f))).
Proof.
  intros Hs Hm Hd Hg Ht Hsel Hobj.
  destruct (recover_run s service d files Hs Hm Hd Hg)
    as (events & s' & Hrun & Happ & Hsel' & Hr).
  rewrite Hsel in Hsel'. apply generateAnsibleRole_nonempty in Hg.
  pose proof (succeeded_panel s' files t f Happ Hsel' Hg Ht) as Hp.
  exists events, s'. split_and!; try done.
  - rewrite Happ. by destruct files.
  - unfold mounted. rewrite Hp. simpl. by rewrite Hobj.
Qed.

(** C39: a content that is not text.  The source gives the content of
    the selected file to the code block without a test.  From every
    reachable state with the page mounted, a generation whose answer
    makes the display select a file whose content has an object in it
    leads to a state in which making the code block throws: the answer
    of the service stops the rendering of the page, and no event of the
    user has a next state from there. *)
Theorem object_content_throws s service d files f :
  reachable s -> mounted s = true -> truthy (trim d) = true ->
  generateAnsibleRole service d = Normal files ->
  is_Some (fileTree files) ->
  select_on_files files = Some f -> has_object (content f) = true ->
  exists events s', run events s = Some s' ∧
    selectedFile s' = Some f ∧
    display_text s' = Throw (ErrorObject object_child_message) ∧
    forall e, user_event e = true -> step s' e = None.
Proof.
  intros Hs Hm Hd Hg [tree Htree] Hsel Hobj.
  destruct (recover_run s service d files Hs Hm Hd Hg)
    as (events & s' & Hrun & Happ & Hsel' & _).
  assert (display_text s' = Throw (ErrorObject object_child_message)) as Hthrow.
  { unfold display_text, panel, renderContent. rewrite Happ, Hsel', Hsel.
    cbn [generatedFiles isLoading error]. rewrite Htree. simpl.
    pose proof (react_child_cases (content f)) as Hcases. rewrite Hobj in Hcases.
    apply generateAnsibleRole_nonempty in Hg. by destruct files. }
  exists events, s'. split_and!; [done|congruence|done|].
  intros e He. apply step_unmounted; [|done].
  apply not_true_iff_false. intros (_ & nodes & Hn)%mounted_display. congruence.
Qed.

(** ** Where an error comes from *)

(** While a generation is in flight there is no file and none is
    selected. *)
Lemma pending_frame s i d :
  inv s -> requests s !! i = Some d ->
  isLoading (app s) = true ∧ generatedFiles (app s) = [] ∧ selectedFile s = None.
Proof.
  intros (Hlen & Hfiles & Hsel & _) Hd.
  destruct (isLoading (app s)); [|by destruct (requests s)].
  rewrite Hfiles in Hsel by done. split; [done|]. split; [by apply Hfiles|].
  destruct (selectedFile s); [by apply elem_of_nil in Hsel|done].
Qed.

Lemma unmounted_step_app s e s' : unmounted_step s e = Some s' -> app s' = app s.
Proof.
  destruct e as [| |i service| | |i ok]; simpl; try done.
  - destruct (requests s !! i); [|done]. by intros [= <-].
  - destruct (archives s !! i); [|done]. by intros [= <-].
Qed.

Lemma unmounted_step_selected s e s' :
  unmounted_step s e = Some s' -> selectedFile s' = selectedFile s.
Proof.
  destruct e as [| |i service| | |i ok]; simpl; try done.
  - destruct (requests s !! i); [|done]. by intros [= <-].
  - destruct (archives s !! i); [|done]. by intros [= <-].
Qed.

(** A page that is unmounted stays so: along every run from there no
    event is an event of the user, and the state of [App] and the
    selected file are what they were when the rendering threw. *)
Lemma unmounted_final events s s' :
  mounted s = false -> run events s = Some s' ->
  Forall (fun e => user_event e = false) events ∧
  app s' = app s ∧ selectedFile s' = selectedFile s ∧ mounted s' = false.
Proof.
  revert s. induction events as [|e events IH]; intros s Hm; simpl.
  - by intros [= <-].
  - destruct (step s e) as [s1|] eqn:Hstep; [|done]. simpl. intros Hrun.
    destruct (user_event e) eqn:He; [by rewrite step_unmounted in Hstep|].
    apply step_cases in Hstep as [[? _]|[_ Hstep]]; [congruence|].
    pose proof (unmounted_step_app s e s1 Hstep) as Happ.
    pose proof (unmounted_step_selected s e s1 Hstep) as Hsel.
    destruct (IH s1) as (Hall & Happ' & Hsel' & Hm'); [|done|].
    { by rewrite (mounted_app s s1). }
    split_and!; [by constructor|congruence..|done].
Qed.

Lemma mounted_step_origin s e s' :
  inv s -> origin (app s) -> mounted_step s e = Some s' -> origin (app s').
Proof.
  intros Hinv Ho. destruct e as [text| |i service|f| |i ok]; simpl.
  - by intros [= <-].
  - destruct (submit_blocked _ _); [done|].
    destruct (handleSubmit _); [|done]. by intros [= <-].
  - destruct (requests s !! i) as [d|] eqn:Hd; [|done].
    destruct (pending_frame s i d Hinv Hd) as (Hl & Hf & _). simpl.
    destruct (generateAnsibleRole service d) as [files|err]; intros [= <-];
      unfold origin in *; simpl; [|by right; eauto].
    destruct (error (app s)); [|done]. destruct Ho as [->|(_ & ? & _)]; [by left|].
    congruence.
  - destruct (browser s); [|done]. case_bool_decide; [|done]. by intros [= <-].
  - destruct (browser s); [|done]. simpl.
    destruct (download_start (app s)); [|done]. by intros [= <-].
  - destruct (archives s !! i); [|done]. intros [= <-].
    destruct ok; [done|]. by left.
Qed.

Lemma step_origin s e s' :
  inv s -> origin (app s) -> step s e = Some s' -> origin (app s').
Proof.
  intros Hinv Ho [[_ Hstep]|[_ Hstep]]%step_cases.
  - by eapply mounted_step_origin.
  - by rewrite (unmounted_step_app s e s').
Qed.

Lemma reachable_origin s : reachable s -> origin (app s).
Proof.
  induction 1 as [|s e s' Hs IH Hstep]; [done|].
  eapply step_origin; eauto using reachable_inv.
Qed.

(** C38: where an error comes from.  In every state the application
    reaches, an error that hides files is the error of an archive, and
    an error shown without files is the error of an archive or the
    message made of what a generation threw: [handleGenerate] empties
    the files before its [await] and stores its error over that empty
    list, so a generation that fails never hides files, and the only
    way to the state of files with an error, which the specification
    has no name for, is the failure of an archive. *)
Theorem reachable_error_origin s :
  reachable s ->
  match phase (app s) with
  | Obscured files m => m = zip_failure
  | Failed m => m = zip_failure ∨ exists err, m = failure_message err
  | _ => True
  end.
Proof.
  intros Ho%reachable_origin. unfold origin, phase, error_shown in *.
  destruct (isLoading (app s)); [done|].
  destruct (error (app s)) as [m|]; [|by destruct (generatedFiles (app s))].
  destruct (truthy m); [|by destruct (generatedFiles (app s))].
  destruct Ho as [->|(Hf & _ & err & ->)].
  - destruct (generatedFiles (app s)); by eauto.
  - rewrite Hf. by eauto.
Qed.

(** C31: one generation at a time.  In every state the application
    reaches, at most one generation is in flight, the loading flag is
    set exactly while one is, and there are no files while it is set:
    the disabled button is what keeps a second call of [handleGenerate]
    from starting. *)
Theorem reachable_single_flight s :
  reachable s ->
  length (requests s) <= 1 ∧
  (isLoading (app s) = true <-> requests s <> []) ∧
  (isLoading (app s) = true -> generatedFiles (app s) = []).
Proof.
  intros (Hr & Hf & _)%reachable_inv.
  destruct (isLoading (app s)), (requests s); simpl in *; split_and!; try done; lia.
Qed.

(** C32: the selected file.  In every reachable state the selected
    file is one of the generated files, and a file is selected exactly
    when there are files. *)
Theorem reachable_selected s :
  reachable s ->
  (selectedFile s = None <-> generatedFiles (app s) = []) ∧
  forall f, selectedFile s = Some f -> f ∈ generatedFiles (app s).
Proof.
  intros (_ & _ & Hsel & _)%reachable_inv.
  destruct (selectedFile s) as [f|]; [|naive_solver].
  split; [|naive_solver]. split; [done|]. intros Hnil. rewrite Hnil in Hsel.
  by apply elem_of_nil in Hsel.
Qed.

(** C19: the downloads.  Every download the application starts has at
    least one entry and a name that is [.zip] after a root that is not
    empty and has no slash. *)
Theorem reachable_downloads s a :
  reachable s -> a ∈ downloads s ->
  entries a <> [] ∧
  exists root, filename a = (root +:+ ".zip")%stdpp ∧
    truthy root = true ∧ has_char "/"%char root = false.
Proof.
  intros (_ & _ & _ & _ & _ & Hd)%reachable_inv Ha.
  rewrite Forall_forall in Hd.
  destruct (Hd a Ha) as [(root & [? ?] & ?) ?]. eauto.
Qed.

(** The result of a generation.  [handleGenerate], run without
    interruption from any state, ends in the state of success with the
    files of [generateAnsibleRole], which replace what was there, or in
    the state of failure with the message made of what was thrown. *)
Theorem handleGenerate_phase service d s :
  phase (handleGenerate service d s) =
  match generateAnsibleRole service d with
  | Normal files => Succeeded files
  | Throw err => Failed (failure_message err)
  end.
Proof.
  unfold handleGenerate, phase.
  destruct (generateAnsibleRole service d) as [files|err] eqn:Ho; simpl.
  - apply generateAnsibleRole_nonempty in Ho. by destruct files.
  - by rewrite failure_message_truthy.
Qed.

(** ** The steps of the archive *)

Lemma download_step s rows :
  browser s = Some rows ->
  step s Download =
  Some (mkSystem (app s) (description s) (selectedFile s) (requests s)
          (archives s ++ [mkPending (rootDir (generatedFiles (app s)))
                            ((fun f => (path f, content f)) <$> generatedFiles (app s))])
          (downloads s)).
Proof.
  intros Hb. pose proof Hb as (Hm & _ & _ & Hne & _)%browser_Some.
  rewrite step_mounted by done. cbn [mounted_step]. rewrite Hb.
  cbn [mbind option_bind].
  by rewrite (proj2 (download_start_Some (app s) _) (conj Hne eq_refl)).
Qed.

Lemma zip_settle_step s i ok p :
  mounted s = true -> archives s !! i = Some p ->
  step s (ZipSettle i ok) =
  Some (mkSystem (fst (download_settle ok p (app s))) (description s) (selectedFile s)
          (requests s) (delete i (archives s))
          (option_list (snd (download_settle ok p (app s))) ++ downloads s)).
Proof. intros Hm Hi. rewrite step_mounted by done. cbn [mounted_step]. by rewrite Hi. Qed.

(** An error that is shown takes the place of the browser. *)
Lemma error_panel s m :
  is_Some (fileTree (generatedFiles (app s))) -> isLoading (app s) = false ->
  error_shown (error (app s)) = Some m -> panel s = Some (ErrorPanel m).
Proof. intros [t Ht] Hl He. unfold panel, renderContent. by rewrite Ht, Hl, He. Qed.

(** Without the browser no file can be opened and no download
    started. *)
Lemma no_browser s :
  browser s = None -> step s Download = None ∧ forall f, step s (Click f) = None.
Proof.
  intros Hb. unfold step. destruct (panel s) as [p|]; [|done].
  destruct (renders p); [|done]. cbn [mounted_step]. by rewrite Hb.
Qed.

(** C35: a failed archive hides the files.  From a state that shows the
    browser, a download whose encoding fails leads to a state that
    still has the files but shows the error panel, in which no file can
    be opened and no download started: only a new generation brings a
    browser back. *)
Theorem archive_failure_obscures s rows :
  browser s = Some rows ->
  exists s', run [Download; ZipSettle (length (archives s)) false] s = Some s' ∧
    generatedFiles (app s') = generatedFiles (app s) ∧
    generatedFiles (app s) <> [] ∧
    panel s' = Some (ErrorPanel zip_failure) ∧
    step s' Download = None ∧ forall f, step s' (Click f) = None.
Proof.
  intros Hb. pose proof Hb as (Hm & Hl & He & Hne & t & Ht & _)%browser_Some.
  cbn [run]. rewrite (download_step s rows Hb). cbn [mbind option_bind].
  set (p := mkPending _ _). set (s1 := mkSystem _ _ _ _ _ _).
  rewrite (zip_settle_step s1 (length (archives s)) false p);
    [|by rewrite (mounted_app s s1)|by apply list_lookup_middle].
  eexists. split; [done|]. set (s2 := mkSystem _ _ _ _ _ _).
  assert (panel s2 = Some (ErrorPanel zip_failure)) as Hpanel.
  { apply error_panel; [|done..]. unfold fileTree. simpl. rewrite Ht.
    destruct (generatedFiles (app s)); by eexists. }
  split_and!; [done..|apply no_browser|apply no_browser];
    unfold browser; by rewrite Hpanel.
Qed.

(** C36: the error of an old archive hides a new result.  The encoding
    of an archive can fail after a new generation was started: the
    error is then stored after [handleGenerate] cleared it, and nothing
    clears it when the generation succeeds.  From every reachable state
    with an archive in flight in which the form can be submitted, the
    submission, the failure of the archive and the answer of the
    service are a run, and it ends with the files of the answer stored
    and a file selected, but with the error panel of the archive on the
    page and no browser: the files of the generation are not shown. *)
Theorem stale_archive_error s i p service files :
  reachable s -> mounted s = true -> isLoading (app s) = false ->
  truthy (trim (description s)) = true -> archives s !! i = Some p ->
  generateAnsibleRole service (description s) = Normal files ->
  is_Some (fileTree files) ->
  exists s', run [Submit; ZipSettle i false; Settle 0 service] s = Some s' ∧
    app s' = mkApp files false (Some zip_failure) ∧
    selectedFile s' = select_on_files files ∧
    phase (app s') = Obscured files zip_failure ∧
    panel s' = Some (ErrorPanel zip_failure) ∧ browser s' = None.
Proof.
  intros Hs Hm Hl Hd Hi Hg Ht. pose proof (reachable_inv s Hs) as (Hr & _).
  rewrite Hl in Hr. apply nil_length_inv in Hr.
  cbn [run]. rewrite step_mounted by done. cbn [mounted_step].
  rewrite submit_blocked_disabled. unfold submit_disabled, handleSubmit.
  rewrite Hl, Hd, Hr. cbn [orb negb mbind option_bind app].
  set (s1 := reselect _ _).
  rewrite (zip_settle_step s1 i false p) by done. cbn [mbind option_bind].
  rewrite step_mounted by done. cbn -[generateAnsibleRole]. rewrite Hg.
  eexists. split; [done|]. set (s3 := reselect _ _).
  assert (panel s3 = Some (ErrorPanel zip_failure)) as Hpanel by by apply error_panel.
  split_and!; [done..| |done|by unfold browser; rewrite Hpanel].
  apply generateAnsibleRole_nonempty in Hg. by destruct files.
Qed.

End MachineFacts.

Lemma reachable_single_flight_witness :
  exists s, run (H := demo_engine) (H0 := code_unit_collator)
              [Edit "install nginx"; Submit] initial = Some s ∧
    length (requests s) <= 1 ∧ (isLoading (app s) = true <-> requests s <> []).
Proof.
  destruct (run _ initial) as [s|] eqn:E; [|by vm_compute in E].
  exists s. split; [done|].
  destruct (reachable_single_flight (H := demo_engine) (H0 := code_unit_collator) s)
    as (? & ? & _); [|done].
  eapply run_reachable; [apply reachable_initial|exact E].
Defined.

Lemma reachable_selected_witness :
  exists s, run (H := demo_engine) (H0 := code_unit_collator)
              nginx_events initial = Some s ∧
    forall f, selectedFile s = Some f -> f ∈ generatedFiles (app s).
Proof.
  destruct (run _ initial) as [s|] eqn:E; [|by vm_compute in E].
  exists s. split; [done|].
  apply (reachable_selected (H := demo_engine) (H0 := code_unit_collator) s).
  eapply run_reachable; [apply reachable_initial|exact E].
Defined.

Lemma reachable_error_origin_witness :
  exists s, run (H := demo_engine) (H0 := code_unit_collator)
              stale_error_events initial = Some s ∧
    match phase (app s) with
    | Obscured files m => m = zip_failure
    | Failed m => m = zip_failure ∨ exists err, m = failure_message err
    | _ => True
    end.
Proof.
  destruct (run _ initial) as [s|] eqn:E; [|by vm_compute in E].
  exists s. split; [done|].
  apply (reachable_error_origin (H := demo_engine) (H0 := code_unit_collator) s).
  eapply run_reachable; [apply reachable_initial|exact E].
Defined.

Lemma reachable_downloads_witness :
  exists s a, run (H := demo_engine) (H0 := code_unit_collator)
                (nginx_events ++ [Download; ZipSettle 0 true]) initial = Some s ∧
    a ∈ downloads s ∧ filename a = "nginx.zip" ∧ entries a <> [].
Proof.
  destruct (run _ initial) as [s|] eqn:E; [|by vm_compute in E].
  exists s, (mkArchive "nginx.zip"
               [("nginx/tasks/main.yml", JString "- name: install
")]).
  assert (mkArchive "nginx.zip" [("nginx/tasks/main.yml", JString "- name: install
")] ∈ downloads s) as Ha
    by (vm_compute in E; injection E as <-; by left).
  split_and!; [done..|].
  apply (reachable_downloads (H := demo_engine) (H0 := code_unit_collator) s _);
    [|done].
  eapply run_reachable; [apply reachable_initial|exact E].
Defined.

Lemma archive_failure_obscures_witness :
  exists s rows, run (H := demo_engine) (H0 := code_unit_collator)
                   nginx_events initial = Some s ∧
    browser (H0 := code_unit_collator) s = Some rows ∧
    exists s', run (H := demo_engine) (H0 := code_unit_collator)
                 [Download; ZipSettle (length (archives s)) false] s = Some s' ∧
      panel (H0 := code_unit_collator) s' = Some (ErrorPanel zip_failure).
Proof.
  destruct (run _ initial) as [s|] eqn:E; [|by vm_compute in E].
  destruct (browser (H0 := code_unit_collator) s) as [rows|] eqn:Hb;
    [|vm_compute in E; injection E as <-; by vm_compute in Hb].
  exists s, rows. split_and!; [done..|].
  destruct (archive_failure_obscures (H := demo_engine) (H0 := code_unit_collator)
              s rows Hb) as (s' & Hrun & _ & _ & Hp & _).
  by exists s'.
Defined.

Lemma reachable_recovers_witness :
  exists s, run (H := demo_engine) (H0 := code_unit_collator)
              stale_error_events initial = Some s ∧
    panel (H0 := code_unit_collator) s = Some (ErrorPanel zip_failure) ∧
    exists events s', run (H := demo_engine) (H0 := code_unit_collator) events s = Some s' ∧
      phase (app s') = Succeeded [mkFile "nginx/tasks/main.yml" (JString "- name: install
")] ∧ mounted (H0 := code_unit_collator) s' = true.
Proof.
  destruct (run _ initial) as [s|] eqn:E; [|by vm_compute in E].
  assert (reachable (H := demo_engine) (H0 := code_unit_collator) s) as Hs.
  { eapply run_reachable; [apply reachable_initial|exact E]. }
  vm_compute in E. injection E as <-.
  eexists. split; [done|]. split; [by vm_compute|].
  destruct (buildFileTree [mkFile "nginx/tasks/main.yml" (JString "- name: install
")]) as [t|] eqn:Ht; [|by vm_compute in Ht].
  destruct (reachable_recovers (H := demo_engine) (H0 := code_unit_collator) _
              (answering nginx_answer) "install nginx"
              [mkFile "nginx/tasks/main.yml" (JString "- name: install
")] t (mkFile "nginx/tasks/main.yml" (JString "- name: install
")) Hs) as (events & s' & Hrun & _ & _ & Hphase & _ & Hm & _);
    [by vm_compute|done|by vm_compute|exact Ht|done|done|by exists events, s'].
Defined.

Lemma object_content_throws_witness :
  exists events s',
    run (H := demo_engine) (H0 := code_unit_collator) events initial = Some s' ∧
    selectedFile s' = Some nested_file ∧
    display_text (H0 := code_unit_collator) s' =
      Throw (ErrorObject object_child_message) ∧
    step (H := demo_engine) (H0 := code_unit_collator) s' Submit = None.
Proof.
  destruct (object_content_throws (H := demo_engine) (H0 := code_unit_collator) initial
              (answering nested_answer) "install" [nested_file] nested_file)
    as (events & s' & Hrun & Hsel & Hthrow & Hdead);
    [apply reachable_initial|done|done|done|by vm_compute; eexists|done|done|].
  exists events, s'. split_and!; [done..|by apply Hdead].
Defined.

Lemma stale_archive_error_witness :
  exists s s',
    run (H := demo_engine) (H0 := code_unit_collator) archiving_events initial = Some s ∧
    run (H := demo_engine) (H0 := code_unit_collator)
      [Submit; ZipSettle 0 false; Settle 0 (answering nginx_answer)] s = Some s' ∧
    phase (app s') =
      Obscured [mkFile "nginx/tasks/main.yml" (JString "- name: install
")] zip_failure ∧
    panel (H0 := code_unit_collator) s' = Some (ErrorPanel zip_failure).
Proof.
  destruct (run _ initial) as [s|] eqn:E; [|by vm_compute in E].
  assert (reachable (H := demo_engine) (H0 := code_unit_collator) s) as Hs.
  { eapply run_reachable; [apply reachable_initial|exact E]. }
  vm_compute in E. injection E as <-.
  edestruct (stale_archive_error (H := demo_engine) (H0 := code_unit_collator) _ 0
               (mkPending "nginx" [("nginx/tasks/main.yml", JString "- name: install
")])
               (answering nginx_answer)
               [mkFile "nginx/tasks/main.yml" (JString "- name: install
")] Hs) as (s' & Hrun & _ & _ & Hphase & Hpanel & _);
    [by vm_compute|done|done|by vm_compute|by vm_compute|by vm_compute; eexists|].
  eexists _, s'. by split_and!.
Defined.

(** The scenario of the specification.  The description
    [install nginx] is typed and submitted, and the service answers with
    one file: the application holds that file, selects it, and shows
    the browser with the directory [nginx], the directory [tasks] under
    it and the file [main.yml], highlighted, under that. *)
Theorem nginx_scenario :
  exists s, run (H := demo_engine) (H0 := code_unit_collator)
              nginx_events initial = Some s ∧
    panel (H0 := code_unit_collator) s =
      Some (Browser (Some "nginx/tasks/main.yml") false
              [mkRow 0 0 "nginx" true false None;
               mkRow 1 0 "tasks" true false None;
               mkRow 2 3 "main.yml" false true
                 (Some (mkFile "nginx/tasks/main.yml" (JString "- name: install
")))]
              (Some (JString "- name: install
"))).
Proof. eexists. split; [by vm_compute|]. by vm_compute. Qed.
