(* ===== verification/Page.v ===== *)
(** * Page: the page of the application ([src/App.tsx], lines 57-87)

    [App] returns the header, the form and the result panel.  [App_view]
    is that page for a state of the application: the form with the
    description it holds, the panel with the selected file it holds.
    The state machine of [App] enables an event of the user when the
    page is mounted and the control it uses is shown and not disabled;
    here that is a theorem about the page: an event of the user has a
    next state exactly when making the texts of the page does not throw
    and its handler is within reach on the page. *)

From S2P Require Import Prelude JsString JsObject Json Markup FileTree Generator.
From S2P Require Import Form Display DisplayView App.

(** ** Definitions *)

(** The header (lines 59-68). *)
Definition page_header : Markup :=
  Element "header"
    [("className", Str "bg-gray-800/50 backdrop-blur-sm border-b border-gray-700 sticky top-0 z-10")]
    [Element "div" [("className", Str "container mx-auto px-4 sm:px-6 lg:px-8")]
       [Element "div" [("className", Str "flex items-center justify-between h-16")]
          [Element "h1" [("className", Str "text-xl font-bold text-cyan-400")]
             [Text "Ansible Role Generator"];
           Element "a"
             [("href", Str "https://github.com/google/prompt-gallery");
              ("target", Str "_blank");
              ("rel", Str "noopener noreferrer");
              ("className", Str "text-gray-400 hover:text-white transition-colors")]
             [Icon "GithubIcon" (Some "w-6 h-6")]]]].

(** The two columns (lines 70-85). *)
Definition page_main (form display : Markup) : Markup :=
  Element "main" [("className", Str "container mx-auto p-4 sm:p-6 lg:p-8")]
    [Element "div" [("className", Str "grid grid-cols-1 lg:grid-cols-12 gap-8")]
       [Element "div" [("className", Str "lg:col-span-4 xl:col-span-3")] [form];
        Element "div" [("className", Str "lg:col-span-8 xl:col-span-9")] [display]]].

(** The page around the form and the panel (lines 58 and 86). *)
Definition page_frame (form display : Markup) : Markup :=
  Element "div" [("className", Str "min-h-screen bg-gray-900 text-gray-100 font-sans")]
    [page_header; page_main form display].

(** The handler an event of the user calls; the settlements are events
    of the environment. *)
Definition handler_of (e : Event) : option Handler :=
  match e with
  | Edit _ => Some OnChange
  | Submit => Some HandleSubmit
  | Click f => Some (OnFileSelect (Some f))
  | Download => Some OnDownloadZip
  | Settle _ _ | ZipSettle _ _ => None
  end.

(** The texts of the page outside the panel. *)
Definition frame_texts (isLoading : bool) : list TextNode :=
  [TextOf "Ansible Role Generator";
   TextOf "Describe the Ansible Role";
   TextOf "Provide a detailed description of the role you want to generate. Include the software, operating system, and any specific configuration details."] ++
  (if isLoading then [TextOf " Generating..."] else [TextOf "Generate Ansible Role"]).

(** A page presents a state with its panel: the controls are those of
    the form and of the panel, the texts those of the frame and of the
    panel, the lines of files and the margins those of the panel. *)
Definition presents (s : System) (v : Markup) (p : Panel) : Prop :=
  fires v = ((if submit_blocked (isLoading (app s)) (description s) then []
              else [HandleSubmit]) ++ [OnChange]) ++ panel_controls p ∧
  texts v = bindC (panel_texts p)
              (fun t => Normal (frame_texts (isLoading (app s)) ++ t)) ∧
  collect line_of v = panel_lines p ∧
  prop_values "style" v = panel_margins p.

(** A state that shows the browser: the two records of the
    specification, the first of them selected. *)
Definition browsing : System :=
  mkSystem (mkApp two_files false None) "install nginx"
    (Some (mkFile "a/b/c.txt" (JString "x"))) [] [] [].

Section Page.
Context `{Collator}.

(** What [App] returns (lines 57-87), in a state of the application. *)
Definition App_view (s : System) : option Markup :=
  display ← CodeDisplay_view (generatedFiles (app s)) (isLoading (app s))
               (error (app s)) (selectedFile s);
  Some (page_frame (AnsibleForm_view (isLoading (app s)) (description s)) display).

End Page.

(** ** The page and the panel *)

(** The frame adds no control, and one text. *)
Lemma page_frame_fires form display :
  fires (page_frame form display) = fires form ++ fires display.
Proof. simpl. by rewrite !app_nil_r. Qed.

Lemma page_frame_texts form display :
  texts (page_frame form display) =
  bindC (texts form) (fun a => bindC (texts display) (fun b =>
    Normal (TextOf "Ansible Role Generator" :: a ++ b))).
Proof.
  simpl. destruct (texts form); [|done]. simpl.
  destruct (texts display); simpl; by rewrite ?app_nil_r.
Qed.

Lemma page_frame_collect {A} (observe : Markup -> option A) form display :
  styled observe ->
  collect observe (page_frame form display) = collect observe form ++ collect observe display.
Proof.
  intros Hstyled. unfold page_frame, page_main.
  repeat (rewrite collect_Element, Hstyled, ?fmap_cons, ?fmap_nil, ?mjoin_cons by done;
          cbn [option_list app mjoin list_join]).
  rewrite (unstyled_collect observe Hstyled page_header) by done.
  simpl. by rewrite !app_nil_r.
Qed.

Lemma page_frame_keys form display :
  keys_unique form -> keys_unique display -> keys_unique (page_frame form display).
Proof. intros Hform Hdisplay. unfold page_frame, page_main. keys_unique_walk; done. Qed.

Section PageFacts.
Context `{Engine} `{Collator}.

(** The page is there when the panel is, and shows the form and the
    panel. *)
Lemma App_view_shows s : option_Forall2 (presents s) (App_view s) (panel s).
Proof.
  unfold App_view, panel.
  destruct (CodeDisplay_view_shows (generatedFiles (app s)) (isLoading (app s))
              (error (app s)) (selectedFile s)) as [v p (Hfires & Htexts & Hlines & Hm)|];
    constructor.
  unfold presents, prop_values in *.
  rewrite page_frame_fires, page_frame_texts, !page_frame_collect
    by (apply line_of_styled || apply style_styled).
  rewrite AnsibleForm_fires, AnsibleForm_texts, Hfires, Htexts, Hlines, Hm.
  rewrite (unstyled_collect line_of line_of_styled),
    (unstyled_collect (prop_of "style") style_styled) by apply AnsibleForm_unstyled.
  split; [done|]. split; [|done].
  unfold frame_texts. by destruct (panel_texts p), (isLoading (app s)).
Qed.

Lemma App_view_Some s v :
  App_view s = Some v -> exists p, panel s = Some p ∧ presents s v p.
Proof.
  intros Hv. destruct (App_view_shows s) as [v' p Hshows|]; [|done].
  injection Hv as <-. eauto.
Qed.

Lemma App_view_panel s p :
  panel s = Some p -> exists v, App_view s = Some v ∧ presents s v p.
Proof.
  intros Hp. destruct (App_view_shows s) as [v p' Hshows|]; [|done].
  injection Hp as <-. eauto.
Qed.

(** Making the page throws exactly when making the code block does. *)
Lemma page_throws s v p :
  panel s = Some p -> presents s v p ->
  forall err, texts v = Throw err <-> display_text s = Throw err.
Proof.
  intros Hp (_ & Htexts & _) err. rewrite Htexts. unfold display_text. rewrite Hp.
  destruct p as [| | |title disabled rows shown]; simpl; [done..|].
  by destruct (code_block shown).
Qed.

(** The page is mounted exactly when [App] returns a page and making
    its texts does not throw. *)
Lemma mounted_page s :
  mounted s = true <-> exists v nodes, App_view s = Some v ∧ texts v = Normal nodes.
Proof.
  rewrite mounted_display. split.
  - intros [[p Hp] [nodes Hn]]. destruct (App_view_panel s p Hp) as (v & Hv & Hpres).
    exists v. destruct (texts v) as [ts|err] eqn:Ht; [by eauto|].
    apply (page_throws s v p Hp Hpres) in Ht. congruence.
  - intros (v & nodes & (p & Hp & Hpres)%App_view_Some & Hn). split; [by eexists|].
    destruct (display_text s) as [ts|err] eqn:Ht; [by eauto|].
    apply (page_throws s v p Hp Hpres) in Ht. congruence.
Qed.

(** The panel with its button enabled is the browser. *)
Lemma panel_browser s p :
  mounted s = true -> panel s = Some p ->
  match browser s with
  | Some rows => panel_controls p = OnDownloadZip :: clicks rows ∧ folders_inert rows ∧
                 is_Some (download_start (app s))
  | None => panel_controls p = []
  end.
Proof.
  unfold browser, mounted, panel. intros Hm Hp. rewrite Hp in Hm |- *.
  destruct p as [| | |title [] rows shown]; try done.
  - by apply renderContent_Browser in Hp as (_ & _ & _ & _ & ? & _).
  - rewrite Hm.
    apply renderContent_Browser in Hp as (_ & _ & Hne & _ & _ & _ & t & _ & ->).
    split; [done|]. split; [apply top_rows_inert|]. unfold download_start.
    by destruct (generatedFiles (app s)).
Qed.

Lemma submit_enabled s :
  is_Some (mounted_step s Submit) <->
  submit_blocked (isLoading (app s)) (description s) = false.
Proof.
  simpl. destruct (submit_blocked _ _) eqn:Hb; [by split; [intros []|]|].
  rewrite submit_blocked_disabled in Hb.
  apply submit_disabled_false in Hb as [_ ->]. by split.
Qed.

Lemma click_enabled s f :
  is_Some (mounted_step s (Click f)) <->
  exists rows, browser s = Some rows ∧ Some f ∈ target <$> rows.
Proof.
  simpl. destruct (browser s) as [rows|]; [|split; [by intros []|by intros (? & ? & _)]].
  case_bool_decide; [split; eauto|].
  split; [by intros []|]. by intros (? & [= <-] & ?).
Qed.

Lemma download_enabled s :
  is_Some (mounted_step s Download) <->
  is_Some (browser s) ∧ is_Some (download_start (app s)).
Proof.
  simpl. destruct (browser s) as [rows|]; simpl; [|split; [by intros []|by intros [[] _]]].
  destruct (download_start (app s)); simpl; [by split; eauto|].
  split; [by intros []|by intros [_ []]].
Qed.

(** The handlers within reach on a page with the controls of a panel. *)
Lemma elem_of_page_controls (blocked : bool) (controls : list Handler) h :
  h ∈ ((if blocked then [] else [HandleSubmit]) ++ [OnChange]) ++ controls <->
  (h = HandleSubmit ∧ blocked = false) ∨ h = OnChange ∨ h ∈ controls.
Proof.
  rewrite !elem_of_app, list_elem_of_singleton.
  destruct blocked; [rewrite elem_of_nil|rewrite list_elem_of_singleton]; naive_solver.
Qed.

(** The handlers within reach in a panel are those of the browser. *)
Lemma elem_of_panel_controls s p h :
  mounted s = true -> panel s = Some p ->
  h ∈ panel_controls p <->
  exists rows, browser s = Some rows ∧ (h = OnDownloadZip ∨ h ∈ clicks rows).
Proof.
  intros Hm Hp. pose proof (panel_browser s p Hm Hp) as Hb.
  destruct (browser s) as [rows|].
  - destruct Hb as (-> & _ & _). rewrite elem_of_cons. naive_solver.
  - rewrite Hb, elem_of_nil. naive_solver.
Qed.

(** On a mounted page, the handlers within reach are the guards of the
    handlers. *)
Lemma mounted_controls s e h v :
  mounted s = true -> App_view s = Some v -> handler_of e = Some h ->
  is_Some (mounted_step s e) <-> h ∈ fires v.
Proof.
  intros Hm (p & Hp & -> & _)%App_view_Some He.
  rewrite elem_of_page_controls, (elem_of_panel_controls s p) by done.
  pose proof (panel_browser s p Hm Hp) as Hb.
  destruct e as [text| |i service|f| |i ok]; simpl in He; simplify_eq.
  - split; [auto|by eexists].
  - rewrite submit_enabled. split; [auto|].
    intros [[_ ?]|[?|(rows & _ & [?|(? & _ & _ & ?)%elem_of_clicks])]]; done.
  - rewrite click_enabled. split.
    + intros (rows & Hrows & Hf). rewrite Hrows in Hb. destruct Hb as (_ & Hinert & _).
      right; right. exists rows. split; [done|]. right. by apply clicks_targets.
    + intros [[? _]|[?|(rows & Hrows & [?|Hf])]]; [done..|].
      rewrite Hrows in Hb. destruct Hb as (_ & Hinert & _).
      exists rows. split; [done|]. by apply clicks_targets.
  - rewrite download_enabled. split.
    + intros [[rows Hrows] _]. right; right. exists rows. auto.
    + intros [[? _]|[?|(rows & Hrows & _)]]; [done..|].
      rewrite Hrows in Hb. destruct Hb as (_ & _ & Hstart). by rewrite Hrows.
Qed.

(** C21: the controls of the page are the guards of the machine.  An
    event of the user (a change of the description, a submission, a
    click on a file, a press of the download button) has a next state
    exactly when React can render the page [App] returns in the state
    (making its texts does not throw) and the handler the event calls
    is within reach on that page: on an element that is shown and not
    disabled, and for the submission in a form whose required field is
    filled.  Where the rendering throws there is no page, and no event
    of the user. *)
Theorem page_controls s e h :
  handler_of e = Some h ->
  is_Some (step s e) <->
  exists v nodes, App_view s = Some v ∧ texts v = Normal nodes ∧ h ∈ fires v.
Proof.
  intros He. destruct (mounted s) eqn:Hm.
  - rewrite step_mounted by done.
    pose proof (proj1 (mounted_page s) Hm) as (v & nodes & Hv & Hn). split.
    + intros Hstep. exists v, nodes. by rewrite <- (mounted_controls s e h v).
    + intros (v' & _ & Hv' & _ & Hh). apply (mounted_controls s e h v'); done.
  - rewrite step_unmounted by (done || by destruct e). split; [by intros []|].
    intros (v & nodes & Hv & Hn & _).
    assert (mounted s = true) by (apply mounted_page; eauto). congruence.
Qed.

(** C25: the keys of the page.  On every page [App] returns, the items
    of one list have distinct keys: the items of a directory of the
    tree, at every depth, carry the names of its children, and the
    names of the children of a node are the keys of one object.  React
    tells the items of a list apart by their keys. *)
Theorem App_view_keys s v : App_view s = Some v -> keys_unique v.
Proof.
  unfold App_view. intros Hv.
  destruct (CodeDisplay_view _ _ _ _) as [display|] eqn:Hdisplay; simplify_eq/=.
  apply page_frame_keys; [apply AnsibleForm_keys|by eapply CodeDisplay_view_keys].
Qed.

(** C37: the page shows the panel.  The page [App] returns shows, in
    the order of the document, the title, the texts of the form and the
    texts of the panel of the state: for the browser the path of the
    selected file, the label of the button, the labels of the lines of
    the tree and the text of the code block.  Its lines of files are
    the lines of the panel, each with what a click selects, the colours
    of the selected line exactly when it is highlighted, and the margin
    of its level; the margins of its blocks are those of the
    directories.  Making the page throws exactly when making the code
    block does, and throws the same value: nothing on the page catches
    the error of a content that is not text. *)
Theorem page_shows s v :
  App_view s = Some v ->
  exists p, panel s = Some p ∧
    texts v = bindC (panel_texts p)
                (fun t => Normal (frame_texts (isLoading (app s)) ++ t)) ∧
    collect line_of v = panel_lines p ∧
    prop_values "style" v = panel_margins p ∧
    forall err, texts v = Throw err <-> display_text s = Throw err.
Proof.
  intros (p & Hp & Hpres)%App_view_Some. pose proof (page_throws s v p Hp Hpres).
  destruct Hpres as (_ & Htexts & Hlines & Hmargins). by exists p.
Qed.

End PageFacts.

Lemma page_controls_witness :
  is_Some (step (H := demo_engine) (H0 := code_unit_collator) browsing
             (Click (mkFile "a/b/d.txt" (JString "y")))) <->
  exists v nodes, App_view (H := code_unit_collator) browsing = Some v ∧
    texts v = Normal nodes ∧
    OnFileSelect (Some (mkFile "a/b/d.txt" (JString "y"))) ∈ fires v.
Proof.
  by apply (page_controls (H := demo_engine) (H0 := code_unit_collator) browsing
              (Click (mkFile "a/b/d.txt" (JString "y")))).
Defined.

Lemma App_view_keys_witness :
  exists v, App_view (H := code_unit_collator) browsing = Some v ∧ keys_unique v.
Proof.
  destruct (App_view (H := code_unit_collator) browsing) as [v|] eqn:Ev;
    [|by vm_compute in Ev].
  exists v. split; [done|].
  by apply (App_view_keys (H0 := code_unit_collator) browsing).
Defined.

Lemma page_shows_witness :
  exists v p, App_view (H := code_unit_collator) browsing = Some v ∧
    panel (H0 := code_unit_collator) browsing = Some p ∧
    texts v = bindC (panel_texts p) (fun t => Normal (frame_texts false ++ t)) ∧
    collect line_of v = panel_lines p ∧
    prop_values "style" v = panel_margins p ∧
    forall err, texts v = Throw err <->
                display_text (H0 := code_unit_collator) browsing = Throw err.
Proof.
  destruct (App_view (H := code_unit_collator) browsing) as [v|] eqn:Ev;
    [|by vm_compute in Ev].
  destruct (page_shows (H0 := code_unit_collator) browsing v Ev)
    as (p & Hp & Htexts & Hlines & Hmargins & Hthrow).
  by exists v, p.
Defined.
