(* ===== verification/Frames.v ===== *)
(** * Frames: what React commits while a handler runs
    ([src/App.tsx] lines 15-26, [src/components/CodeDisplay.tsx] lines
    74-84)

    [App.step] takes a handler as one step: the calls of the setters,
    the rendering, the effect of the display and the rendering after
    it.  React does less at a time.  It applies the calls of a batch,
    renders and commits the page (a frame), runs the effect of the
    display when [files] changed, and commits again when the effect
    selected another file.  The calls a handler makes in an event are
    one batch; the calls after an [await] are one batch or one batch
    each, as the root of the application decides.

    This file has the setters of [App] as data, the frames of a
    sequence of batches, and the theorems that make [App.step] a sound
    summary: for every way to cut the calls of a handler into batches
    the last frame is the state of [step], and no frame shows a file
    that is not among its files.  The frames in between are not all
    states of [step]: the frame that brings the files has no file
    selected.  A click on a file and a change of the description call
    one setter of a child component and leave [files] as it is: one
    batch and one frame, the state of [step]; [calls_of] has the calls
    of the setters of [App] only, and none once the page is unmounted.

    The effect of the display runs when the array [files] is a new
    one, and React keeps the old page when a setter is called with the
    value the state has.  The model has values, not references:
    [commit] adds the second frame when the file the effect selects is
    another value than the one selected.  The two agree on the runs of
    the application, where a submission empties the selection before
    new files arrive. *)

From S2P Require Import Prelude JsString JsObject Json Markup FileTree Generator.
From S2P Require Import Form Display App.

(** ** Definitions *)

(** A call of a setter of [App] ([App.tsx] lines 10-12). *)
Inductive Setter : Type :=
| SetGeneratedFiles (files : list GeneratedFile)
| SetIsLoading (loading : bool)
| SetError (message : option string).

(** The setters are called with values: a call assigns a field. *)
Definition assign (s : AppState) (u : Setter) : AppState :=
  match u with
  | SetGeneratedFiles files => mkApp files (isLoading s) (error s)
  | SetIsLoading loading => mkApp (generatedFiles s) loading (error s)
  | SetError message => mkApp (generatedFiles s) (isLoading s) message
  end.

(** The calls of [handleGenerate] before its [await] (lines 15-17) and
    after it (lines 20-26: the [try] or the [catch], then the
    [finally]). *)
Definition start_calls : list Setter :=
  [SetIsLoading true; SetError None; SetGeneratedFiles []].

Definition settle_calls (outcome : Completion (list GeneratedFile)) : list Setter :=
  match outcome with
  | Normal files => [SetGeneratedFiles files; SetIsLoading false]
  | Throw err => [SetError (Some (failure_message err)); SetIsLoading false]
  end.

(** The files a batch leaves in [generatedFiles], when it stores any:
    the array of the dependency list [[files]] is then a new one. *)
Definition stores (u : Setter) : option (list GeneratedFile) :=
  match u with
  | SetGeneratedFiles files => Some files
  | _ => None
  end.

Definition stored (batch : list Setter) : option (list GeneratedFile) :=
  last (omap stores batch).

(** A frame: the state of [App] and the selected file of the display
    ([CodeDisplay.tsx] line 74) a page is rendered from. *)
Record Frame : Type := mkFrame {
  shown : AppState;
  chosen : option GeneratedFile
}.

(** The selected file after the effect of the display (lines 77-84)
    ran for the calls [effects]. *)
Definition after_effect (effects : list Setter) (f : Frame) : option GeneratedFile :=
  match stored effects with
  | Some files => select_on_files files
  | None => chosen f
  end.

(** The frame after the calls [calls], the effect having run for the
    calls [effects]. *)
Definition frame_after (f : Frame) (effects calls : list Setter) : Frame :=
  mkFrame (foldl assign (shown f) calls) (after_effect effects f).

(** A batch at rest: its calls are applied and its effect has run. *)
Definition settled (batch : list Setter) (f : Frame) : Frame :=
  frame_after f batch batch.

(** The frames of a batch: the page with the calls applied, then the
    page after the effect when the effect selected another file.  A
    batch without a call renders nothing. *)
Definition commit (batch : list Setter) (f : Frame) : list Frame :=
  match batch with
  | [] => []
  | _ :: _ =>
    frame_after f [] batch ::
    (if decide (after_effect batch f = chosen f) then [] else [settled batch f])
  end.

(** The frames of a sequence of batches. *)
Fixpoint frames (batches : list (list Setter)) (f : Frame) : list Frame :=
  match batches with
  | [] => []
  | batch :: rest => commit batch f ++ frames rest (settled batch f)
  end.

(** The frame of a state of the application, and the panel of a
    frame. *)
Definition frame_of (s : System) : Frame := mkFrame (app s) (selectedFile s).

Definition frame_panel `{Collator} (f : Frame) : option Panel :=
  renderContent (generatedFiles (shown f)) (isLoading (shown f)) (error (shown f))
    (chosen f).

(** The calls of the setters of [App] an event makes on the mounted
    page. *)
Definition handler_calls `{Engine} (s : System) (e : Event) : list Setter :=
  match e with
  | Submit => start_calls
  | Settle i service =>
    match requests s !! i with
    | Some d => settle_calls (generateAnsibleRole service d)
    | None => []
    end
  | ZipSettle i false => [SetError (Some zip_failure)]
  | _ => []
  end.

(** The calls React applies: after the page was unmounted the setters
    do nothing. *)
Definition calls_of `{Engine} `{Collator} (s : System) (e : Event) : list Setter :=
  if mounted s then handler_calls s e else [].

(** A frame shows no file of another generation: the file it has
    selected is one of its files, unless the spinner hides it. *)
Definition coherent (f : Frame) : Prop :=
  isLoading (shown f) = true ∨
  match chosen f with
  | Some g => g ∈ generatedFiles (shown f)
  | None => True
  end.

(** The files of the scenario of the specification. *)
Definition nginx_files : list GeneratedFile :=
  [mkFile "nginx/tasks/main.yml" (JString "- name: install
")].

(** ** Batches *)

Lemma stored_app b1 b2 :
  stored (b1 ++ b2) = match stored b2 with Some files => Some files | None => stored b1 end.
Proof.
  unfold stored. rewrite omap_app, last_app. by destruct (last (omap stores b2)).
Qed.

Lemma after_effect_app b1 b2 f :
  after_effect (b1 ++ b2) f = after_effect b2 (mkFrame (shown f) (after_effect b1 f)).
Proof. unfold after_effect. rewrite stored_app. by destruct (stored b2). Qed.

(** The frame after more calls is the frame after the calls, from the
    frame at rest. *)
Lemma frame_after_settled batch f effects calls :
  frame_after (settled batch f) effects calls =
  frame_after f (batch ++ effects) (batch ++ calls).
Proof.
  unfold frame_after, settled. simpl. by rewrite foldl_app, after_effect_app.
Qed.

(** Cutting a batch in two changes nothing at rest. *)
Lemma settled_app b1 b2 f : settled (b1 ++ b2) f = settled b2 (settled b1 f).
Proof. unfold settled at 2. by rewrite frame_after_settled. Qed.

Lemma settled_nil f : settled [] f = f.
Proof. by destruct f. Qed.

Lemma settled_join batches f :
  settled (mjoin batches) f = foldl (fun g batch => settled batch g) f batches.
Proof.
  revert f. induction batches as [|b batches IH]; intros f; simpl.
  - apply settled_nil.
  - by rewrite settled_app, IH.
Qed.

Lemma last_commit batch f : batch <> [] -> last (commit batch f) = Some (settled batch f).
Proof.
  destruct batch as [|u batch]; [done|]. intros _. unfold commit.
  case_decide as Heq; [|done]. simpl. unfold settled, frame_after. by rewrite Heq.
Qed.

(** The last frame is the frame at rest. *)
Lemma last_frames batches f :
  mjoin batches <> [] -> last (frames batches f) = Some (settled (mjoin batches) f).
Proof.
  revert f. induction batches as [|b batches IH]; intros f Hne; [done|].
  simpl in *. rewrite last_app, settled_app.
  destruct (decide (mjoin batches = [])) as [Hnil|Hnext].
  - rewrite Hnil in *. rewrite app_nil_r in Hne. rewrite settled_nil.
    assert (frames batches (settled b f) = []) as ->; [|by apply last_commit].
    clear IH Hne. generalize (settled b f). induction batches as [|[|] batches IH]; try done.
    intros g. simpl in *. rewrite settled_nil. by apply IH.
  - by rewrite IH.
Qed.

(** Every frame comes after some of the calls, the effect having run
    for some of these. *)
Lemma elem_of_commit batch f fr :
  fr ∈ commit batch f ->
  batch <> [] ∧ (fr = frame_after f [] batch ∨ fr = frame_after f batch batch).
Proof.
  destruct batch as [|u batch]; [by intros ?%elem_of_nil|]. unfold commit.
  rewrite elem_of_cons. intros [->|Hfr]; [split; [done|by left]|].
  split; [done|]. right. case_decide; [by apply elem_of_nil in Hfr|].
  by apply list_elem_of_singleton in Hfr.
Qed.

Lemma elem_of_frames batches f fr :
  fr ∈ frames batches f ->
  exists effects calls rest,
    mjoin batches = calls ++ rest ∧ calls <> [] ∧ effects `prefix_of` calls ∧
    fr = frame_after f effects calls.
Proof.
  revert f. induction batches as [|b batches IH]; intros f; simpl;
    [by intros ?%elem_of_nil|].
  rewrite elem_of_app. intros [Hfr|Hfr].
  - apply elem_of_commit in Hfr as [Hne Hfr].
    destruct Hfr as [->| ->]; [exists [], b, (mjoin batches)|exists b, b, (mjoin batches)];
      repeat split; try done. apply prefix_nil.
  - apply IH in Hfr as (effects & calls & rest & Hjoin & Hne & Hpre & ->).
    exists (b ++ effects), (b ++ calls), rest. rewrite frame_after_settled, Hjoin.
    repeat split; [by rewrite app_assoc|by destruct b|by apply prefix_app].
Qed.

(** ** The handlers *)

(** The two parts of [handleGenerate] are their calls. *)
Lemma start_calls_start s : foldl assign s start_calls = generate_start s.
Proof. done. Qed.

Lemma settle_calls_settle outcome s :
  foldl assign s (settle_calls outcome) = generate_settle outcome s.
Proof. by destruct outcome. Qed.

Section FrameFacts.
Context `{Engine} `{Collator}.

(** At rest after the calls of an event, the frame is the frame of the
    next state. *)
Lemma calls_of_mounted s e : mounted s = true -> calls_of s e = handler_calls s e.
Proof. unfold calls_of. by intros ->. Qed.

Lemma settled_step s e s' :
  step s e = Some s' -> calls_of s e <> [] ->
  settled (calls_of s e) (frame_of s) = frame_of s'.
Proof.
  unfold calls_of. intros [[Hm Hstep]|[Hm _]]%step_cases; rewrite Hm; [|done].
  revert Hstep.
  destruct e as [text| |i service|f| |i [|]]; simpl; try done; intros Hstep _.
  - destruct (submit_blocked _ _); [done|].
    by destruct (handleSubmit _); simplify_eq/=.
  - destruct (requests s !! i) as [d|]; simplify_eq/=.
    by destruct (generateAnsibleRole service d).
  - by destruct (archives s !! i); simplify_eq/=.
Qed.

(** A prefix of a list of one call, and of two. *)
Lemma cut_one (u : Setter) calls rest :
  calls ++ rest = [u] -> calls <> [] -> calls = [u].
Proof. destruct calls as [|? [|]]; naive_solver. Qed.

Lemma cut_two (u v : Setter) calls rest :
  calls ++ rest = [u; v] -> calls <> [] -> calls = [u] ∨ calls = [u; v].
Proof. destruct calls as [|? [|? [|]]]; naive_solver. Qed.

Lemma prefix_two (u v : Setter) effects :
  effects `prefix_of` [u; v] -> effects = [] ∨ effects = [u] ∨ effects = [u; v].
Proof. intros [k Hk]. destruct effects as [|? [|? [|]]]; naive_solver. Qed.

(** The frames of a submission show the spinner. *)
Lemma start_frames_loading f effects calls rest :
  calls ++ rest = start_calls -> calls <> [] ->
  isLoading (shown (frame_after f effects calls)) = true.
Proof.
  unfold start_calls. destruct calls as [|? [|? [|? [|]]]]; intros; by simplify_eq/=.
Qed.

Lemma settle_frames_coherent s i d service effects calls rest :
  inv s -> requests s !! i = Some d ->
  calls ++ rest = settle_calls (generateAnsibleRole service d) -> calls <> [] ->
  effects `prefix_of` calls ->
  coherent (frame_after (frame_of s) effects calls).
Proof.
  intros Hinv Hd Hcut Hne Hpre.
  destruct (pending_frame s i d Hinv Hd) as (Hl & Hf & Hsel). unfold coherent.
  destruct (generateAnsibleRole service d) as [files|err]; simpl in Hcut;
    apply cut_two in Hcut as [-> | ->]; try done; try (by left).
  - right. apply prefix_two in Hpre as [-> |[-> | ->]]; simpl;
      unfold after_effect; simpl; rewrite ?Hsel; try done;
      by destruct (select_on_files files) eqn:E; [apply select_on_files_elem|].
  - right. apply prefix_two in Hpre as [-> |[-> | ->]]; simpl;
      unfold after_effect; simpl; by rewrite Hsel.
Qed.

Lemma frame_of_coherent s : inv s -> isLoading (app s) = true ∨
  match selectedFile s with Some g => g ∈ generatedFiles (app s) | None => True end.
Proof. intros (_ & _ & Hsel & _). right. by destruct (selectedFile s). Qed.

(** C33: the steps of the machine are sound summaries of what React
    commits.  From a reachable state, for every event and every way to
    cut the calls of its handler into batches: no frame shows a selected
    file that is not among the files of the frame, unless the spinner
    hides it; and the last frame is the state the machine reaches. *)
Theorem frames_sound s e s' batches :
  reachable s -> step s e = Some s' -> mjoin batches = calls_of s e ->
  Forall coherent (frames batches (frame_of s)) ∧
  (calls_of s e <> [] -> last (frames batches (frame_of s)) = Some (frame_of s')).
Proof.
  intros Hinv%reachable_inv Hstep Hjoin. split.
  2: { intros Hne. rewrite last_frames, Hjoin by (by rewrite Hjoin).
       by rewrite (settled_step s e s'). }
  apply Forall_forall. intros fr (effects & calls & rest & Hcut & Hne & Hpre & ->)%elem_of_frames.
  rewrite Hjoin in Hcut. symmetry in Hcut. unfold calls_of in Hcut.
  destruct (mounted s); [|by destruct calls].
  destruct e as [text| |i service|f| |i [|]]; simpl in Hcut;
    try (by destruct calls).
  - left. by eapply start_frames_loading.
  - destruct (requests s !! i) as [d|] eqn:Hd; [|by destruct calls].
    by eapply settle_frames_coherent.
  - apply cut_one in Hcut as ->; [|done].
    destruct (frame_of_coherent s Hinv) as [Hl|Hsel]; [by left|right].
    destruct Hpre as [k Hk]. destruct effects as [|? [|]]; by simplify_eq/=.
Qed.

(** C27: the frame that brings the files.  When the calls after the
    [await] are one batch, a generation that succeeds is committed in
    two frames: the first has the files and no file selected, so it
    shows the browser with the invitation to select a file in place of
    the code, and with no line highlighted but the line of a record
    whose path is empty, if there is one; the effect of the display
    selects the main file only after this frame is on the page. *)
Theorem settle_flash s i service d files s' :
  reachable s -> requests s !! i = Some d ->
  generateAnsibleRole service d = Normal files ->
  step s (Settle i service) = Some s' ->
  exists first,
    frames [calls_of s (Settle i service)] (frame_of s) = [first; frame_of s'] ∧
    shown first = app s' ∧ chosen first = None ∧ is_Some (selectedFile s') ∧
    (error_shown (error (app s)) = None -> forall t, buildFileTree files = Some t ->
     frame_panel first = Some (Browser None false (top_rows (Some t) "") None) ∧
     forall r, r ∈ top_rows (Some t) "" -> highlighted r = true ->
       exists g, g ∈ files ∧ target r = Some g ∧ path g = "").
Proof.
  intros Hinv%reachable_inv Hd Hfiles Hstep.
  destruct (pending_frame s i d Hinv Hd) as (Hl & Hf & Hsel).
  pose proof (loading_mounted s Hl Hf) as Hm.
  pose proof (generateAnsibleRole_nonempty _ _ _ Hfiles) as Hne.
  assert (is_Some (select_on_files files)) as [g Hg].
  { destruct (select_on_files files) eqn:E; [by eexists|].
    by apply select_on_files_None in E. }
  rewrite step_mounted in Hstep by done. rewrite calls_of_mounted by done.
  simpl in Hstep. rewrite Hd in Hstep. simpl in Hstep. rewrite Hfiles in Hstep.
  injection Hstep as <-.
  exists (mkFrame (mkApp files false (error (app s))) None). simpl.
  rewrite Hd, Hfiles. simpl. unfold commit, settled, frame_after, after_effect, frame_of.
  simpl. rewrite Hsel, Hg. rewrite decide_False by done. simpl.
  split_and!; [done..|]. intros Herr t Ht. split.
  - unfold frame_panel, renderContent, fileTree. simpl.
    destruct files as [|f files]; [done|]. by rewrite Ht, Herr.
  - intros r Hr (g' & Hg' & Hp)%(top_rows_highlighted "" files t r); [|done..].
    exists g'. split_and!; [|done..].
    assert (exists r, r ∈ top_rows (Some t) "" ∧ target r = Some g') as Hex by eauto.
    apply (top_rows_targets _ _ _ _ Ht) in Hex as [Hlast _].
    by apply find_last_Some in Hlast as [? _].
Qed.

End FrameFacts.

Lemma frames_sound_witness :
  exists s s',
    run (H := demo_engine) (H0 := code_unit_collator)
      [Edit "install nginx"; Submit] initial = Some s ∧
    step (H := demo_engine) (H0 := code_unit_collator) s
      (Settle 0 (answering nginx_answer)) = Some s' ∧
    Forall coherent (frames [[SetGeneratedFiles nginx_files]; [SetIsLoading false]]
                       (frame_of s)) ∧
    last (frames [[SetGeneratedFiles nginx_files]; [SetIsLoading false]] (frame_of s)) =
      Some (frame_of s').
Proof.
  destruct (run _ initial) as [s|] eqn:E; [|by vm_compute in E].
  assert (reachable (H := demo_engine) (H0 := code_unit_collator) s) as Hs.
  { eapply run_reachable; [apply reachable_initial|exact E]. }
  destruct (step (H := demo_engine) (H0 := code_unit_collator) s
              (Settle 0 (answering nginx_answer))) as [s'|] eqn:E'.
  2: { vm_compute in E. injection E as <-. by vm_compute in E'. }
  exists s, s'. split; [done|]. split; [done|].
  destruct (frames_sound (H := demo_engine) (H0 := code_unit_collator) s
              (Settle 0 (answering nginx_answer)) s'
              [[SetGeneratedFiles nginx_files]; [SetIsLoading false]] Hs E')
    as [Hcoherent Hlast].
  { vm_compute in E. injection E as <-. by vm_compute. }
  split; [done|]. apply Hlast. vm_compute in E. injection E as <-. by vm_compute.
Defined.

Lemma settle_flash_witness :
  exists s s' first,
    run (H := demo_engine) (H0 := code_unit_collator)
      [Edit "install nginx"; Submit] initial = Some s ∧
    frames [calls_of (H := demo_engine) (H0 := code_unit_collator) s
              (Settle 0 (answering nginx_answer))]
      (frame_of s) = [first; frame_of s'] ∧
    chosen first = None ∧ is_Some (selectedFile s').
Proof.
  destruct (run _ initial) as [s|] eqn:E; [|by vm_compute in E].
  assert (reachable (H := demo_engine) (H0 := code_unit_collator) s) as Hs.
  { eapply run_reachable; [apply reachable_initial|exact E]. }
  destruct (step (H := demo_engine) (H0 := code_unit_collator) s
              (Settle 0 (answering nginx_answer))) as [s'|] eqn:E'.
  2: { vm_compute in E. injection E as <-. by vm_compute in E'. }
  destruct (settle_flash (H := demo_engine) (H0 := code_unit_collator) s 0
              (answering nginx_answer) "install nginx" nginx_files s' Hs)
    as (first & Hframes & _ & Hnone & Hsome & _);
    [by vm_compute in E; injection E as <-..|done|].
  by exists s, s', first.
Defined.
