(* ===== verification/Archive.v ===== *)
(** * Archive: what a download holds, against what the display shows
    ([src/App.tsx], [handleDownloadZip])

    [handleDownloadZip] gives every record to the zip object with
    [zip.file(file.path, file.content)].  The zip object keeps its files
    by name, and a name given again replaces what the name had; the
    specification asks for an archive whose layout matches the path and
    the content of every record.  This file states the layout of an
    archive by name, shows that it is what the tree of the display
    stores at the segments of the name, and that along the runs of the
    application, with an engine that makes objects as the language
    defines them, the layout of every download matches every record:
    no path comes twice out of [generateAnsibleRole]. *)

From S2P Require Import Prelude JsString JsObject Json FileTree Generator Form Display App.
From Stdlib Require Import Ascii.

(** ** Definitions *)

(** The files of the zip object after the calls of an archive: the
    data of a name is the data of the last call with that name. *)
Definition layout (a : Archive) : list (string * json) := obj_of_list (entries a).

Definition archived (a : Archive) (name : string) : option json :=
  obj_get (layout a) name.

(** The layout matches every call. *)
Definition exact (a : Archive) : bool :=
  forallb (fun e => bool_decide (archived a e.1 = Some e.2)) (entries a).

(** The archive of a list of files: what [handleDownloadZip] downloads
    when the encoder succeeds. *)
Definition archive_of (files : list GeneratedFile) : option Archive :=
  (handleDownloadZip true (mkApp files false None)).2.

(** No path twice: in the files, in the archives awaited, in the
    downloads. *)
Definition distinct (s : System) : Prop :=
  NoDup (path <$> generatedFiles (app s)) ∧
  Forall (fun p => NoDup (pending_entries p).*1) (archives s) ∧
  Forall (fun a => NoDup (entries a).*1) (downloads s).

(** A path twice, with two contents. *)
Definition twice_files : list GeneratedFile :=
  [mkFile "web/README.md" (JString "first"); mkFile "web/README.md" (JString "second")].

(** ** The layout of an archive *)

Lemma exact_spec a :
  exact a = true <->
  forall name data, (name, data) ∈ entries a -> archived a name = Some data.
Proof.
  unfold exact. rewrite forallb_forall. setoid_rewrite <- list_elem_of_In. split.
  - intros Hall name data Hin.
    by apply (bool_decide_eq_true_1 _ (Hall (name, data) Hin)).
  - intros Hall [name data] Hin. by apply bool_decide_eq_true_2, Hall.
Qed.

(** What the archive has is the data of some call. *)
Lemma archived_elem a name data :
  archived a name = Some data -> (name, data) ∈ entries a.
Proof.
  unfold archived, layout. rewrite obj_of_list_get.
  destruct (find_last _ (entries a)) as [[k v]|] eqn:E; [|done]. intros [= <-].
  apply find_last_Some in E as [Hin Hk%bool_decide_eq_true]. simpl in Hk. by subst.
Qed.

Lemma NoDup_exact a : NoDup (entries a).*1 -> exact a = true.
Proof.
  intros Hnd. apply exact_spec. intros name data Hin.
  by apply obj_of_list_get_elem.
Qed.

Lemma archive_of_Some files a :
  archive_of files = Some a <->
  files <> [] ∧
  a = mkArchive (rootDir files +:+ ".zip")%stdpp ((fun f => (path f, content f)) <$> files).
Proof.
  unfold archive_of. rewrite handleDownloadZip_cases. simpl.
  destruct files; naive_solver.
Qed.

(** The data of a name is the content of the last record with that
    path. *)
Lemma archive_of_last files a name :
  archive_of files = Some a ->
  archived a name = content <$> find_last (fun f => bool_decide (path f = name)) files.
Proof.
  intros [_ ->]%archive_of_Some. unfold archived, layout. simpl.
  rewrite obj_of_list_get, find_last_fmap. by destruct (find_last _ files).
Qed.

(** The archive and the tree.  At the segments of a name, the tree of
    the display stores the record whose content the archive has under
    the name; this for every name with no segment among the keys of
    [Object.prototype]. *)
Theorem archive_of_tree files a t name :
  archive_of files = Some a -> buildFileTree files = Some t ->
  plain_path (split "/"%char name) = true ->
  content <$> file_at (split "/"%char name) t = archived a name.
Proof.
  intros Ha Ht Hp. rewrite (archive_of_last _ _ _ Ha), (built_file_at _ _ Ht).
  f_equal. apply find_last_ext. intros g. unfold stored_at, parts_of.
  rewrite Hp, andb_true_r. apply bool_decide_ext.
  split; [apply split_inj|congruence].
Qed.

(** A path given twice: the archive has the second content and not the
    first, and so does the tree. *)
Lemma archive_of_twice :
  exists a, archive_of twice_files = Some a ∧ exact a = false ∧
    archived a "web/README.md" = Some (JString "second").
Proof. by eexists. Qed.

(** ** The downloads of the application *)

Section Exact.
Context `{E : Engine} `{!EngineLaws E} `{Collator}.

Lemma distinct_initial : distinct initial.
Proof. repeat split; simpl; constructor. Qed.

Lemma mounted_step_distinct s e s' :
  distinct s -> mounted_step s e = Some s' -> distinct s'.
Proof.
  intros (Hf & Ha & Hd). destruct e as [text| |i service|f| |i ok]; simpl.
  - by intros [= <-].
  - destruct (submit_blocked _ _); [done|].
    destruct (handleSubmit _); [|done]. simpl. intros [= <-].
    split_and!; simpl; [constructor|done..].
  - destruct (requests s !! i) as [d|]; [|done]. simpl.
    destruct (generateAnsibleRole service d) as [files|r] eqn:Ho; intros [= <-];
      split_and!; simpl; try done.
    by eapply generateAnsibleRole_unique_paths.
  - destruct (browser s); [|done]. case_bool_decide; [|done]. by intros [= <-].
  - destruct (browser s); [|done]. simpl.
    destruct (download_start (app s)) as [p|] eqn:Hp; [|done]. intros [= <-].
    apply download_start_Some in Hp as [_ ->]. split_and!; simpl; [done| |done].
    apply Forall_app. split; [done|]. constructor; [|done]. simpl.
    by rewrite <- list_fmap_compose.
  - destruct (archives s !! i) as [p|] eqn:Hi; [|done]. simpl. intros [= <-].
    pose proof (Forall_lookup_1 _ _ _ _ Ha Hi).
    pose proof (Forall_delete _ _ i Ha).
    destruct ok; split_and!; simpl; try done. by constructor.
Qed.

Lemma unmounted_step_distinct s e s' :
  distinct s -> unmounted_step s e = Some s' -> distinct s'.
Proof.
  intros (Hf & Ha & Hd). destruct e as [| |i service| | |i ok]; simpl; try done.
  - destruct (requests s !! i); [|done]. by intros [= <-].
  - destruct (archives s !! i) as [p|] eqn:Hi; [|done]. simpl. intros [= <-].
    pose proof (Forall_lookup_1 _ _ _ _ Ha Hi).
    pose proof (Forall_delete _ _ i Ha).
    destruct ok; split_and!; simpl; try done. by constructor.
Qed.

Lemma step_distinct s e s' : distinct s -> step s e = Some s' -> distinct s'.
Proof.
  intros Hd [[_ Hstep]|[_ Hstep]]%step_cases;
    eauto using mounted_step_distinct, unmounted_step_distinct.
Qed.

Lemma reachable_distinct s : reachable s -> distinct s.
Proof. induction 1; eauto using distinct_initial, step_distinct. Qed.

(** C40: the archive matches every record.  Every download the
    application starts has, under each name, the content of a record
    with that path, and has every record it was given under its path:
    no record is replaced by another in the zip object, because the
    paths of a generation are distinct. *)
Theorem reachable_archive_exact s a name data :
  reachable s -> a ∈ downloads s ->
  archived a name = Some data <-> (name, data) ∈ entries a.
Proof.
  intros (_ & _ & Hd)%reachable_distinct Ha.
  rewrite Forall_forall in Hd. by apply obj_of_list_get_elem, Hd.
Qed.

End Exact.

Lemma reachable_archive_exact_witness :
  exists s a, run (H := demo_engine) (H0 := code_unit_collator)
                (nginx_events ++ [Download; ZipSettle 0 true]) initial = Some s ∧
    a ∈ downloads s ∧
    (archived a "nginx/tasks/main.yml" = Some (JString "- name: install
") <->
     ("nginx/tasks/main.yml", JString "- name: install
") ∈ entries a).
Proof.
  destruct (run _ initial) as [s|] eqn:E; [|by vm_compute in E].
  exists s, (mkArchive "nginx.zip"
               [("nginx/tasks/main.yml", JString "- name: install
")]).
  assert (mkArchive "nginx.zip" [("nginx/tasks/main.yml", JString "- name: install
")] ∈ downloads s) as Ha
    by (vm_compute in E; injection E as <-; by left).
  split_and!; [done..|].
  apply (reachable_archive_exact (E := demo_engine) (H := code_unit_collator) s _);
    [|done].
  eapply run_reachable; [apply reachable_initial|exact E].
Defined.
