(* ===== verification/StateMachine.v ===== *)
(** * StateMachine: the controller against the state machine of the
    specification

    The specification (section 9) gives the controller four states,
    Idle, Generating, Succeeded with a set of files and Failed with an
    error, and transitions only on the submit of the user and on the
    settlement of the one request in flight.  [App.phase] reads the
    state of the specification off the state of [App.tsx].  This file
    states the machine of the specification as a function and shows
    that the application refines it along every run in which no archive
    fails: the phase after the run is the state the machine reaches on
    the submits and settlements of the run, and every other event
    leaves the phase as it is.  A failing archive is the one event that
    leaves the machine; [App.archive_failure_obscures] and
    [App.stale_archive_error] show where it leads, and
    [App.reachable_error_origin] that nothing else does. *)

From S2P Require Import Prelude JsString JsObject Json FileTree Generator Form Display App.

(** ** Definitions *)

(** What the machine of the specification reacts to. *)
Inductive Label : Type :=
| OnSubmit
| OnSuccess (files : list GeneratedFile)
| OnFailure (message : string).

(** The machine of the specification: a submit starts a generation
    from every state but Generating, a settlement ends it.  The phase
    [Obscured] is none of its states. *)
Definition spec_next (p : Phase) (l : Label) : option Phase :=
  match p, l with
  | (Idle | Succeeded _ | Failed _), OnSubmit => Some Generating
  | Generating, OnSuccess files =>
    match files with [] => None | _ :: _ => Some (Succeeded files) end
  | Generating, OnFailure message => Some (Failed message)
  | _, _ => None
  end.

Fixpoint spec_run (labels : list Label) (p : Phase) : option Phase :=
  match labels with
  | [] => Some p
  | l :: labels' => p' ← spec_next p l; spec_run labels' p'
  end.

(** An event that is not the failure of an archive. *)
Definition quiet (e : Event) : bool :=
  match e with
  | ZipSettle _ false => false
  | _ => true
  end.

(** The states without an old error: no error while a generation runs,
    and none beside files. *)
Definition calm (s : System) : Prop :=
  (isLoading (app s) = true -> error (app s) = None) ∧
  (generatedFiles (app s) <> [] -> error (app s) = None).

Section Labels.
Context `{Engine} `{Collator}.

(** What the machine sees of an event: the submit, and the settlement
    of a generation with its outcome. *)
Definition label (s : System) (e : Event) : option Label :=
  match e with
  | Submit => Some OnSubmit
  | Settle i service =>
    d ← requests s !! i;
    Some (match generateAnsibleRole service d with
          | Normal files => OnSuccess files
          | Throw err => OnFailure (failure_message err)
          end)
  | _ => None
  end.

(** The labels of a run. *)
Fixpoint trace (events : list Event) (s : System) : list Label :=
  match events with
  | [] => []
  | e :: events' =>
    match step s e with
    | Some s' => option_list (label s e) ++ trace events' s'
    | None => []
    end
  end.

End Labels.

(** ** One event *)

Section Refinement.
Context `{Engine} `{Collator}.

Lemma calm_initial : calm initial.
Proof. by split. Qed.

(** A calm state that is not loading is in a state of the
    specification from which a submit is a transition. *)
Lemma calm_phase_submit s :
  calm s -> isLoading (app s) = false ->
  spec_next (phase (app s)) OnSubmit = Some Generating.
Proof.
  intros [_ Hf] Hl. unfold phase. rewrite Hl.
  destruct (generatedFiles (app s)) as [|f files].
  - by destruct (error_shown _).
  - by rewrite Hf.
Qed.

Lemma submit_refines s s' :
  calm s -> mounted_step s Submit = Some s' ->
  calm s' ∧ spec_next (phase (app s)) OnSubmit = Some (phase (app s')).
Proof.
  intros Hcalm. simpl. rewrite submit_blocked_disabled.
  destruct (submit_disabled _ _) eqn:Hs; [done|].
  apply submit_disabled_false in Hs as [Hl ->]. intros [= <-].
  split; [by split|]. by apply calm_phase_submit.
Qed.

Lemma settle_refines s s' i service l :
  inv s -> calm s -> mounted_step s (Settle i service) = Some s' ->
  label s (Settle i service) = Some l ->
  calm s' ∧ spec_next (phase (app s)) l = Some (phase (app s')).
Proof.
  intros (Hr & Hf & _) [Hle _]. simpl.
  destruct (requests s !! i) as [d|] eqn:Hi; [|done]. simpl.
  assert (isLoading (app s) = true) as Hl.
  { apply lookup_lt_Some in Hi. destruct (isLoading (app s)); [done|lia]. }
  unfold phase at 1. rewrite Hl.
  destruct (generateAnsibleRole service d) as [files|err] eqn:Ho;
    intros [= <-] [= <-]; unfold calm, phase; simpl.
  - rewrite (Hle Hl). apply generateAnsibleRole_nonempty in Ho.
    by destruct files.
  - rewrite (Hf Hl), failure_message_truthy. by split.
Qed.

(** An event that is neither a submit nor a settlement, and not the
    failure of an archive, leaves the state of [App] as it is. *)
Lemma silent_app s e s' :
  quiet e = true -> label s e = None -> mounted_step s e = Some s' -> app s' = app s.
Proof.
  destruct e as [text| |i service|f| |i [|]]; simpl; try done.
  - by intros _ _ [= <-].
  - intros _. by destruct (requests s !! i).
  - intros _ _. destruct (browser s); [|done]. case_bool_decide; [|done].
    by intros [= <-].
  - intros _ _. destruct (browser s); [|done]. simpl.
    destruct (download_start (app s)); [|done]. by intros [= <-].
  - intros _ _. destruct (archives s !! i); [|done]. by intros [= <-].
Qed.

(** One event of a calm state: the machine of the specification makes
    the transition of its label, or the phase stays. *)
Lemma step_refines s e s' :
  inv s -> calm s -> quiet e = true -> step s e = Some s' ->
  calm s' ∧ spec_run (option_list (label s e)) (phase (app s)) = Some (phase (app s')).
Proof.
  intros Hinv Hcalm Hq [[_ Hstep]|[Hm Hstep]]%step_cases.
  2: { pose proof (unmounted_step_app s e s' Hstep) as Happ.
       destruct e as [| |i service| | |i ok]; try done; simpl in *.
       - by rewrite (unmounted_idle s Hinv Hm) in Hstep.
       - unfold calm. by rewrite Happ. }
  destruct (label s e) as [l|] eqn:Hlabel.
  - destruct e as [text| |i service|f| |i ok]; try done.
    + injection Hlabel as <-.
      destruct (submit_refines s s' Hcalm Hstep) as [? Hnext].
      split; [done|]. simpl. by rewrite Hnext.
    + destruct (settle_refines s s' i service l Hinv Hcalm Hstep Hlabel) as [? Hnext].
      split; [done|]. simpl. by rewrite Hnext.
  - pose proof (silent_app s e s' Hq Hlabel Hstep) as Happ.
    unfold calm. by rewrite Happ.
Qed.

(** ** Runs *)

Lemma spec_run_app labels labels' p :
  spec_run (labels ++ labels') p = spec_run labels p ≫= spec_run labels'.
Proof.
  revert p. induction labels as [|l labels IH]; intros p; simpl; [done|].
  destruct (spec_next p l); simpl; [apply IH|done].
Qed.

Lemma run_refines_from events s s' :
  inv s -> calm s -> forallb quiet events = true -> run events s = Some s' ->
  calm s' ∧ spec_run (trace events s) (phase (app s)) = Some (phase (app s')).
Proof.
  revert s. induction events as [|e events IH]; intros s Hinv Hcalm; simpl.
  - by intros _ [= <-].
  - intros [Hq Hqs]%andb_true_iff. destruct (step s e) as [s1|] eqn:Hstep; [|done].
    simpl. intros Hrun.
    destruct (step_refines s e s1 Hinv Hcalm Hq Hstep) as [Hcalm1 Hspec].
    rewrite spec_run_app, Hspec. simpl.
    apply IH; [by eapply step_inv|done..].
Qed.

(** C20: the controller refines the state machine of the
    specification.  Along a run from the initial state in which no
    archive fails, the phase of the controller is the state the machine
    of the specification reaches from Idle on the submits and the
    settlements of the run: these are the only events that change the
    phase, each changes it as the machine says, and the run never
    shows files beside an error. *)
Theorem run_refines events s :
  forallb quiet events = true -> run events initial = Some s ->
  spec_run (trace events initial) Idle = Some (phase (app s)) ∧
  forall files message, phase (app s) <> Obscured files message.
Proof.
  intros Hq Hrun.
  destruct (run_refines_from events initial s inv_initial calm_initial Hq Hrun)
    as [[Hl Hf] Hspec].
  split; [done|]. intros files message. unfold phase.
  destruct (isLoading (app s)); [done|].
  destruct (generatedFiles (app s)) as [|f fs].
  - by destruct (error_shown _).
  - by rewrite Hf.
Qed.

End Refinement.

Lemma run_refines_witness :
  exists s, run (H := demo_engine) (H0 := code_unit_collator)
              (nginx_events ++ [Download; ZipSettle 0 true]) initial = Some s ∧
    spec_run [OnSubmit; OnSuccess [mkFile "nginx/tasks/main.yml" (JString "- name: install
")]] Idle = Some (phase (app s)).
Proof.
  destruct (run _ initial) as [s|] eqn:E; [|by vm_compute in E].
  exists s. split; [done|].
  by destruct (run_refines (H := demo_engine) (H0 := code_unit_collator)
              (nginx_events ++ [Download; ZipSettle 0 true]) s eq_refl E) as [<- _].
Defined.
