(* ===== verification/EndToEnd.v ===== *)
(** * EndToEnd: from the text of the answer to the browser and the
    archive

    The components together, for an answer as the prompt asks for it:
    the text of a JSON object of paths and contents, the paths
    distinct, relative, with no path under another and no segment that
    is an array index at the first level or a key of
    [Object.prototype].  The description is typed and submitted, the
    service answers: [generateAnsibleRole] returns the files in their
    order, the display offers exactly these files in its tree and shows
    the content of the selected one as text, a download holds exactly
    these files, and the page has a line to click for each of them and
    for nothing else.  The conditions are those the other files show
    to be needed: each of them, dropped, has a theorem that shows a file
    lost, moved or hidden. *)

From S2P Require Import Prelude JsString JsObject Json Markup JsonText FileTree Generator.
From S2P Require Import Response Form Display DisplayView App Page Archive.
From Stdlib Require Import Ascii.

(** ** Definitions *)

(** A set of files the program handles as the specification means it:
    not empty, the paths distinct, no path an array index, no segment a
    key of [Object.prototype], and no path that continues another. *)
Definition clean_files (files : list (string * string)) : Prop :=
  files <> [] ∧ NoDup files.*1 ∧
  Forall (fun p => array_index p = None ∧ plain_path (split "/"%char p) = true) files.*1 ∧
  Forall (fun p => Forall (fun q =>
            split "/"%char p `prefix_of` split "/"%char q -> p = q) files.*1) files.*1.

#[export] Instance clean_files_dec files : Decision (clean_files files).
Proof. unfold clean_files. apply _. Defined.

(** The state after the generation of a set of files. *)
Definition generated (d : string) (fs : list GeneratedFile) : System :=
  mkSystem (mkApp fs false None) d (select_on_files fs) [] [] [].

(** The example of the specification, with a second file. *)
Definition role_files : list (string * string) :=
  [("nginx/README.md", "# nginx"); ("nginx/tasks/main.yml", "- name: install
")].

(** ** The records of a clean set *)

Section Clean.
Implicit Types (files : list (string * string)) (g : GeneratedFile).

Lemma file_set_elem files g :
  g ∈ file_set files <-> exists p c, g = mkFile p (JString c) ∧ (p, c) ∈ files.
Proof.
  unfold file_set. rewrite list_elem_of_fmap. split.
  - intros ([p c] & -> & Hin). by exists p, c.
  - intros (p & c & -> & Hin). by exists (p, c).
Qed.

Lemma file_set_paths files : path <$> file_set files = files.*1.
Proof. unfold file_set. by rewrite <- list_fmap_compose. Qed.

Lemma file_set_nonempty files : files <> [] -> file_set files <> [].
Proof. by destruct files. Qed.

(** The calls [zip.file(file.path, file.content)] of the records. *)
Lemma file_set_entries files :
  (fun f => (path f, content f)) <$> file_set files = file_members files.
Proof. unfold file_set, file_members. by rewrite <- list_fmap_compose. Qed.

Lemma file_members_elem files p c :
  (p, JString c) ∈ file_members files <-> (p, c) ∈ files.
Proof.
  unfold file_members. rewrite list_elem_of_fmap. split.
  - by intros ([p' c'] & [= -> ->] & Hin).
  - intros Hin. by exists (p, c).
Qed.

(** With distinct paths, a record is the last of its path. *)
Lemma file_set_last files g :
  NoDup files.*1 -> g ∈ file_set files ->
  find_last (fun g' => bool_decide (path g' = path g)) (file_set files) = Some g.
Proof.
  intros Hnd (p & c & -> & Hin)%file_set_elem. unfold file_set.
  rewrite find_last_fmap. simpl. by rewrite (find_last_key _ _ _ Hnd Hin).
Qed.

Lemma clean_files_plain files g :
  clean_files files -> g ∈ file_set files -> plain_path (parts_of g) = true.
Proof.
  intros (_ & _ & Hall & _) (p & c & -> & Hin)%file_set_elem.
  rewrite Forall_forall in Hall. apply (Hall p).
  apply list_elem_of_fmap. by exists (p, c).
Qed.

Lemma clean_files_tree files :
  clean_files files -> is_Some (buildFileTree (file_set files)).
Proof.
  intros Hclean. apply buildFileTree_is_Some, Forall_forall. intros g Hg.
  by eapply reaches_prototype_plain, clean_files_plain.
Qed.

(** No record of a clean set lies on the way to another. *)
Lemma clean_files_apart files g g' :
  clean_files files -> g ∈ file_set files -> g' ∈ file_set files ->
  parts_of g `prefix_of` tree_part (parts_of g') -> parts_of g = parts_of g'.
Proof.
  intros Hclean Hg Hg'. rewrite (tree_part_plain _ (clean_files_plain _ _ Hclean Hg')).
  destruct Hclean as (_ & _ & _ & Hfree).
  apply list_elem_of_fmap_2 with (f := path) in Hg, Hg'.
  rewrite file_set_paths in Hg, Hg'. rewrite Forall_forall in Hfree.
  pose proof (Hfree _ Hg) as Hq. rewrite Forall_forall in Hq.
  unfold parts_of. intros Hpre. by rewrite (Hq _ Hg' Hpre).
Qed.

End Clean.

(** ** The display and the archive of a clean set *)

Section Shown.
Context `{E : Engine} `{C : Collator}.
Implicit Types (files : list (string * string)) (g : GeneratedFile).

(** The tree of the browser offers the records of a clean set, and no
    other. *)
Lemma clean_files_offered sp files t g :
  clean_files files -> buildFileTree (file_set files) = Some t ->
  (exists r, r ∈ top_rows (Some t) sp ∧ target r = Some g) <-> g ∈ file_set files.
Proof.
  intros Hclean Ht.
  rewrite (top_rows_targets _ _ _ _ Ht), find_last_stored_at,
    (built_dir_at_false _ _ _ Ht).
  split; [by intros ([[? _]%find_last_Some _] & _)|].
  intros Hg. pose proof Hclean as (_ & Hnd & _).
  split_and!; [by apply file_set_last|by eapply clean_files_plain|
               apply parts_of_nonempty|].
  intros (g' & Hg' & Hpre & Hne). by eapply Hne, clean_files_apart.
Qed.

(** The highlighted line is the line of the selected file. *)
Lemma clean_files_highlighted files t f r :
  clean_files files -> buildFileTree (file_set files) = Some t ->
  f ∈ file_set files -> r ∈ top_rows (Some t) (path f) ->
  highlighted r = true <-> target r = Some f.
Proof.
  intros Hclean Ht Hf Hr. pose proof Hclean as (_ & Hnd & _).
  rewrite (top_rows_highlighted _ _ _ _ Ht Hr). split; [|by exists f].
  intros (g & Hg & Hp). rewrite Hg. f_equal.
  assert (g ∈ file_set files) as Hin by (apply (clean_files_offered (path f) _ t); eauto).
  pose proof (file_set_last files g Hnd Hin) as Hlast.
  rewrite Hp, (file_set_last files f Hnd Hf) in Hlast. congruence.
Qed.

Lemma generated_panel d files t :
  clean_files files -> buildFileTree (file_set files) = Some t ->
  panel (generated d (file_set files)) =
  Some (Browser (path <$> select_on_files (file_set files)) false
          (top_rows (Some t) (default "" (path <$> select_on_files (file_set files))))
          (content <$> select_on_files (file_set files))).
Proof.
  intros (Hne & _) Ht. apply renderContent_Browser. simpl.
  split_and!; [done..| |done|done|done|by exists t]. by destruct files.
Qed.

(** The page: its lines of files are the lines of the browser, a click
    on a line selects one of the files and every file has a line, and
    the keys of its lists are distinct. *)
Lemma generated_page d files t :
  clean_files files -> buildFileTree (file_set files) = Some t ->
  exists v, App_view (generated d (file_set files)) = Some v ∧ keys_unique v ∧
    collect line_of v =
      omap row_line
        (top_rows (Some t) (default "" (path <$> select_on_files (file_set files)))) ∧
    forall g, OnFileSelect (Some g) ∈ fires v <-> g ∈ file_set files.
Proof.
  intros Hclean Ht.
  destruct (App_view_panel _ _ (generated_panel d files t Hclean Ht))
    as (v & Hv & Hfires & _ & Hlines & _).
  exists v. split; [done|]. split.
  { clear Hfires Hlines. unfold App_view in Hv.
    destruct (CodeDisplay_view _ _ _ _) as [display|] eqn:Hd; [|done].
    injection Hv as <-.
    apply page_frame_keys; [apply AnsibleForm_keys|by eapply CodeDisplay_view_keys]. }
  split; [done|]. intros g. rewrite Hfires, elem_of_page_controls.
  unfold panel_controls. rewrite elem_of_app, list_elem_of_singleton.
  rewrite (clicks_targets _ _ (top_rows_inert _ _)), list_elem_of_fmap.
  rewrite <- (clean_files_offered
                (default "" (path <$> select_on_files (file_set files)))
                files t g Hclean Ht).
  naive_solver.
Qed.

(** The code block shows the content of the selected file, as text. *)
Lemma generated_text d files :
  clean_files files ->
  exists f text, select_on_files (file_set files) = Some f ∧
    f ∈ file_set files ∧ content f = JString text ∧
    display_text (generated d (file_set files)) = Normal [TextOf text].
Proof.
  intros Hclean. destruct (clean_files_tree _ Hclean) as [t Ht].
  unfold display_text. rewrite (generated_panel d files t Hclean Ht).
  destruct (select_on_files (file_set files)) as [f|] eqn:Hsel.
  - pose proof (select_on_files_elem _ _ Hsel) as Hin.
    pose proof Hin as (p & c & -> & _)%file_set_elem.
    by exists (mkFile p (JString c)), c.
  - apply select_on_files_None in Hsel. destruct Hclean as (Hne & _).
    by destruct files.
Qed.

(** The page of a clean set is mounted. *)
Lemma generated_mounted d files :
  clean_files files -> mounted (generated d (file_set files)) = true.
Proof.
  intros Hclean. destruct (clean_files_tree _ Hclean) as [t Ht].
  destruct (generated_text d files Hclean) as (f & text & _ & _ & _ & Htext).
  apply mounted_display. rewrite (generated_panel d files t Hclean Ht). by eauto.
Qed.

Lemma generated_browser d files t :
  clean_files files -> buildFileTree (file_set files) = Some t ->
  browser (generated d (file_set files)) =
  Some (top_rows (Some t)
          (default "" (path <$> select_on_files (file_set files)))).
Proof.
  intros Hclean Ht. pose proof (generated_mounted d files Hclean) as Hm.
  unfold browser, mounted in *. rewrite (generated_panel d files t Hclean Ht) in Hm |- *.
  by rewrite Hm.
Qed.

(** The download of the files holds each of them, and nothing else. *)
Lemma generated_download d files :
  clean_files files ->
  exists s a,
    run [Download; ZipSettle 0 true] (generated d (file_set files)) = Some s ∧
    downloads s = [a] ∧ entries a = file_members files ∧
    forall p c, archived a p = Some (JString c) <-> (p, c) ∈ files.
Proof.
  intros Hclean. destruct (clean_files_tree _ Hclean) as [t Ht].
  pose proof Hclean as (Hne & Hnd & _).
  cbn [run]. rewrite (download_step _ _ (generated_browser d files t Hclean Ht)).
  cbn [mbind option_bind]. set (s1 := mkSystem _ _ _ _ _ _).
  erewrite (zip_settle_step s1 0 true);
    [|by rewrite <- (generated_mounted d files Hclean)|done].
  simpl. rewrite file_set_entries. eexists _, _. split_and!; [done..|].
  intros p c. unfold archived, layout. simpl.
  rewrite obj_of_list_get_elem by (by rewrite file_members_keys).
  apply file_members_elem.
Qed.

End Shown.

(** ** The whole application on a clean answer *)

Section Served.
Context `{E : Engine} `{!TextEngine E} `{C : Collator}.

(** C23: a clean answer is served whole.  The description is typed and
    submitted, and the service answers with the text of a clean set of
    files, white space around it or not.  Then the controller holds the
    files in their order; the tree of the browser offers exactly these
    files; the selected file is one of them, its line and no other is
    highlighted, and the code block shows its content as text; a
    download holds exactly these files, each under its path; and on the
    page [App] returns, the lines of files are these lines, a click
    selects exactly these files, and the keys of the lists are
    distinct. *)
Theorem clean_answer_served service d pre files post :
  clean_files files -> truthy (trim d) = true ->
  service (generation_request (buildPrompt d)) =
    Normal (mkResponse (Some (pre +:+ files_text files +:+ post))) ->
  all_white pre = true -> all_white post = true ->
  exists s rows f text s' a v,
    run [Edit d; Submit; Settle 0 service] initial = Some s ∧
    generatedFiles (app s) = file_set files ∧
    browser s = Some rows ∧
    (forall g, (exists r, r ∈ rows ∧ target r = Some g) <-> g ∈ file_set files) ∧
    selectedFile s = Some f ∧ f ∈ file_set files ∧ content f = JString text ∧
    (forall r, r ∈ rows -> highlighted r = true <-> target r = Some f) ∧
    display_text s = Normal [TextOf text] ∧
    run [Download; ZipSettle 0 true] s = Some s' ∧ downloads s' = [a] ∧
    entries a = file_members files ∧
    (forall p c, archived a p = Some (JString c) <-> (p, c) ∈ files) ∧
    App_view s = Some v ∧ keys_unique v ∧
    collect line_of v = omap row_line rows ∧
    forall g, OnFileSelect (Some g) ∈ fires v <-> g ∈ file_set files.
Proof.
  intros Hclean Hd Hs Hpre Hpost. pose proof Hclean as (Hne & Hnd & Hall & _).
  assert (generateAnsibleRole service d = Normal (file_set files)) as Hg.
  { eapply generateAnsibleRole_file_set; try done.
    eapply Forall_impl; [exact Hall|]. by intros p [? _]. }
  destruct (clean_files_tree _ Hclean) as [t Ht].
  destruct (generated_text d files Hclean) as (f & text & Hsel & Hin & Hc & Htext).
  destruct (generated_download d files Hclean) as (s' & a & Hdl & Hd1 & He & Har).
  destruct (generated_page d files t Hclean Ht) as (v & Hv & Hkeys & Hlines & Hclicks).
  exists (generated d (file_set files)),
    (top_rows (Some t) (default "" (path <$> select_on_files (file_set files)))),
    f, text, s', a, v.
  split_and!; try done.
  - by apply generate_run.
  - by apply generated_browser.
  - intros g. by apply clean_files_offered.
  - intros r. rewrite Hsel. simpl. by apply (clean_files_highlighted files).
Qed.

End Served.

Lemma clean_answer_served_witness :
  exists s rows a,
    run (H := demo_engine) (H0 := code_unit_collator)
      [Edit "install nginx"; Submit; Settle 0 (answering (files_text role_files))]
      initial = Some s ∧
    browser (H0 := code_unit_collator) s = Some rows ∧
    label <$> rows = ["nginx"; "README.md"; "tasks"; "main.yml"] ∧
    selectedFile s = Some (mkFile "nginx/tasks/main.yml" (JString "- name: install
")) ∧
    archived a "nginx/README.md" = Some (JString "# nginx").
Proof.
  assert (clean_files role_files) as Hclean by (by apply (bool_decide_unpack _)).
  destruct (clean_answer_served (E := demo_engine) (C := code_unit_collator)
              (answering (files_text role_files)) "install nginx" "" role_files ""
              Hclean eq_refl eq_refl eq_refl eq_refl)
    as (s & rows & f & text & s' & a & v & Hrun & _ & Hb & _ & Hsel & _ & _ & _ & _ & _ & _ &
        _ & Ha & _).
  exists s, rows, a. split; [done|].
  assert (s = generated "install nginx" (file_set role_files)) as ->
    by (vm_compute in Hrun; by injection Hrun as <-).
  split_and!; [done| | |by apply Ha; left].
  - vm_compute in Hb. by injection Hb as <-.
  - done.
Defined.
